(* ===== verification/_CoqProject ===== *)
-Q . S2P
Prelude.v
GoStd.v
Netip.v
Netip6.v
Meta.v
Dns.v
Addrs.v
Control.v
Dialer.v
Race.v
Sockets.v
Default.v
Tfo.v
Resolve.v
Cache.v
CacheRun.v
CacheAlone.v
Client.v
Nat.v
Listener.v
ResolveDialer.v
Lines.v
ResolvConf.v
ResolvUpdate.v
Hosts.v
Tcp.v
TcpRun.v
Udp.v
UdpTransport.v
Local.v
Parallel.v
LocalRun.v
LocalCalls.v
ExchangeRun.v
Pipe.v
Udpnat.v
Copy.v
ClientRun.v
System.v
SystemRun.v
SystemDial.v
