(* ===== verification/Prelude.v ===== *)
(** * Verification of the qnetwork library: overview and shared prelude

    qnetwork is a Go library for dialing, listening and resolving names: a
    vocabulary of networks and addresses, socket options, dialers (serial,
    racing, fast open), a DNS client with a cache and transports over TCP,
    UDP and the system's configuration, listeners, and packet plumbing (an
    in-memory pipe, an address-translating connection, a table of UDP
    sessions).  This development models it file by file; names follow the
    source, a method [T.M] is [T_M] where [M] alone would be ambiguous.

    ** Conventions

    - Integers are [Z]; conversions to a machine width are written out with
      [wrapu] and [wraps] ([u8], [u16], [u32], [i32], [i64]).
    - Strings are byte strings, Go's package functions on them are in GoStd;
      packages [net/netip] and [net] (addresses, their text, host and port)
      are in Netip.  They are the language's standard library, modelled as
      documented.
    - A call that returns [(T, error)] has type [gores T]; a nil interface
      or pointer is [None].  [err] are the error values; the helpers of
      package [ex] are the class [ExLib] with what is relied on in [ExLaws].
    - Code that changes shared state is in the state monad [ST W]; code that
      can panic returns [exec]; concurrent code is a step function on an
      explicit state, run over lists of events, so that every interleaving is
      one list.
    - Packages outside the repository are type classes whose laws are their
      documented behaviour (the DNS package [DnsLib] and its wire format
      [DnsWire], slices [SliceLib], sorting [SortLib], the system calls [Sys]
      and sockets [NetLib], LRU tables [LruLib] and [NatLru], [Clock],
      single flight [Flight] and [FlightGroup], task groups [ThreadsLib] and
      [GroupLib], sets [SetLib], datagram connections [DatagramOps]); each
      has a concrete instance for the witnesses, which apply a theorem at a
      concrete input.
    - Components meet at interfaces: [CachePromises] is what the client asks
      of a cache, [honest] what it asks of a transport, [EnvKeeps] and
      [FlightHonest] what both ask of the clock and the flights, each honest
      about its own question; the cache and the local transport are shown to
      meet them, the cache for questions with which none in flight shares its
      hash ([no_collision]).

    ** Files, and the sources they model

    - Prelude, GoStd, Netip, Netip6: this prelude (integers, errors, monads,
      tactics, list lemmas), strings and numerals, IP addresses and their
      text, whose printed form parses to the address it was made from.
    - Meta: [meta/*.go].  Networks, protocols (and their JSON form),
      strategies; printers and parsers are inverse, lists are valid.
    - Dns: the data of package [dns]; Addrs: [addrs/*.go], socket addresses,
      their text (printed and parsed back), conversions, sorting and
      filtering by strategy.
    - Control: [control/*.go], socket control functions, binding to an
      interface, the interface finder, the Linux socket options.  [Append] is
      a monoid; binding by index falls back to the name and remembers it.
    - Dialer: [dialer/interface.go], [eyeball.go] and the serial part of
      [methods.go]; Race: the race of [DialParallel] as a state machine.  A
      serial dial returns the first connection; the race returns one result,
      closes every other connection, and ends in at most seven events.
    - Sockets, Default: [dialer/default.go] over the sockets of package
      [net]; Tfo: [dialer/tfo.go], the connection dialed by its first write.
    - Resolve, Cache, Client: [resolve/resolve.go], [cache.go], [hash.go],
      [client.go].  The cache stays coherent and never answers another
      question; the client is proved against the interface [CachePromises],
      which the cache is shown to meet ([Lookup_sound]).
    - CacheRun, CacheAlone: the cache under concurrent calls, step by step.
      The table stays coherent, a response comes under the id of its request,
      no call is left behind; a call that runs alone takes the
      clock and the constructor as Cache does, and does the same.
    - ClientRun: the client under concurrent use, lookups, their tasks and
      exchanges step by step over the calls of CacheRun.  With honest
      transports each lookup gets addresses for its own question, combined as
      in Client, and none is left behind.
    - Nat: [netio/nat.go], [serial.go], [packet.go]; ResolveDialer:
      [resolve/dialer.go], which dials only addresses the lookup returned;
      Listener: [listener/listen.go].
    - Lines, ResolvConf, ResolvUpdate, Hosts: reading files line by line,
      [resolv.conf] ([resolve/transport/local.go], [helper.go]), its reload by
      concurrent calls, and the hosts file ([resolve/hosts/hosts.go]).  Every
      file gives a well-formed configuration; the buffered reader gives the
      lines of the text; calls decide to look at the file at times five
      seconds apart, and look only after such a decision.
    - Tcp, TcpRun: [resolve/transport/tcp.go], framing and the exchange over
      TCP, and the exchange with its watcher, which never hangs.
    - Udp, UdpTransport: [resolve/transport/udp.go].  Udp has the connection
      shared by exchanges, which refines one mailbox for each query;
      UdpTransport steps every goroutine of a transport: an exchange returns
      its own answer or an error, leaves nothing behind, and is never stuck.
    - Local, Parallel, System, SystemDial: [resolve/transport/local.go]
      combines hosts file, names, servers and transports, and races the
      names of a query, which refines asking them in some order and leaves no
      goroutine behind; [resolve/system.go] puts client,
      cache and local transport together, and the resolving dialer is put on
      top.  Everything it resolves and dials comes from the hosts file, as long
      as no server of [resolv.conf] has a bracket in its zone.
    - LocalRun, LocalCalls: concurrent queries of the local transport on its
      shared map of UDP transports, each the one of UdpTransport, with exchanges over TCP
      as in TcpRun.  There is one transport for an address, an answer was read
      from a server of the configuration that the query was written to, and
      the sections under the lock are those of Local.
    - ExchangeRun: whole exchanges of the local transport at once, the hosts
      file, the configuration, and the names one by one or in a race of
      Parallel, over the calls of LocalRun.  An exchange returns what the
      loops of Local return over the results of its own calls.
    - SystemRun: [SystemClient] under concurrent use, the client of ClientRun
      whose constructors are exchanges of ExchangeRun: it resolves nothing
      but the hosts file and does not panic, under the conditions of
      [system_run_hosts_only] on configurations, questions and hashes, and
      leaves no lookup behind.
    - Pipe: [netio/pipe/pipe.go], deadlines and the synchronous pipe, which
      transfers every byte once and in order; Udpnat: [netio/udpnat/*.go],
      sessions with their queues, handlers and read deadlines; Copy:
      [netio/copy.go], the two tasks and the cleanup of [CopyConn].

    ** Bounds and fuel

    Loops over lists are structural.  The interface finder calls itself again
    after an update, with fuel two, and [Finder_ByName_terminates] shows that
    two rounds are enough; the line reader has fuel one more than the length
    of the content and every round consumes a byte; numerals print with one
    digit more than the binary logarithm.  The race needs no fuel: its steps
    are bounded ([race_terminates]), as are those of a TCP exchange, of
    [CopyConn], of a call of [tryUpdate], of calls of the cache, of a query
    and of an exchange of the local transport, and of a lookup
    ([tcp_exchange_ends], [CopyConn_terminates], [update_never_waits],
    [cache_run_progress], [local_run_progress], [exchange_progress],
    [client_run_progress]).  The parallel exchange of Local waits when its list of events ends, which is the result [None]; in
    System the list ends with the end of the context.

    ** What the theorems do not cover

    - Not modelled: [addrs.IsDomainName] (a linkname nothing calls), the
      commented-out part of [dialer/default.go], the hash functions
      (parameters of the tables that use them), the pools of buffers and
      packets.
    - Contexts appear as the events or errors they cause; time limits of the
      single exchanges are passed to the network.
    - What [iolib.Copy] and [threads.Group] do is outside the repository:
      Copy says which calls are made, not in which direction bytes flow.
    - In Local the racers of [exchangeParallel] run one at a time, in any
      order; ExchangeRun has them at once, on one configuration that is read
      when the exchange asks for it.  When the context of an exchange ends is
      an event; that a racer's query ends with its context is left to the
      events of its calls.
    - In ClientRun and SystemRun a lookup waits for both of its tasks, and
      the contexts of the callers are not modelled: an exchange that ends
      with its context returns an error.
    - The data race of [TFOConn] on its field is seen through its lock and
      channels.
    - In System a panic of the transport is turned into an error of the
      transport; [system_transport_total] shows that there is none for the
      queries of a lookup.

    Several theorems show that the code does something else than it means
    to: the family tests of networks are exchanged, the default dialer
    refuses resolved addresses, the cache counts seconds as nanoseconds, the
    local transport finds no server (unless its zone has a bracket), so that
    the system client knows the hosts file only, and panics for some queries
    of other types.  Their comments say so. *)

From Stdlib Require Export ZArith Lia Ascii String Permutation.
From stdpp Require Export base tactics option list gmap strings.

(** ** Scopes and notations *)

Declare Scope go_scope.
Delimit Scope go_scope with go.

(** Go's [+] on strings. *)
Notation "s +++ t" := (String.append s t)
  (at level 60, right associativity) : go_scope.
Open Scope go_scope.
#[global] Arguments String.append !_ _ / : simpl nomatch.

(** ** Machine integers *)

(** The residue a Go conversion to a [w]-bit unsigned type keeps. *)
Definition wrapu (w z : Z) : Z := (z mod 2 ^ w)%Z.

Abbreviation u8 := (wrapu 8).
Abbreviation u16 := (wrapu 16).
Abbreviation u32 := (wrapu 32).

(** Two's complement: [int64(z)], and [int], which is 64 bits wide here. *)
Definition wraps (w z : Z) : Z :=
  let r := (z mod 2 ^ w)%Z in if (r <? 2 ^ (w - 1))%Z then r else (r - 2 ^ w)%Z.

Abbreviation i32 := (wraps 32).
Abbreviation i64 := (wraps 64).

Create HintDb go discriminated.

Lemma wrapu_range w z : (0 <= w)%Z -> (0 <= wrapu w z < 2 ^ w)%Z.
Proof. intros. unfold wrapu. apply Z.mod_pos_bound. lia. Qed.

Lemma wrapu_small w z : (0 <= z < 2 ^ w)%Z -> wrapu w z = z.
Proof. intros. unfold wrapu. by apply Z.mod_small. Qed.

Lemma wrapu_idem w z : (0 <= w)%Z -> wrapu w (wrapu w z) = wrapu w z.
Proof. intros. apply wrapu_small. by apply wrapu_range. Qed.

Lemma wraps_small w z :
  (0 < w)%Z -> (- 2 ^ (w - 1) <= z < 2 ^ (w - 1))%Z -> wraps w z = z.
Proof.
  intros Hw Hz. unfold wraps. cbv zeta.
  assert (2 ^ w = 2 * 2 ^ (w - 1))%Z as E by (rewrite <- Z.pow_succ_r; f_equal; lia).
  destruct (decide (0 <= z)%Z) as [H0|H0].
  - rewrite Z.mod_small by lia. destruct (Z.ltb_spec z (2 ^ (w - 1))); lia.
  - replace (z mod 2 ^ w)%Z with (z + 2 ^ w)%Z.
    + destruct (Z.ltb_spec (z + 2 ^ w) (2 ^ (w - 1))); lia.
    + apply Z.mod_unique with (q := (-1)%Z); lia.
Qed.

#[export] Hint Resolve wrapu_range wrapu_small wraps_small : go.

(** ** Errors *)

(** Values of Go's [error] interface; the nil error is [None] of
    [option err].  The constructors are the standard library's ways to make
    one; [ELib] is any error a third-party package builds. *)
Inductive err :=
  | EStd (name : string)                  (* a sentinel: io.EOF, os.ErrInvalid, ... *)
  | EErrno (n : Z)                        (* syscall.Errno *)
  | ENew (msg : string)                   (* errors.New *)
  | EWrap (msg : string) (e : err)        (* fmt.Errorf with %w *)
  | EOp (op net : string) (e : err)       (* *net.OpError *)
  | ESyscall (call : string) (e : err)    (* *os.SyscallError *)
  | ELib (name : string) (parts : list string) (causes : list err).

(** Arguments of [ex.New], whose parameters have type [any]. *)
Inductive ex_arg :=
  | XStr (s : string)
  | XErr (e : option err).

(** The error helpers of [github.com/qtraffics/qtfra/ex], a package outside
    the repository. *)
Class ExLib := {
  ex_New : list ex_arg -> err;
  ex_Cause : option err -> string -> option err;
  ex_Errors : list (option err) -> option err;
  ex_IsMulti : err -> list err -> bool;
  ex_JoinError_NewError : option err -> option err -> option err;
}.

(** What the repository relies on: a cause keeps an error an error, and
    [Errors] is nil exactly when everything it joins is nil. *)
Class ExLaws `{ExLib} : Prop := {
  ex_Cause_some : forall e msg, is_Some (ex_Cause (Some e) msg);
  ex_Errors_none : forall es, ex_Errors es = None <-> Forall (fun e => e = None) es;
  ex_Join_some : forall s e, is_Some (ex_JoinError_NewError s (Some e));
}.

Lemma ex_Errors_is_Some `{ExLaws} es :
  (exists e, Some e ∈ es) -> is_Some (ex_Errors es).
Proof.
  intros [e He]. destruct (ex_Errors es) eqn:E; [by eexists|].
  apply ex_Errors_none in E. rewrite Forall_forall in E. by apply E in He.
Qed.

(** A concrete instance, used by the witnesses only. *)
Module ExTree.
Definition cause_list (es : list (option err)) : list err := omap id es.

#[global] Instance ex_tree : ExLib | 100 := {
  ex_New args := ELib "ex.New"
    (omap (fun a => match a with XStr s => Some s | XErr _ => None end) args)
    (omap (fun a => match a with XStr _ => None | XErr e => e end) args);
  ex_Cause e msg := Some (ELib "ex.Cause" [msg] (cause_list [e]));
  ex_Errors es :=
    match cause_list es with [] => None | l => Some (ELib "ex.Errors" [] l) end;
  ex_IsMulti e ts :=
    existsb (fun t => match e, t with EErrno a, EErrno b => Z.eqb a b | _, _ => false end) ts;
  ex_JoinError_NewError s e := Some (ELib "ex.Join" [] (cause_list [s; e]));
}.

#[global] Instance ex_tree_laws : @ExLaws ex_tree | 100.
Proof.
  split.
  - intros; by eexists.
  - intros es. simpl. unfold cause_list. split.
    + intros H. induction es as [|[e|] es IH]; [constructor|done|].
      constructor; [done|]. by apply IH.
    + induction 1 as [|x l -> _ IH]; [done|exact IH].
  - intros; by eexists.
Qed.
End ExTree.

(** A Go call that returns [(T, error)]; an interface or pointer result is
    an [option], so that the pair [(nil, nil)] is a value of the model. *)
Abbreviation gores T := (T * option err)%type.

(** ** Stateful code *)

(** Code that threads a world [W] (a shared object, the network, ...). *)
Definition ST (W A : Type) : Type := W -> A * W.

#[export] Instance ST_ret W : MRet (ST W) := fun A a w => (a, w).
#[export] Instance ST_bind W : MBind (ST W) :=
  fun A B k m w => let '(a, w') := m w in k a w'.
#[export] Instance ST_fmap W : FMap (ST W) :=
  fun A B f m w => let '(a, w') := m w in (f a, w').

Definition st_get {W} : ST W W := fun w => (w, w).
Definition st_put {W} (w : W) : ST W unit := fun _ => (tt, w).
Definition st_modify {W} (f : W -> W) : ST W unit := fun w => (tt, f w).

Lemma ST_bind_run {W A B} (m : ST W A) (k : A -> ST W B) w :
  (m ≫= k) w = k (m w).1 (m w).2.
Proof. unfold mbind, ST_bind. by destruct (m w). Qed.

(** Code that returns or panics; a panic ends the computation it is in. *)
Inductive exec (A : Type) :=
  | Ret (a : A)
  | Panic (why : string).
Arguments Ret {A} _.
Arguments Panic {A} _.

Definition ex_bind {W A B} (m : ST W (exec A)) (k : A -> ST W (exec B)) : ST W (exec B) :=
  fun w => match m w with
           | (Ret a, w') => k a w'
           | (Panic why, w') => (Panic why, w')
           end.

Notation "'let!' x := m 'in' k" := (ex_bind m (fun x => k))
  (at level 10, x pattern, m at level 100, k at level 200) : go_scope.

Definition ex_ret {W A} (a : A) : ST W (exec A) := fun w => (Ret a, w).
Definition ex_panic {W A} (why : string) : ST W (exec A) := fun w => (Panic why, w).
Definition ex_lift {W A} (m : ST W A) : ST W (exec A) :=
  fun w => let '(a, w') := m w in (Ret a, w').

(** ** Tactics *)

(** Case analysis on the conditions of an executable definition. *)
Ltac split_ifs :=
  repeat match goal with
  | |- context [if ?b then _ else _] => destruct b eqn:?
  | H : context [if ?b then _ else _] |- _ => destruct b eqn:?
  end.

(** Turn boolean conditions into propositions. *)
Ltac bool_hyps :=
  repeat match goal with
  | H : (_ && _)%bool = true |- _ => apply andb_true_iff in H; destruct H
  | H : (_ || _)%bool = false |- _ => apply orb_false_iff in H; destruct H
  | H : negb _ = true |- _ => apply negb_true_iff in H
  | H : negb _ = false |- _ => apply negb_false_iff in H
  | H : Z.eqb _ _ = true |- _ => apply Z.eqb_eq in H
  | H : Z.eqb _ _ = false |- _ => apply Z.eqb_neq in H
  | H : Z.ltb _ _ = true |- _ => apply Z.ltb_lt in H
  | H : Z.ltb _ _ = false |- _ => apply Z.ltb_ge in H
  | H : Z.leb _ _ = true |- _ => apply Z.leb_le in H
  | H : Z.leb _ _ = false |- _ => apply Z.leb_gt in H
  | H : String.eqb _ _ = true |- _ => apply String.eqb_eq in H
  | H : String.eqb _ _ = false |- _ => apply String.eqb_neq in H
  | H : bool_decide _ = true |- _ => apply bool_decide_eq_true_1 in H
  | H : bool_decide _ = false |- _ => apply bool_decide_eq_false_1 in H
  end.

(** A sum after one element has changed. *)
Lemma sum_list_with_alter {A} (f : A -> nat) (g : A -> A) (l : list A) (i : nat) (x : A) :
  l !! i = Some x -> sum_list_with f (alter g i l) + f x = sum_list_with f l + f (g x).
Proof.
  revert i. induction l as [|y l IH]; intros [|i]; simpl; [done..| |].
  - intros [= ->]. lia.
  - intros Hi%IH. unfold alter in Hi. lia.
Qed.

(** Substitution into the continuation of a computation that succeeded,
    without evaluating it further. *)
Lemma some_bind {A B} (x : A) (f : A -> option B) : (Some x ≫= f) = f x.
Proof. done. Qed.

(** ** Generic list lemmas *)

Section lists.
Context {A : Type}.
Implicit Types (l : list A) (p : A -> bool).

Lemma filter_partition_perm p l :
  Permutation l (List.filter p l ++ List.filter (fun x => negb (p x)) l).
Proof.
  induction l as [|x l IH]; simpl; [done|]. destruct (p x); simpl.
  - by constructor.
  - etrans; [by apply perm_skip, IH|]. apply Permutation_middle.
Qed.

Lemma filter_all p l : (forall x, In x l -> p x = true) -> List.filter p l = l.
Proof.
  induction l as [|x l IH]; simpl; [done|]. intros H.
  rewrite (H x) by auto. f_equal. apply IH. auto.
Qed.

Lemma filter_none p l : (forall x, In x l -> p x = false) -> List.filter p l = [].
Proof.
  induction l as [|x l IH]; simpl; [done|]. intros H.
  rewrite (H x) by auto. apply IH. auto.
Qed.

Lemma filter_Permutation p l l' :
  Permutation l l' -> Permutation (List.filter p l) (List.filter p l').
Proof.
  induction 1; simpl; split_ifs; eauto using Permutation.
Qed.

Lemma filter_length_le p l : length (List.filter p l) <= length l.
Proof. induction l; simpl; split_ifs; simpl; lia. Qed.
End lists.
