(* ===== verification/GoStd.v ===== *)
(** * The parts of Go's [strings] and [strconv] the library uses

    A Go string is a [string] of bytes; positions and lengths are in bytes.
    Only the functions the sources call are here, with the Go names. *)

From S2P Require Import Prelude.

(** ** Bytes and slices *)

Definition byte_val (c : ascii) : Z := Z.of_N (N_of_ascii c).

(** [s[n:]] and [s[:n]] for [n] within range (callers check, as Go panics). *)
Fixpoint sdrop (n : nat) (s : string) : string :=
  match n, s with
  | S n, String _ s => sdrop n s
  | _, _ => s
  end.

Fixpoint stake (n : nat) (s : string) : string :=
  match n, s with
  | S n, String c s => String c (stake n s)
  | _, _ => ""
  end.

Definition sbyte (c : ascii) : string := String c "".

(** [s[i]] *)
Definition sat (s : string) (i : nat) : option ascii := String.get i s.

Definition slast (s : string) : option ascii := sat s (String.length s - 1).

(** ** [strings] *)

(** [strings.IndexByte], and [strings.IndexRune] for an ASCII rune. *)
Fixpoint IndexByte (s : string) (c : ascii) : option nat :=
  match s with
  | "" => None
  | String x s => if Ascii.eqb x c then Some 0 else S <$> IndexByte s c
  end.

Fixpoint LastIndexByte (s : string) (c : ascii) : option nat :=
  match s with
  | "" => None
  | String x s =>
      match LastIndexByte s c with
      | Some i => Some (S i)
      | None => if Ascii.eqb x c then Some 0 else None
      end
  end.

(** [strings.Count(s, c)] for a one-byte [c]. *)
Fixpoint Count (s : string) (c : ascii) : nat :=
  match s with
  | "" => 0
  | String x s => (if Ascii.eqb x c then 1 else 0) + Count s c
  end.

Definition HasPrefix (s p : string) : bool := String.prefix p s.

Definition HasSuffix (s p : string) : bool :=
  (String.length p <=? String.length s) &&
  String.eqb (sdrop (String.length s - String.length p) s) p.

(** [strings.Split(s, c)] for a one-byte separator. *)
Fixpoint Split (s : string) (c : ascii) : list string :=
  match s with
  | "" => [""]
  | String x s =>
      if Ascii.eqb x c then "" :: Split s c
      else match Split s c with
           | h :: t => String x h :: t
           | [] => [sbyte x]
           end
  end.

(** [unicode.IsSpace] on the rune at the front of [s]: the number of bytes
    the white space rune takes, 0 when the front is not white space.  A
    leading byte of a white space encoding cannot occur inside another valid
    encoding, so scanning byte by byte finds exactly the white space runes
    that decoding finds. *)
Definition space_width (s : string) : nat :=
  match List.map byte_val (list_ascii_of_string (stake 3 s)) with
  | a :: r =>
      if ((9 <=? a) && (a <=? 13) || (a =? 32))%Z then 1
      else match r with
      | b :: r =>
          if ((a =? 0xC2) && ((b =? 0x85) || (b =? 0xA0)))%Z then 2
          else match r with
          | c :: _ =>
              if ((a =? 0xE1) && (b =? 0x9A) && (c =? 0x80) ||
                  (a =? 0xE2) && (b =? 0x80) &&
                    ((0x80 <=? c) && (c <=? 0x8A) || (c =? 0xA8) || (c =? 0xA9) || (c =? 0xAF)) ||
                  (a =? 0xE2) && (b =? 0x81) && (c =? 0x9F) ||
                  (a =? 0xE3) && (b =? 0x80) && (c =? 0x80))%Z then 3
              else 0
          | [] => 0
          end
      | [] => 0
      end
  | [] => 0
  end.

(** [strings.Fields]: [skip] bytes of a white space rune are still to be
    passed over, [cur] is the field being read. *)
Fixpoint fields_go (skip : nat) (cur : string) (s : string) : list string :=
  match s with
  | "" => match cur with "" => [] | _ => [cur] end
  | String c s' =>
      match skip with
      | S k => fields_go k cur s'
      | 0 =>
          match space_width s with
          | 0 => fields_go 0 (cur +++ sbyte c) s'
          | S k => match cur with
                   | "" => fields_go k "" s'
                   | _ => cur :: fields_go k "" s'
                   end
          end
      end
  end.

Definition Fields (s : string) : list string := fields_go 0 "" s.

(** ** [strconv] *)

Definition is_digit (c : ascii) : bool :=
  ((48 <=? byte_val c) && (byte_val c <=? 57))%Z.

Definition digit_val (c : ascii) : Z := (byte_val c - 48)%Z.

Lemma digit_val_range c : is_digit c = true -> (0 <= digit_val c <= 9)%Z.
Proof. unfold is_digit, digit_val. intros Hc. bool_hyps. lia. Qed.

(** The character of a decimal or hexadecimal digit. *)
Definition digit_char (d : Z) : ascii :=
  ascii_of_N (Z.to_N (if (d <? 10)%Z then 48 + d else 87 + d)).

Fixpoint dec_go (fuel : nat) (n : Z) (acc : string) : string :=
  match fuel with
  | 0 => acc
  | S fuel =>
      let acc := String (digit_char (n mod 10)) acc in
      if (n <? 10)%Z then acc else dec_go fuel (n / 10) acc
  end.

(** Bits of [n], which is more than its decimal digits. *)
Definition dec_fuel (n : Z) : nat := S (Z.to_nat (Z.log2 n)).

(** [strconv.FormatUint(n, 10)] *)
Definition FormatUint (n : Z) : string := dec_go (dec_fuel n) n "".

(** [strconv.Itoa(n)] *)
Definition Itoa (n : Z) : string :=
  if (n <? 0)%Z then "-" +++ FormatUint (- n) else FormatUint n.

Inductive num_err := ErrSyntax | ErrRange.

Definition max_uint64 : Z := (2 ^ 64 - 1)%Z.

(** [strconv.ParseUint(s, 10, 64)] after the empty string is refused. *)
Fixpoint parse_uint_go (n : Z) (s : string) : Z * option num_err :=
  match s with
  | "" => (n, None)
  | String c s =>
      if is_digit c then
        if (max_uint64 / 10 + 1 <=? n)%Z then (max_uint64, Some ErrRange)
        else let n1 := (n * 10 + digit_val c)%Z in
             if (max_uint64 <? n1)%Z then (max_uint64, Some ErrRange)
             else parse_uint_go n1 s
      else (0%Z, Some ErrSyntax)
  end.

Definition ParseUint (s : string) : Z * option num_err :=
  match s with "" => (0%Z, Some ErrSyntax) | _ => parse_uint_go 0 s end.

(** [strconv.Atoi]: the value is also defined when an error is returned. *)
Definition Atoi (s : string) : Z * option num_err :=
  let '(neg, digits) :=
    match s with
    | String c r =>
        if Ascii.eqb c "-" then (true, r)
        else if Ascii.eqb c "+" then (false, r) else (false, s)
    | "" => (false, "")
    end in
  let '(un, e) := ParseUint digits in
  match e with
  | Some ErrSyntax => (0%Z, Some ErrSyntax)
  | _ =>
      if (negb neg && (2 ^ 63 <=? un))%Z then ((2 ^ 63 - 1)%Z, Some ErrRange)
      else if (neg && (2 ^ 63 <? un))%Z then ((- 2 ^ 63)%Z, Some ErrRange)
      else ((if neg then - un else un)%Z, e)
  end.

(** ** Facts about strings *)

Lemma sapp_nil_r s : s +++ "" = s.
Proof. induction s as [|c s IH]; simpl; [done|by rewrite IH]. Qed.

Lemma sapp_assoc s t u : (s +++ t) +++ u = s +++ t +++ u.
Proof. induction s as [|c s IH]; simpl; [done|by rewrite IH]. Qed.

Lemma sapp_length s t : String.length (s +++ t) = String.length s + String.length t.
Proof. induction s as [|c s IH]; simpl; [done|by rewrite IH]. Qed.

Lemma sdrop_app s t : sdrop (String.length s) (s +++ t) = t.
Proof. induction s as [|c s IH]; simpl; [by destruct t|done]. Qed.

Lemma stake_app s t : stake (String.length s) (s +++ t) = s.
Proof. induction s as [|c s IH]; simpl; [by destruct t|by rewrite IH]. Qed.

Lemma sdrop_length n s : String.length (sdrop n s) = String.length s - n.
Proof. revert s. induction n as [|n IH]; intros [|c s]; simpl; auto. Qed.

Lemma stake_all s : stake (String.length s) s = s.
Proof. induction s as [|c s IH]; simpl; [done|by rewrite IH]. Qed.

Lemma stake_sdrop n s : stake n s +++ sdrop n s = s.
Proof. revert s. induction n as [|n IH]; intros [|c s]; simpl; auto. by rewrite IH. Qed.

Lemma sat_app_length s c t : sat (s +++ String c t) (String.length s) = Some c.
Proof. induction s as [|d s IH]; simpl; [done|exact IH]. Qed.

Lemma slast_snoc s c : slast (s +++ sbyte c) = Some c.
Proof.
  unfold slast, sbyte. rewrite sapp_length. simpl.
  replace (String.length s + 1 - 1) with (String.length s) by lia.
  apply sat_app_length.
Qed.

Lemma slast_snoc_inv s c : slast s = Some c -> exists t, s = t +++ sbyte c.
Proof.
  unfold slast. induction s as [|x s IH]; [done|].
  simpl. rewrite Nat.sub_0_r. destruct s as [|y s].
  - simpl. intros [= ->]. by exists "".
  - intros Hs. destruct IH as [t Ht].
    { simpl. rewrite Nat.sub_0_r. exact Hs. }
    rewrite Ht. by exists (String x t).
Qed.

Lemma string_snoc s : s = "" \/ exists t c, s = t +++ sbyte c.
Proof.
  induction s as [|x s [->|(t & c & ->)]]; [by left|right; by exists "", x|right].
  by exists (String x t), c.
Qed.

(** Every byte of [s] satisfies [p]. *)
Definition sforall (p : ascii -> bool) (s : string) : bool :=
  forallb p (list_ascii_of_string s).

Lemma sforall_app p s t : sforall p (s +++ t) = sforall p s && sforall p t.
Proof.
  unfold sforall. induction s as [|c s IH]; simpl; [done|].
  by rewrite IH, andb_assoc.
Qed.

Lemma sforall_impl (p q : ascii -> bool) s :
  (forall c, p c = true -> q c = true) -> sforall p s = true -> sforall q s = true.
Proof.
  unfold sforall. rewrite !forallb_forall. intros H Hp c Hc. auto.
Qed.

Lemma IndexByte_app_l s t c :
  IndexByte s c = None -> IndexByte (s +++ t) c = Nat.add (String.length s) <$> IndexByte t c.
Proof.
  induction s as [|x s IH]; simpl.
  - intros _. by destruct (IndexByte t c).
  - destruct (Ascii.eqb x c); [done|]. destruct (IndexByte s c); [done|].
    intros _. rewrite IH by done. by destruct (IndexByte t c).
Qed.

Lemma IndexByte_none_sforall s c :
  sforall (fun x => negb (Ascii.eqb x c)) s = true -> IndexByte s c = None.
Proof.
  induction s as [|x s IH]; simpl; [done|]. intros H. cbn in H.
  apply andb_true_iff in H as [H1 H2]. apply negb_true_iff in H1. rewrite H1.
  by rewrite IH.
Qed.

Lemma LastIndexByte_app s c t :
  IndexByte t c = None -> LastIndexByte (s +++ String c t) c = Some (String.length s).
Proof.
  intros Ht. induction s as [|x s IH]; simpl.
  - assert (LastIndexByte t c = None) as ->.
    { revert Ht. induction t as [|y t IH]; simpl; [done|].
      destruct (Ascii.eqb y c); [done|]. destruct (IndexByte t c); [done|].
      intros _. by rewrite IH. }
    by rewrite Ascii.eqb_refl.
  - by rewrite IH.
Qed.

(** ** Decimal numerals *)

Lemma byte_val_of_N n : (0 <= n < 256)%Z -> byte_val (ascii_of_N (Z.to_N n)) = n.
Proof. intros. unfold byte_val. rewrite N_ascii_embedding; lia. Qed.

Lemma digit_char_val d : (0 <= d < 10)%Z ->
  is_digit (digit_char d) = true /\ digit_val (digit_char d) = d.
Proof.
  intros. unfold is_digit, digit_val, digit_char.
  destruct (Z.ltb_spec d 10); [|lia]. rewrite byte_val_of_N by lia. split; [|lia].
  apply andb_true_iff. rewrite !Z.leb_le. lia.
Qed.

Lemma parse_uint_go_digit n d s :
  (0 <= d < 10)%Z -> (0 <= n)%Z -> (n * 10 + d <= max_uint64)%Z ->
  parse_uint_go n (String (digit_char d) s) = parse_uint_go (n * 10 + d) s.
Proof.
  intros Hd Hn Hle. destruct (digit_char_val d Hd) as [E1 E2].
  cbn [parse_uint_go]. rewrite E1, E2. cbv zeta.
  destruct (Z.leb_spec (max_uint64 / 10 + 1) n) as [Hc|_].
  { pose proof (Z.mul_succ_div_gt max_uint64 10 ltac:(lia)). lia. }
  destruct (Z.ltb_spec max_uint64 (n * 10 + d)); [lia|done].
Qed.

Lemma parse_uint_go_dec fuel n acc :
  (0 <= n <= max_uint64)%Z -> (n < 10 ^ Z.of_nat fuel)%Z ->
  (0 < fuel)%nat ->
  parse_uint_go 0 (dec_go fuel n acc) = parse_uint_go n acc.
Proof.
  revert n acc. induction fuel as [|fuel IH]; intros n acc Hn Hf Hpos; [lia|].
  cbn [dec_go]. destruct (Z.ltb_spec n 10).
  - rewrite Z.mod_small, parse_uint_go_digit; try lia. by rewrite Z.mul_0_l.
  - assert (10 * (n / 10) <= n)%Z by (apply Z.mul_div_le; lia).
    pose proof (Z.mod_pos_bound n 10 ltac:(lia)).
    pose proof (Z.div_mod n 10 ltac:(lia)).
    destruct fuel as [|fuel]; [simpl in Hf; lia|].
    rewrite IH.
    + rewrite parse_uint_go_digit; [f_equal| | |]; lia.
    + split; [apply Z.div_pos; lia|]. nia.
    + apply Z.div_lt_upper_bound; [lia|].
      rewrite (Nat2Z.inj_succ (S fuel)), Z.pow_succ_r in Hf by lia. lia.
    + lia.
Qed.

Lemma dec_fuel_enough n : (0 <= n)%Z -> (n < 10 ^ Z.of_nat (dec_fuel n))%Z.
Proof.
  intros Hn. unfold dec_fuel. rewrite Nat2Z.inj_succ, Z2Nat.id by apply Z.log2_nonneg.
  destruct (decide (n = 0)%Z) as [->|]; [done|].
  apply Z.lt_le_trans with (2 ^ Z.succ (Z.log2 n))%Z.
  - apply Z.log2_spec. lia.
  - apply Z.pow_le_mono_l. lia.
Qed.

Lemma dec_go_nonempty fuel n acc : fuel <> 0 -> dec_go fuel n acc <> "".
Proof.
  revert n acc. induction fuel as [|fuel IH]; intros n acc Hf; [done|].
  simpl. destruct (n <? 10)%Z; [done|]. destruct fuel; [done|]. by apply IH.
Qed.

Lemma dec_go_digits fuel n acc :
  (0 <= n)%Z -> sforall is_digit acc = true -> sforall is_digit (dec_go fuel n acc) = true.
Proof.
  revert n acc. induction fuel as [|fuel IH]; intros n acc Hn Ha; [done|].
  pose proof (Z.mod_pos_bound n 10 ltac:(lia)).
  assert (sforall is_digit (String (digit_char (n mod 10)) acc) = true) as Ha'.
  { unfold sforall in *. simpl.
    by rewrite (proj1 (digit_char_val (n mod 10) ltac:(lia))). }
  cbn [dec_go]. destruct (n <? 10)%Z; [done|]. apply IH; [|done]. apply Z.div_pos; lia.
Qed.

Lemma FormatUint_digits n : (0 <= n)%Z -> sforall is_digit (FormatUint n) = true.
Proof. intros. by apply dec_go_digits. Qed.

Lemma FormatUint_nonempty n : FormatUint n <> "".
Proof. by apply dec_go_nonempty. Qed.

Lemma ParseUint_FormatUint n :
  (0 <= n <= max_uint64)%Z -> ParseUint (FormatUint n) = (n, None).
Proof.
  intros Hn. unfold ParseUint.
  destruct (FormatUint n) eqn:E; [by apply FormatUint_nonempty in E|].
  rewrite <- E. unfold FormatUint.
  rewrite parse_uint_go_dec; [done|done|apply dec_fuel_enough; lia|unfold dec_fuel; lia].
Qed.

Lemma is_digit_not c d : is_digit c = true -> is_digit d = false -> Ascii.eqb c d = false.
Proof. intros Hc Hd. apply Ascii.eqb_neq. intros ->. congruence. Qed.

(** Reading back a printed number that an [int] holds. *)
Lemma Atoi_FormatUint n : (0 <= n < 2 ^ 63)%Z -> Atoi (FormatUint n) = (n, None).
Proof.
  intros Hn. unfold Atoi.
  pose proof (FormatUint_digits n ltac:(lia)) as Hd.
  destruct (FormatUint n) as [|c r] eqn:E; [by apply FormatUint_nonempty in E|].
  cbn in Hd. apply andb_true_iff in Hd as [Hc _].
  rewrite !(is_digit_not c) by done.
  rewrite <- E, ParseUint_FormatUint by (unfold max_uint64; lia).
  simpl. destruct (Z.leb_spec (2 ^ 63) n); [lia|done].
Qed.

(** A numeral contains none of the separators of an address. *)
Lemma FormatUint_IndexByte n c :
  (0 <= n)%Z -> is_digit c = false -> IndexByte (FormatUint n) c = None.
Proof.
  intros Hn Hc. apply IndexByte_none_sforall.
  eapply sforall_impl; [|by apply FormatUint_digits].
  intros x Hx. simpl. by rewrite (is_digit_not x c).
Qed.
