(* ===== verification/Netip.v ===== *)
(** * The parts of Go's [net/netip] and [net] the library uses

    Addresses, prefixes, their parser and printer, and the host/port
    splitting of package [net].  These are standard-library functions, so
    they are defined here once, with the Go names, and the components that
    call them use these definitions. *)

From S2P Require Import Prelude GoStd.
Local Open Scope Z_scope.

(** ** Data *)

(** [netip.Addr].  Go compares addresses with [==], which the equality of
    this type is: an IPv4 address, its IPv4-mapped IPv6 form and a zoned
    address are all different.  The integer is the 32- or 128-bit value. *)
Inductive Addr :=
  | AddrZero
  | Addr4 (ip : Z)
  | Addr6 (ip : Z) (zone : string).

#[export] Instance Addr_eq_dec : EqDecision Addr.
Proof. solve_decision. Defined.

#[export] Instance Addr_countable : Countable Addr.
Proof.
  refine (inj_countable'
    (fun a => match a with
              | AddrZero => inl (inl tt)
              | Addr4 ip => inl (inr ip)
              | Addr6 ip z => inr (ip, z)
              end)
    (fun x => match x with
              | inl (inl _) => AddrZero
              | inl (inr ip) => Addr4 ip
              | inr (ip, z) => Addr6 ip z
              end) _).
  by intros [].
Defined.

#[export] Instance Addr_inhabited : Inhabited Addr := populate AddrZero.

(** The values Go can build: the integer fits its width. *)
Definition addr_wf (a : Addr) : Prop :=
  match a with
  | AddrZero => True
  | Addr4 ip => 0 <= ip < 2 ^ 32
  | Addr6 ip _ => 0 <= ip < 2 ^ 128
  end.

(** [netip.AddrPort] *)
Record AddrPort := AddrPortFrom { ap_Addr : Addr; ap_Port : Z }.

(** [netip.Prefix]: the [bitsPlusOne] field is 0 in an invalid prefix. *)
Record Prefix := MkPrefix { prefix_Addr : Addr; bitsPlusOne : Z }.

#[export] Instance AddrPort_eq_dec : EqDecision AddrPort.
Proof. solve_decision. Defined.
#[export] Instance Prefix_eq_dec : EqDecision Prefix.
Proof. solve_decision. Defined.

(** ** Bytes *)

(** [n] bytes of [z], most significant first. *)
Fixpoint be_bytes (n : nat) (z : Z) : list Z :=
  match n with
  | 0%nat => []
  | S n => Z.land (Z.shiftr z (8 * Z.of_nat n)) 255 :: be_bytes n z
  end.

Definition be_value (bs : list Z) : Z := fold_left (fun a b => a * 256 + b) bs 0.

(** ** Classification *)

Definition Addr_IsValid (a : Addr) : bool :=
  match a with AddrZero => false | _ => true end.

Definition Addr_Is4 (a : Addr) : bool := match a with Addr4 _ => true | _ => false end.

(** Includes the IPv4-mapped IPv6 addresses. *)
Definition Addr_Is6 (a : Addr) : bool := match a with Addr6 _ _ => true | _ => false end.

Definition Addr_Is4In6 (a : Addr) : bool :=
  match a with Addr6 ip _ => Z.shiftr ip 32 =? 0xffff | _ => false end.

Definition Addr_Zone (a : Addr) : string :=
  match a with Addr6 _ z => z | _ => "" end.

Definition Addr_Unmap (a : Addr) : Addr :=
  match a with
  | Addr6 ip _ => if Addr_Is4In6 a then Addr4 (Z.land ip 0xffffffff) else a
  | _ => a
  end.

Definition Addr_withoutZone (a : Addr) : Addr :=
  match a with Addr6 ip _ => Addr6 ip "" | _ => a end.

Definition Addr_BitLen (a : Addr) : Z :=
  match a with AddrZero => 0 | Addr4 _ => 32 | Addr6 _ _ => 128 end.

(** [Addr_AsSlice]: nil for the zero address. *)
Definition Addr_AsSlice (a : Addr) : list Z :=
  match a with
  | AddrZero => []
  | Addr4 ip => be_bytes 4 ip
  | Addr6 ip _ => be_bytes 16 ip
  end.

(** [Addr_As4], which panics outside IPv4 and IPv4-mapped addresses. *)
Definition Addr_As4 (a : Addr) : option Z :=
  match a with
  | Addr4 ip => Some ip
  | Addr6 ip _ => if Addr_Is4In6 a then Some (Z.land ip 0xffffffff) else None
  | AddrZero => None
  end.

(** The second result of [AddrFromSlice] is [Addr_IsValid]. *)
Definition Addr_FromSlice (bs : list Z) : Addr :=
  match length bs with
  | 4%nat => Addr4 (be_value bs)
  | 16%nat => Addr6 (be_value bs) ""
  | _ => AddrZero
  end.

(** [v6u16 i] *)
Definition Addr_group (ip : Z) (i : nat) : Z :=
  Z.land (Z.shiftr ip (112 - 16 * Z.of_nat i)) 0xffff.

Definition Addr_IsLoopback (a : Addr) : bool :=
  match Addr_Unmap a with
  | Addr4 ip => Z.shiftr ip 24 =? 127
  | Addr6 ip _ => ip =? 1
  | AddrZero => false
  end.

Definition Addr_IsMulticast (a : Addr) : bool :=
  match Addr_Unmap a with
  | Addr4 ip => Z.land (Z.shiftr ip 24) 0xf0 =? 0xe0
  | Addr6 ip _ => Z.shiftr ip 120 =? 0xff
  | AddrZero => false
  end.

Definition Addr_IsInterfaceLocalMulticast (a : Addr) : bool :=
  match a with
  | Addr6 ip _ => negb (Addr_Is4In6 a) && (Z.land (Addr_group ip 0) 0xff0f =? 0xff01)
  | _ => false
  end.

Definition Addr_IsUnspecified (a : Addr) : bool :=
  bool_decide (a = Addr4 0) || bool_decide (a = Addr6 0 "").

(** *** Printing *)

Definition Addr_string4 (ip : Z) : string :=
  match List.map FormatUint (be_bytes 4 ip) with
  | [a; b; c; d] => a +++ "." +++ b +++ "." +++ c +++ "." +++ d
  | _ => ""
  end.

Fixpoint Addr_hex_go (fuel : nat) (n : Z) (acc : string) : string :=
  match fuel with
  | 0%nat => acc
  | S fuel =>
      let acc := String (digit_char (n mod 16)) acc in
      if n <? 16 then acc else Addr_hex_go fuel (n / 16) acc
  end.

(** [appendHex] of a 16-bit Addr_group *)
Definition Addr_hex16 (n : Z) : string := Addr_hex_go 4 n "".

(** Length of the run of zero Addr_groups from the front. *)
Fixpoint Addr_zero_run (gs : list Z) : nat :=
  match gs with
  | g :: gs => if g =? 0 then S (Addr_zero_run gs) else 0%nat
  | [] => 0%nat
  end.

(** The first longest run of at least two zero Addr_groups: start and end. *)
Fixpoint Addr_longest_run (i : nat) (gs : list Z) (best : nat * nat) : nat * nat :=
  match gs with
  | [] => best
  | _ :: gs' =>
      let l := Addr_zero_run gs in
      let best := if ((2 <=? l) && (best.2 - best.1 <? l))%nat
                  then (i, i + l)%nat else best in
      Addr_longest_run (S i) gs' best
  end.

Definition Addr_colon_join (gs : list Z) : string :=
  match List.map Addr_hex16 gs with
  | [] => ""
  | g :: gs => fold_left (fun acc x => acc +++ ":" +++ x) gs g
  end.

Definition Addr_groups (ip : Z) : list Z := List.map (Addr_group ip) (seq 0 8).

Definition Addr_string6 (ip : Z) (zone : string) : string :=
  let gs := Addr_groups ip in
  let '(zs, ze) := Addr_longest_run 0 gs (255, 255)%nat in
  let body :=
    if (ze - zs =? 0)%nat then Addr_colon_join gs
    else Addr_colon_join (take zs gs) +++ "::" +++ Addr_colon_join (drop ze gs) in
  match zone with "" => body | _ => body +++ "%" +++ zone end.

Definition Addr_ToString (a : Addr) : string :=
  match a with
  | AddrZero => "invalid IP"
  | Addr4 ip => Addr_string4 ip
  | Addr6 ip zone =>
      if Addr_Is4In6 a then
        let body := "::ffff:" +++ Addr_string4 (Z.land ip 0xffffffff) in
        match zone with "" => body | _ => body +++ "%" +++ zone end
      else Addr_string6 ip zone
  end.

(** *** Parsing *)

(** [Addr_parseIPv4Fields]; [fs] are the finished octets, [digLen] the digits
    of the current one, [first] and [dot] say that the byte before is the
    start of the text or a dot. *)
Fixpoint Addr_ipv4_fields (first dot : bool) (val : Z) (digLen : nat)
    (fs : list Z) (s : string) : option (list Z) :=
  match s with
  | "" => if (length fs <? 3)%nat then None else Some (fs ++ [val])
  | String c s' =>
      if is_digit c then
        if ((digLen =? 1)%nat && (val =? 0)) then None
        else let val' := val * 10 + digit_val c in
             if 255 <? val' then None
             else Addr_ipv4_fields false false val' (S digLen) fs s'
      else if Ascii.eqb c "." then
        if (first || dot || String.eqb s' "") then None
        else if (length fs =? 3)%nat then None
        else Addr_ipv4_fields false true 0 0 (fs ++ [val]) s'
      else None
  end.

Definition Addr_parseIPv4Fields (s : string) : option (list Z) :=
  Addr_ipv4_fields true false 0 0 [] s.

Definition Addr_parseIPv4 (s : string) : option Addr :=
  fs ← Addr_parseIPv4Fields s; Some (Addr4 (be_value fs)).

Definition Addr_hex_digit (c : ascii) : option Z :=
  let v := byte_val c in
  if is_digit c then Some (v - 48)
  else if (97 <=? v) && (v <=? 102) then Some (v - 87)
  else if (65 <=? v) && (v <=? 70) then Some (v - 55)
  else None.

(** One Addr_group: digits read, value, rest. *)
Fixpoint Addr_hex_group (off : nat) (acc : Z) (s : string) : option (nat * Z * string) :=
  match s with
  | String c s' =>
      match Addr_hex_digit c with
      | Some d =>
          let acc' := acc * 16 + d in
          if (3 <? off)%nat then None
          else if 0xffff <? acc' then None
          else Addr_hex_group (S off) acc' s'
      | None => Some (off, acc, s)
      end
  | "" => Some (off, acc, s)
  end.

(** The loop of [Addr_parseIPv6]: one round per Addr_group, at most eight. *)
Fixpoint Addr_ipv6_loop (rounds : nat) (ip : list Z) (ellipsis : option nat) (s : string)
    : option (list Z * option nat * string) :=
  match rounds with
  | 0%nat => Some (ip, ellipsis, s)
  | S rounds =>
      '(off, acc, rest) ← Addr_hex_group 0 0 s;
      if (off =? 0)%nat then None
      else match rest with
      | "" => Some (ip ++ [Z.shiftr acc 8; Z.land acc 255], ellipsis, "")
      | String c rest1 =>
          if Ascii.eqb c "." then
            if (bool_decide (ellipsis = None) && negb (length ip =? 12)%nat) then None
            else if (16 <? length ip + 4)%nat then None
            else fs ← Addr_parseIPv4Fields s; Some (ip ++ fs, ellipsis, "")
          else
            let ip := ip ++ [Z.shiftr acc 8; Z.land acc 255] in
            if negb (Ascii.eqb c ":") then None
            else match rest1 with
            | "" => None
            | String c2 rest2 =>
                if Ascii.eqb c2 ":" then
                  match ellipsis with
                  | Some _ => None
                  | None =>
                      match rest2 with
                      | "" => Some (ip, Some (length ip), "")
                      | _ => Addr_ipv6_loop rounds ip (Some (length ip)) rest2
                      end
                  end
                else Addr_ipv6_loop rounds ip ellipsis rest1
            end
      end
  end.

Definition Addr_ipv6_finish (zone : string) (r : list Z * option nat * string) : option Addr :=
  let '(ip, ellipsis, s) := r in
  if negb (String.eqb s "") then None
  else if (length ip <? 16)%nat then
    match ellipsis with
    | None => None
    | Some e => Some (Addr6 (be_value
                  (take e ip ++ repeat 0 (16 - length ip) ++ drop e ip)) zone)
    end
  else match ellipsis with
       | Some _ => None
       | None => Some (Addr6 (be_value ip) zone)
       end.

Definition Addr_parseIPv6 (input : string) : option Addr :=
  '(s, zone) ← match IndexByte input "%" with
               | None => Some (input, "")
               | Some i =>
                   match sdrop (S i) input with
                   | "" => None
                   | zone => Some (stake i input, zone)
                   end
               end;
  match s with
  | String ":" (String ":" "") => Some (Addr6 0 zone)
  | String ":" (String ":" s) => r ← Addr_ipv6_loop 8 [] (Some 0%nat) s; Addr_ipv6_finish zone r
  | _ => r ← Addr_ipv6_loop 8 [] None s; Addr_ipv6_finish zone r
  end.

(** The dispatch of [ParseAddr] on the first separator. *)
Fixpoint Addr_parse_kind (input s : string) : option Addr :=
  match s with
  | "" => None
  | String c s =>
      if Ascii.eqb c "." then Addr_parseIPv4 input
      else if Ascii.eqb c ":" then Addr_parseIPv6 input
      else if Ascii.eqb c "%" then None
      else Addr_parse_kind input s
  end.

(** [netip.ParseAddr]; [None] is its error. *)
Definition ParseAddr (s : string) : option Addr := Addr_parse_kind s s.

(** [AddrPort.String] *)
Definition AddrPort_String (p : AddrPort) : string :=
  match ap_Addr p with
  | AddrZero => "invalid AddrPort"
  | Addr4 ip => Addr_string4 ip +++ ":" +++ FormatUint (ap_Port p)
  | Addr6 _ _ => "[" +++ Addr_ToString (ap_Addr p) +++ "]:" +++ FormatUint (ap_Port p)
  end.

Definition Prefix_From (ip : Addr) (bits : Z) : Prefix :=
  {| prefix_Addr := Addr_withoutZone ip;
     bitsPlusOne := if Addr_IsValid ip && (0 <=? bits) && (bits <=? Addr_BitLen ip)
                    then bits + 1 else 0 |}.

Definition Prefix_IsValid (p : Prefix) : bool := 0 <? bitsPlusOne p.
Definition Prefix_Bits (p : Prefix) : Z := bitsPlusOne p - 1.

(** [Prefix.Contains] *)
Definition Prefix_Contains (p : Prefix) (ip : Addr) : bool :=
  if (negb (Prefix_IsValid p) || negb (String.eqb (Addr_Zone ip) "")) then false
  else match prefix_Addr p, ip with
  | Addr4 a, Addr4 b => Z.shiftr (Z.lxor a b) (32 - Prefix_Bits p) =? 0
  | Addr6 a _, Addr6 b _ => Z.shiftr (Z.lxor a b) (128 - Prefix_Bits p) =? 0
  | _, _ => false
  end.

(** ** Host and port text, package [net] *)

(** [net.JoinHostPort] *)
Definition JoinHostPort (host port : string) : string :=
  match IndexByte host ":" with
  | Some _ => "[" +++ host +++ "]:" +++ port
  | None => host +++ ":" +++ port
  end.

(** [net.SplitHostPort]; [None] is its error. *)
Definition SplitHostPort (hostport : string) : option (string * string) :=
  i ← LastIndexByte hostport ":";
  '(host, j, k) ←
    match hostport with
    | String "[" _ =>
        e ← IndexByte hostport "]";
        if (e + 1 =? String.length hostport)%nat then None
        else if (e + 1 =? i)%nat then Some (stake (e - 1) (sdrop 1 hostport), 1%nat, S e)
        else None
    | _ =>
        let host := stake i hostport in
        match IndexByte host ":" with
        | Some _ => None
        | None => Some (host, 0%nat, 0%nat)
        end
    end;
  match IndexByte (sdrop j hostport) "[", IndexByte (sdrop k hostport) "]" with
  | None, None => Some (host, sdrop (S i) hostport)
  | _, _ => None
  end.

(** ** Facts *)

Lemma be_bytes_length n z : length (be_bytes n z) = n.
Proof. induction n; simpl; auto. Qed.

Lemma be_value_app bs b : be_value (bs ++ [b]) = be_value bs * 256 + b.
Proof. unfold be_value. by rewrite fold_left_app. Qed.

(** Dropping the last byte. *)
Lemma be_bytes_snoc n z :
  be_bytes (S n) z = be_bytes n (Z.shiftr z 8) ++ [Z.land z 255].
Proof.
  induction n as [|n IH]; [done|].
  cbn [be_bytes] in IH |- *. rewrite IH. simpl. f_equal.
  rewrite Z.shiftr_shiftr by lia. do 2 f_equal. lia.
Qed.

Lemma be_value_bytes n z :
  0 <= z < 2 ^ (8 * Z.of_nat n) -> be_value (be_bytes n z) = z.
Proof.
  revert z. induction n as [|n IH]; intros z Hz; [cbn in Hz |- *; lia|].
  rewrite be_bytes_snoc, be_value_app, IH.
  - change 255 with (Z.ones 8). rewrite Z.land_ones, Z.shiftr_div_pow2 by lia.
    change (2 ^ 8) with 256. rewrite (Z.mul_comm (z / 256)). by rewrite <- Z.div_mod by lia.
  - rewrite Z.shiftr_div_pow2 by lia. split; [apply Z.div_pos; lia|].
    apply Z.div_lt_upper_bound; [lia|]. rewrite <- Z.pow_add_r by lia.
    replace (8 + 8 * Z.of_nat n) with (8 * Z.of_nat (S n)) by lia. lia.
Qed.

Lemma be_bytes_range n z b : In b (be_bytes n z) -> 0 <= b < 256.
Proof.
  induction n as [|n IH]; simpl; [done|]. intros [<-|H]; [|auto].
  change 255 with (Z.ones 8). rewrite Z.land_ones by lia.
  apply (Z.mod_pos_bound _ (2 ^ 8)). lia.
Qed.

(** Rebuilding an address from its bytes loses only the zone. *)
Lemma FromSlice_AsSlice a :
  addr_wf a -> Addr_FromSlice (Addr_AsSlice a) = Addr_withoutZone a.
Proof.
  destruct a as [|ip|ip z]; intros H; [done| |]; unfold Addr_FromSlice, Addr_AsSlice;
    rewrite be_bytes_length; simpl Addr_withoutZone; f_equal; by apply be_value_bytes.
Qed.

Lemma Unmap_not_4in6 a : Addr_Is4In6 (Addr_Unmap a) = false.
Proof.
  destruct a as [| |ip z]; try done. cbn [Addr_Unmap].
  destruct (Addr_Is4In6 (Addr6 ip z)) eqn:E; done.
Qed.

Lemma Unmap_idem a : Addr_Unmap (Addr_Unmap a) = Addr_Unmap a.
Proof.
  destruct a as [| |ip z]; try done. cbn [Addr_Unmap].
  destruct (Addr_Is4In6 (Addr6 ip z)) eqn:E; [done|]. cbn [Addr_Unmap]. by rewrite E.
Qed.

Lemma Is4_Is6_exclusive a :
  Addr_IsValid a = Addr_Is4 a || Addr_Is6 a /\ Addr_Is4 a && Addr_Is6 a = false.
Proof. by destruct a. Qed.

(** *** IPv4 text round trip *)

(** Octets printed out in full. *)
Definition octet_string (d : Z) : string :=
  if d <? 10 then sbyte (digit_char d)
  else if d <? 100 then String (digit_char (d / 10)) (sbyte (digit_char (d mod 10)))
  else String (digit_char (d / 100))
         (String (digit_char (d / 10 mod 10)) (sbyte (digit_char (d mod 10)))).

Lemma FormatUint_octet d : 0 <= d < 256 -> FormatUint d = octet_string d.
Proof.
  intros Hd.
  assert (forallb (fun n => String.eqb (FormatUint (Z.of_nat n)) (octet_string (Z.of_nat n)))
            (seq 0 256) = true) as H by (vm_compute; reflexivity).
  rewrite forallb_forall in H. specialize (H (Z.to_nat d)).
  rewrite Z2Nat.id in H by lia. apply String.eqb_eq, H, in_seq. lia.
Qed.

Lemma ipv4_fields_digit f dt v l fs d s :
  0 <= d < 10 -> (l =? 1)%nat && (v =? 0) = false -> v * 10 + d <= 255 ->
  Addr_ipv4_fields f dt v l fs (String (digit_char d) s) =
  Addr_ipv4_fields false false (v * 10 + d) (S l) fs s.
Proof.
  intros Hd Hl Hv. destruct (digit_char_val d Hd) as [E1 E2].
  cbn [Addr_ipv4_fields]. rewrite E1, E2, Hl. cbv zeta.
  destruct (Z.ltb_spec 255 (v * 10 + d)); [lia|done].
Qed.

#[local] Ltac octet_side :=
  first [ lia | reflexivity | cbn [Nat.eqb andb]; apply Z.eqb_neq; lia ].

(** One whole octet is read as its value. *)
Lemma ipv4_fields_octet f dt fs d s :
  0 <= d < 256 ->
  exists l, Addr_ipv4_fields f dt 0 0 fs (FormatUint d +++ s) =
            Addr_ipv4_fields false false d l fs s.
Proof.
  intros Hd. rewrite FormatUint_octet by done. unfold octet_string, sbyte.
  pose proof (Z.mod_pos_bound d 10 ltac:(lia)).
  pose proof (Z.mod_pos_bound (d / 10) 10 ltac:(lia)).
  pose proof (Z.div_mod d 10 ltac:(lia)) as Ed.
  pose proof (Z.div_mod (d / 10) 10 ltac:(lia)) as Ed'.
  rewrite Z.div_div in Ed' by lia. change (10 * 10) with 100 in Ed'.
  destruct (Z.ltb_spec d 10); [|destruct (Z.ltb_spec d 100)]; cbn [String.append].
  - exists 1%nat. rewrite ipv4_fields_digit by octet_side. by rewrite Z.mul_0_l.
  - exists 2%nat. rewrite !ipv4_fields_digit by octet_side. f_equal; lia.
  - assert (1 <= d / 100) by (apply Z.div_le_lower_bound; lia).
    exists 3%nat. rewrite !ipv4_fields_digit by octet_side. f_equal; lia.
Qed.

Lemma ipv4_fields_dot v l fs d s :
  length fs <> 3%nat -> 0 <= d < 256 ->
  Addr_ipv4_fields false false v l fs ("." +++ FormatUint d +++ s) =
  Addr_ipv4_fields false true 0 0 (fs ++ [v]) (FormatUint d +++ s).
Proof.
  intros Hl Hd. cbn [Addr_ipv4_fields String.append].
  assert (is_digit "." = false) as -> by done. rewrite Ascii.eqb_refl. simpl orb.
  destruct (String.eqb_spec (FormatUint d +++ s) "") as [E|_].
  { rewrite FormatUint_octet in E by done. unfold octet_string in E.
    repeat case_match; done. }
  by destruct (Nat.eqb_spec (length fs) 3).
Qed.

(** Reads past a dot and the octet after it. *)
#[local] Ltac next_octet :=
  rewrite ipv4_fields_dot by done;
  match goal with
  | |- Addr_ipv4_fields _ _ _ _ ?fs (FormatUint ?x +++ ?s) = _ =>
      let l := fresh in destruct (ipv4_fields_octet false true fs x s) as [l ->]; [done|]
  end.

Lemma parseIPv4Fields_print a b c d :
  0 <= a < 256 -> 0 <= b < 256 -> 0 <= c < 256 -> 0 <= d < 256 ->
  Addr_parseIPv4Fields
    (FormatUint a +++ "." +++ FormatUint b +++ "." +++ FormatUint c +++ "." +++ FormatUint d)
  = Some [a; b; c; d].
Proof.
  intros. unfold Addr_parseIPv4Fields.
  rewrite <- (sapp_nil_r (FormatUint d)).
  destruct (ipv4_fields_octet true false [] a
    ("." +++ FormatUint b +++ "." +++ FormatUint c +++ "." +++ FormatUint d +++ ""))
    as [l1 ->]; [done|].
  do 3 next_octet. done.
Qed.

Lemma string4_octets ip :
  exists a b c d, be_bytes 4 ip = [a; b; c; d] /\
    0 <= a < 256 /\ 0 <= b < 256 /\ 0 <= c < 256 /\ 0 <= d < 256 /\
    Addr_string4 ip =
      FormatUint a +++ "." +++ FormatUint b +++ "." +++ FormatUint c +++ "." +++ FormatUint d.
Proof.
  pose proof (be_bytes_range 4 ip) as Hr. unfold Addr_string4.
  destruct (be_bytes 4 ip) as [|a [|b [|c [|d [|]]]]] eqn:E;
    try (apply (f_equal length) in E; rewrite be_bytes_length in E; done).
  exists a, b, c, d. split; [done|].
  split; [|split; [|split; [|split; [|done]]]]; apply Hr; simpl; auto.
Qed.

Lemma parse_kind_digits input s t :
  sforall is_digit s = true ->
  Addr_parse_kind input (s +++ "." +++ t) = Addr_parseIPv4 input.
Proof.
  induction s as [|c s IH]; [done|]. intros H. cbn in H.
  apply andb_true_iff in H as [Hc Hs]. cbn [String.append Addr_parse_kind].
  rewrite !(is_digit_not c) by done. by apply IH.
Qed.

(** Parsing a printed IPv4 address gives it back. *)
Lemma ParseAddr_string4 ip :
  0 <= ip < 2 ^ 32 -> ParseAddr (Addr_string4 ip) = Some (Addr4 ip).
Proof.
  intros Hip. destruct (string4_octets ip) as (a & b & c & d & E & Ha & Hb & Hc & Hd & Es).
  rewrite Es. unfold ParseAddr.
  rewrite parse_kind_digits by (apply FormatUint_digits; lia).
  unfold Addr_parseIPv4. rewrite parseIPv4Fields_print by done. simpl.
  rewrite <- E. do 2 f_equal. by apply be_value_bytes.
Qed.

(** A byte that is neither a digit nor a dot does not occur in IPv4 text. *)
Lemma string4_IndexByte ip c :
  is_digit c = false -> Ascii.eqb "." c = false -> IndexByte (Addr_string4 ip) c = None.
Proof.
  intros Hc Hdot. apply IndexByte_none_sforall.
  destruct (string4_octets ip) as (a & b & x & d & _ & Ha & Hb & Hx & Hd & ->).
  assert (forall n, 0 <= n -> sforall (fun x => negb (Ascii.eqb x c)) (FormatUint n) = true) as H.
  { intros n Hn. eapply sforall_impl; [|by apply FormatUint_digits].
    intros y Hy. simpl. by rewrite (is_digit_not y c). }
  assert (sforall (fun x => negb (Ascii.eqb x c)) "." = true) as Hd'.
  { unfold sforall. cbn -[Ascii.eqb]. by rewrite Hdot. }
  rewrite !sforall_app, !H, Hd' by lia. done.
Qed.

(** Splitting what joining an IPv4 host and a numeric port made. *)
Lemma SplitHostPort_join host port :
  IndexByte host ":" = None -> IndexByte host "[" = None -> IndexByte host "]" = None ->
  IndexByte port ":" = None -> IndexByte port "[" = None -> IndexByte port "]" = None ->
  SplitHostPort (host +++ ":" +++ port) = Some (host, port).
Proof.
  intros H1 H2 H3 P1 P2 P3. unfold SplitHostPort.
  change (":" +++ port) with (String ":" port).
  rewrite LastIndexByte_app by done. rewrite some_bind.
  assert (IndexByte (host +++ String ":" port) "[" = None) as E1.
  { rewrite IndexByte_app_l by done. simpl. by rewrite P2. }
  assert (IndexByte (host +++ String ":" port) "]" = None) as E2.
  { rewrite IndexByte_app_l by done. simpl. by rewrite P3. }
  assert (stake (String.length host) (host +++ String ":" port) = host) as E3
    by apply stake_app.
  assert (sdrop (S (String.length host)) (host +++ String ":" port) = port) as E4.
  { replace (host +++ String ":" port) with ((host +++ sbyte ":") +++ port)
      by (by rewrite sapp_assoc).
    replace (S (String.length host)) with (String.length (host +++ sbyte ":"))
      by (rewrite sapp_length; simpl; lia).
    apply sdrop_app. }
  assert (forall A (k1 k2 : A) (k3 : A),
     (match host +++ String ":" port with String "[" _ => k1 | _ => k2 end) = k2) as Hm.
  { intros A k1 k2 _. destruct host as [|c h]; [done|].
    simpl in H2. destruct (Ascii.eqb_spec c "[") as [|Hc]; [done|].
    simpl. destruct c as [[][][][][][][][]]; done. }
  rewrite Hm by exact None. rewrite E3, H1, some_bind. cbv beta iota.
  rewrite E4. cbn [sdrop]. by rewrite E1, E2.
Qed.

(** ** [net.IPMask.Size] *)

(** Leading ones of one byte; [None] when a one follows a zero. *)
Definition mask_byte_ones (v : Z) : option nat :=
  list_find (fun n => v = Z.land (Z.shiftl 255 (8 - Z.of_nat n)) 255) (seq 0 8) ≫=
  fun '(_, n) => Some n.

Fixpoint simpleMaskLength (mask : list Z) : option nat :=
  match mask with
  | [] => Some 0%nat
  | v :: mask =>
      if v =? 255 then Nat.add 8 <$> simpleMaskLength mask
      else n ← mask_byte_ones v;
           if forallb (fun w => w =? 0) mask then Some n else None
  end.

(** The number of ones; 0 for a mask that is not canonical. *)
Definition IPMask_ones (mask : list Z) : Z :=
  match simpleMaskLength mask with Some n => Z.of_nat n | None => 0 end.
