(* ===== verification/Netip6.v ===== *)
(** * The text of IPv6 addresses

    Facts about the parser and the printer of Netip: what [ParseAddr] gives
    is an address of its width, and parsing the printed form of an IPv6
    address gives it back, with its zone, whether a run of zero groups is
    left out or an IPv4 address is written in it. *)

From S2P Require Import Prelude GoStd Netip.
Local Open Scope Z_scope.

(** ** Groups of hexadecimal digits *)

Lemma hex_digit_char d :
  0 <= d < 16 ->
  Addr_hex_digit (digit_char d) = Some d /\ Ascii.eqb (digit_char d) ":" = false /\
  Ascii.eqb (digit_char d) "." = false /\ Ascii.eqb (digit_char d) "%" = false /\
  Ascii.eqb (digit_char d) "[" = false /\ Ascii.eqb (digit_char d) "]" = false.
Proof.
  intros Hd.
  assert (forallb (fun n =>
    bool_decide (Addr_hex_digit (digit_char (Z.of_nat n)) = Some (Z.of_nat n)) &&
    forallb (fun c => negb (Ascii.eqb (digit_char (Z.of_nat n)) c))
      [":"%char; "."%char; "%"%char; "["%char; "]"%char]) (seq 0 16) = true) as H
    by (vm_compute; reflexivity).
  rewrite forallb_forall in H. specialize (H (Z.to_nat d)). rewrite Z2Nat.id in H by lia.
  specialize (H ltac:(apply in_seq; lia)). simpl in H. bool_hyps. split_and!; done.
Qed.

(** The digits of a group. *)
Definition hex_digits (g : Z) : list Z :=
  if g <? 16 then [g]
  else if g <? 256 then [g / 16; g mod 16]
  else if g <? 4096 then [g / 256; g / 16 mod 16; g mod 16]
  else [g / 4096; g / 256 mod 16; g / 16 mod 16; g mod 16].

Fixpoint hex_string (ds : list Z) : string :=
  match ds with [] => "" | d :: ds => String (digit_char d) (hex_string ds) end.

Lemma hex16_digits g : 0 <= g < 65536 -> Addr_hex16 g = hex_string (hex_digits g).
Proof.
  intros Hg. unfold Addr_hex16, hex_digits. cbn [Addr_hex_go]. cbv zeta.
  rewrite !Z.div_div by lia. change (16 * 16) with 256. change (256 * 16) with 4096.
  destruct (Z.ltb_spec g 16); [by rewrite Z.mod_small by lia|].
  destruct (Z.ltb_spec (g / 16) 16), (Z.ltb_spec g 256);
    try (Z.to_euclidean_division_equations; lia); [by rewrite (Z.mod_small (g / 16)) by
      (Z.to_euclidean_division_equations; lia)|].
  destruct (Z.ltb_spec (g / 256) 16), (Z.ltb_spec g 4096);
    try (Z.to_euclidean_division_equations; lia); [by rewrite (Z.mod_small (g / 256)) by
      (Z.to_euclidean_division_equations; lia)|].
  rewrite (Z.mod_small (g / 4096)) by (Z.to_euclidean_division_equations; lia).
  by destruct (g / 4096 <? 16).
Qed.

(** Digits, at least one, of which the first decides that a text does not
    start with something else. *)
Lemma hex_digits_spec g :
  0 <= g < 65536 ->
  Forall (fun d => 0 <= d < 16) (hex_digits g) /\ (1 <= length (hex_digits g) <= 4)%nat /\
  fold_left (fun acc d => acc * 16 + d) (hex_digits g) 0 = g.
Proof.
  intros Hg. unfold hex_digits.
  destruct (Z.ltb_spec g 16); [|destruct (Z.ltb_spec g 256); [|destruct (Z.ltb_spec g 4096)]].
  all: split; [repeat constructor; Z.to_euclidean_division_equations; lia|].
  all: split; [simpl; lia|cbn [fold_left]; Z.to_euclidean_division_equations; lia].
Qed.

(** Something that ends a group. *)
Definition not_hex (s : string) : Prop :=
  match s with "" => True | String c _ => Addr_hex_digit c = None end.

Lemma hex_group_string ds off acc rest :
  Forall (fun d => 0 <= d < 16) ds -> (off + length ds <= 4)%nat ->
  0 <= acc -> fold_left (fun acc d => acc * 16 + d) ds acc < 65536 -> not_hex rest ->
  Addr_hex_group off acc (hex_string ds +++ rest) =
    Some ((off + length ds)%nat, fold_left (fun acc d => acc * 16 + d) ds acc, rest).
Proof.
  revert off acc. induction ds as [|d ds IH]; intros off acc Hds Hoff Hacc Hlt Hrest.
  - simpl. rewrite Nat.add_0_r. destruct rest as [|c rest]; [done|]. simpl in *. by rewrite Hrest.
  - inversion_clear Hds as [|? ? Hd Hds']. cbn [hex_string String.append Addr_hex_group].
    rewrite (proj1 (hex_digit_char d Hd)). cbv zeta.
    assert (forall ds acc, Forall (fun d => 0 <= d < 16) ds -> 0 <= acc ->
      acc <= fold_left (fun acc d => acc * 16 + d) ds acc) as Hmono.
    { clear. induction ds as [|d ds IH]; intros acc Hds Hacc; simpl; [lia|].
      inversion_clear Hds. specialize (IH (acc * 16 + d)). etrans; [|apply IH]; [lia|done|lia]. }
    simpl in Hoff, Hlt. specialize (Hmono ds (acc * 16 + d) Hds' ltac:(lia)).
    destruct (Nat.ltb_spec 3 off); [lia|]. destruct (Z.ltb_spec 65535 (acc * 16 + d)); [lia|].
    rewrite IH by (done || lia). do 3 f_equal. simpl. lia.
Qed.

(** One printed group is read as its value. *)
Lemma hex_group_print g rest :
  0 <= g < 65536 -> not_hex rest ->
  exists n, Addr_hex_group 0 0 (Addr_hex16 g +++ rest) = Some (S n, g, rest).
Proof.
  intros Hg Hrest. rewrite hex16_digits by done.
  destruct (hex_digits_spec g Hg) as (Hds & Hl & Hv).
  exists (length (hex_digits g) - 1)%nat.
  rewrite hex_group_string by (done || lia). rewrite Hv. do 3 f_equal. lia.
Qed.

Lemma hex16_first g :
  0 <= g < 65536 -> exists d t, 0 <= d < 16 /\ Addr_hex16 g = String (digit_char d) t.
Proof.
  intros Hg. rewrite hex16_digits by done.
  destruct (hex_digits_spec g Hg) as (Hds & Hl & _).
  destruct (hex_digits g) as [|d ds]; [simpl in Hl; lia|]. inversion_clear Hds.
  by exists d, (hex_string ds).
Qed.

(** ** Groups and colons *)

Definition group_ok (g : Z) : Prop := 0 <= g < 65536.

(** The two bytes of a group. *)
Definition group_bytes (g : Z) : list Z := [Z.shiftr g 8; Z.land g 255].
Definition groups_bytes (gs : list Z) : list Z := flat_map group_bytes gs.

Lemma groups_bytes_length gs : length (groups_bytes gs) = (2 * length gs)%nat.
Proof. induction gs as [|g gs IH]; [done|]. cbn [groups_bytes flat_map length app group_bytes]. fold (groups_bytes gs). lia. Qed.

Lemma colon_join_cons g gs :
  Addr_colon_join (g :: gs) =
  Addr_hex16 g +++ match gs with [] => "" | _ => ":" +++ Addr_colon_join gs end.
Proof.
  unfold Addr_colon_join. cbn [List.map].
  assert (forall l acc t, fold_left (fun acc x => acc +++ ":" +++ x) l (acc +++ t) =
    acc +++ fold_left (fun acc x => acc +++ ":" +++ x) l t) as Hf.
  { induction l as [|x l IH]; intros acc t; cbn [fold_left]; [done|]. by rewrite sapp_assoc, IH. }
  destruct gs as [|g' gs]; cbn [List.map fold_left]; [by rewrite sapp_nil_r|].
  rewrite Hf. f_equal. by rewrite (Hf _ ":").
Qed.

(** The joined text of some groups starts with a digit. *)
Lemma colon_join_first g gs :
  group_ok g -> exists d t, 0 <= d < 16 /\ Addr_colon_join (g :: gs) = String (digit_char d) t.
Proof.
  intros Hg. destruct (hex16_first g Hg) as (d & t & Hd & Ht).
  rewrite colon_join_cons, Ht. cbn [String.append]. by eexists _, _.
Qed.

Lemma not_hex_colon s : not_hex (":" +++ s).
Proof. done. Qed.

(** The loop reads joined groups to the end of the text. *)
Lemma ipv6_loop_end gs rounds ip e :
  gs <> [] -> Forall group_ok gs -> (length gs <= rounds)%nat ->
  Addr_ipv6_loop rounds ip e (Addr_colon_join gs) = Some (ip ++ groups_bytes gs, e, "").
Proof.
  revert rounds ip. induction gs as [|g gs IH]; intros rounds ip Hne Hgs Hr; [done|].
  destruct rounds as [|rounds]; [simpl in Hr; lia|]. inversion_clear Hgs as [|? ? Hg Hgs'].
  rewrite colon_join_cons. cbn [Addr_ipv6_loop].
  destruct gs as [|g' gs].
  - destruct (hex_group_print g "" Hg I) as [n Hn]. rewrite Hn, some_bind. done.
  - destruct (hex_group_print g (":" +++ Addr_colon_join (g' :: gs)) Hg (not_hex_colon _)) as [n Hn].
    rewrite Hn, some_bind. cbv beta iota zeta. cbn [Nat.eqb String.append].
    change (Ascii.eqb ":" ".") with false. change (Ascii.eqb ":" ":") with true. cbv iota. cbn [negb].
    inversion Hgs' as [|? ? Hg' _]. subst.
    destruct (colon_join_first g' gs Hg') as (d & t & Hd & Ht).
    rewrite Ht. rewrite (proj1 (proj2 (hex_digit_char d Hd))). cbv iota. rewrite <- Ht.
    rewrite IH by (done || (simpl in *; lia)). rewrite <- app_assoc. done.
Qed.

(** Joined groups, the ellipsis, and joined groups. *)
Lemma ipv6_loop_ellipsis pre suf rounds ip :
  pre <> [] -> Forall group_ok pre -> Forall group_ok suf ->
  (length pre + length suf <= rounds)%nat ->
  Addr_ipv6_loop rounds ip None (Addr_colon_join pre +++ "::" +++ Addr_colon_join suf) =
    Some (ip ++ groups_bytes pre ++ groups_bytes suf,
          Some (length (ip ++ groups_bytes pre)), "").
Proof.
  revert rounds ip. induction pre as [|g pre IH]; intros rounds ip Hne Hpre Hsuf Hr; [done|].
  destruct rounds as [|rounds]; [simpl in Hr; lia|]. inversion_clear Hpre as [|? ? Hg Hpre'].
  rewrite colon_join_cons, sapp_assoc. cbn [Addr_ipv6_loop].
  destruct pre as [|g' pre].
  - destruct (hex_group_print g ("" +++ "::" +++ Addr_colon_join suf) Hg eq_refl) as [n Hn].
    rewrite Hn, some_bind. cbv beta iota zeta. cbn [Nat.eqb String.append].
    change (Ascii.eqb ":" ".") with false. change (Ascii.eqb ":" ":") with true. cbv iota. cbn [negb].
    destruct suf as [|h suf]; [by cbn [groups_bytes flat_map app]; rewrite !app_nil_r|].
    inversion Hsuf as [|? ? Hh _]. subst.
    destruct (colon_join_first h suf Hh) as (d & t & Hd & Ht). rewrite Ht. cbv iota. rewrite <- Ht.
    rewrite ipv6_loop_end by (done || (simpl in *; lia)).
    cbn [groups_bytes flat_map app]. by rewrite <- app_assoc.
  - destruct (hex_group_print g ((":" +++ Addr_colon_join (g' :: pre)) +++ "::" +++
      Addr_colon_join suf) Hg eq_refl) as [n Hn].
    rewrite Hn, some_bind. cbv beta iota zeta. cbn [Nat.eqb]. rewrite sapp_assoc. cbn [String.append].
    change (Ascii.eqb ":" ".") with false. change (Ascii.eqb ":" ":") with true. cbv iota. cbn [negb].
    inversion Hpre' as [|? ? Hg' _]. subst.
    destruct (colon_join_first g' pre Hg') as (d & t & Hd & Ht).
    specialize (IH rounds (ip ++ group_bytes g) ltac:(done) Hpre' Hsuf ltac:(simpl in *; lia)).
    revert IH. rewrite Ht. cbn [String.append].
    rewrite (proj1 (proj2 (hex_digit_char d Hd))). cbv iota. intros IH.
    etrans; [exact IH|]. cbn [groups_bytes flat_map]. by rewrite <- !app_assoc.
Qed.

(** ** The run of zeros that is left out *)

(** A part of [all] from [s] to [e] that holds zeros only. *)
Definition zero_part (all : list Z) (r : nat * nat) : Prop :=
  (r.1 < r.2)%nat /\ (r.2 <= length all)%nat /\
  all = take r.1 all ++ repeat 0 (r.2 - r.1) ++ drop r.2 all.

Lemma zero_run_take gs :
  (Addr_zero_run gs <= length gs)%nat /\
  gs = repeat 0 (Addr_zero_run gs) ++ drop (Addr_zero_run gs) gs.
Proof.
  induction gs as [|g gs [IH1 IH2]]; [done|]. simpl.
  destruct (Z.eqb_spec g 0) as [->|]; simpl; [|by split; [lia|]].
  split; [lia|]. by f_equal.
Qed.

Lemma longest_run_part all i gs best :
  gs = drop i all -> zero_part all best \/ (best.2 - best.1 = 0)%nat ->
  let r := Addr_longest_run i gs best in zero_part all r \/ (r.2 - r.1 = 0)%nat.
Proof.
  cbv zeta. revert i best. induction gs as [|g gs IH]; intros i best Hgs Hb; [done|].
  cbn [Addr_longest_run]. cbv zeta.
  assert (i < length all)%nat as Hi.
  { assert (length (g :: gs) = length (drop i all)) as Hl by (by rewrite Hgs).
    rewrite length_drop in Hl. simpl in Hl. lia. }
  apply IH.
  { apply (f_equal (drop 1)) in Hgs. rewrite drop_drop in Hgs. simpl in Hgs.
    by rewrite drop_0, Nat.add_comm in Hgs. }
  destruct (_ && _) eqn:E; [left|done].
  destruct (zero_run_take (g :: gs)) as [Hl Hz]. bool_hyps. set (l := Addr_zero_run (g :: gs)) in *.
  assert ((2 <=? l)%nat = true) as H2 by done. apply Nat.leb_le in H2.
  unfold zero_part. cbn [fst snd]. replace (i + l - i)%nat with l by lia.
  rewrite Hgs in Hl, Hz. rewrite length_drop in Hl. split; [lia|]. split; [lia|].
  rewrite <- drop_drop. rewrite <- Hz. by rewrite take_drop.
Qed.

(** ** The groups and the bytes of an address *)

Lemma group_range ip i : group_ok (Addr_group ip i).
Proof.
  unfold group_ok, Addr_group. change 0xffff with (Z.ones 16). rewrite Z.land_ones by lia.
  apply (Z.mod_pos_bound _ (2 ^ 16)). lia.
Qed.

Lemma groups_ok ip : Forall group_ok (Addr_groups ip).
Proof. apply Forall_fmap, Forall_true. intros i. apply group_range. Qed.

Lemma group_high ip k :
  0 <= k -> Z.shiftr (Z.land (Z.shiftr ip k) 65535) 8 = Z.land (Z.shiftr ip (k + 8)) 255.
Proof.
  intros Hk. rewrite Z.shiftr_land. rewrite Z.shiftr_shiftr by lia. done.
Qed.

Lemma group_low ip k : Z.land (Z.land (Z.shiftr ip k) 65535) 255 = Z.land (Z.shiftr ip k) 255.
Proof. by rewrite <- Z.land_assoc. Qed.

Lemma groups_bytes_ip ip : groups_bytes (Addr_groups ip) = be_bytes 16 ip.
Proof.
  unfold Addr_groups, groups_bytes, group_bytes, Addr_group. cbn [seq List.map flat_map app].
  rewrite !group_high, !group_low by lia. cbn [be_bytes].
  repeat match goal with
  | |- _ :: _ = _ :: _ => f_equal
  | |- Z.land (Z.shiftr ip ?a) 255 = Z.land (Z.shiftr ip ?b) 255 => f_equal; f_equal; lia
  end.
Qed.

Lemma groups_bytes_zeros n : groups_bytes (repeat 0 n) = repeat 0 (2 * n).
Proof.
  induction n as [|n IH]; [done|]. replace (2 * S n)%nat with (S (S (2 * n))) by lia.
  cbn [repeat groups_bytes flat_map app group_bytes]. fold (groups_bytes (repeat 0 n)). by rewrite IH.
Qed.

Lemma groups_bytes_app a b : groups_bytes (a ++ b) = groups_bytes a ++ groups_bytes b.
Proof. apply flat_map_app. Qed.

(** Filling in the zeros. *)
Lemma ipv6_finish_run ip zone s e :
  0 <= ip < 2 ^ 128 -> zero_part (Addr_groups ip) (s, e) ->
  let pre := take s (Addr_groups ip) in let suf := drop e (Addr_groups ip) in
  Addr_ipv6_finish zone (groups_bytes pre ++ groups_bytes suf,
    Some (length (groups_bytes pre)), "") = Some (Addr6 ip zone).
Proof.
  intros Hip (Hlt & Hle & Hall). cbn [fst snd] in *. cbv zeta.
  assert (length (Addr_groups ip) = 8%nat) as H8 by (unfold Addr_groups; by rewrite length_map).
  unfold Addr_ipv6_finish. cbn [String.eqb negb].
  rewrite length_app, !groups_bytes_length, length_take, length_drop, H8 in *.
  destruct (Nat.ltb_spec (2 * (s `min` 8) + 2 * (8 - e)) 16); [|lia].
  do 2 f_equal. rewrite take_app_le, drop_app_ge by (rewrite groups_bytes_length, length_take, H8; lia).
  rewrite take_ge, groups_bytes_length, length_take, H8 by
    (rewrite groups_bytes_length, length_take, H8; lia).
  rewrite Nat.sub_diag, drop_0.
  replace (16 - (2 * (s `min` 8) + 2 * (8 - e)))%nat with (2 * (e - s))%nat by lia.
  rewrite <- groups_bytes_zeros, <- !groups_bytes_app, <- Hall, groups_bytes_ip.
  by apply be_value_bytes.
Qed.

(** ** The round trip *)

Lemma IndexByte_app_hit s c t : IndexByte s c = None -> IndexByte (s +++ String c t) c = Some (String.length s).
Proof.
  induction s as [|x s IH]; cbn [String.append IndexByte].
  - by rewrite Ascii.eqb_refl.
  - destruct (Ascii.eqb x c); [done|]. destruct (IndexByte s c); [done|].
    intros _. by rewrite IH.
Qed.

(** The parser without its zone. *)
Definition parse_body (zone s : string) : option Addr :=
  match s with
  | String ":" (String ":" "") => Some (Addr6 0 zone)
  | String ":" (String ":" s) => r ← Addr_ipv6_loop 8 [] (Some 0%nat) s; Addr_ipv6_finish zone r
  | _ => r ← Addr_ipv6_loop 8 [] None s; Addr_ipv6_finish zone r
  end.

Definition with_zone (body zone : string) : string :=
  match zone with "" => body | _ => body +++ "%" +++ zone end.

Lemma parseIPv6_zone body zone :
  IndexByte body "%" = None -> Addr_parseIPv6 (with_zone body zone) = parse_body zone body.
Proof.
  intros Hb. unfold Addr_parseIPv6, with_zone. destruct zone as [|c zone]; [by rewrite Hb|].
  cbn [String.append]. rewrite IndexByte_app_hit by done.
  assert (sdrop (S (String.length body)) (body +++ String "%" (String c zone)) = String c zone) as ->.
  { replace (body +++ String "%" (String c zone)) with ((body +++ "%") +++ String c zone)
      by (by rewrite sapp_assoc).
    replace (S (String.length body)) with (String.length (body +++ "%"))
      by (rewrite sapp_length; simpl; lia).
    apply sdrop_app. }
  by rewrite stake_app.
Qed.

(** A text that does not start with a colon. *)
Lemma parse_body_first zone c t :
  Ascii.eqb c ":" = false ->
  parse_body zone (String c t) =
    r ← Addr_ipv6_loop 8 [] None (String c t); Addr_ipv6_finish zone r.
Proof.
  intros Hc. unfold parse_body.
  assert (forall A (a : string -> A) b,
    match c with ":"%char => a t | _ => b end = b) as Hm.
  { intros A a b. by destruct c as [[] [] [] [] [] [] [] []]. }
  exact (Hm _ (fun t => match t with
    | String ":" "" => Some (Addr6 0 zone)
    | String ":" s => r ← Addr_ipv6_loop 8 [] (Some 0%nat) s; Addr_ipv6_finish zone r
    | _ => r ← Addr_ipv6_loop 8 [] None (String c t); Addr_ipv6_finish zone r
    end) _).
Qed.

(** The characters of joined groups. *)
Definition hex_or_colon (c : ascii) : bool :=
  (negb (Ascii.eqb c "%") && negb (Ascii.eqb c "[") && negb (Ascii.eqb c "]") &&
   negb (Ascii.eqb c "."))%bool.

Lemma hex16_chars g : group_ok g -> sforall hex_or_colon (Addr_hex16 g) = true.
Proof.
  intros Hg. rewrite hex16_digits by done. destruct (hex_digits_spec g Hg) as (Hds & _).
  induction Hds as [|d ds Hd _ IH]; [done|].
  destruct (hex_digit_char d Hd) as (_ & _ & H1 & H2 & H3 & H4).
  change (hex_or_colon (digit_char d) && sforall hex_or_colon (hex_string ds) = true)%bool.
  rewrite IH. unfold hex_or_colon. by rewrite H1, H2, H3, H4.
Qed.

Lemma colon_join_chars gs : Forall group_ok gs -> sforall hex_or_colon (Addr_colon_join gs) = true.
Proof.
  induction 1 as [|g gs Hg Hgs IH]; [done|]. rewrite colon_join_cons, sforall_app, hex16_chars by done.
  destruct gs; [done|]. by rewrite sforall_app, IH.
Qed.

Lemma chars_IndexByte p s c :
  sforall p s = true -> p c = false -> IndexByte s c = None.
Proof.
  intros Hs Hc. apply IndexByte_none_sforall. eapply sforall_impl; [|exact Hs].
  intros x Hx. destruct (Ascii.eqb_spec x c) as [->|]; [congruence|done].
Qed.

(** The printed body: the groups, without their longest run of zeros. *)
Definition string6_body (ip : Z) : string :=
  let gs := Addr_groups ip in
  let '(zs, ze) := Addr_longest_run 0 gs (255, 255)%nat in
  if (ze - zs =? 0)%nat then Addr_colon_join gs
  else Addr_colon_join (take zs gs) +++ "::" +++ Addr_colon_join (drop ze gs).

Lemma string6_body_chars ip : sforall hex_or_colon (string6_body ip) = true.
Proof.
  pose proof (groups_ok ip) as Hgs. unfold string6_body.
  destruct (Addr_longest_run _ _ _) as [zs ze].
  destruct (_ =? _)%nat; [by apply colon_join_chars|].
  rewrite !sforall_app, !colon_join_chars by (by apply Forall_take || by apply Forall_drop). done.
Qed.

Lemma parse_string6_body ip zone :
  0 <= ip < 2 ^ 128 -> parse_body zone (string6_body ip) = Some (Addr6 ip zone).
Proof.
  intros Hip. pose proof (groups_ok ip) as Hgs.
  assert (length (Addr_groups ip) = 8%nat) as H8 by (unfold Addr_groups; by rewrite length_map).
  pose proof (longest_run_part (Addr_groups ip) 0 (Addr_groups ip) (255, 255)%nat eq_refl
    (or_intror eq_refl)) as Hrun. cbv zeta in Hrun. unfold string6_body.
  destruct (Addr_longest_run 0 (Addr_groups ip) (255, 255)%nat) as [zs ze]. cbn [fst snd] in Hrun.
  destruct (Nat.eqb_spec (ze - zs) 0) as [E0|E0].
  - destruct (Addr_groups ip) as [|g gs] eqn:Eg; [done|]. inversion Hgs as [|? ? Hg Hgs']. subst.
    destruct (colon_join_first g gs Hg) as (d & t & Hd & Ht). rewrite Ht.
    rewrite parse_body_first by apply (hex_digit_char d Hd). rewrite <- Ht.
    rewrite ipv6_loop_end by (done || lia). rewrite some_bind. unfold Addr_ipv6_finish.
    cbn [String.eqb negb app]. rewrite <- Eg, groups_bytes_ip, be_bytes_length. cbn [Nat.ltb Nat.leb].
    do 2 f_equal. by apply be_value_bytes.
  - destruct Hrun as [Hrun|]; [|done]. pose proof (ipv6_finish_run ip zone zs ze Hip Hrun) as Hf.
    cbv zeta in Hf. destruct Hrun as (Hlt & Hle & _). cbn [fst snd] in Hlt, Hle.
    assert (Forall group_ok (take zs (Addr_groups ip)) /\ Forall group_ok (drop ze (Addr_groups ip)) /\
      length (take zs (Addr_groups ip)) + length (drop ze (Addr_groups ip)) <= 8)%nat as (Hp & Hs & Hl).
    { split; [by apply Forall_take|]. split; [by apply Forall_drop|].
      rewrite length_take, length_drop. lia. }
    revert Hf Hp Hs Hl. generalize (take zs (Addr_groups ip)) (drop ze (Addr_groups ip)).
    intros pre suf Hf Hp Hs Hl. destruct pre as [|g pre].
    + cbn [Addr_colon_join List.map String.append]. destruct suf as [|h suf].
      * cbn in Hf. cbn [Addr_colon_join List.map String.append parse_body].
        revert Hf. unfold Addr_ipv6_finish. cbn. intros [= <-]. done.
      * inversion Hs as [|? ? Hh _]. subst.
        destruct (colon_join_first h suf Hh) as (d & t & Hd & Ht). rewrite Ht.
        cbn [parse_body]. rewrite <- Ht. rewrite ipv6_loop_end by (done || (simpl in *; lia)).
        rewrite some_bind. exact Hf.
    + inversion Hp as [|? ? Hg _]. subst.
      destruct (colon_join_first g pre Hg) as (d & t & Hd & Ht).
      assert (Addr_colon_join (g :: pre) +++ "::" +++ Addr_colon_join suf =
        String (digit_char d) (t +++ "::" +++ Addr_colon_join suf)) as Hfirst by (by rewrite Ht).
      rewrite Hfirst, parse_body_first by apply (hex_digit_char d Hd). rewrite <- Hfirst.
      rewrite ipv6_loop_ellipsis by done. rewrite some_bind. exact Hf.
Qed.

(** *** IPv4-mapped addresses *)

Lemma octet_hex d :
  0 <= d < 256 -> exists x ds, Forall (fun d => 0 <= d < 16) (x :: ds) /\ (length ds <= 2)%nat /\
    FormatUint d = hex_string (x :: ds).
Proof.
  intros Hd. rewrite FormatUint_octet by done. unfold octet_string, sbyte.
  destruct (Z.ltb_spec d 10); [|destruct (Z.ltb_spec d 100)].
  - exists d, []. split_and!; [repeat constructor; lia|simpl; lia|done].
  - exists (d / 10), [d mod 10]. split_and!; [|simpl; lia|done].
    repeat constructor; Z.to_euclidean_division_equations; lia.
  - exists (d / 100), [d / 10 mod 10; d mod 10]. split_and!; [|simpl; lia|done].
    repeat constructor; Z.to_euclidean_division_equations; lia.
Qed.

(** The value of at most three hexadecimal digits. *)
Lemma hex_value_bound x ds :
  Forall (fun d => 0 <= d < 16) (x :: ds) -> (length ds <= 2)%nat ->
  fold_left (fun acc d => acc * 16 + d) (x :: ds) 0 < 65536.
Proof.
  intros Hds Hl. destruct ds as [|y [|z [|]]]; simpl in Hl; try lia;
    repeat match goal with H : Forall _ (_ :: _) |- _ => inversion_clear H end; simpl; lia.
Qed.

(** An IPv4 address in place of the last two groups. *)
Lemma ipv6_loop_ipv4 ip low rounds e :
  (length ip <= 12)%nat -> e <> None -> 
  Addr_ipv6_loop (S rounds) ip e (Addr_string4 low) = Some (ip ++ be_bytes 4 low, e, "").
Proof.
  intros Hl He. destruct (string4_octets low) as (a & b & c & d & Eb & Ha & Hb & Hc & Hd & Es).
  rewrite Es, Eb. destruct (octet_hex a Ha) as (x & ds & Hds & Hlen & Ea).
  cbn [Addr_ipv6_loop].
  set (rest := "." +++ FormatUint b +++ "." +++ FormatUint c +++ "." +++ FormatUint d).
  assert (Addr_hex_group 0 0 (FormatUint a +++ rest) =
    Some (S (length ds), fold_left (fun acc d => acc * 16 + d) (x :: ds) 0, rest)) as Hg.
  { rewrite Ea, hex_group_string; [done|done|simpl; lia|lia|by apply hex_value_bound|done]. }
  rewrite Hg, some_bind. cbv beta iota zeta. cbn [Nat.eqb].
  subst rest. cbn [String.append]. change (Ascii.eqb "." ".") with true. cbv iota.
  rewrite bool_decide_false by done. cbn [andb].
  destruct (Nat.ltb_spec 16 (length ip + 4)); [lia|].
  pose proof (parseIPv4Fields_print a b c d Ha Hb Hc Hd) as Hp. cbn [String.append] in Hp.
  rewrite Hp. done.
Qed.

Lemma string4_first low :
  exists c t, Addr_string4 low = String c t /\ Ascii.eqb c ":" = false.
Proof.
  destruct (string4_octets low) as (a & b & c & d & _ & Ha & _ & _ & _ & Es).
  destruct (octet_hex a Ha) as (x & ds & Hds & _ & Ea). rewrite Es, Ea.
  inversion_clear Hds as [|? ? Hx _]. cbn [hex_string String.append].
  eexists _, _. split; [done|]. apply (hex_digit_char x Hx).
Qed.

Lemma parse_mapped ip zone :
  0 <= ip < 2 ^ 128 -> Z.shiftr ip 32 = 65535 ->
  parse_body zone ("::ffff:" +++ Addr_string4 (Z.land ip 0xffffffff)) = Some (Addr6 ip zone).
Proof.
  intros Hip Hhigh. set (low := Z.land ip 0xffffffff).
  cbn [String.append parse_body].
  change (String "f" (String "f" (String "f" (String "f" (String ":" (Addr_string4 low))))))
    with (Addr_hex16 65535 +++ ":" +++ Addr_string4 low).
  destruct (string4_first low) as (c & t & Hc & Hne).
  assert (Addr_ipv6_loop 8 [] (Some 0%nat) (Addr_hex16 65535 +++ ":" +++ Addr_string4 low) =
    Addr_ipv6_loop 7 [255; 255] (Some 0%nat) (Addr_string4 low)) as ->.
  { rewrite Hc. cbn [Addr_ipv6_loop].
    destruct (hex_group_print 65535 (":" +++ String c t) ltac:(lia) (not_hex_colon _)) as [n Hn].
    rewrite Hn, some_bind. cbv beta iota zeta. cbn [Nat.eqb String.append].
    change (Ascii.eqb ":" ".") with false. change (Ascii.eqb ":" ":") with true. cbv iota. cbn [negb].
    rewrite Hne. done. }
  rewrite ipv6_loop_ipv4 by (done || (simpl; lia)). rewrite some_bind.
  assert (be_value (be_bytes 4 low) = low) as Hlow.
  { apply be_value_bytes. subst low. change 0xffffffff with (Z.ones 32).
    rewrite Z.land_ones by lia. apply Z.mod_pos_bound. lia. }
  destruct (string4_octets low) as (a & b & c' & d & Eb & _). rewrite Eb in *.
  unfold Addr_ipv6_finish. cbn [String.eqb negb app length Nat.ltb Nat.leb]. do 2 f_equal.
  unfold be_value in *. cbn [fold_left take drop repeat Nat.sub app] in *.
  assert (ip = Z.shiftr ip 32 * 2 ^ 32 + low) as Hs.
  { subst low. change 0xffffffff with (Z.ones 32). rewrite Z.land_ones, Z.shiftr_div_pow2 by lia.
    rewrite Z.mul_comm. apply Z.div_mod. lia. }
  rewrite Hhigh in Hs. lia.
Qed.

(** *** The dispatch *)

Definition before_sep (c : ascii) : bool :=
  (negb (Ascii.eqb c ".") && negb (Ascii.eqb c ":") && negb (Ascii.eqb c "%"))%bool.

Lemma parse_kind_colon input s t :
  sforall before_sep s = true -> Addr_parse_kind input (s +++ String ":" t) = Addr_parseIPv6 input.
Proof.
  induction s as [|c s IH]; [done|]. intros Hs.
  change (before_sep c && sforall before_sep s = true)%bool in Hs. unfold before_sep in Hs at 1.
  bool_hyps. cbn [String.append Addr_parse_kind].
  repeat match goal with H : Ascii.eqb c _ = false |- _ => rewrite H; clear H end. by apply IH.
Qed.

Lemma hex16_before_sep g : group_ok g -> sforall before_sep (Addr_hex16 g) = true.
Proof.
  intros Hg. rewrite hex16_digits by done. destruct (hex_digits_spec g Hg) as (Hds & _).
  induction Hds as [|d ds Hd _ IH]; [done|].
  destruct (hex_digit_char d Hd) as (_ & H1 & H2 & H3 & _).
  change (before_sep (digit_char d) && sforall before_sep (hex_string ds) = true)%bool.
  rewrite IH. unfold before_sep. by rewrite H1, H2, H3.
Qed.

(** The text of an IPv6 address has a colon before any other separator. *)
Lemma string6_body_colon ip :
  exists s t, string6_body ip = s +++ String ":" t /\ sforall before_sep s = true.
Proof.
  pose proof (groups_ok ip) as Hgs.
  assert (forall gs u, Forall group_ok gs -> (2 <= length gs)%nat ->
    exists s t, Addr_colon_join gs +++ u = s +++ String ":" t /\ sforall before_sep s = true) as Hj.
  { intros gs u Hok Hl. destruct gs as [|g [|h gs]]; simpl in Hl; try lia. inversion_clear Hok.
    exists (Addr_hex16 g), (Addr_colon_join (h :: gs) +++ u).
    rewrite colon_join_cons, sapp_assoc. split; [done|by apply hex16_before_sep]. }
  unfold string6_body. destruct (Addr_longest_run _ _ _) as [zs ze].
  destruct (_ =? _)%nat.
  - rewrite <- (sapp_nil_r (Addr_colon_join (Addr_groups ip))). apply Hj; [done|].
    unfold Addr_groups. rewrite length_map. simpl. lia.
  - assert (Forall group_ok (take zs (Addr_groups ip))) as Hp by (by apply Forall_take).
    destruct (take zs (Addr_groups ip)) as [|g [|h pre]].
    + by exists "", (":" +++ Addr_colon_join (drop ze (Addr_groups ip))).
    + inversion_clear Hp. exists (Addr_hex16 g), (":" +++ Addr_colon_join (drop ze (Addr_groups ip))).
      rewrite colon_join_cons, sapp_nil_r. split; [done|by apply hex16_before_sep].
    + apply Hj; [done|simpl; lia].
Qed.

(** The text of an address without its zone. *)
Definition text6_body (ip : Z) : string :=
  if Z.shiftr ip 32 =? 0xffff then "::ffff:" +++ Addr_string4 (Z.land ip 0xffffffff)
  else string6_body ip.

Lemma ToString6_body ip zone : Addr_ToString (Addr6 ip zone) = with_zone (text6_body ip) zone.
Proof.
  unfold Addr_ToString, text6_body, Addr_Is4In6, Addr_string6, string6_body.
  destruct (_ =? 65535); [done|]. by destruct (Addr_longest_run _ _ _).
Qed.

(** A character that is in no printed address: neither a digit, a letter, a
    dot nor a colon. *)
Lemma text6_body_IndexByte ip c :
  hex_or_colon c = false -> Ascii.eqb "." c = false -> is_digit c = false ->
  IndexByte (text6_body ip) c = None.
Proof.
  intros Hc Hdot Hdig. unfold text6_body. destruct (_ =? 65535).
  - rewrite IndexByte_app_l.
    + by rewrite string4_IndexByte.
    + by apply (chars_IndexByte hex_or_colon).
  - by apply (chars_IndexByte hex_or_colon); [apply string6_body_chars|].
Qed.

(** Parsing a printed IPv6 address gives it back, zone included. *)
Lemma ParseAddr_string6 ip zone :
  0 <= ip < 2 ^ 128 -> ParseAddr (Addr_ToString (Addr6 ip zone)) = Some (Addr6 ip zone).
Proof.
  intros Hip. rewrite ToString6_body. unfold ParseAddr.
  assert (exists s t, with_zone (text6_body ip) zone = s +++ String ":" t /\
    sforall before_sep s = true) as (s & t & Hst & Hs).
  { assert (exists s t, text6_body ip = s +++ String ":" t /\ sforall before_sep s = true)
      as (s & t & Hst & Hs).
    { unfold text6_body. destruct (_ =? 65535); [|apply string6_body_colon].
      by exists "", (":ffff:" +++ Addr_string4 (Z.land ip 0xffffffff)). }
    rewrite Hst. unfold with_zone. destruct zone as [|c zone]; [by exists s, t|].
    exists s, (t +++ "%" +++ String c zone). by rewrite sapp_assoc. }
  rewrite Hst at 2. rewrite parse_kind_colon by done.
  rewrite parseIPv6_zone by (by apply text6_body_IndexByte). unfold text6_body.
  destruct (Z.eqb_spec (Z.shiftr ip 32) 65535); [by apply parse_mapped|by apply parse_string6_body].
Qed.

(** Every address Go can build, but the zero one, is read back from its
    text. *)
Lemma ParseAddr_ToString a :
  addr_wf a -> a <> AddrZero -> ParseAddr (Addr_ToString a) = Some a.
Proof.
  destruct a as [|ip|ip zone]; intros Ha Hne; [done| |by apply ParseAddr_string6].
  by apply ParseAddr_string4.
Qed.

(** ** What the parser gives has the width of its kind *)

Definition byte_ok (b : Z) : Prop := 0 <= b < 256.

Lemma be_value_bound bs :
  Forall byte_ok bs -> 0 <= be_value bs < 2 ^ (8 * Z.of_nat (length bs)).
Proof.
  induction bs as [|b bs IH] using rev_ind; [done|].
  intros [Hbs Hb]%Forall_app. inversion_clear Hb as [|? ? Hb' _]. specialize (IH Hbs).
  rewrite be_value_app, length_app. simpl (length [b]).
  replace (8 * Z.of_nat (length bs + 1)) with (8 * Z.of_nat (length bs) + 8) by lia.
  rewrite Z.pow_add_r by lia. unfold byte_ok in *. lia.
Qed.

Lemma ipv4_fields_ok first dot v n fs s r :
  Forall byte_ok fs -> byte_ok v -> (length fs <= 3)%nat ->
  Addr_ipv4_fields first dot v n fs s = Some r -> Forall byte_ok r /\ length r = 4%nat.
Proof.
  revert first dot v n fs. induction s as [|c s IH]; intros first dot v n fs Hfs Hv Hl; cbn [Addr_ipv4_fields].
  - destruct (Nat.ltb_spec (length fs) 3); [done|]. intros [= <-].
    rewrite Forall_app, length_app. simpl. split; [split; [done|by apply Forall_singleton]|lia].
  - destruct (is_digit c) eqn:Ed.
    + destruct (_ && _); [done|]. destruct (Z.ltb_spec 255 (v * 10 + digit_val c)); [done|].
      apply IH; [done| |done]. apply digit_val_range in Ed. unfold byte_ok in *. lia.
    + destruct (Ascii.eqb c "."); [|done]. destruct (_ || _ || _); [done|].
      destruct (Nat.eqb_spec (length fs) 3); [done|]. apply IH.
      * rewrite Forall_app. split; [done|by apply Forall_singleton].
      * unfold byte_ok. lia.
      * rewrite length_app. simpl. lia.
Qed.

Lemma parseIPv4Fields_ok s r :
  Addr_parseIPv4Fields s = Some r -> Forall byte_ok r /\ length r = 4%nat.
Proof. apply ipv4_fields_ok; [constructor|unfold byte_ok; lia|simpl; lia]. Qed.

Lemma hex_digit_range c d : Addr_hex_digit c = Some d -> 0 <= d < 16.
Proof.
  unfold Addr_hex_digit, is_digit. cbv zeta.
  repeat match goal with |- (if ?b then _ else _) = _ -> _ => destruct b eqn:? end;
    intros [= <-]; bool_hyps; lia.
Qed.

Lemma hex_group_ok off acc s n g rest :
  0 <= acc < 65536 -> Addr_hex_group off acc s = Some (n, g, rest) -> group_ok g.
Proof.
  revert off acc. induction s as [|c s IH]; intros off acc Hacc; cbn [Addr_hex_group].
  - by intros [= _ <- _].
  - destruct (Addr_hex_digit c) as [d|] eqn:Ed; [|by intros [= _ <- _]]. cbv zeta.
    destruct (3 <? off)%nat; [done|]. destruct (Z.ltb_spec 65535 (acc * 16 + d)); [done|].
    apply IH. apply hex_digit_range in Ed. lia.
Qed.

Lemma group_bytes_ok g : group_ok g -> Forall byte_ok (group_bytes g).
Proof.
  intros Hg. unfold group_ok, group_bytes, byte_ok in *. repeat constructor.
  - apply Z.shiftr_nonneg. lia.
  - rewrite Z.shiftr_div_pow2 by lia. apply Z.div_lt_upper_bound; lia.
  - apply Z.land_nonneg. lia.
  - change 255 with (Z.ones 8). rewrite Z.land_ones by lia. apply (Z.mod_pos_bound _ (2 ^ 8)). lia.
Qed.

Definition ipv6_bytes_ok (e : option nat) (ip : list Z) : Prop :=
  Forall byte_ok ip /\ (length ip <= 16)%nat /\
  match e with Some n => (n <= length ip)%nat | None => True end.

Lemma ipv6_loop_ok rounds ip e s r :
  ipv6_bytes_ok e ip -> (length ip + 2 * rounds <= 16)%nat ->
  Addr_ipv6_loop rounds ip e s = Some r -> ipv6_bytes_ok r.1.2 r.1.1.
Proof.
  revert ip e s. induction rounds as [|rounds IH]; intros ip e s Hok Hr; [by intros [= <-]|].
  cbn [Addr_ipv6_loop]. destruct (Addr_hex_group 0 0 s) as [[[n g] rest]|] eqn:Eg; [|done].
  rewrite some_bind. cbv beta iota zeta. apply hex_group_ok in Eg; [|lia].
  assert (ipv6_bytes_ok e (ip ++ group_bytes g) /\ (length (ip ++ group_bytes g) + 2 * rounds <= 16)%nat)
    as [Hok' Hr'].
  { destruct Hok as (H1 & H2 & H3). unfold ipv6_bytes_ok.
    rewrite Forall_app, length_app. simpl (length (group_bytes g)). split; [|lia].
    split; [by split; [|apply group_bytes_ok]|]. split; [lia|]. destruct e; [lia|done]. }
  destruct (n =? 0)%nat; [done|]. destruct rest as [|c rest]; [by intros [= <-]|].
  destruct (Ascii.eqb c ".").
  { destruct (_ && _); [done|]. destruct (Nat.ltb_spec 16 (length ip + 4)); [done|].
    destruct (Addr_parseIPv4Fields s) as [fs|] eqn:Ef; [|done]. intros [= <-]. simpl.
    apply parseIPv4Fields_ok in Ef as [Hf Hl]. destruct Hok as (H1 & H2 & H3).
    split; [by apply Forall_app|]. rewrite length_app. split; [lia|]. destruct e; [lia|done]. }
  destruct (negb (Ascii.eqb c ":")); [done|]. destruct rest as [|c2 rest]; [done|].
  destruct (Ascii.eqb c2 ":"); [|by apply IH]. destruct e as [n'|]; [done|].
  assert (ipv6_bytes_ok (Some (length (ip ++ group_bytes g))) (ip ++ group_bytes g)) as Hs
    by (destruct Hok' as (? & ? & _); by split_and!).
  destruct rest; [by intros [= <-]|by apply IH].
Qed.

Lemma be_value_16 bs : Forall byte_ok bs -> length bs = 16%nat -> 0 <= be_value bs < 2 ^ 128.
Proof. intros Hb Hl. apply be_value_bound in Hb. by rewrite Hl in Hb. Qed.

Lemma ipv6_finish_ok zone r a :
  ipv6_bytes_ok r.1.2 r.1.1 -> Addr_ipv6_finish zone r = Some a -> addr_wf a.
Proof.
  destruct r as [[ip e] s]. intros (H1 & H2 & H3). unfold Addr_ipv6_finish. simpl in *.
  destruct (negb _); [done|]. destruct (Nat.ltb_spec (length ip) 16) as [Hlt|Hge].
  - destruct e as [n|]; [|done]. intros [= <-]. apply be_value_16.
    + rewrite !Forall_app. split; [by apply Forall_take|]. split; [|by apply Forall_drop].
      apply List.Forall_forall. intros x Hx. apply repeat_spec in Hx as ->. unfold byte_ok. lia.
    + rewrite !length_app, length_take, length_drop, repeat_length. lia.
  - destruct e; [done|]. intros [= <-]. apply be_value_16; [done|lia].
Qed.

(** The two ways the loop is entered. *)
Lemma parse_body_ok zone s a : parse_body zone s = Some a -> addr_wf a.
Proof.
  assert (forall e s, (e = None \/ e = Some 0%nat) ->
    (Addr_ipv6_loop 8 [] e s ≫= fun r => Addr_ipv6_finish zone r) = Some a -> addr_wf a) as Hloop.
  { intros e t He. destruct (Addr_ipv6_loop 8 [] e t) as [r|] eqn:E; [|done]. rewrite some_bind.
    apply ipv6_finish_ok. eapply ipv6_loop_ok; [| |exact E]; [|simpl; lia].
    split; [constructor|]. split; [simpl; lia|]. by destruct He as [-> | ->]. }
  unfold parse_body.
  repeat match goal with
  | |- (match ?x with _ => _ end) = _ -> _ => destruct x; try (by apply Hloop; auto)
  | |- (if ?x then _ else _) = _ -> _ => destruct x; try (by apply Hloop; auto)
  end; intros [= <-]; simpl; lia.
Qed.

Lemma ParseAddr_wf s a : ParseAddr s = Some a -> addr_wf a.
Proof.
  unfold ParseAddr. generalize s at 1. intros input. induction s as [|c s IH]; simpl; [done|].
  destruct (Ascii.eqb c ".").
  { unfold Addr_parseIPv4. destruct (Addr_parseIPv4Fields input) as [fs|] eqn:E; [|done].
    intros [= <-]. apply parseIPv4Fields_ok in E as [Hf Hl].
    apply be_value_bound in Hf. by rewrite Hl in Hf. }
  destruct (Ascii.eqb c ":").
  { unfold Addr_parseIPv6. destruct (match IndexByte input "%" with None => _ | _ => _ end)
      as [[t zone]|]; [|done]. apply parse_body_ok. }
  destruct (Ascii.eqb c "%"); [done|exact IH].
Qed.

(** ** Hosts in brackets *)

Local Open Scope nat_scope.

Lemma SplitHostPort_brackets host port :
  IndexByte host "[" = None -> IndexByte host "]" = None ->
  IndexByte port ":" = None -> IndexByte port "[" = None -> IndexByte port "]" = None ->
  SplitHostPort ("[" +++ host +++ "]:" +++ port) = Some (host, port).
Proof.
  intros H1 H2 P1 P2 P3. unfold SplitHostPort.
  assert (IndexByte ("[" +++ host +++ "]:" +++ port) "]" = Some (String.length host + 1)) as E1.
  { change ("[" +++ host +++ "]:" +++ port) with (("[" +++ host) +++ "]:" +++ port).
    rewrite IndexByte_app_l by (simpl; by rewrite H2). simpl. f_equal. lia. }
  assert (LastIndexByte ("[" +++ host +++ "]:" +++ port) ":" = Some (String.length host + 2)) as E2.
  { replace ("[" +++ host +++ "]:" +++ port) with (("[" +++ host +++ "]") +++ String ":" port)
      by (simpl; by rewrite sapp_assoc).
    rewrite LastIndexByte_app by done. f_equal. simpl. rewrite sapp_length. simpl. lia. }
  assert (String.length ("[" +++ host +++ "]:" +++ port) = String.length host + String.length port + 3) as E3.
  { simpl. rewrite sapp_length. simpl. lia. }
  rewrite E2. change ("[" +++ host +++ "]:" +++ port) with (String "[" (host +++ "]:" +++ port)) in *.
  rewrite some_bind. cbv beta iota. rewrite E1, E3, some_bind.
  destruct (Nat.eqb_spec (String.length host + 1 + 1) (String.length host + String.length port + 3)); [lia|].
  destruct (Nat.eqb_spec (String.length host + 1 + 1) (String.length host + 2)); [|lia].
  replace (String.length host + 1 - 1) with (String.length host) by lia.
  replace (S (String.length host + 1)) with (S (String.length (host +++ "]"))) by
    (rewrite sapp_length; simpl; lia).
  replace (S (String.length host + 2)) with (S (String.length (host +++ "]:"))) by
    (rewrite sapp_length; simpl; lia).
  rewrite some_bind. cbn [sdrop]. cbv iota beta.
  assert (sdrop (String.length (host +++ "]")) (host +++ "]:" +++ port) = ":" +++ port) as D1.
  { replace (host +++ "]:" +++ port) with ((host +++ "]") +++ ":" +++ port) by (by rewrite sapp_assoc).
    apply sdrop_app. }
  assert (sdrop (String.length (host +++ "]:")) (host +++ "]:" +++ port) = port) as D2.
  { replace (host +++ "]:" +++ port) with ((host +++ "]:") +++ port) by (by rewrite sapp_assoc).
    apply sdrop_app. }
  assert (IndexByte (host +++ "]:" +++ port) "[" = None) as D3.
  { rewrite IndexByte_app_l by done. simpl. by rewrite P2. }
  rewrite stake_app, D1, D2, D3. simpl (IndexByte (":" +++ port) "]"). by rewrite P3.
Qed.
