(* ===== verification/Meta.v ===== *)
(** * Package [meta]: networks, protocols and address-family strategies

    [meta/network.go], [meta/protocol.go], [meta/stratgey.go].  Protocols
    are arbitrary strings and versions arbitrary integers, as in the code;
    [IsValid] separates the meaningful ones. *)

From S2P Require Import Prelude GoStd.

(** ** The slice helpers of [qtfra/enhancements/slicelib] *)

Class SliceLib := {
  slice_Map : forall {A B : Type}, list A -> (A -> B) -> list B;
  slice_Filter : forall {A : Type}, list A -> (A -> bool) -> list A;
  slice_Uniq : forall {A : Type} `{EqDecision A}, list A -> list A;
}.

Class SliceLaws `{SliceLib} : Prop := {
  slice_Map_spec : forall A B (l : list A) (f : A -> B), slice_Map l f = List.map f l;
  slice_Filter_spec : forall A (l : list A) p, slice_Filter l p = List.filter p l;
  slice_Uniq_NoDup : forall A `{EqDecision A} (l : list A), NoDup (slice_Uniq l);
  slice_Uniq_elem : forall A `{EqDecision A} (l : list A) x, x ∈ slice_Uniq l <-> x ∈ l;
}.

(** The instance of the witnesses. *)
Module SliceStd.
#[global] Instance slice_std : SliceLib | 100 := {
  slice_Map _ _ l f := List.map f l;
  slice_Filter _ l p := List.filter p l;
  slice_Uniq _ _ l := remove_dups l;
}.
#[global] Instance slice_std_laws : @SliceLaws slice_std | 100.
Proof.
  split; simpl; intros; [done|done|apply NoDup_remove_dups|apply elem_of_remove_dups].
Qed.
End SliceStd.

(** ** [meta/stratgey.go] *)

(** [type Strategy uint8] *)
Abbreviation Strategy := Z (only parsing).

Definition StrategyPreferIPv6 : Strategy := 0%Z.
Definition StrategyPreferIPv4 : Strategy := 1%Z.
Definition StrategyIPv6Only : Strategy := 2%Z.
Definition StrategyIPv4Only : Strategy := 3%Z.
Definition strategyMax : Strategy := 4%Z.
Definition StrategyDefault : Strategy := StrategyPreferIPv6.

Definition ErrInvalidStrategy : err := ENew "network: invalid strategy".

Definition Strategy_ToString (s : Strategy) : string :=
  if Z.eqb s StrategyPreferIPv6 then "prefer_ipv6"
  else if Z.eqb s StrategyPreferIPv4 then "prefer_ipv4"
  else if Z.eqb s StrategyIPv4Only then "ipv4_only"
  else if Z.eqb s StrategyIPv6Only then "ipv6_only"
  else "strategy: " +++ FormatUint s.

Definition Strategy_IsValid (s : Strategy) : bool := Z.ltb s strategyMax.

Definition ParseStrategy (s : string) : gores Strategy :=
  if String.eqb s "prefer_ipv4" then (StrategyPreferIPv4, None)
  else if String.eqb s "prefer_ipv6" then (StrategyPreferIPv6, None)
  else if String.eqb s "ipv4_only" then (StrategyIPv4Only, None)
  else if String.eqb s "ipv6_only" then (StrategyIPv6Only, None)
  else if String.eqb s "default" || String.eqb s "" then (StrategyDefault, None)
  else (0%Z, Some (EWrap (": " +++ s) ErrInvalidStrategy)).

(** ** [meta/protocol.go] *)

(** [type Protocol string] *)
Abbreviation Protocol := string (only parsing).

Definition ProtocolTCP : Protocol := "tcp".
Definition ProtocolUDP : Protocol := "udp".

Definition Protocol_ToString (p : Protocol) : string := p.
Definition Protocol_IsValid (p : Protocol) : bool :=
  String.eqb p ProtocolTCP || String.eqb p ProtocolUDP.

Definition ParseProtocol (protocol : string) : Protocol :=
  if (String.length protocol =? 0)%nat then ""
  else if String.eqb protocol ProtocolTCP || String.eqb protocol ProtocolUDP
       then protocol else "".

(** [slices.Contains] on strings *)
Definition slices_Contains (l : list string) (x : string) : bool :=
  existsb (fun y => String.eqb y x) l.

(** ** [meta/network.go] *)

Definition NetworkFamily4 : string := "4".
Definition NetworkFamily6 : string := "6".
Definition NetworkVersion4 : Z := 4%Z.
Definition NetworkVersion6 : Z := 6%Z.
Definition NetworkVersionDual : Z := 0%Z.

Record Network := MkNetwork { net_Protocol : Protocol; net_Version : Z }.

#[export] Instance Network_eq_dec : EqDecision Network.
Proof. solve_decision. Defined.

Definition NetworkUDP := MkNetwork ProtocolUDP NetworkVersionDual.
Definition NetworkUDP4 := MkNetwork ProtocolUDP NetworkVersion4.
Definition NetworkUDP6 := MkNetwork ProtocolUDP NetworkVersion6.
Definition NetworkTCP := MkNetwork ProtocolTCP NetworkVersionDual.
Definition NetworkTCP4 := MkNetwork ProtocolTCP NetworkVersion4.
Definition NetworkTCP6 := MkNetwork ProtocolTCP NetworkVersion6.

Definition ParseNetwork (network : string) : option Network :=
  if String.eqb network "tcp" || String.eqb network "udp" then
    Some (MkNetwork network NetworkVersionDual)
  else if String.eqb network "tcp4" || String.eqb network "udp4" then
    Some (MkNetwork (stake 3 network) NetworkVersion4)
  else if String.eqb network "tcp6" || String.eqb network "udp6" then
    Some (MkNetwork (stake 3 network) NetworkVersion6)
  else None.

Definition Network_Is4 (n : Network) : bool :=
  Z.eqb (net_Version n) NetworkVersionDual || Z.eqb (net_Version n) NetworkVersion6.
Definition Network_Is6 (n : Network) : bool :=
  Z.eqb (net_Version n) NetworkVersionDual || Z.eqb (net_Version n) NetworkVersion4.
Definition Network_IsUDP (n : Network) : bool := String.eqb (net_Protocol n) ProtocolUDP.
Definition Network_IsTCP (n : Network) : bool := String.eqb (net_Protocol n) ProtocolTCP.

Definition Network_IsValid (n : Network) : bool :=
  Protocol_IsValid (net_Protocol n) &&
  (Z.eqb (net_Version n) NetworkVersionDual ||
   Z.eqb (net_Version n) NetworkVersion4 ||
   Z.eqb (net_Version n) NetworkVersion6).

Definition Network_ApplyStrategy (n : Network) (s : Strategy) : Network :=
  let n := if Z.eqb s StrategyIPv4Only
           then MkNetwork (net_Protocol n) NetworkVersion4 else n in
  if Z.eqb s StrategyIPv6Only
  then MkNetwork (net_Protocol n) NetworkVersion6 else n.

Definition Network_ToString (n : Network) : string :=
  let slow := Protocol_ToString (net_Protocol n) +++ Itoa (net_Version n) in
  if String.eqb (net_Protocol n) ProtocolUDP then
    if Z.eqb (net_Version n) NetworkVersion4 then "udp4"
    else if Z.eqb (net_Version n) NetworkVersion6 then "udp6"
    else if Z.eqb (net_Version n) NetworkVersionDual then "udp"
    else slow
  else if String.eqb (net_Protocol n) ProtocolTCP then
    if Z.eqb (net_Version n) NetworkVersion4 then "tcp4"
    else if Z.eqb (net_Version n) NetworkVersion6 then "tcp6"
    else if Z.eqb (net_Version n) NetworkVersionDual then "tcp"
    else slow
  else slow.

(** ** Protocol lists, [meta/protocol.go] *)

Abbreviation ProtocolList := (list string) (only parsing).

Definition emptyProtocolList : ProtocolList := [].

Section protocol_lists.
Context `{SliceLib}.

(** [strings.Split] never returns an empty slice, yet the test is made. *)
Definition ParseProtocolList (name : string) : ProtocolList :=
  if (String.length name =? 0)%nat then emptyProtocolList
  else if negb (String.eqb (ParseProtocol name) "") then [ParseProtocol name]
  else
    let multi := Split name "+" in
    if (1 <=? length multi)%nat then
      let multi := slice_Uniq multi in
      let ret := fold_left (fun ret p =>
        let pp := ParseProtocol p in
        if negb (String.eqb pp "") then ret ++ [pp] else ret) multi [] in
      if (length ret =? 0)%nat then emptyProtocolList else ret
    else emptyProtocolList.

(** [json.Unmarshal] of a text into a [[]string]. *)
Variable json_strings : string -> list string + err.

(** [UnmarshalJSON]: the list it stores, or its error. *)
Definition ProtocolList_UnmarshalJSON (bs : string) : ProtocolList + err :=
  let between (a b : ascii) :=
    (bool_decide (sat bs 0 = Some a) && bool_decide (slast bs = Some b))%bool in
  if (String.length bs <? 2)%nat then inr (ENew "too short")
  else if between "034"%char "034"%char then
    inl (ParseProtocolList (stake (String.length bs - 2) (sdrop 1 bs)))
  else if between "["%char "]"%char then
    match json_strings bs with
    | inr e => inr e
    | inl sn =>
        let nn := fold_left (fun nn p => nn ++ ParseProtocolList p) sn [] in
        let nn := slice_Uniq nn in
        if (length nn =? 0)%nat then inl emptyProtocolList else inl nn
    end
  else inr (ENew "bad json format").
End protocol_lists.

Definition ProtocolList_Contains (n : ProtocolList) (network : string) : bool :=
  match ParseNetwork network with
  | Some nn => slices_Contains n (net_Protocol nn)
  | None => false
  end.

Definition ProtocolList_ContainsProtocol (n : ProtocolList) (protocol : Protocol) : bool :=
  negb (String.eqb (ParseProtocol (Protocol_ToString protocol)) "") &&
  slices_Contains n protocol.

Definition ProtocolList_IsValid (n : ProtocolList) : bool :=
  negb (length n =? 0)%nat &&
  negb (existsb (fun p => String.eqb (ParseProtocol (Protocol_ToString p)) "") n).

(** ** Lemmas *)

Lemma ParseProtocol_valid p :
  ParseProtocol p = if Protocol_IsValid p then p else "".
Proof. by destruct p. Qed.

Lemma ParseProtocol_empty p :
  String.eqb (ParseProtocol p) "" = negb (Protocol_IsValid p).
Proof.
  rewrite ParseProtocol_valid. destruct (Protocol_IsValid p) eqn:E; [|done].
  destruct p; [done|done].
Qed.

Lemma IsValid_cases n :
  Network_IsValid n = true <->
  n ∈ [NetworkUDP; NetworkUDP4; NetworkUDP6; NetworkTCP; NetworkTCP4; NetworkTCP6].
Proof.
  destruct n as [p v]. unfold Network_IsValid, Protocol_IsValid. simpl.
  rewrite andb_true_iff, !orb_true_iff, !String.eqb_eq, !Z.eqb_eq.
  rewrite !elem_of_cons, elem_of_nil. split.
  - intros [[->| ->] [[->| ->]| ->]]; naive_solver.
  - unfold NetworkUDP, NetworkUDP4, NetworkUDP6, NetworkTCP, NetworkTCP4, NetworkTCP6.
    naive_solver.
Qed.

(** Every text that parses is the name of a valid network. *)
Lemma network_names s n :
  ParseNetwork s = Some n -> Network_ToString n = s /\ Network_IsValid n = true.
Proof.
  unfold ParseNetwork. intros Hs.
  repeat match type of Hs with
  | (if ?b || ?c then _ else _) = _ =>
      destruct b eqn:?; [|destruct c eqn:?]; simpl in Hs
  end; try done; bool_hyps; by simplify_eq.
Qed.

Section protocol_list_lemmas.
Context `{SliceLaws}.

Lemma fold_parse_filter l acc :
  fold_left (fun ret p =>
        let pp := ParseProtocol p in
        if negb (String.eqb pp "") then ret ++ [pp] else ret) l acc =
  acc ++ List.filter Protocol_IsValid l.
Proof.
  revert acc. induction l as [|p l IH]; intros acc; simpl; [by rewrite app_nil_r|].
  rewrite IH, ParseProtocol_empty, negb_involutive.
  destruct (Protocol_IsValid p) eqn:E; [|done].
  rewrite ParseProtocol_valid, E. by rewrite <- app_assoc.
Qed.

(** The list that parsing yields, in closed form. *)
Lemma ParseProtocolList_filter name :
  ParseProtocolList name =
  if Protocol_IsValid name then [name]
  else List.filter Protocol_IsValid (slice_Uniq (Split name "+")).
Proof.
  unfold ParseProtocolList. rewrite ParseProtocol_empty, negb_involutive.
  destruct name as [|c s] eqn:En.
  { simpl. symmetry. apply filter_none. intros x Hx.
    apply list_elem_of_In, slice_Uniq_elem in Hx. set_solver. }
  rewrite <- En. destruct (Nat.eqb_spec (String.length name) 0); [by subst|].
  destruct (Protocol_IsValid name) eqn:E.
  { by rewrite ParseProtocol_valid, E. }
  destruct (Nat.leb_spec 1 (length (Split name "+"))) as [|Hl].
  - rewrite fold_parse_filter. simpl.
    by destruct (List.filter Protocol_IsValid (slice_Uniq (Split name "+"))).
  - exfalso. rewrite En in Hl. simpl in Hl. clear -Hl.
    destruct (Ascii.eqb c "+"); simpl in Hl; [lia|].
    destruct (Split s "+"); simpl in Hl; lia.
Qed.
End protocol_list_lemmas.

(** ** Properties *)

(** [Network.String] and [ParseNetwork] are inverse: the six valid
    networks are printed and read back, and a string that parses is the
    name of the network it gives, which is valid. *)
Theorem network_string_roundtrip :
  (forall n, Network_IsValid n = true -> ParseNetwork (Network_ToString n) = Some n) /\
  (forall s n, ParseNetwork s = Some n ->
     Network_ToString n = s /\ Network_IsValid n = true).
Proof.
  split.
  - intros n Hn. apply IsValid_cases in Hn.
    rewrite !elem_of_cons, elem_of_nil in Hn. by destruct_or? Hn; subst.
  - apply network_names.
Qed.

Lemma network_string_roundtrip_witness :
  Network_IsValid NetworkTCP6 = true /\
  ParseNetwork (Network_ToString NetworkTCP6) = Some NetworkTCP6 /\
  Network_ToString (MkNetwork ProtocolUDP 4) = "udp4".
Proof.
  split; [done|]. split.
  - apply (proj1 network_string_roundtrip). reflexivity.
  - apply (proj2 network_string_roundtrip "udp4"). reflexivity.
Defined.

(** Strategies: the four valid ones are read back from their names, the
    empty and the "default" text give the default, and every other text is
    refused with [ErrInvalidStrategy] wrapped. *)
Theorem ParseStrategy_spec :
  (forall s, (0 <= s < strategyMax)%Z ->
     ParseStrategy (Strategy_ToString s) = (s, None) /\ Strategy_IsValid s = true) /\
  (forall t s e, ParseStrategy t = (s, e) ->
     (e = None /\ (0 <= s < strategyMax)%Z /\
       (t = Strategy_ToString s \/ (s = StrategyDefault /\ (t = "" \/ t = "default")))) \/
     (e = Some (EWrap (": " +++ t) ErrInvalidStrategy) /\ s = 0%Z)).
Proof.
  split.
  - unfold strategyMax. intros s Hs.
    assert (s = 0 \/ s = 1 \/ s = 2 \/ s = 3)%Z as Hc by lia.
    destruct_or! Hc; subst; done.
  - intros t s e. unfold ParseStrategy, strategyMax. intros Ht.
    repeat match type of Ht with
    | (if ?b || ?c then _ else _) = _ =>
        destruct b eqn:?; [|destruct c eqn:?]; simpl in Ht
    | (if ?b then _ else _) = _ => destruct b eqn:?
    end; bool_hyps; simplify_eq; eauto 10.
    all: left; split; [done|]; split; [unfold StrategyDefault; by cbv|]; auto.
Qed.

Lemma ParseStrategy_spec_witness :
  (0 <= 3 < strategyMax)%Z /\ ParseStrategy (Strategy_ToString 3) = (3%Z, None).
Proof.
  assert (0 <= 3 < strategyMax)%Z as H by (unfold strategyMax; lia).
  split; [exact H|]. apply (proj1 ParseStrategy_spec 3%Z H).
Defined.

Lemma ParseProtocolList_elem `{SliceLaws} name p :
  p ∈ ParseProtocolList name <-> Protocol_IsValid p = true /\ p ∈ Split name "+".
Proof.
  rewrite ParseProtocolList_filter. destruct (Protocol_IsValid name) eqn:E.
  - unfold Protocol_IsValid in E. apply orb_true_iff in E.
    rewrite !String.eqb_eq in E. destruct E as [->| ->]; simpl; set_solver.
  - rewrite list_elem_of_In, filter_In, <- list_elem_of_In, slice_Uniq_elem. tauto.
Qed.

Lemma ParseProtocolList_NoDup `{SliceLaws} name : NoDup (ParseProtocolList name).
Proof.
  rewrite ParseProtocolList_filter. destruct (Protocol_IsValid name).
  - apply NoDup_singleton.
  - apply NoDup_ListNoDup, List.NoDup_filter, NoDup_ListNoDup, slice_Uniq_NoDup.
Qed.

Lemma protocols_valid n :
  n <> [] -> (forall p, p ∈ n -> Protocol_IsValid p = true) -> ProtocolList_IsValid n = true.
Proof.
  intros Hne Hn. unfold ProtocolList_IsValid. destruct n as [|q l] eqn:El; [done|].
  apply andb_true_iff. split; [done|]. apply negb_true_iff, not_true_iff_false.
  rewrite existsb_exists. intros (x & Hx & Hq). unfold Protocol_ToString in Hq.
  rewrite ParseProtocol_empty in Hq. apply negb_true_iff in Hq.
  apply list_elem_of_In, Hn in Hx. congruence.
Qed.

Lemma fold_append_elem {A B} (f : A -> list B) l acc x :
  x ∈ fold_left (fun acc a => acc ++ f a) l acc <-> x ∈ acc \/ exists a, a ∈ l /\ x ∈ f a.
Proof.
  revert acc. induction l as [|a l IH]; intros acc; simpl; [set_solver|].
  rewrite IH. set_solver.
Qed.

(** [ParseProtocolList] keeps exactly the valid protocols among the
    "+"-separated parts, each once, so a non-empty result is a valid list. *)
Theorem ParseProtocolList_spec `{SliceLaws} name :
  NoDup (ParseProtocolList name) /\
  (forall p, p ∈ ParseProtocolList name <->
     Protocol_IsValid p = true /\ p ∈ Split name "+") /\
  (ParseProtocolList name <> [] -> ProtocolList_IsValid (ParseProtocolList name) = true).
Proof.
  split; [apply ParseProtocolList_NoDup|]. split; [apply ParseProtocolList_elem|].
  intros Hne. apply protocols_valid; [done|]. intros p Hp. by apply ParseProtocolList_elem in Hp as [? _].
Qed.

Lemma ParseProtocolList_spec_witness :
  @ParseProtocolList SliceStd.slice_std "udp+tcp+x+tcp" = ["udp"; "tcp"] /\
  ProtocolList_IsValid (@ParseProtocolList SliceStd.slice_std "udp+tcp+x+tcp") = true.
Proof.
  split; [reflexivity|].
  apply (ParseProtocolList_spec "udp+tcp+x+tcp"). vm_compute. discriminate.
Defined.

(** A list decoded from JSON has every protocol once, and is valid or
    empty; the protocols are the valid ones among the parts of the string,
    or of the strings of the array; a text of another form is an error. *)
Theorem UnmarshalJSON_spec `{SliceLaws} json_strings bs :
  match ProtocolList_UnmarshalJSON json_strings bs with
  | inl n =>
      NoDup n /\ (n <> [] -> ProtocolList_IsValid n = true) /\
      exists names, (forall p, p ∈ n <-> Protocol_IsValid p = true /\
          exists name, name ∈ names /\ p ∈ Split name "+") /\
        (bs = String "034" (default "" (head names) +++ sbyte "034"%char) /\ length names = 1 \/
         json_strings bs = inl names)
  | inr e => e = ENew "too short" \/ e = ENew "bad json format" \/ json_strings bs = inr e
  end.
Proof.
  unfold ProtocolList_UnmarshalJSON. destruct (Nat.ltb_spec (String.length bs) 2) as [|Hl]; [by left|].
  destruct (_ && _)%bool eqn:Eq.
  - apply andb_true_iff in Eq as [E1 E2]. bool_hyps.
    split; [apply ParseProtocolList_NoDup|]. split.
    { intros Hne. apply protocols_valid; [done|]. intros p Hp. by apply ParseProtocolList_elem in Hp as [? _]. }
    exists [stake (String.length bs - 2) (sdrop 1 bs)]. split.
    { intros p. rewrite ParseProtocolList_elem. set_solver. }
    left. split; [|done]. simpl. destruct bs as [|c bs]; [simpl in Hl; lia|]. simpl in E1. simplify_eq.
    f_equal. simpl in Hl. destruct (slast_snoc_inv _ _ E2) as [t Ht].
    unfold sbyte in *. destruct t as [|c' t]; simpl in Ht; simplify_eq; [simpl in Hl; lia|].
    simpl. rewrite sapp_length. simpl. replace (String.length t + 1 - 1) with (String.length t) by lia.
    by rewrite stake_app.
  - clear Eq. destruct (_ && _)%bool eqn:Eb; [|cbv iota beta; by auto].
    destruct (json_strings bs) as [sn|e] eqn:Ej; [|cbv iota beta; by auto].
    set (nn := slice_Uniq _).
    assert (forall p, p ∈ nn <-> Protocol_IsValid p = true /\
      exists name, name ∈ sn /\ p ∈ Split name "+") as Hel.
    { intros p. subst nn. rewrite slice_Uniq_elem, fold_append_elem.
      setoid_rewrite ParseProtocolList_elem. set_solver. }
    assert (NoDup nn) as Hnd by apply slice_Uniq_NoDup.
    destruct (Nat.eqb_spec (length nn) 0) as [E0|E0].
    + apply nil_length_inv in E0. rewrite E0 in Hel. split; [apply NoDup_nil_2|]. split; [done|].
      exists sn. split; [exact Hel|by right].
    + split; [done|]. split; [|exists sn; split; [exact Hel|by right]].
      intros Hne. apply protocols_valid; [done|]. intros p Hp. by apply Hel in Hp as [? _].
Qed.

Lemma UnmarshalJSON_spec_witness :
  let json := fun _ : string => inl ["tcp"; "udp+tcp"] : list string + err in
  ProtocolList_UnmarshalJSON json "[...]" = inl ["udp"; "tcp"] /\
  ProtocolList_IsValid ["udp"; "tcp"] = true.
Proof.
  cbv zeta. split; [reflexivity|].
  refine (proj1 (proj2 (UnmarshalJSON_spec (fun _ : string => inl ["tcp"; "udp+tcp"]) "[...]")) _).
  vm_compute. discriminate.
Defined.

(** What [Network.Is4] and [Network.Is6] say about a valid network is
    the other family: [Is4] holds of the IPv6-only and dual networks, [Is6]
    of the IPv4-only and dual ones. *)
Theorem network_family_tests_swapped :
  forall n, Network_IsValid n = true ->
    (Network_Is4 n = true <-> net_Version n <> NetworkVersion4) /\
    (Network_Is6 n = true <-> net_Version n <> NetworkVersion6).
Proof.
  intros n Hn. apply IsValid_cases in Hn.
  rewrite !elem_of_cons, elem_of_nil in Hn. by destruct_or? Hn; subst.
Qed.

Lemma network_family_tests_swapped_witness :
  Network_IsValid NetworkTCP4 = true /\
  (Network_Is4 NetworkTCP4 = true <-> net_Version NetworkTCP4 <> NetworkVersion4).
Proof.
  split; [reflexivity|]. apply (network_family_tests_swapped NetworkTCP4). reflexivity.
Defined.
