(* ===== verification/Dns.v ===== *)
(** * The DNS message data of [github.com/miekg/dns]

    The package is outside the repository: its messages are plain data that
    the sources build and read field by field, kept here with the package's
    field names, and its functions are the operations of a class, with the
    documented behaviour the sources rely on as the laws. *)

From S2P Require Import Prelude GoStd.

(** ** Constants *)

Definition TypeA : Z := 1%Z.
Definition TypeAAAA : Z := 28%Z.
Definition TypeOPT : Z := 41%Z.
Definition ClassINET : Z := 1%Z.
Definition RcodeSuccess : Z := 0%Z.
Definition RcodeFormatError : Z := 1%Z.
Definition SVCB_IPV4HINT : Z := 4%Z.
Definition SVCB_IPV6HINT : Z := 6%Z.

(** ** Data *)

Record Question := MkQuestion { q_Name : string; q_Qtype : Z; q_Qclass : Z }.

#[export] Instance Question_eq_dec : EqDecision Question.
Proof. solve_decision. Defined.

#[export] Instance Question_countable : Countable Question.
Proof.
  refine (inj_countable' (fun q => (q_Name q, q_Qtype q, q_Qclass q))
    (fun '(n, t, c) => MkQuestion n t c) _). by intros [].
Defined.

Record RR_Header := MkHdr { h_Name : string; h_Rrtype : Z; h_Class : Z; h_Ttl : Z }.

(** A key of an HTTPS record, through its [Key] and [String] methods. *)
Record SVCBKeyValue := MkKV { kv_Key : Z; kv_String : string }.

(** A resource record: the types the sources switch on, and any other one
    ([*dns.OPT] included) by its header and data. *)
Inductive RR :=
  | RR_A (h : RR_Header) (ip : list Z)
  | RR_AAAA (h : RR_Header) (ip : list Z)
  | RR_HTTPS (h : RR_Header) (value : list SVCBKeyValue)
  | RR_Other (h : RR_Header) (rdata : list Z).

Definition rr_Header (r : RR) : RR_Header :=
  match r with
  | RR_A h _ | RR_AAAA h _ | RR_HTTPS h _ | RR_Other h _ => h
  end.

Definition rr_with_Header (h : RR_Header) (r : RR) : RR :=
  match r with
  | RR_A _ x => RR_A h x
  | RR_AAAA _ x => RR_AAAA h x
  | RR_HTTPS _ x => RR_HTTPS h x
  | RR_Other _ x => RR_Other h x
  end.

Definition rr_set_Ttl (ttl : Z) (r : RR) : RR :=
  let h := rr_Header r in
  rr_with_Header (MkHdr (h_Name h) (h_Rrtype h) (h_Class h) ttl) r.

Definition rr_Ttl (r : RR) : Z := h_Ttl (rr_Header r).

(** [dns.Msg], its embedded [MsgHdr] flattened; values are deep, so a
    [Copy] of a message is the same value. *)
Record Msg := MkMsg {
  m_Id : Z;
  m_Response : bool;
  m_Authoritative : bool;
  m_Truncated : bool;
  m_RecursionDesired : bool;
  m_RecursionAvailable : bool;
  m_AuthenticatedData : bool;
  m_Rcode : Z;
  m_Compress : bool;
  m_Question : list Question;
  m_Answer : list RR;
  m_Ns : list RR;
  m_Extra : list RR;
}.

#[export] Instance RR_Header_eq_dec : EqDecision RR_Header.
Proof. solve_decision. Defined.
#[export] Instance SVCBKeyValue_eq_dec : EqDecision SVCBKeyValue.
Proof. solve_decision. Defined.
#[export] Instance RR_eq_dec : EqDecision RR.
Proof. solve_decision. Defined.
#[export] Instance Msg_eq_dec : EqDecision Msg.
Proof. solve_decision. Defined.

(** The zero [dns.Msg]. *)
Definition msg_zero : Msg :=
  MkMsg 0 false false false false false false 0 false [] [] [] [].

Definition msg_with_Id (id : Z) (m : Msg) : Msg :=
  MkMsg id (m_Response m) (m_Authoritative m) (m_Truncated m) (m_RecursionDesired m)
    (m_RecursionAvailable m) (m_AuthenticatedData m) (m_Rcode m) (m_Compress m)
    (m_Question m) (m_Answer m) (m_Ns m) (m_Extra m).

Definition msg_with_Extra (extra : list RR) (m : Msg) : Msg :=
  MkMsg (m_Id m) (m_Response m) (m_Authoritative m) (m_Truncated m) (m_RecursionDesired m)
    (m_RecursionAvailable m) (m_AuthenticatedData m) (m_Rcode m) (m_Compress m)
    (m_Question m) (m_Answer m) (m_Ns m) extra.

Definition msg_with_sections (answer ns extra : list RR) (m : Msg) : Msg :=
  MkMsg (m_Id m) (m_Response m) (m_Authoritative m) (m_Truncated m) (m_RecursionDesired m)
    (m_RecursionAvailable m) (m_AuthenticatedData m) (m_Rcode m) (m_Compress m)
    (m_Question m) answer ns extra.

(** The three record sections, in the order the sources walk them. *)
Definition msg_sections (m : Msg) : list (list RR) := [m_Answer m; m_Ns m; m_Extra m].

(** ** Functions of the package *)

Class DnsLib := {
  dns_Fqdn : string -> string;
  dns_IsFqdn : string -> bool;
  dns_CanonicalName : string -> string;
  dns_RcodeToString : Z -> string;
  (** [Msg.IsEdns0]: the OPT record of the message *)
  dns_IsEdns0 : Msg -> option RR;
  opt_Version : RR -> Z;
  opt_UDPSize : RR -> Z;
  opt_Do : RR -> bool;
  (** [Msg.SetEdns0 udpsize do], as the message it leaves *)
  dns_SetEdns0 : Z -> bool -> Msg -> Msg;
}.

(** Documented behaviour: a fully qualified name ends in a dot, [Fqdn]
    adds it when it is missing, and [IsEdns0] finds an OPT record of the
    additional section when there is one. *)
Class DnsLaws `{DnsLib} : Prop := {
  IsFqdn_dot : forall s, dns_IsFqdn s = true -> exists t, s = t +++ ".";
  Fqdn_id : forall s, dns_IsFqdn s = true -> dns_Fqdn s = s;
  Fqdn_add : forall s, dns_IsFqdn s = false -> dns_Fqdn s = s +++ ".";
  Fqdn_IsFqdn : forall s, dns_IsFqdn (dns_Fqdn s) = true;
  IsEdns0_some : forall m r, dns_IsEdns0 m = Some r ->
    In r (m_Extra m) /\ h_Rrtype (rr_Header r) = TypeOPT;
  IsEdns0_none : forall m, dns_IsEdns0 m = None ->
    forall r, In r (m_Extra m) -> h_Rrtype (rr_Header r) <> TypeOPT;
  SetEdns0_spec : forall size do m, exists opt,
    dns_SetEdns0 size do m = msg_with_Extra (m_Extra m ++ [opt]) m /\
    h_Rrtype (rr_Header opt) = TypeOPT /\ opt_Version opt = 0%Z /\
    opt_UDPSize opt = size /\ opt_Do opt = do;
}.

(** ** The instance of the witnesses *)

Module DnsSimple.

Definition IsFqdn (s : string) : bool :=
  match slast s with Some c => Ascii.eqb c "." | None => false end.

Definition lower (c : ascii) : ascii :=
  let v := byte_val c in
  if ((65 <=? v) && (v <=? 90))%Z then ascii_of_N (Z.to_N (v + 32)) else c.

Fixpoint smap (f : ascii -> ascii) (s : string) : string :=
  match s with "" => "" | String c s => String (f c) (smap f s) end.

Definition Fqdn (s : string) : string := if IsFqdn s then s else s +++ ".".

Definition is_opt (r : RR) : bool := Z.eqb (h_Rrtype (rr_Header r)) TypeOPT.

#[global] Instance dns_simple : DnsLib | 100 := {
  dns_Fqdn := Fqdn;
  dns_IsFqdn := IsFqdn;
  dns_CanonicalName s := smap lower (Fqdn s);
  dns_RcodeToString r := if Z.eqb r 3 then "NXDOMAIN" else "";
  dns_IsEdns0 m := List.find is_opt (rev (m_Extra m));
  opt_Version r := Z.land (Z.shiftr (rr_Ttl r) 16) 255;
  opt_UDPSize r := h_Class (rr_Header r);
  opt_Do r := Z.testbit (rr_Ttl r) 15;
  dns_SetEdns0 size do m :=
    msg_with_Extra (m_Extra m ++
      [RR_Other (MkHdr "." TypeOPT size (if do then 32768 else 0)%Z) []]) m;
}.

#[global] Instance dns_simple_laws : @DnsLaws dns_simple | 100.
Proof.
  split.
  - intros s. simpl. unfold IsFqdn. destruct (slast s) as [c|] eqn:E; [|done].
    intros Hc. apply Ascii.eqb_eq in Hc as ->. by apply slast_snoc_inv in E.
  - intros s. simpl. unfold Fqdn. by intros ->.
  - intros s. simpl. unfold Fqdn. by intros ->.
  - intros s. simpl. unfold Fqdn. destruct (IsFqdn s) eqn:E; [done|].
    unfold IsFqdn. change "." with (sbyte "."). by rewrite slast_snoc.
  - intros m r Hr. apply List.find_some in Hr as [Hin Ht].
    rewrite <- in_rev in Hin. split; [done|]. by apply Z.eqb_eq.
  - intros m Hm r Hr. apply in_rev in Hr.
    apply (List.find_none _ _ Hm), Z.eqb_neq in Hr. done.
  - intros size do m. eexists. split; [reflexivity|]. by destruct do.
Qed.

End DnsSimple.
