(* ===== verification/Addrs.v ===== *)
(** * Package [addrs]: socket addresses, conversions and address ordering

    [addrs/socksaddr.go], [addrs/cast.go], [addrs/sorts.go],
    [addrs/error.go].  A [Socksaddr] is a host name or an IP address with a
    port; [FromNetAddr] and [UDPAddr] convert to and from [net.Addr]. *)

From S2P Require Import Prelude GoStd Netip Netip6 Meta Dns.
From Stdlib Require Import Sorted.

(** ** Data *)

(** [addrs/socksaddr.go]: [type Socksaddr struct] *)
Record Socksaddr := MkSocks { sa_Fqdn : string; sa_Addr : Addr; sa_Port : Z }.

#[export] Instance Socksaddr_eq_dec : EqDecision Socksaddr.
Proof. solve_decision. Defined.

#[export] Instance Socksaddr_inhabited : Inhabited Socksaddr :=
  populate (MkSocks "" AddrZero 0).

(** Values of the [net.Addr] interface, by dynamic type: the ones the code
    switches on, and any other one.  IP slices are lists of bytes. *)
Inductive NetAddr :=
  | NA_nil
  | NA_Socks (a : Socksaddr)
  | NA_TCP (ip : list Z) (port : Z) (zone : string)
  | NA_UDP (ip : list Z) (port : Z) (zone : string)
  | NA_IP (ip : list Z) (zone : string)
  | NA_IPNet (ip mask : list Z)
  | NA_Other (network text : string).

Definition ErrNotDialable `{ExLib} : err :=
  ex_New [XStr "address can not used to dial a tcp or udp network"].
Definition ErrAddressNotResolved `{ExLib} : err := ex_New [XStr "address not resolved"].

(** ** [addrs/cast.go] *)

Definition AddrFromIP (ip : list Z) : Addr := Addr_FromSlice ip.

(** A [Socksaddr]'s address and port. *)
Definition Socksaddr_AddrPort (a : Socksaddr) : AddrPort :=
  AddrPortFrom (sa_Addr a) (sa_Port a).

Definition AddrPortFromNetAddr (netAddr : NetAddr) : AddrPort :=
  match netAddr with
  | NA_Socks addr => Socksaddr_AddrPort addr
  | NA_TCP ip port _ => AddrPortFrom (AddrFromIP ip) (u16 port)
  | NA_UDP ip port _ => AddrPortFrom (AddrFromIP ip) (u16 port)
  | NA_IP ip _ => AddrPortFrom (AddrFromIP ip) 0
  | _ => AddrPortFrom (AddrFromIP []) 0
  end.

Definition UnwrapIPv6Address (address : string) : string :=
  if (2 <? String.length address)%nat &&
     bool_decide (sat address 0 = Some "["%char) &&
     bool_decide (slast address = Some "]"%char)
  then stake (String.length address - 1 - 1) (sdrop 1 address)
  else address.

Definition PrefixFromNet (netAddr : NetAddr) : Prefix :=
  match netAddr with
  | NA_IPNet ip mask => Prefix_From (Addr_Unmap (AddrFromIP ip)) (IPMask_ones mask)
  | _ => MkPrefix AddrZero 0
  end.

(** [strings.Split] text to addresses: a part that does not parse becomes
    the zero address. *)
Definition parse_or_zero (it : string) : Addr :=
  match ParseAddr it with Some a => a | None => AddrZero end.

Definition answer_addresses `{SliceLib} (rawAnswer : RR) : list Addr :=
  match rawAnswer with
  | RR_A _ ip => [AddrFromIP ip]
  | RR_AAAA _ ip => [AddrFromIP ip]
  | RR_HTTPS _ values =>
      flat_map (fun value =>
        if Z.eqb (kv_Key value) SVCB_IPV4HINT || Z.eqb (kv_Key value) SVCB_IPV6HINT
        then slice_Map (Split (kv_String value) ",") parse_or_zero
        else []) values
  | RR_Other _ _ => []
  end.

Definition DNSMessageToAddresses `{SliceLib} (response : Msg) : list Addr :=
  fold_left (fun addresses rawAnswer => addresses ++ answer_addresses rawAnswer)
    (m_Answer response) [].

(** [addrs/fqdn.go] *)
Definition MaxFqdnLength : Z := 255%Z.

Definition FqdnToDomain `{DnsLib} (fqdn : string) : string :=
  if dns_IsFqdn fqdn then stake (String.length fqdn - 1) fqdn else fqdn.

Definition addrs_Is4 (ip : Addr) : bool := Addr_Is4 ip || Addr_Is4In6 ip.
Definition addrs_Is6 (ip : Addr) : bool := Addr_Is6 ip && negb (Addr_Is4In6 ip).

(** [url.Userinfo] and [url.URL]; [Password] also reports whether one was set. *)
Record Userinfo := MkUser { u_Username : string; u_Password : string; u_PasswordSet : bool }.

Record URL := MkURL {
  url_Scheme : string; url_Opaque : string; url_User : option Userinfo;
  url_Host : string; url_Path : string; url_RawPath : string;
  url_OmitHost : bool; url_ForceQuery : bool;
  url_RawQuery : string; url_Fragment : string; url_RawFragment : string;
}.

Definition copyUrlUser (u : option Userinfo) : option Userinfo :=
  match u with
  | None => None
  | Some u =>
      if u_PasswordSet u then Some (MkUser (u_Username u) (u_Password u) true)
      else Some (MkUser (u_Username u) "" false)
  end.

Definition CopyURL (raw : URL) : URL :=
  MkURL (url_Scheme raw) (url_Opaque raw) (copyUrlUser (url_User raw))
    (url_Host raw) (url_Path raw) (url_RawPath raw) (url_OmitHost raw)
    (url_ForceQuery raw) (url_RawQuery raw) (url_Fragment raw) (url_RawFragment raw).

(** ** [addrs/socksaddr.go] *)

Definition FromParseSocksaddrHostPort (host : string) (port : Z) : Socksaddr :=
  match ParseAddr (UnwrapIPv6Address host) with
  | None => MkSocks host AddrZero port
  | Some netAddr => MkSocks "" netAddr port
  end.

Definition FromParseSocksaddrHostPortStr (host portStr : string) : Socksaddr :=
  let port := (Atoi portStr).1 in
  match ParseAddr (UnwrapIPv6Address host) with
  | None => MkSocks host AddrZero (u16 port)
  | Some netAddr => MkSocks "" netAddr (u16 port)
  end.

Definition FromParseSocksaddr (address : string) : Socksaddr :=
  match SplitHostPort address with
  | None => FromParseSocksaddrHostPort address 0
  | Some (host, port) => FromParseSocksaddrHostPortStr host port
  end.

Definition FromAddrPort (ap : AddrPort) : Socksaddr := MkSocks "" (ap_Addr ap) (ap_Port ap).

Definition FromNetAddr (netAddr : NetAddr) : Socksaddr :=
  FromAddrPort (AddrPortFromNetAddr netAddr).

Definition Socksaddr_FqdnOnly (a : Socksaddr) : bool := negb (Addr_IsValid (sa_Addr a)).

Definition Socksaddr_Network (a : Socksaddr) : string := "socks".

Definition Socksaddr_AddrString (a : Socksaddr) : string :=
  if Addr_IsValid (sa_Addr a) then Addr_ToString (sa_Addr a) else sa_Fqdn a.

Definition Socksaddr_String (a : Socksaddr) : string :=
  if Addr_IsValid (sa_Addr a) then AddrPort_String (AddrPortFrom (sa_Addr a) (sa_Port a))
  else JoinHostPort (Socksaddr_AddrString a) (FormatUint (sa_Port a)).

Definition Socksaddr_Dialable (a : Socksaddr) : bool :=
  (Addr_IsValid (sa_Addr a) || negb (String.eqb (sa_Fqdn a) "")) &&
  negb (Z.eqb (sa_Port a) 0).

Definition Socksaddr_NeedResolve (a : Socksaddr) : bool :=
  negb (Addr_IsValid (sa_Addr a)) && negb (String.eqb (sa_Fqdn a) "").

Definition Socksaddr_Unwrap (a : Socksaddr) : Socksaddr :=
  if Addr_Is4In6 (sa_Addr a) then
    MkSocks "" (match Addr_As4 (sa_Addr a) with Some v => Addr4 v | None => AddrZero end)
      (sa_Port a)
  else a.

Definition Socksaddr_TCPAddr (a : Socksaddr) : NetAddr :=
  NA_TCP (Addr_AsSlice (sa_Addr a)) (sa_Port a) (Addr_Zone (sa_Addr a)).
Definition Socksaddr_UDPAddr (a : Socksaddr) : NetAddr :=
  NA_UDP (Addr_AsSlice (sa_Addr a)) (sa_Port a) (Addr_Zone (sa_Addr a)).
Definition Socksaddr_IPAddr (a : Socksaddr) : NetAddr :=
  NA_IP (Addr_AsSlice (sa_Addr a)) (Addr_Zone (sa_Addr a)).

Definition Socksaddr_NoPort (a : Socksaddr) : Socksaddr :=
  MkSocks (sa_Fqdn a) (sa_Addr a) 0.

(** ** [addrs/sorts.go] *)

(** [sort.Slice], whose result is fixed only up to ties: a function that
    permutes, and sorts when [less] is a strict weak order. *)
Class SortLib := sort_Slice : forall {A : Type}, (A -> A -> bool) -> list A -> list A.

Definition strict_weak {A} (less : A -> A -> bool) : Prop :=
  (forall x, less x x = false) /\
  (forall x y z, less x y = true -> less y z = true -> less x z = true) /\
  (forall x y z, less x y = false -> less y z = false -> less x z = false).

Class SortLaws `{SortLib} : Prop := {
  sort_Slice_perm : forall A less (l : list A), Permutation l (sort_Slice less l);
  sort_Slice_sorted : forall A less (l : list A), strict_weak less ->
    StronglySorted (fun a b => less b a = false) (sort_Slice less l);
}.

(** The comparison of [SortAddressesInPlace]. *)
Definition prefer_less (preferIPv4 : bool) (a b : Addr) : bool :=
  if preferIPv4 then Addr_Is4 a && negb (Addr_Is4 b)
  else negb (Addr_Is4 a) && Addr_Is4 b.

(** The slice after sorting in place. *)
Definition SortAddressesInPlace `{SortLib} (addresses : list Addr) (strategy : Strategy)
    : list Addr :=
  if Z.eqb strategy StrategyIPv4Only || Z.eqb strategy StrategyIPv6Only ||
     (length addresses <=? 1)%nat then addresses
  else
    let preferIPv4 := Z.eqb strategy StrategyPreferIPv4 in
    if negb preferIPv4 && negb (Z.eqb strategy StrategyPreferIPv6) then addresses
    else sort_Slice (prefer_less preferIPv4) addresses.

(** The clone is sorted; the argument keeps its value. *)
Definition SortAddresses `{SortLib} (addresses : list Addr) (strategy : Strategy)
    : list Addr :=
  SortAddressesInPlace addresses strategy.

Definition FilterAddressByStrategy (addresses : list Addr) (strategy : Strategy)
    : list Addr :=
  if Z.eqb strategy StrategyIPv4Only then
    fold_left (fun filtered addr => if Addr_Is4 addr then filtered ++ [addr] else filtered)
      addresses []
  else if Z.eqb strategy StrategyIPv6Only then
    fold_left (fun filtered addr => if Addr_Is6 addr then filtered ++ [addr] else filtered)
      addresses []
  else addresses.

(** ** Insertion sort: Go's own choice for at most twelve elements *)

Module SortInsertion.

Fixpoint insert {A} (less : A -> A -> bool) (x : A) (l : list A) : list A :=
  match l with
  | [] => [x]
  | y :: l' => if less y x then y :: insert less x l' else x :: l
  end.

#[global] Instance sort_insertion : SortLib | 100 :=
  fun A less l => fold_right (insert less) [] l.

Lemma insert_perm {A} less (x : A) l : Permutation (x :: l) (insert less x l).
Proof.
  induction l as [|y l IH]; simpl; [done|]. destruct (less y x); [|done].
  etrans; [apply perm_swap|]. by constructor.
Qed.

Lemma insert_sorted {A} less (x : A) l :
  strict_weak less ->
  StronglySorted (fun a b => less b a = false) l ->
  StronglySorted (fun a b => less b a = false) (insert less x l).
Proof.
  intros (Hirr & Htr & Hneg). induction 1 as [|y l Hs IH Hy]; simpl.
  - repeat constructor.
  - destruct (less y x) eqn:E.
    + constructor; [done|].
      assert (less x y = false) as Hxy.
      { destruct (less x y) eqn:E'; [|done].
        specialize (Htr _ _ _ E E'). by rewrite Hirr in Htr. }
      eapply Permutation_Forall; [apply insert_perm|]. by constructor.
    + constructor; [by constructor|]. constructor; [done|].
      eapply Forall_impl; [exact Hy|]. intros z Hz. simpl in *. eauto.
Qed.

#[global] Instance sort_insertion_laws : @SortLaws sort_insertion | 100.
Proof.
  split.
  - intros A less l. induction l as [|x l IH]; simpl; [done|].
    etrans; [by constructor|]. apply insert_perm.
  - intros A less l Hw. induction l as [|x l IH]; simpl; [constructor|].
    by apply insert_sorted.
Qed.

End SortInsertion.

(** ** Lemmas *)

Lemma prefer_less_strict_weak b : strict_weak (prefer_less b).
Proof.
  unfold strict_weak, prefer_less. split; [|split].
  - intros x. by destruct b, (Addr_Is4 x).
  - intros x y z. by destruct b, (Addr_Is4 x), (Addr_Is4 y), (Addr_Is4 z).
  - intros x y z. by destruct b, (Addr_Is4 x), (Addr_Is4 y), (Addr_Is4 z).
Qed.

(** A list without inversions between two classes is one class, then the other. *)
Lemma sorted_partition {A} (p : A -> bool) l :
  StronglySorted (fun a b => (p b && negb (p a)) = false) l ->
  l = List.filter p l ++ List.filter (fun x => negb (p x)) l.
Proof.
  induction 1 as [|x l Hs IH Hx]; simpl; [done|].
  destruct (p x) eqn:E; simpl; [by f_equal|].
  assert (List.filter p l = []) as Hn.
  { apply filter_none. intros y Hy. rewrite List.Forall_forall in Hx.
    specialize (Hx y Hy). simpl in Hx. by rewrite andb_true_r in Hx. }
  rewrite Hn in *. simpl in *. by f_equal.
Qed.

Lemma fold_left_filter {A} (p : A -> bool) l acc :
  fold_left (fun filtered a => if p a then filtered ++ [a] else filtered) l acc =
  acc ++ List.filter p l.
Proof.
  revert acc. induction l as [|x l IH]; intros acc; simpl; [by rewrite app_nil_r|].
  rewrite IH. destruct (p x); [|done]. by rewrite <- app_assoc.
Qed.

Lemma fold_left_flat_map {A B} (f : A -> list B) l acc :
  fold_left (fun r a => r ++ f a) l acc = acc ++ flat_map f l.
Proof.
  revert acc. induction l as [|x l IH]; intros acc; simpl; [by rewrite app_nil_r|].
  by rewrite IH, <- app_assoc.
Qed.

(** The sorted slice, class by class. *)
Lemma sort_Slice_prefer `{SortLaws} b l :
  sort_Slice (prefer_less b) l =
  List.filter (fun a => Bool.eqb (Addr_Is4 a) b) (sort_Slice (prefer_less b) l) ++
  List.filter (fun a => negb (Bool.eqb (Addr_Is4 a) b)) (sort_Slice (prefer_less b) l).
Proof.
  apply sorted_partition.
  pose proof (sort_Slice_sorted _ _ l (prefer_less_strict_weak b)) as Hs.
  revert Hs. generalize (sort_Slice (prefer_less b) l). clear.
  induction 1 as [|x l Hs IH Hx]; constructor; [done|].
  eapply Forall_impl; [exact Hx|]. intros y. unfold prefer_less.
  by destruct b, (Addr_Is4 y), (Addr_Is4 x).
Qed.

Lemma SortAddresses_perm `{SortLaws} addresses strategy :
  Permutation addresses (SortAddresses addresses strategy).
Proof.
  unfold SortAddresses, SortAddressesInPlace. split_ifs; try done. apply sort_Slice_perm.
Qed.

Lemma UnwrapIPv6Address_id s :
  IndexByte s "[" = None -> UnwrapIPv6Address s = s.
Proof.
  intros Hs. unfold UnwrapIPv6Address. destruct s as [|c s]; [done|].
  simpl in Hs. destruct (Ascii.eqb_spec c "[") as [|Hc]; [done|].
  replace (bool_decide (sat (String c s) 0 = Some "["%char)) with false.
  - by rewrite andb_false_r.
  - symmetry. apply bool_decide_eq_false. simpl. congruence.
Qed.

(** A bracketed text loses its brackets. *)
Lemma UnwrapIPv6Address_brackets s :
  s <> "" -> UnwrapIPv6Address ("[" +++ s +++ "]") = s.
Proof.
  intros Hs. unfold UnwrapIPv6Address.
  assert (String.length ("[" +++ s +++ "]") = String.length s + 2) as El.
  { simpl. rewrite sapp_length. simpl. lia. }
  assert (slast ("[" +++ s +++ "]") = Some "]"%char) as Es.
  { change ("[" +++ s +++ "]") with ((("[" +++ s)) +++ sbyte "]"). apply slast_snoc. }
  rewrite Es, El.
  destruct (Nat.ltb_spec 2 (String.length s + 2)) as [_|Hl].
  - simpl. replace (String.length s + 2 - 1 - 1) with (String.length s) by lia.
    apply stake_app.
  - exfalso. destruct s; [done|]. simpl in Hl. lia.
Qed.

Lemma NoPort_idem a : Socksaddr_NoPort (Socksaddr_NoPort a) = Socksaddr_NoPort a.
Proof. done. Qed.

Lemma FqdnToDomain_Fqdn `{DnsLaws} d :
  dns_IsFqdn d = false -> FqdnToDomain (dns_Fqdn d) = d.
Proof.
  intros Hd. unfold FqdnToDomain. rewrite Fqdn_IsFqdn, Fqdn_add by done.
  rewrite sapp_length. simpl. replace (String.length d + 1 - 1) with (String.length d) by lia.
  apply stake_app.
Qed.

(** ** Properties *)

(** Sorting by strategy permutes the addresses and puts the preferred
    family first: all IPv4 addresses before the others for prefer_ipv4, all
    others before the IPv4 ones for prefer_ipv6; under any other strategy,
    the single-family ones included, the order is untouched. *)
Theorem SortAddresses_spec `{SortLaws} addresses strategy :
  Permutation addresses (SortAddresses addresses strategy) /\
  (strategy = StrategyPreferIPv4 -> exists l4 l6,
     SortAddresses addresses strategy = l4 ++ l6 /\
     Permutation l4 (List.filter Addr_Is4 addresses) /\
     Permutation l6 (List.filter (fun a => negb (Addr_Is4 a)) addresses)) /\
  (strategy = StrategyPreferIPv6 -> exists l6 l4,
     SortAddresses addresses strategy = l6 ++ l4 /\
     Permutation l4 (List.filter Addr_Is4 addresses) /\
     Permutation l6 (List.filter (fun a => negb (Addr_Is4 a)) addresses)) /\
  (strategy <> StrategyPreferIPv4 -> strategy <> StrategyPreferIPv6 ->
     SortAddresses addresses strategy = addresses).
Proof.
  assert (length addresses <= 1 -> exists x, addresses = [] \/ addresses = [x]) as Hshort.
  { destruct addresses as [|x [|]]; simpl; [by exists AddrZero; left|by exists x; right|lia]. }
  assert (forall b, Permutation (List.filter (fun a => Bool.eqb (Addr_Is4 a) b) addresses)
     (List.filter (if b then Addr_Is4 else (fun a => negb (Addr_Is4 a))) addresses)) as Hb.
  { intros b. erewrite filter_ext; [done|]. intros a. by destruct b, (Addr_Is4 a). }
  assert (forall b, Permutation (List.filter (fun a => negb (Bool.eqb (Addr_Is4 a) b)) addresses)
     (List.filter (if b then (fun a => negb (Addr_Is4 a)) else Addr_Is4) addresses)) as Hnb.
  { intros b. erewrite filter_ext; [done|]. intros a. by destruct b, (Addr_Is4 a). }
  split; [apply SortAddresses_perm|].
  unfold SortAddresses, SortAddressesInPlace. split; [|split].
  - intros ->. simpl. destruct (Nat.leb_spec (length addresses) 1) as [Hl|_].
    + destruct (Hshort Hl) as [x [->| ->]]; simpl.
      * by exists [], [].
      * destruct (Addr_Is4 x); simpl; [by exists [x], []|by exists [], [x]].
    + simpl. eexists _, _. split; [apply (sort_Slice_prefer true)|].
      split; (etrans; [apply filter_Permutation; symmetry; apply sort_Slice_perm|]);
        [apply (Hb true)|apply (Hnb true)].
  - intros ->. simpl. destruct (Nat.leb_spec (length addresses) 1) as [Hl|_].
    + destruct (Hshort Hl) as [x [->| ->]]; simpl.
      * by exists [], [].
      * destruct (Addr_Is4 x); simpl; [by exists [], [x]|by exists [x], []].
    + simpl. eexists _, _. split; [apply (sort_Slice_prefer false)|].
      split; (etrans; [apply filter_Permutation; symmetry; apply sort_Slice_perm|]);
        [apply (Hnb false)|apply (Hb false)].
  - intros H4 H6. apply Z.eqb_neq in H4, H6. rewrite H4, H6. by split_ifs.
Qed.

Lemma SortAddresses_spec_witness :
  SortAddresses [Addr6 1 ""; Addr4 5; Addr6 2 ""; Addr4 7] StrategyPreferIPv4 =
    [Addr4 5; Addr4 7; Addr6 1 ""; Addr6 2 ""] /\
  exists l4 l6,
    SortAddresses [Addr6 1 ""; Addr4 5] StrategyPreferIPv4 = l4 ++ l6 /\
    Permutation l4 [Addr4 5] /\ Permutation l6 [Addr6 1 ""].
Proof.
  split; [reflexivity|].
  apply (SortAddresses_spec [Addr6 1 ""; Addr4 5] StrategyPreferIPv4). reflexivity.
Defined.

(** Filtering keeps, in order, the addresses of the family a
    single-family strategy names, and everything under the others; what it
    keeps under ipv6_only includes the IPv4-mapped addresses. *)
Theorem FilterAddressByStrategy_spec addresses strategy :
  FilterAddressByStrategy addresses strategy =
    (if Z.eqb strategy StrategyIPv4Only then List.filter Addr_Is4 addresses
     else if Z.eqb strategy StrategyIPv6Only then List.filter Addr_Is6 addresses
     else addresses) /\
  FilterAddressByStrategy (FilterAddressByStrategy addresses strategy) strategy =
    FilterAddressByStrategy addresses strategy.
Proof.
  unfold FilterAddressByStrategy.
  assert (forall (p : Addr -> bool) l, List.filter p (List.filter p l) = List.filter p l) as Hi.
  { intros p l. apply filter_all. by intros x [_ Hx]%filter_In. }
  rewrite !fold_left_filter. simpl. split_ifs; by rewrite ?fold_left_filter, ?Hi.
Qed.

(** The text of a valid address, and what its characters are. *)
Lemma SplitHostPort_AddrPort a port :
  addr_wf a -> Addr_IsValid a = true -> (0 <= port)%Z ->
  IndexByte (Addr_Zone a) "[" = None -> IndexByte (Addr_Zone a) "]" = None ->
  SplitHostPort (AddrPort_String (AddrPortFrom a port)) =
    Some (Addr_ToString a, FormatUint port) /\
  IndexByte (Addr_ToString a) "[" = None.
Proof.
  intros Ha Hv Hp Hz1 Hz2. destruct a as [|ip|ip zone]; [done| |].
  - split; [|by apply string4_IndexByte]. cbn [AddrPort_String ap_Addr ap_Port Addr_ToString].
    apply SplitHostPort_join; by apply string4_IndexByte || by apply FormatUint_IndexByte.
  - assert (forall c, hex_or_colon c = false -> Ascii.eqb "." c = false -> is_digit c = false ->
      Ascii.eqb "%" c = false -> IndexByte zone c = None ->
      IndexByte (Addr_ToString (Addr6 ip zone)) c = None) as Hno.
    { intros c H1 H2 H3 H4 H5. rewrite ToString6_body. unfold with_zone.
      pose proof (text6_body_IndexByte ip c H1 H2 H3) as Hb.
      destruct zone as [|z zone]; [done|]. rewrite IndexByte_app_l by done.
      cbn [String.append]. cbn [IndexByte] in *. rewrite H4.
      destruct (Ascii.eqb z c); [done|]. by destruct (IndexByte zone c). }
    split; [|by apply Hno]. cbn [AddrPort_String ap_Addr ap_Port].
    apply SplitHostPort_brackets; by apply Hno || by apply FormatUint_IndexByte.
Qed.

(** C37: printing a socket address and parsing the text gives it back: for
    every IP address with a port, IPv4, IPv6, IPv4-mapped or with a zone
    (without brackets in it), and for a host name (one that is not an
    address and has no colon or bracket) with a port. *)
Theorem Socksaddr_String_roundtrip :
  (forall a port, addr_wf a -> Addr_IsValid a = true -> (0 <= port < 2 ^ 16)%Z ->
     IndexByte (Addr_Zone a) "[" = None -> IndexByte (Addr_Zone a) "]" = None ->
     FromParseSocksaddr (Socksaddr_String (MkSocks "" a port)) = MkSocks "" a port) /\
  (forall host port, (0 <= port < 2 ^ 16)%Z -> ParseAddr host = None ->
     IndexByte host ":" = None -> IndexByte host "[" = None -> IndexByte host "]" = None ->
     FromParseSocksaddr (Socksaddr_String (MkSocks host AddrZero port)) =
       MkSocks host AddrZero port).
Proof.
  assert (forall text h p, SplitHostPort text = Some (h, FormatUint p) ->
     IndexByte h "[" = None -> (0 <= p < 2 ^ 16)%Z ->
     FromParseSocksaddr text =
     match ParseAddr h with
     | None => MkSocks h AddrZero p
     | Some a => MkSocks "" a p
     end) as Hgen.
  { intros text h p Hs H1 Hp. unfold FromParseSocksaddr. rewrite Hs.
    unfold FromParseSocksaddrHostPortStr.
    rewrite Atoi_FormatUint, UnwrapIPv6Address_id by (done || lia).
    simpl fst. by rewrite wrapu_small. }
  split.
  - intros a port Ha Hv Hp Hz1 Hz2.
    destruct (SplitHostPort_AddrPort a port Ha Hv ltac:(lia) Hz1 Hz2) as [Hs Hb].
    unfold Socksaddr_String. cbn [sa_Addr sa_Port]. rewrite Hv. rewrite (Hgen _ _ _ Hs Hb Hp).
    rewrite ParseAddr_ToString; [done|done|]. by intros ->.
  - intros host port Hp Ha H1 H2 H3.
    unfold Socksaddr_String, Socksaddr_AddrString. simpl. unfold JoinHostPort. rewrite H1.
    erewrite Hgen; [|apply SplitHostPort_join;
      first [done|apply FormatUint_IndexByte; [lia|done]]|done|done].
    by rewrite Ha.
Qed.

(** A bracket in the zone: [Socksaddr.String] takes the text of
    [AddrPort.String], which [SplitHostPort] does not take apart again, and
    the address becomes a host name. *)
Example bracket_zone_text :
  Socksaddr_String (MkSocks "" (Addr6 1 "a]b") 53) = "[::1%a]b]:53" /\
  FromParseSocksaddr "[::1%a]b]:53" = MkSocks "[::1%a]b]:53" AddrZero 0.
Proof. split; vm_compute; reflexivity. Qed.

Lemma Socksaddr_String_roundtrip_witness :
  Socksaddr_String (MkSocks "" (Addr4 0x01020304) 53) = "1.2.3.4:53" /\
  Socksaddr_String (MkSocks "" (Addr6 0xfe800000000000000000000000000001 "eth0") 53) =
    "[fe80::1%eth0]:53" /\
  FromParseSocksaddr "[fe80::1%eth0]:53" =
    MkSocks "" (Addr6 0xfe800000000000000000000000000001 "eth0") 53 /\
  FromParseSocksaddr "example.org:443" = MkSocks "example.org" AddrZero 443.
Proof.
  split; [reflexivity|]. split; [vm_compute; reflexivity|]. split.
  - apply (proj1 Socksaddr_String_roundtrip
      (Addr6 0xfe800000000000000000000000000001 "eth0") 53%Z);
      [simpl; lia|reflexivity|lia|reflexivity..].
  - apply (proj2 Socksaddr_String_roundtrip "example.org" 443%Z); [lia|reflexivity..].
Defined.

(** A decimal port of any size is accepted and kept modulo 2^16: a port
    out of range does not fail but becomes another port. *)
Theorem FromParseSocksaddr_port_wraps host port :
  IndexByte host ":" = None -> IndexByte host "[" = None -> IndexByte host "]" = None ->
  (0 <= port < 2 ^ 63)%Z ->
  sa_Port (FromParseSocksaddr (host +++ ":" +++ FormatUint port)) = (port mod 2 ^ 16)%Z.
Proof.
  intros H1 H2 H3 Hp. unfold FromParseSocksaddr.
  rewrite SplitHostPort_join; try done; try (apply FormatUint_IndexByte; [lia|done]).
  unfold FromParseSocksaddrHostPortStr. rewrite Atoi_FormatUint by done. by case_match.
Qed.

Lemma FromParseSocksaddr_port_wraps_witness :
  sa_Port (FromParseSocksaddr ("example.org" +++ ":" +++ FormatUint 65589)) = 53%Z /\
  sa_Port (FromParseSocksaddr "example.org:-1") = 65535%Z.
Proof.
  split; [|vm_compute; reflexivity].
  apply (FromParseSocksaddr_port_wraps "example.org" 65589%Z); (reflexivity || lia).
Defined.

(** Converting to a [net.Addr] and back keeps the IP address and the
    port of a well-formed socket address, and loses exactly its host name
    and its IPv6 zone; the UDP and TCP forms agree, and the IP form loses
    the port as well. *)
Theorem FromNetAddr_UDPAddr a :
  addr_wf (sa_Addr a) -> (0 <= sa_Port a < 2 ^ 16)%Z ->
  FromNetAddr (Socksaddr_UDPAddr a) =
    MkSocks "" (Addr_withoutZone (sa_Addr a)) (sa_Port a) /\
  FromNetAddr (Socksaddr_TCPAddr a) = FromNetAddr (Socksaddr_UDPAddr a) /\
  FromNetAddr (Socksaddr_IPAddr a) =
    Socksaddr_NoPort (FromNetAddr (Socksaddr_UDPAddr a)) /\
  FromNetAddr (NA_Socks a) = MkSocks "" (sa_Addr a) (sa_Port a).
Proof.
  intros Ha Hp. unfold FromNetAddr, FromAddrPort, AddrPortFromNetAddr, Socksaddr_UDPAddr,
    Socksaddr_TCPAddr, Socksaddr_IPAddr, Socksaddr_NoPort, AddrFromIP. simpl.
  by rewrite FromSlice_AsSlice, wrapu_small.
Qed.

Lemma FromNetAddr_UDPAddr_witness :
  FromNetAddr (Socksaddr_UDPAddr (MkSocks "" (Addr6 1 "eth0") 53)) =
    MkSocks "" (Addr6 1 "") 53.
Proof.
  apply (FromNetAddr_UDPAddr (MkSocks "" (Addr6 1 "eth0") 53)); simpl; lia.
Defined.

(** [Unwrap] turns an IPv4-mapped address into the IPv4 one and keeps
    the port; it is idempotent, and a name or an address of another kind is
    returned as it is. *)
Theorem Socksaddr_Unwrap_spec a :
  (Addr_Is4In6 (sa_Addr a) = true ->
     Socksaddr_Unwrap a = MkSocks "" (Addr_Unmap (sa_Addr a)) (sa_Port a) /\
     Addr_Is4 (sa_Addr (Socksaddr_Unwrap a)) = true) /\
  (Addr_Is4In6 (sa_Addr a) = false -> Socksaddr_Unwrap a = a) /\
  Socksaddr_Unwrap (Socksaddr_Unwrap a) = Socksaddr_Unwrap a.
Proof.
  destruct a as [f [|ip|ip z] p]; unfold Socksaddr_Unwrap; cbn [sa_Addr sa_Port sa_Fqdn];
    [done..|].
  cbn [Addr_As4 Addr_Unmap]. destruct (Addr_Is4In6 (Addr6 ip z)) eqn:E; [done|].
  cbn [sa_Addr]. by rewrite E.
Qed.

Lemma Socksaddr_Unwrap_spec_witness :
  Socksaddr_Unwrap (MkSocks "" (Addr6 0xffff01020304 "") 53) =
    MkSocks "" (Addr4 0x01020304) 53.
Proof.
  apply (proj1 (Socksaddr_Unwrap_spec (MkSocks "" (Addr6 0xffff01020304 "") 53))).
  reflexivity.
Defined.

(** A URL copy is the URL, for every [Userinfo] Go can build (no password
    without the flag). *)
Lemma CopyURL_eq raw :
  (forall u, url_User raw = Some u -> u_PasswordSet u = false -> u_Password u = "") ->
  CopyURL raw = raw.
Proof.
  intros Hu. destruct raw. unfold CopyURL. simpl in *. f_equal.
  destruct url_User0 as [[n p []]|]; simpl; [done| |done].
  specialize (Hu _ eq_refl eq_refl). simpl in Hu. by subst.
Qed.
