(* ===== verification/Control.v ===== *)
(** * Package [control]: socket options applied before a socket is used

    [control/interface.go] (composition), [control/bind*.go] (binding to an
    interface, Linux), [control/mark_linux.go], [control/reuse_unix.go],
    [control/frag_linux.go], [control/bind_finder*.go] (the interface table);
    the stubs of the other systems, which do nothing. *)

From S2P Require Import Prelude GoStd Netip Meta Dns Addrs.

(** ** Constants of the Linux system call interface *)

Definition SOL_SOCKET : Z := 1%Z.
Definition SO_REUSEADDR : Z := 2%Z.
Definition SO_REUSEPORT : Z := 15%Z.
Definition SO_MARK : Z := 36%Z.
Definition SO_BINDTOIFINDEX : Z := 62%Z.
Definition IPPROTO_IP : Z := 0%Z.
Definition IP_MTU_DISCOVER : Z := 10%Z.
Definition IP_PMTUDISC_DO : Z := 2%Z.
Definition IPPROTO_IPV6 : Z := 41%Z.
Definition IPV6_MTU_DISCOVER : Z := 23%Z.
Definition EINVAL : err := EErrno 22.
Definition ENOPROTOOPT : err := EErrno 92.
Definition os_ErrInvalid : err := EStd "os.ErrInvalid".

(** ** Interfaces *)

(** [net.Interface] of the standard library. *)
Record NetInterface := MkNetIf {
  ni_Index : Z; ni_MTU : Z; ni_Name : string; ni_HardwareAddr : list Z; ni_Flags : Z;
}.

(** [control/bind_finder.go]: [type Interface struct] *)
Record Interface := MkIface {
  if_Index : Z; if_MTU : Z; if_Name : string; if_HardwareAddr : list Z; if_Flags : Z;
  if_Addresses : list Prefix;
}.

Definition Interface_Equals (i other : Interface) : bool :=
  Z.eqb (if_Index i) (if_Index other) &&
  Z.eqb (if_MTU i) (if_MTU other) &&
  String.eqb (if_Name i) (if_Name other) &&
  bool_decide (if_HardwareAddr i = if_HardwareAddr other) &&
  Z.eqb (if_Flags i) (if_Flags other) &&
  bool_decide (if_Addresses i = if_Addresses other).

(** The pointer cast keeps the fields the two structs share. *)
Definition Interface_NetInterface (i : Interface) : NetInterface :=
  MkNetIf (if_Index i) (if_MTU i) (if_Name i) (if_HardwareAddr i) (if_Flags i).

Definition InterfaceFromNetAddrs (iif : NetInterface) (addresses : list Prefix) : Interface :=
  MkIface (ni_Index iif) (ni_MTU iif) (ni_Name iif) (ni_HardwareAddr iif) (ni_Flags iif)
    addresses.

(** ** The operating system *)

(** The system calls and the interface queries, over the system's state. *)
Class Sys (OS : Type) := {
  sys_SetsockoptInt : Z -> Z -> Z -> Z -> ST OS (option err);
  sys_BindToDevice : Z -> string -> ST OS (option err);
  net_Interfaces : ST OS (gores (list NetInterface));
  net_InterfaceByName : string -> ST OS (option err);
  net_InterfaceByIndex : Z -> ST OS (option err);
  ni_Addrs : NetInterface -> ST OS (gores (list NetAddr));
}.

(** The state control functions work on: the process-wide flag of
    [control/bind_linux.go], the table of the [DefaultInterfaceFinder] the
    functions were made with, and the system. *)
Record CWorld (OS : Type) := MkCW {
  ifIndexDisabled : bool;
  finder_interfaces : list Interface;
  cw_os : OS;
}.
Arguments MkCW {OS} _ _ _.
Arguments ifIndexDisabled {OS} _.
Arguments finder_interfaces {OS} _.
Arguments cw_os {OS} _.

(** [syscall.RawConn]: [Control] runs the function on the descriptor, or
    fails without running it when the connection is closed. *)
Inductive RawConn :=
  | RawOpen (fd : Z)
  | RawClosed (e : err).

Section control.
Context {OS : Type} `{Sys OS} `{ExLib} `{SliceLib}.

Definition lift_os {A} (m : ST OS A) : ST (CWorld OS) A :=
  fun w => let '(a, os) := m (cw_os w) in
           (a, MkCW (ifIndexDisabled w) (finder_interfaces w) os).

Definition ifIndexDisabled_Load : ST (CWorld OS) bool := fun w => (ifIndexDisabled w, w).

Definition ifIndexDisabled_Store (b : bool) : ST (CWorld OS) unit :=
  fun w => (tt, MkCW b (finder_interfaces w) (cw_os w)).

(** *** [control/interface.go] *)

(** [type Func = func(network, address string, conn syscall.RawConn) error];
    the nil function is [None]. *)
Definition FuncBody : Type := string -> string -> RawConn -> ST (CWorld OS) (option err).
Definition Func : Type := option FuncBody.

Definition Append (oldFunc newFunc : Func) : Func :=
  match oldFunc with
  | None => newFunc
  | Some old =>
      match newFunc with
      | None => oldFunc
      | Some new => Some (fun network address conn =>
          e ← old network address conn;
          match e with
          | Some err => mret (Some err)
          | None => new network address conn
          end)
      end
  end.

(** [innerErr] is written by the block when [Control] runs it, which it does
    exactly when the connection is open. *)
Definition Raw (rawConn : RawConn) (block : Z -> ST (CWorld OS) (option err))
    : ST (CWorld OS) (option err) :=
  match rawConn with
  | RawOpen fd => innerErr ← block fd; mret (ex_Errors [innerErr; None])
  | RawClosed e => mret (ex_Errors [None; Some e])
  end.

(** [Raw0]: the zero value when the block is not run. *)
Definition Raw0 {T} (zero : T) (rawConn : RawConn)
    (block : Z -> ST (CWorld OS) (gores T)) : ST (CWorld OS) (gores T) :=
  match rawConn with
  | RawOpen fd => '(value, innerErr) ← block fd; mret (value, ex_Errors [innerErr; None])
  | RawClosed e => mret (zero, ex_Errors [None; Some e])
  end.

(** [conn] is the result of [conn.SyscallConn()]. *)
Definition Conn (conn : RawConn + err) (block : Z -> ST (CWorld OS) (option err))
    : ST (CWorld OS) (option err) :=
  match conn with
  | inr e => mret (Some e)
  | inl rawConn => Raw rawConn block
  end.

Definition Conn0 {T} (zero : T) (conn : RawConn + err)
    (block : Z -> ST (CWorld OS) (gores T)) : ST (CWorld OS) (gores T) :=
  match conn with
  | inr e => mret (zero, Some e)
  | inl rawConn => Raw0 zero rawConn block
  end.

(** *** The interface finder *)

(** [control/bind_finder.go]: the method of [InterfaceFinder] that binding
    calls, which returns an interface or an error, never neither. *)
Record InterfaceFinder := MkFinder {
  finder_ByName : string -> ST (CWorld OS) (Interface + err);
}.

Definition interface_zero : Interface := MkIface 0 0 "" [] 0 [].

Definition InterfaceFromNet (iif : NetInterface) : ST (CWorld OS) (gores Interface) :=
  '(ifAddrs, e) ← lift_os (ni_Addrs iif);
  match e with
  | Some err => mret (interface_zero, Some err)
  | None => mret (InterfaceFromNetAddrs iif (slice_Map ifAddrs PrefixFromNet), None)
  end.

(** The loop of [Update]: the table built so far, or the first error. *)
Fixpoint update_loop (netIfs : list NetInterface) (interfaces : list Interface)
    : ST (CWorld OS) (list Interface + err) :=
  match netIfs with
  | [] => mret (inl interfaces)
  | netIf :: netIfs =>
      '(iif, e) ← InterfaceFromNet netIf;
      match e with
      | Some err => mret (inr err)
      | None => update_loop netIfs (interfaces ++ [iif])
      end
  end.

Definition UpdateInterfaces (interfaces : list Interface) : ST (CWorld OS) unit :=
  fun w => (tt, MkCW (ifIndexDisabled w) interfaces (cw_os w)).

Definition Finder_Update : ST (CWorld OS) (option err) :=
  '(netIfs, e) ← lift_os net_Interfaces;
  match e with
  | Some err => mret (Some err)
  | None =>
      r ← update_loop netIfs [];
      match r with
      | inr err => mret (Some err)
      | inl interfaces => _ ← UpdateInterfaces interfaces; mret None
      end
  end.

Definition Finder_Interfaces : ST (CWorld OS) (list Interface) :=
  fun w => (finder_interfaces w, w).

Definition no_such_interface : err :=
  EOp "route" "ip+net" (ex_New [XStr "no such network interface"]).

(** [ByName] and [ByIndex] call themselves after an update; [fuel] bounds
    the calls and [None] means that it ran out. *)
Fixpoint Finder_ByName (fuel : nat) (name : string)
    : ST (CWorld OS) (option (gores (option Interface))) :=
  match fuel with
  | 0 => mret None
  | S fuel =>
      interfaces ← Finder_Interfaces;
      match List.find (fun i => String.eqb (if_Name i) name) interfaces with
      | Some i => mret (Some (Some i, None))
      | None =>
          e ← lift_os (net_InterfaceByName name);
          match e with
          | Some _ => mret (Some (None, Some no_such_interface))
          | None =>
              e ← Finder_Update;
              match e with
              | Some err => mret (Some (None, Some err))
              | None => Finder_ByName fuel name
              end
          end
      end
  end.

Fixpoint Finder_ByIndex (fuel : nat) (index : Z)
    : ST (CWorld OS) (option (gores (option Interface))) :=
  match fuel with
  | 0 => mret None
  | S fuel =>
      interfaces ← Finder_Interfaces;
      match List.find (fun i => Z.eqb (if_Index i) index) interfaces with
      | Some i => mret (Some (Some i, None))
      | None =>
          e ← lift_os (net_InterfaceByIndex index);
          match e with
          | Some _ => mret (Some (None, Some no_such_interface))
          | None =>
              e ← Finder_Update;
              match e with
              | Some err => mret (Some (None, Some err))
              | None => Finder_ByIndex fuel index
              end
          end
      end
  end.

(** The interface that has the address itself, or else the first one with a
    prefix that contains it. *)
Definition Finder_ByAddr (addr : Addr) : ST (CWorld OS) (gores (option Interface)) :=
  interfaces ← Finder_Interfaces;
  match List.find (fun i => existsb (fun p => bool_decide (prefix_Addr p = addr))
                              (if_Addresses i)) interfaces with
  | Some i => mret (Some i, None)
  | None =>
      match List.find (fun i => existsb (fun p => Prefix_Contains p addr)
                                  (if_Addresses i)) interfaces with
      | Some i => mret (Some i, None)
      | None => mret (None, Some no_such_interface)
      end
  end.

(** *** Binding, [control/bind.go] and [control/bind_linux.go] *)

Definition isVirtualInterface (addr : Addr) : bool :=
  Addr_IsLoopback addr || Addr_IsMulticast addr || Addr_IsInterfaceLocalMulticast addr.

(** The index to bind to: the given one, or the one the finder knows the
    name by when the given one is -1. *)
Definition bind_index (finder : InterfaceFinder) (interfaceName : string)
    (interfaceIndex : Z) : ST (CWorld OS) (Z + err) :=
  if Z.eqb interfaceIndex (-1) then
    if String.eqb interfaceName "" then mret (inr os_ErrInvalid)
    else
      r ← finder_ByName finder interfaceName;
      match r with
      | inr err => mret (inr err)
      | inl iif => mret (inl (if_Index iif))
      end
  else mret (inl interfaceIndex).

Definition bind_name (fd : Z) (interfaceName : string) : ST (CWorld OS) (option err) :=
  if String.eqb interfaceName "" then mret (Some os_ErrInvalid)
  else lift_os (sys_BindToDevice fd interfaceName).

(** The block that [bindToInterface] runs on the descriptor. *)
Definition bindToInterface_block (finder : InterfaceFinder) (interfaceName : string)
    (interfaceIndex : Z) (preferInterfaceName : bool) (fd : Z)
    : ST (CWorld OS) (option err) :=
  disabled ← ifIndexDisabled_Load;
  if preferInterfaceName || disabled then bind_name fd interfaceName
  else
    r ← bind_index finder interfaceName interfaceIndex;
    match r with
    | inr err => mret (Some err)
    | inl idx =>
        e ← lift_os (sys_SetsockoptInt fd SOL_SOCKET SO_BINDTOIFINDEX idx);
        match e with
        | None => mret None
        | Some err =>
            if ex_IsMulti err [ENOPROTOOPT; EINVAL] then
              _ ← ifIndexDisabled_Store true; bind_name fd interfaceName
            else mret (Some err)
        end
    end.

Definition bindToInterface (conn : RawConn) (network address : string)
    (finder : InterfaceFinder) (interfaceName : string) (interfaceIndex : Z)
    (preferInterfaceName : bool) : ST (CWorld OS) (option err) :=
  Raw conn (bindToInterface_block finder interfaceName interfaceIndex preferInterfaceName).

Definition BindToInterface0 (finder : InterfaceFinder) (conn : RawConn)
    (network address interfaceName : string) (interfaceIndex : Z)
    (preferInterfaceName : bool) : ST (CWorld OS) (option err) :=
  if String.eqb interfaceName "" && Z.eqb interfaceIndex (-1) then
    mret (Some (ex_New [XStr "interface not found: "; XStr interfaceName]))
  else
    let addr := sa_Addr (FromParseSocksaddr address) in
    if Addr_IsValid addr && isVirtualInterface addr then mret None
    else bindToInterface conn network address finder interfaceName interfaceIndex
           preferInterfaceName.

Definition BindToInterface (finder : InterfaceFinder) (interfaceName : string)
    (interfaceIndex : Z) : Func :=
  Some (fun network address conn =>
    BindToInterface0 finder conn network address interfaceName interfaceIndex false).

Definition BindToInterfaceFunc (finder : InterfaceFinder)
    (block : string -> string -> ST (CWorld OS) (string * Z * option err)) : Func :=
  Some (fun network address conn =>
    '(interfaceName, interfaceIndex, e) ← block network address;
    match e with
    | Some err => mret (Some err)
    | None => BindToInterface0 finder conn network address interfaceName interfaceIndex false
    end).

(** *** Marks, address reuse, fragmentation *)

Definition RoutingMark (mark : Z) : Func :=
  Some (fun network address conn =>
    Raw conn (fun fd => lift_os (sys_SetsockoptInt fd SOL_SOCKET SO_MARK mark))).

Definition ReuseAddr : Func :=
  Some (fun network address conn =>
    Raw conn (fun fd => lift_os (sys_SetsockoptInt fd SOL_SOCKET SO_REUSEADDR 1))).

Definition ReusePort : Func :=
  Some (fun network address conn =>
    Raw conn (fun fd => lift_os (sys_SetsockoptInt fd SOL_SOCKET SO_REUSEPORT 1))).

Definition DisableUDPFragment : Func :=
  Some (fun network address conn =>
    match ParseNetwork network with
    | None => mret None
    | Some mn =>
        if negb (String.eqb (net_Protocol mn) ProtocolUDP) then mret None
        else Raw conn (fun fd =>
          e4 ← (if Z.eqb (net_Version mn) NetworkVersion4 ||
                   Z.eqb (net_Version mn) NetworkVersionDual
                then lift_os (sys_SetsockoptInt fd IPPROTO_IP IP_MTU_DISCOVER IP_PMTUDISC_DO)
                else mret None);
          match e4 with
          | Some err =>
              mret (Some (ESyscall "SETSOCKOPT IP_MTU_DISCOVER IP_PMTUDISC_DO" err))
          | None =>
              e6 ← (if Z.eqb (net_Version mn) NetworkVersion6 ||
                       Z.eqb (net_Version mn) NetworkVersionDual
                    then lift_os (sys_SetsockoptInt fd IPPROTO_IPV6 IPV6_MTU_DISCOVER
                                    IP_PMTUDISC_DO)
                    else mret None);
              match e6 with
              | Some err =>
                  mret (Some (ESyscall "SETSOCKOPT IPV6_MTU_DISCOVER IP_PMTUDISC_DO" err))
              | None => mret None
              end
          end)
    end).

(** How package [net] uses a control function: nil does nothing. *)
Definition run_control (f : Func) (network address : string) (conn : RawConn)
    : ST (CWorld OS) (option err) :=
  match f with Some f => f network address conn | None => mret None end.

(** The methods of the default finder as the interface [InterfaceFinder],
    for a bound on the calls that is enough (see [Finder_ByName_terminates]). *)
Definition default_finder (fuel : nat) (diverged : err) : InterfaceFinder :=
  MkFinder (fun name =>
    r ← Finder_ByName fuel name;
    match r with
    | Some (Some i, None) => mret (inl i)
    | Some (_, Some e) => mret (inr e)
    | _ => mret (inr diverged)
    end).

(** The stubs for the systems other than Linux ([*_stub.go]): nothing is
    done, or there is no function at all. *)
Definition stub_bindToInterface (conn : RawConn) (network address : string)
    (finder : InterfaceFinder) (interfaceName : string) (interfaceIndex : Z)
    (preferInterfaceName : bool) : ST (CWorld OS) (option err) :=
  mret None.
Definition stub_RoutingMark (mark : Z) : Func := None.
Definition stub_ReuseAddr : Func := None.
Definition stub_ReusePort : Func := None.
Definition stub_DisableUDPFragment : Func := None.

End control.

(** ** Lemmas *)

#[local] Ltac st_run := unfold mbind, mret, ST_bind, ST_ret; simpl.

Section control_lemmas.
Context {OS : Type} `{Sys OS} `{ExLib} `{SliceLaws}.
Implicit Types (w : CWorld OS).

(** Running an appended function is running the first and, unless it
    failed, the second. *)
Lemma run_Append (f g : Func (OS := OS)) network address conn w :
  run_control (Append f g) network address conn w =
  (let '(e, w') := run_control f network address conn w in
   match e with
   | Some err => (Some err, w')
   | None => run_control g network address conn w'
   end).
Proof.
  destruct f as [f|], g as [g|]; simpl; try done.
  - st_run. by destruct (f network address conn w) as [[e|] w'].
  - by destruct (f network address conn w) as [[e|] w'].
Qed.

(** An open descriptor runs the block. *)
Lemma bindToInterface_run fd network address finder name index prefer w :
  bindToInterface (RawOpen fd) network address finder name index prefer w =
  (let '(e, w') := bindToInterface_block finder name index prefer fd w in
   (ex_Errors [e; None], w')).
Proof. done. Qed.

Lemma bind_name_flag fd name w :
  ifIndexDisabled (bind_name fd name w).2 = ifIndexDisabled w.
Proof.
  unfold bind_name, lift_os. st_run. destruct (String.eqb name ""); [done|].
  by destruct (sys_BindToDevice fd name (cw_os w)).
Qed.

Lemma bind_block_by_name finder name index prefer fd w :
  prefer || ifIndexDisabled w = true ->
  bindToInterface_block finder name index prefer fd w = bind_name fd name w.
Proof.
  intros Hp. unfold bindToInterface_block, ifIndexDisabled_Load. st_run. by rewrite Hp.
Qed.

Lemma bind_block_by_index finder name index prefer fd w :
  prefer || ifIndexDisabled w = false ->
  bindToInterface_block finder name index prefer fd w =
  match bind_index finder name index w with
  | (inr err, w1) => (Some err, w1)
  | (inl idx, w1) =>
      let '(e, os1) := sys_SetsockoptInt fd SOL_SOCKET SO_BINDTOIFINDEX idx (cw_os w1) in
      match e with
      | None => (None, MkCW (ifIndexDisabled w1) (finder_interfaces w1) os1)
      | Some err =>
          if ex_IsMulti err [ENOPROTOOPT; EINVAL]
          then bind_name fd name (MkCW true (finder_interfaces w1) os1)
          else (Some err, MkCW (ifIndexDisabled w1) (finder_interfaces w1) os1)
      end
  end.
Proof.
  intros Hp. unfold bindToInterface_block, ifIndexDisabled_Load, ifIndexDisabled_Store, lift_os.
  st_run. rewrite Hp.
  destruct (bind_index finder name index w) as [[idx|err] w1]; [|done].
  destruct (sys_SetsockoptInt fd SOL_SOCKET SO_BINDTOIFINDEX idx (cw_os w1)) as [[err|] os1];
    [|done].
  by destruct (ex_IsMulti err [ENOPROTOOPT; EINVAL]).
Qed.

Lemma update_loop_names netIfs acc w res w' :
  update_loop netIfs acc w = (inl res, w') ->
  List.map if_Name res = List.map if_Name acc ++ List.map ni_Name netIfs.
Proof.
  revert acc w. induction netIfs as [|n netIfs IH]; intros acc w; simpl; st_run.
  - intros [= -> ->]. by rewrite app_nil_r.
  - unfold InterfaceFromNet. st_run.
    destruct (lift_os (ni_Addrs n) w) as [[ifAddrs [e|]] w1]; [done|].
    intros Hr. apply IH in Hr. rewrite Hr, List.map_app. simpl. by rewrite <- app_assoc.
Qed.

(** After a successful update the table has the names the system lists. *)
Lemma Finder_Update_names w w' :
  Finder_Update w = (None, w') ->
  exists netIfs os, net_Interfaces (cw_os w) = ((netIfs, None), os) /\
    List.map if_Name (finder_interfaces w') = List.map ni_Name netIfs.
Proof.
  unfold Finder_Update, lift_os. st_run.
  destruct (net_Interfaces (cw_os w)) as [[netIfs [e|]] os] eqn:E; [done|].
  destruct (update_loop netIfs [] _) as [[res|err] w2] eqn:Eu; [|done].
  intros [= <-]. exists netIfs, os. split; [done|]. simpl.
  by apply update_loop_names in Eu.
Qed.

Lemma find_name_some name (l : list Interface) :
  In name (List.map if_Name l) ->
  exists i, List.find (fun i => String.eqb (if_Name i) name) l = Some i /\ if_Name i = name.
Proof.
  intros (i & Hn & Hi)%List.in_map_iff.
  destruct (List.find (fun i => String.eqb (if_Name i) name) l) as [j|] eqn:Ej.
  - exists j. split; [done|]. apply List.find_some in Ej as [_ Ej]. by apply String.eqb_eq.
  - apply (List.find_none _ _ Ej) in Hi. rewrite Hn, String.eqb_refl in Hi. done.
Qed.

End control_lemmas.

(** ** Properties *)

Section control_properties.
Context {OS : Type} `{Sys OS} `{ExLib} `{SliceLaws}.
Implicit Types (w : CWorld OS).

(** [Append] makes a monoid of control functions with nil as the unit:
    appended functions run in order, the first error stops the rest and is
    returned, and the grouping does not matter. *)
Theorem Append_spec (f g h : Func (OS := OS)) :
  Append None f = f /\ Append f None = f /\
  forall network address conn w,
    run_control (Append f g) network address conn w =
      (let '(e, w') := run_control f network address conn w in
       match e with
       | Some err => (Some err, w')
       | None => run_control g network address conn w'
       end) /\
    run_control (Append (Append f g) h) network address conn w =
      run_control (Append f (Append g h)) network address conn w.
Proof.
  split; [by destruct f|]. split; [by destruct f|].
  intros network address conn w. split; [apply run_Append|].
  rewrite !run_Append. destruct (run_control f network address conn w) as [[e|] w']; [done|].
  by rewrite run_Append.
Qed.

(** Binding on an open descriptor.  Once the process-wide flag is set,
    or when names are preferred, the name alone is used and the flag stays
    as it is.  Otherwise the index is found first (failing here stops
    everything), then set; only the answers ENOPROTOOPT and EINVAL set the
    flag and fall back to the name, and then every later binding in the
    process, on any socket, uses the name alone. *)
Theorem bindToInterface_spec finder network address name index prefer fd w :
  let run fd index prefer w :=
    bindToInterface (RawOpen fd) network address finder name index prefer w in
  let by_name fd w :=
    let '(e, w') := bind_name fd name w in (ex_Errors [e; None], w') in
  if prefer || ifIndexDisabled w then
    run fd index prefer w = by_name fd w /\
    ifIndexDisabled (run fd index prefer w).2 = ifIndexDisabled w
  else
    match bind_index finder name index w with
    | (inr err, w1) => run fd index prefer w = (ex_Errors [Some err; None], w1)
    | (inl idx, w1) =>
        let '(e, os1) := sys_SetsockoptInt fd SOL_SOCKET SO_BINDTOIFINDEX idx (cw_os w1) in
        let w2 b := MkCW b (finder_interfaces w1) os1 in
        match e with
        | None => run fd index prefer w = (ex_Errors [None; None], w2 (ifIndexDisabled w1))
        | Some err =>
            if ex_IsMulti err [ENOPROTOOPT; EINVAL] then
              run fd index prefer w = by_name fd (w2 true) /\
              forall fd' index' prefer',
                let w3 := (run fd index prefer w).2 in
                run fd' index' prefer' w3 = by_name fd' w3
            else run fd index prefer w =
                   (ex_Errors [Some err; None], w2 (ifIndexDisabled w1))
        end
    end.
Proof.
  cbv zeta. destruct (prefer || ifIndexDisabled w) eqn:Hp.
  { rewrite bindToInterface_run, bind_block_by_name by done. split; [done|].
    pose proof (bind_name_flag fd name w). by destruct (bind_name fd name w). }
  rewrite bindToInterface_run, bind_block_by_index by done.
  destruct (bind_index finder name index w) as [[idx|err] w1]; [|done].
  destruct (sys_SetsockoptInt fd SOL_SOCKET SO_BINDTOIFINDEX idx (cw_os w1)) as [[err|] os1];
    [|done].
  destruct (ex_IsMulti err [ENOPROTOOPT; EINVAL]) eqn:Hm; [|done].
  split; [done|]. intros fd' index' prefer'.
  rewrite bindToInterface_run, bind_block_by_name; [done|].
  pose proof (bind_name_flag fd name (MkCW true (finder_interfaces w1) os1)) as H3.
  destruct (bind_name fd name _) as [e w3]. simpl in *. by rewrite H3, orb_true_r.
Qed.

(** [BindToInterface0] leaves the socket and the system alone when it has
    neither a name nor an index (an error) and when the address is a
    loopback or multicast one (no error); a host name is bound like any
    other address. *)
Theorem BindToInterface0_spec finder conn network address name index prefer w :
  let addr := sa_Addr (FromParseSocksaddr address) in
  let run := BindToInterface0 finder conn network address name index prefer w in
  (name = "" -> index = (-1)%Z ->
     run = (Some (ex_New [XStr "interface not found: "; XStr ""]), w)) /\
  ((name <> "" \/ index <> (-1)%Z) -> Addr_IsValid addr = true ->
     isVirtualInterface addr = true -> run = (None, w)) /\
  ((name <> "" \/ index <> (-1)%Z) ->
     Addr_IsValid addr = false \/ isVirtualInterface addr = false ->
     run = bindToInterface conn network address finder name index prefer w).
Proof.
  cbv zeta. unfold BindToInterface0.
  assert ((name <> "" \/ index <> (-1)%Z) ->
          String.eqb name "" && Z.eqb index (-1) = false) as Hg.
  { intros [Hn|Hi]; apply andb_false_iff; [left|right].
    - by apply String.eqb_neq.
    - by apply Z.eqb_neq. }
  split; [|split].
  - by intros -> ->.
  - intros Hne Hv Hi. by rewrite Hg, Hv, Hi.
  - intros Hne Hor. rewrite Hg by done. by destruct Hor as [-> | ->]; rewrite ?andb_false_r.
Qed.

(** [ByName] terminates within two rounds and answers with an interface
    of that name or with an error, provided the system lists every interface
    it says exists. *)
Theorem Finder_ByName_terminates name w :
  (forall os os1 os2 netIfs, net_InterfaceByName name os = (None, os1) ->
     net_Interfaces os1 = ((netIfs, None), os2) -> In name (List.map ni_Name netIfs)) ->
  forall fuel, 2 <= fuel -> exists r w',
    Finder_ByName fuel name w = (Some r, w') /\
    ((exists i, r = (Some i, None) /\ if_Name i = name /\ In i (finder_interfaces w')) \/
     (exists e, r = (None, Some e))).
Proof.
  intros Hsys fuel Hfuel. destruct fuel as [|[|fuel]]; [lia|lia|].
  assert (forall f w0 i,
    List.find (fun i => String.eqb (if_Name i) name) (finder_interfaces w0) = Some i ->
    Finder_ByName (S f) name w0 = (Some (Some i, None), w0)) as Hhit.
  { intros f w0 i Hi. simpl. st_run. by rewrite Hi. }
  destruct (List.find (fun i => String.eqb (if_Name i) name) (finder_interfaces w)) as [i|] eqn:Ei.
  { eexists _, _. rewrite (Hhit _ _ i) by done. split; [done|]. left. exists i.
    apply List.find_some in Ei as [Hin Hn]. by apply String.eqb_eq in Hn. }
  remember (S fuel) as f1. simpl. st_run. rewrite Ei. unfold lift_os.
  destruct (net_InterfaceByName name (cw_os w)) as [[e|] os1] eqn:En.
  { eexists _, _. split; [done|]. right. by eexists. }
  destruct (Finder_Update _) as [[e|] w2] eqn:Eu.
  { eexists _, _. split; [done|]. right. by eexists. }
  apply Finder_Update_names in Eu as (netIfs & os2 & Hl & Hnames). simpl in Hl.
  destruct (find_name_some name (finder_interfaces w2)) as (i & Hf & Hn).
  { rewrite Hnames. eauto. }
  subst f1. eexists _, _. rewrite (Hhit _ _ i) by done. split; [done|]. left.
  exists i. split; [done|]. split; [done|]. by apply List.find_some in Hf as [].
Qed.

(** [ByAddr] answers with an interface that has the address itself when
    there is one, otherwise with the first whose prefix contains it, and
    with an error exactly when there is neither; it changes nothing. *)
Theorem Finder_ByAddr_spec addr w :
  let has i := existsb (fun p => bool_decide (prefix_Addr p = addr)) (if_Addresses i) in
  let covers i := existsb (fun p => Prefix_Contains p addr) (if_Addresses i) in
  let '((r, e), w') := Finder_ByAddr addr w in
  w' = w /\
  match r with
  | Some i => e = None /\ In i (finder_interfaces w) /\
      (has i = true \/
       covers i = true /\ forall j, In j (finder_interfaces w) -> has j = false)
  | None => e = Some no_such_interface /\
      forall j, In j (finder_interfaces w) -> has j = false /\ covers j = false
  end.
Proof.
  cbv zeta. unfold Finder_ByAddr, Finder_Interfaces. st_run.
  destruct (List.find _ (finder_interfaces w)) as [i|] eqn:E1.
  { apply List.find_some in E1 as [Hin Hh]. auto. }
  destruct (List.find (fun i => existsb (fun p => Prefix_Contains p addr) _) _) as [i|] eqn:E2.
  { apply List.find_some in E2 as [Hin Hc]. split; [done|]. split; [done|]. split; [done|].
    right. split; [done|]. intros j Hj. by apply (List.find_none _ _ E1). }
  split; [done|]. split; [done|]. intros j Hj.
  split; [by apply (List.find_none _ _ E1)|by apply (List.find_none _ _ E2)].
Qed.

(** [DisableUDPFragment] on an open descriptor sets path-MTU discovery
    for exactly the IP versions of a UDP network, IPv4 first, stops at the
    first failure, and does nothing for TCP or an unknown network. *)
Theorem DisableUDPFragment_spec address fd w :
  let run network := run_control DisableUDPFragment network address (RawOpen fd) w in
  let set4 os := sys_SetsockoptInt fd IPPROTO_IP IP_MTU_DISCOVER IP_PMTUDISC_DO os in
  let set6 os := sys_SetsockoptInt fd IPPROTO_IPV6 IPV6_MTU_DISCOVER IP_PMTUDISC_DO os in
  let err4 e := ex_Errors [ESyscall "SETSOCKOPT IP_MTU_DISCOVER IP_PMTUDISC_DO" <$> e; None] in
  let err6 e := ex_Errors [ESyscall "SETSOCKOPT IPV6_MTU_DISCOVER IP_PMTUDISC_DO" <$> e; None] in
  let upd os := MkCW (ifIndexDisabled w) (finder_interfaces w) os in
  (forall network, network ∉ ["udp"; "udp4"; "udp6"] -> run network = (None, w)) /\
  run "udp4" = (let '(e, os) := set4 (cw_os w) in (err4 e, upd os)) /\
  run "udp6" = (let '(e, os) := set6 (cw_os w) in (err6 e, upd os)) /\
  run "udp" =
    (let '(e, os) := set4 (cw_os w) in
     match e with
     | Some _ => (err4 e, upd os)
     | None => let '(e', os') := set6 os in (err6 e', upd os')
     end).
Proof.
  cbv zeta. split; [|split; [|split]].
  - intros network Hn. simpl. destruct (ParseNetwork network) as [n|] eqn:E; [|done].
    apply network_names in E as [Hs Hv]. apply IsValid_cases in Hv.
    rewrite !elem_of_cons, elem_of_nil in Hv.
    destruct_or? Hv; subst; try done; destruct Hn; simpl; set_solver.
  - simpl. unfold lift_os. st_run.
    by destruct (sys_SetsockoptInt fd IPPROTO_IP IP_MTU_DISCOVER IP_PMTUDISC_DO (cw_os w))
      as [[e|] os].
  - simpl. unfold lift_os. st_run.
    by destruct (sys_SetsockoptInt fd IPPROTO_IPV6 IPV6_MTU_DISCOVER IP_PMTUDISC_DO (cw_os w))
      as [[e|] os].
  - simpl. unfold lift_os. st_run.
    destruct (sys_SetsockoptInt fd IPPROTO_IP IP_MTU_DISCOVER IP_PMTUDISC_DO (cw_os w))
      as [[e|] os]; [done|]. simpl.
    by destruct (sys_SetsockoptInt fd IPPROTO_IPV6 IPV6_MTU_DISCOVER IP_PMTUDISC_DO os)
      as [[e|] os'].
Qed.

End control_properties.

(** ** A concrete system for the witnesses *)

Module SysTrace.

(** The calls made, newest first, and how the system answers. *)
Inductive call :=
  | CSetsockopt (fd level opt value : Z)
  | CBindToDevice (fd : Z) (name : string).

Record os := MkOS {
  log : list call;
  no_index_binding : bool;     (* a kernel without SO_BINDTOIFINDEX *)
  present : list NetInterface;
}.

#[global] Instance sys_trace : Sys os := {
  sys_SetsockoptInt fd level opt value s :=
    ((if no_index_binding s && Z.eqb opt SO_BINDTOIFINDEX then Some ENOPROTOOPT else None),
     MkOS (CSetsockopt fd level opt value :: log s) (no_index_binding s) (present s));
  sys_BindToDevice fd name s :=
    (None, MkOS (CBindToDevice fd name :: log s) (no_index_binding s) (present s));
  net_Interfaces s := ((present s, None), s);
  net_InterfaceByName name s :=
    ((if existsb (fun n => String.eqb (ni_Name n) name) (present s) then None
      else Some (ENew "no such network interface")), s);
  net_InterfaceByIndex index s :=
    ((if existsb (fun n => Z.eqb (ni_Index n) index) (present s) then None
      else Some (ENew "no such network interface")), s);
  ni_Addrs n s := (([], None), s);
}.

Definition eth0 : NetInterface := MkNetIf 2 1500 "eth0" [] 0.

Definition world0 : CWorld os := MkCW false [] (MkOS [] true [eth0]).

End SysTrace.

Lemma Finder_ByName_terminates_witness :
  exists r w', Finder_ByName (OS := SysTrace.os) 2 "eth0" SysTrace.world0 = (Some r, w') /\
    ((exists i, r = (Some i, None) /\ if_Name i = "eth0" /\ In i (finder_interfaces w')) \/
     (exists e, r = (None, Some e))).
Proof.
  apply (Finder_ByName_terminates "eth0" SysTrace.world0); [|lia].
  intros os os1 os2 netIfs. simpl. intros [= Hx <-] [= <- <-].
  destruct (existsb _ (SysTrace.present os)) eqn:E; [|done].
  apply existsb_exists in E as (n & Hn & En). apply String.eqb_eq in En as <-.
  by apply in_map.
Defined.

(** Binding twice by name through the default finder, on a kernel without
    index binding: the first call tries the index and falls back, the second
    goes straight to the name. *)
Example bind_twice :
  let f := default_finder 2 (ENew "diverged") in
  let bind fd := run_control (BindToInterface f "eth0" (-1)) "tcp" "example.org:80" (RawOpen fd) in
  let '(e1, w1) := bind 3%Z SysTrace.world0 in
  let '(e2, w2) := bind 4%Z w1 in
  e1 = None /\ e2 = None /\ ifIndexDisabled w2 = true /\
  SysTrace.log (cw_os w2) =
    [SysTrace.CBindToDevice 4 "eth0"; SysTrace.CBindToDevice 3 "eth0";
     SysTrace.CSetsockopt 3 SOL_SOCKET SO_BINDTOIFINDEX 2].
Proof. vm_compute. auto. Qed.

(** On a TCP network nothing is called; on a dual-stack UDP network both
    options are set. *)
Lemma DisableUDPFragment_spec_witness :
  run_control (OS := SysTrace.os) DisableUDPFragment "tcp" "" (RawOpen 3) SysTrace.world0 =
    (None, SysTrace.world0) /\
  SysTrace.log (cw_os
    (run_control (OS := SysTrace.os) DisableUDPFragment "udp" "" (RawOpen 3) SysTrace.world0).2) =
    [SysTrace.CSetsockopt 3 IPPROTO_IPV6 IPV6_MTU_DISCOVER IP_PMTUDISC_DO;
     SysTrace.CSetsockopt 3 IPPROTO_IP IP_MTU_DISCOVER IP_PMTUDISC_DO].
Proof.
  split; [|reflexivity].
  destruct (DisableUDPFragment_spec (OS := SysTrace.os) "" 3 SysTrace.world0) as [Hother _].
  apply Hother. set_solver.
Defined.
