(* ===== verification/Dialer.v ===== *)
(** * Package [dialer]: dialing a list of addresses

    [dialer/interface.go], [dialer/methods.go], [dialer/eyeball.go].
    [DialSerial] tries addresses one after the other; [DialParallel] plans
    which addresses to try and races two serial dials.  A context is not
    modelled as a value: what it does to a dial is part of the world the
    dial runs in. *)

From S2P Require Import Prelude GoStd Netip Meta Dns Addrs.

(** ** The dialer interface *)

(** [dialer/interface.go]: [type Dialer interface]; [Conn] and [PConn] are
    the dynamic types behind [net.Conn] and [net.PacketConn]. *)
Record Dialer (W Conn PConn : Type) := MkDialer {
  d_DialContext : Network -> Socksaddr -> ST W (gores (option Conn));
  d_ListenPacket : Socksaddr -> ST W (gores (option PConn));
}.
Arguments MkDialer {W Conn PConn} _ _.
Arguments d_DialContext {W Conn PConn} _ _ _ _.
Arguments d_ListenPacket {W Conn PConn} _ _ _.

(** ** [slices.DeleteFunc]

    The kept elements move to the front of the same array and the places
    they leave at the end are zeroed, which the caller of a function that
    deletes from its argument sees. *)
Definition slices_DeleteFunc {A} (zero : A) (del : A -> bool) (s : list A)
    : list A * list A :=
  let kept := List.filter (fun x => negb (del x)) s in
  (kept, kept ++ repeat zero (length s - length kept)).

(** ** [DialSerial], [dialer/methods.go] *)

(** The addresses of the family the network excludes. *)
Definition family_excluded (network : Network) (addr : Addr) : bool :=
  Z.eqb (net_Version network) NetworkVersion4 && Addr_Is6 addr ||
  Z.eqb (net_Version network) NetworkVersion6 && Addr_Is4 addr.

Section dial_serial.
Context {W Conn PConn : Type} `{ExLib}.
Variable this : Dialer W Conn PConn.

(** The loop over the addresses, with the errors joined so far. *)
Fixpoint dial_loop (network : Network) (port : Z) (errs : option err)
    (address : list Addr) : ST W (gores (option Conn)) :=
  match address with
  | [] => mret (None, Some (ex_New [XStr "DialSerial all addresses failed :"; XErr errs]))
  | aa :: address =>
      if negb (Addr_IsValid aa) then
        dial_loop network port (ex_Errors [errs; Some (ex_New [XStr "invalid address"])]) address
      else
        '(internalConn, internalErr) ←
          d_DialContext this network (FromAddrPort (AddrPortFrom aa port));
        match internalErr with
        | None => mret (internalConn, None)
        | Some e => dial_loop network port (ex_Errors [errs; Some e]) address
        end
  end.

(** The result, and the array behind the caller's slice after the call. *)
Definition DialSerial (network : Network) (address : list Addr) (port : Z)
    : ST W (gores (option Conn) * list Addr) :=
  let '(address', backing) :=
    if negb (Z.eqb (net_Version network) NetworkVersionDual)
    then slices_DeleteFunc AddrZero (family_excluded network) address
    else (address, address) in
  if (length address' =? 0)%nat then
    mret ((None, Some (ex_New [XStr "no available address to dial"])), backing)
  else
    r ← dial_loop network port None address'; mret (r, backing).

(** *** What a serial dial does *)

(** The addresses it dials: of the network's family, and valid. *)
Definition dial_candidates (network : Network) (address : list Addr) : list Addr :=
  List.filter Addr_IsValid
    (if Z.eqb (net_Version network) NetworkVersionDual then address
     else List.filter (fun a => negb (family_excluded network a)) address).

(** [dial_fails l w w']: dialing every address of [l] in turn fails, taking
    the world from [w] to [w']. *)
Inductive dial_fails (network : Network) (port : Z) : list Addr -> W -> W -> Prop :=
  | dial_fails_nil w : dial_fails network port [] w w
  | dial_fails_cons a l c e w w1 w2 :
      d_DialContext this network (FromAddrPort (AddrPortFrom a port)) w = ((c, Some e), w1) ->
      dial_fails network port l w1 w2 ->
      dial_fails network port (a :: l) w w2.

(** The outcome of trying the addresses of [l] in order. *)
Definition dial_outcome (network : Network) (port : Z) (l : list Addr) (w : W)
    (r : gores (option Conn)) (w' : W) : Prop :=
  (exists pre a post c w1, l = pre ++ a :: post /\
     dial_fails network port pre w w1 /\
     d_DialContext this network (FromAddrPort (AddrPortFrom a port)) w1 = ((c, None), w') /\
     r = (c, None)) \/
  (exists e, dial_fails network port l w w' /\ r = (None, Some e)).

Lemma dial_outcome_fail network port a l c e w w1 r w' :
  d_DialContext this network (FromAddrPort (AddrPortFrom a port)) w = ((c, Some e), w1) ->
  dial_outcome network port l w1 r w' -> dial_outcome network port (a :: l) w r w'.
Proof.
  intros Hd [(pre & b & post & c' & w2 & -> & Hf & Hb & ->)|(e' & Hf & ->)].
  - left. exists (a :: pre), b, post, c', w2. split; [done|]. split; [|done].
    by econstructor.
  - right. exists e'. split; [|done]. by econstructor.
Qed.

Lemma dial_loop_outcome network port errs address w :
  dial_outcome network port (List.filter Addr_IsValid address) w
    (dial_loop network port errs address w).1 (dial_loop network port errs address w).2.
Proof.
  revert errs w. induction address as [|a l IH]; intros errs w; simpl.
  - right. eexists. split; [constructor|done].
  - destruct (Addr_IsValid a); simpl; [|apply IH].
    unfold mbind, ST_bind.
    destruct (d_DialContext this network (FromAddrPort (AddrPortFrom a port)) w)
      as [[c [e|]] w1] eqn:E.
    + eapply dial_outcome_fail; [exact E|apply IH].
    + left. exists [], a, (List.filter Addr_IsValid l), c, w. simpl.
      split; [done|]. split; [constructor|done].
Qed.

Lemma DialSerial_candidates network address :
  List.filter Addr_IsValid
    (if negb (Z.eqb (net_Version network) NetworkVersionDual)
     then slices_DeleteFunc AddrZero (family_excluded network) address
     else (address, address)).1 = dial_candidates network address.
Proof. unfold dial_candidates. by destruct (Z.eqb (net_Version network) NetworkVersionDual). Qed.

(** The caller's array is what the deletion leaves, whatever is dialed. *)
Lemma DialSerial_backing network address port w :
  (DialSerial network address port w).1.2 =
  if negb (Z.eqb (net_Version network) NetworkVersionDual)
  then (slices_DeleteFunc AddrZero (family_excluded network) address).2
  else address.
Proof.
  unfold DialSerial.
  destruct (negb (Z.eqb (net_Version network) NetworkVersionDual)); simpl.
  - destruct (length _ =? 0)%nat; [done|]. unfold mbind, ST_bind, mret, ST_ret.
    by destruct (dial_loop network port None _ w).
  - destruct (length _ =? 0)%nat; [done|]. unfold mbind, ST_bind, mret, ST_ret.
    by destruct (dial_loop network port None _ w).
Qed.

End dial_serial.

(** ** [DialParallel]: what to dial *)

(** [netvars.DefaultDialerFallbackDelay], in nanoseconds *)
Definition DefaultDialerFallbackDelay : Z := 300000000%Z.

(** [dialer/eyeball.go] *)
Record HappyEyeballConf := MkHE { FallbackDelay : Z; he_Strategy : Strategy }.

Definition DefaultHappyEyeballConf : HappyEyeballConf :=
  MkHE DefaultDialerFallbackDelay StrategyDefault.

(** Either one serial dial, or a race of two after a delay. *)
Inductive plan :=
  | PlanSerial (addresses : list Addr)
  | PlanRace (fallbackDelay : Z) (primaries fallbacks : list Addr).

Section dial_parallel.
Context `{SliceLib} `{SortLib}.

Definition DialParallel_plan (network : Network) (addresses : list Addr)
    (conf : HappyEyeballConf) : plan :=
  if String.eqb (net_Protocol network) ProtocolUDP ||
     negb (Z.eqb (net_Version network) NetworkVersionDual)
  then PlanSerial (SortAddresses addresses (he_Strategy conf))
  else
    let fallbackDelay :=
      if Z.eqb (FallbackDelay conf) 0 then DefaultDialerFallbackDelay else FallbackDelay conf in
    let strategy := he_Strategy conf in
    let addresses4 := slice_Filter addresses addrs_Is4 in
    let addresses6 := slice_Filter addresses addrs_Is6 in
    if (length addresses4 =? 0)%nat || (length addresses6 =? 0)%nat then PlanSerial addresses
    else if Z.eqb strategy StrategyIPv4Only then PlanSerial addresses4
    else if Z.eqb strategy StrategyIPv6Only then PlanSerial addresses6
    else
      let preferIPv6 := Z.eqb strategy StrategyPreferIPv6 in
      if preferIPv6 then PlanRace fallbackDelay addresses6 addresses4
      else PlanRace fallbackDelay addresses4 addresses6.

(** [DefaultParallelDialer.DialParallel], [dialer/eyeball.go]: the serial
    dial of the addresses as they are, or the plan above. *)
Definition DefaultParallelDialer_plan (conf : HappyEyeballConf) (network : Network)
    (address : list Addr) : plan :=
  if Z.eqb (FallbackDelay conf) 0 || String.eqb (net_Protocol network) ProtocolUDP ||
     negb (Z.eqb (net_Version network) NetworkVersionDual)
  then PlanSerial address
  else DialParallel_plan network address conf.

End dial_parallel.

(** ** Properties of the serial dial and of the plan *)

(** The outcome of a serial dial, and the length of the caller's array. *)
Lemma DialSerial_outcome_length {W Conn PConn} `{ExLib} (d : Dialer W Conn PConn)
    network address port w :
  let '((r, backing), w') := DialSerial d network address port w in
  dial_outcome d network port (dial_candidates network address) w r w' /\
  length backing = length address.
Proof.
  unfold DialSerial.
  pose proof (DialSerial_candidates network address) as Hc.
  assert (length (if negb (Z.eqb (net_Version network) NetworkVersionDual)
     then slices_DeleteFunc AddrZero (family_excluded network) address
     else (address, address)).2 = length address) as Hl.
  { destruct (negb _); simpl; [|done]. rewrite length_app, repeat_length.
    pose proof (filter_length_le (fun x => negb (family_excluded network x)) address). lia. }
  destruct (if negb _ then _ else _) as [address' backing]. simpl in Hc, Hl.
  destruct (Nat.eqb_spec (length address') 0) as [E|_].
  - simpl. split; [|done]. apply nil_length_inv in E as ->. rewrite <- Hc.
    right. eexists. split; [constructor|done].
  - unfold mbind, ST_bind, mret, ST_ret.
    pose proof (dial_loop_outcome d network port None address' w) as Ho. rewrite Hc in Ho.
    by destruct (dial_loop d network port None address' w).
Qed.

Lemma DialSerial_outcome {W Conn PConn} `{ExLib} (d : Dialer W Conn PConn)
    network address port w :
  let '((r, backing), w') := DialSerial d network address port w in
  dial_outcome d network port (dial_candidates network address) w r w'.
Proof.
  pose proof (DialSerial_outcome_length d network address port w) as Ho.
  destruct (DialSerial d network address port w) as [[r backing] w']. by destruct Ho.
Qed.

(** C24: a serial dial tries the valid addresses of the network's family, in
    order, until the first one that connects, whose connection it returns;
    when all fail it returns no connection and an error.  No other address
    is dialed, and the result is never a nil connection without an error of
    its own making. *)
Theorem DialSerial_spec {W Conn PConn} `{ExLib} (d : Dialer W Conn PConn)
    network address port w :
  let '((r, backing), w') := DialSerial d network address port w in
  dial_outcome d network port (dial_candidates network address) w r w' /\
  length backing = length address.
Proof. apply DialSerial_outcome_length. Qed.

(** Deleting the excluded family happens in the caller's slice: for a
    network of one IP version the addresses of the other version are lost
    from it, the kept ones move to the front and zero addresses fill the
    end; the slice keeps its value for a dual network and when nothing is
    excluded. *)
Theorem DialSerial_overwrites_argument {W Conn PConn} `{ExLib} (d : Dialer W Conn PConn)
    network address port w :
  let backing := (DialSerial d network address port w).1.2 in
  let kept := List.filter (fun a => negb (family_excluded network a)) address in
  (net_Version network = NetworkVersionDual -> backing = address) /\
  (net_Version network <> NetworkVersionDual ->
     backing = kept ++ repeat AddrZero (length address - length kept) /\
     forall a, In a backing -> family_excluded network a = false) /\
  ((forall a, In a address -> family_excluded network a = false) -> backing = address).
Proof.
  cbv zeta. rewrite DialSerial_backing.
  set (kept := List.filter (fun a => negb (family_excluded network a)) address).
  destruct (Z.eqb_spec (net_Version network) NetworkVersionDual) as [E|E]; simpl; [done|].
  split; [done|]. split.
  - intros _. split; [done|]. intros a [Ha|Ha]%in_app_iff.
    + apply filter_In in Ha as [_ Ha]. by apply negb_true_iff.
    + apply repeat_spec in Ha as ->. unfold family_excluded. by rewrite !andb_false_r.
  - intros Hall. assert (kept = address) as Hk.
    { apply filter_all. intros a Ha. by rewrite Hall. }
    fold kept. rewrite Hk, Nat.sub_diag. apply app_nil_r.
Qed.

(** The plan of [DialParallel] only has addresses it was given; it races
    two non-empty lists of one family each, the preferred one first, only on
    a dual-stack network that is not UDP, under a strategy that names no
    single family and after a delay that is not zero.  Under a single-family
    strategy, when no address of that family is there, it dials the
    addresses of the other family. *)
Theorem DialParallel_plan_spec `{SliceLaws} `{SortLaws} network addresses conf :
  let v4 := List.filter addrs_Is4 addresses in
  let v6 := List.filter addrs_Is6 addresses in
  let dual_tcp := net_Version network = NetworkVersionDual /\ net_Protocol network <> ProtocolUDP in
  match DialParallel_plan network addresses conf with
  | PlanSerial l => forall a, In a l -> In a addresses
  | PlanRace delay primaries fallbacks =>
      dual_tcp /\ delay <> 0%Z /\ v4 <> [] /\ v6 <> [] /\
      he_Strategy conf <> StrategyIPv4Only /\ he_Strategy conf <> StrategyIPv6Only /\
      (if Z.eqb (he_Strategy conf) StrategyPreferIPv6
       then primaries = v6 /\ fallbacks = v4 else primaries = v4 /\ fallbacks = v6)
  end /\
  (dual_tcp -> v4 = [] \/ v6 = [] ->
     DialParallel_plan network addresses conf = PlanSerial addresses).
Proof.
  cbv zeta. unfold DialParallel_plan. rewrite !slice_Filter_spec.
  destruct (String.eqb_spec (net_Protocol network) ProtocolUDP) as [Hu|Hu];
    [|destruct (Z.eqb_spec (net_Version network) NetworkVersionDual) as [Hv|Hv]]; simpl.
  - split; [|by intros []]. intros a Ha.
    eapply Permutation_in; [|exact Ha]. symmetry. apply SortAddresses_perm.
  - assert (forall l : list Addr, (length l =? 0)%nat = false -> l <> []) as Hne.
    { intros [|x l]; done. }
    destruct (length (List.filter addrs_Is4 addresses) =? 0)%nat eqn:E4;
      [|destruct (length (List.filter addrs_Is6 addresses) =? 0)%nat eqn:E6]; simpl; [done..|].
    apply Hne in E4, E6. split; [|by intros _ []].
    destruct (Z.eqb_spec (he_Strategy conf) StrategyIPv4Only) as [E|H4].
    { intros a Ha. by apply filter_In in Ha as []. }
    destruct (Z.eqb_spec (he_Strategy conf) StrategyIPv6Only) as [E|H6].
    { intros a Ha. by apply filter_In in Ha as []. }
    assert ((if Z.eqb (FallbackDelay conf) 0 then DefaultDialerFallbackDelay
             else FallbackDelay conf) <> 0%Z) as Hd.
    { destruct (Z.eqb_spec (FallbackDelay conf) 0); done. }
    destruct (Z.eqb (he_Strategy conf) StrategyPreferIPv6) eqn:Ep; repeat split; auto.
  - split; [|by intros []]. intros a Ha.
    eapply Permutation_in; [|exact Ha]. symmetry. apply SortAddresses_perm.
Qed.

(** Both families, preferring IPv6: the race is planned; and the IPv4-only
    strategy dials an IPv6 address when there is no other. *)
Lemma DialParallel_plan_spec_witness :
  DialParallel_plan NetworkTCP [Addr4 5; Addr6 1 ""; Addr4 6] DefaultHappyEyeballConf =
    PlanRace DefaultDialerFallbackDelay [Addr6 1 ""] [Addr4 5; Addr4 6] /\
  DialParallel_plan NetworkTCP [Addr6 1 ""] (MkHE 0 StrategyIPv4Only) =
    PlanSerial [Addr6 1 ""].
Proof.
  split; [reflexivity|].
  apply (DialParallel_plan_spec NetworkTCP [Addr6 1 ""] (MkHE 0 StrategyIPv4Only)).
  - split; [reflexivity|discriminate].
  - left. reflexivity.
Defined.
