(* ===== verification/Race.v ===== *)
(** * The race of [DialParallel]

    [dialer/methods.go], lines 51 to 104: the main loop, the two racers, the
    unbuffered channel between them, the channel that is closed on return
    and the fallback timer, as a state machine driven by events.  A state is
    reached by a list of events; every interleaving is such a list.

    The timer follows Go 1.23 and later: [Stop] is true exactly when the
    tick has not been received, and the channel never delivers a stale tick. *)

From S2P Require Import Prelude GoStd Netip Meta Dns Addrs Dialer.

Section race.
Context {Conn : Type}.

(** What a racer's [DialSerial] returned. *)
Abbreviation dial_res := (gores (option Conn)).

(** ** State *)

(** A racer: not started, dialing, waiting in its [select] with a result,
    its result received, or gone after the return with the connection it
    then closed. *)
Inductive racer :=
  | RIdle
  | RDialing
  | ROffering (res : dial_res)
  | RDelivered
  | RGone (closed : option Conn).

(** The fallback timer: armed, due or not yet, or its tick received. *)
Inductive timer :=
  | TArmed (due : bool)
  | TFired.

Inductive main_state :=
  | MLoop
  | MReturned (res : dial_res).

(** [primary] and [fallback] are the variables of the code: [Some e] is a
    result with [done] set, whose error is never nil. *)
Record race := MkRace {
  rc_main : main_state;
  rc_primary : option err;
  rc_fallback : option err;
  rc_timer : timer;
  rc_racer : bool -> racer;     (* true: the primary racer *)
}.

Definition set_racer (p : bool) (x : racer) (f : bool -> racer) : bool -> racer :=
  fun q => if Bool.eqb q p then x else f q.

(** After [go startRacer(primaryCtx, true)] and [NewTimer]. *)
Definition race_init : race :=
  MkRace MLoop None None (TArmed false) (fun p => if p then RDialing else RIdle).

(** ** The bodies of the [select] *)

(** [case <-fallbackTimer.C] *)
Definition on_timer (s : race) : race :=
  MkRace (rc_main s) (rc_primary s) (rc_fallback s) TFired
    (set_racer false RDialing (rc_racer s)).

(** [fallbackTimer.Stop() && fallbackTimer.Reset(0)] *)
Definition stop_reset (t : timer) : timer :=
  match t with TArmed _ => TArmed true | TFired => TFired end.

(** [case res := <-results], for a result of racer [primary]. *)
Definition on_result (primary : bool) (res : dial_res) (s : race) : race :=
  match res.2 with
  | None => MkRace (MReturned (res.1, None)) (rc_primary s) (rc_fallback s) (rc_timer s)
              (rc_racer s)
  | Some e =>
      let pr := if primary then Some e else rc_primary s in
      let fb := if primary then rc_fallback s else Some e in
      match pr, fb with
      | Some pe, Some _ =>
          MkRace (MReturned (None, Some pe)) pr fb (rc_timer s) (rc_racer s)
      | _, _ =>
          MkRace (rc_main s) pr fb
            (if primary then stop_reset (rc_timer s) else rc_timer s) (rc_racer s)
      end
  end.

(** ** Events *)

Inductive event :=
  | EDialDone (primary : bool) (res : dial_res)   (* a racer's DialSerial returns *)
  | EDue                                          (* the delay passes *)
  | ETimer                                        (* the loop receives the tick *)
  | EResult (primary : bool)                      (* the loop receives a result *)
  | EReturned (primary : bool).                   (* a racer sees [returned] closed *)

Definition race_step (ev : event) (s : race) : option race :=
  match ev with
  | EDialDone p res =>
      match rc_racer s p with
      | RDialing => Some (MkRace (rc_main s) (rc_primary s) (rc_fallback s) (rc_timer s)
                      (set_racer p (ROffering res) (rc_racer s)))
      | _ => None
      end
  | EDue =>
      match rc_timer s with
      | TArmed false => Some (MkRace (rc_main s) (rc_primary s) (rc_fallback s) (TArmed true)
                          (rc_racer s))
      | _ => None
      end
  | ETimer =>
      match rc_main s, rc_timer s with
      | MLoop, TArmed true => Some (on_timer s)
      | _, _ => None
      end
  | EResult p =>
      match rc_main s, rc_racer s p with
      | MLoop, ROffering res =>
          Some (on_result p res (MkRace (rc_main s) (rc_primary s) (rc_fallback s) (rc_timer s)
            (set_racer p RDelivered (rc_racer s))))
      | _, _ => None
      end
  | EReturned p =>
      match rc_main s, rc_racer s p with
      | MReturned _, ROffering res =>
          Some (MkRace (rc_main s) (rc_primary s) (rc_fallback s) (rc_timer s)
            (set_racer p (RGone res.1) (rc_racer s)))
      | _, _ => None
      end
  end.

(** Which results a racer's dial can have; the addresses of the racer are
    the primaries or the fallbacks. *)
Variable possible : bool -> dial_res -> Prop.

Definition event_ok (ev : event) : Prop :=
  match ev with EDialDone p res => possible p res | _ => True end.

(** States reached from the start, with the events that led there. *)
Inductive reach : list event -> race -> Prop :=
  | reach_init : reach [] race_init
  | reach_step tr s ev s' :
      reach tr s -> event_ok ev -> race_step ev s = Some s' -> reach (tr ++ [ev]) s'.

(** ** Bookkeeping of connections *)

Definition res_conns (r : dial_res) : list Conn :=
  match r.1 with Some c => [c] | None => [] end.

(** Connections the racers opened along the events. *)
Definition opened (tr : list event) : list Conn :=
  flat_map (fun ev => match ev with EDialDone _ r => res_conns r | _ => [] end) tr.

Definition racer_conns (r : racer) : list Conn :=
  match r with
  | ROffering res => res_conns res
  | RGone (Some c) => [c]
  | _ => []
  end.

Definition main_conns (m : main_state) : list Conn :=
  match m with MReturned r => res_conns r | MLoop => [] end.

(** ** The measure: no more than seven events *)

Definition racer_weight (r : racer) : nat :=
  match r with RIdle => 3 | RDialing => 2 | ROffering _ => 1 | _ => 0 end.
Definition timer_weight (t : timer) : nat :=
  match t with TArmed false => 2 | TArmed true => 1 | TFired => 0 end.
Definition race_weight (s : race) : nat :=
  racer_weight (rc_racer s true) + racer_weight (rc_racer s false) + timer_weight (rc_timer s).

(** ** The invariant *)

(** What the dials are assumed to do: an error comes without a connection. *)
Hypothesis possible_error : forall p c e, possible p (c, Some e) -> c = None.

Definition recorded (s : race) (p : bool) : option err :=
  if p then rc_primary s else rc_fallback s.

Record race_inv (tr : list event) (s : race) : Prop := {
  inv_primary : rc_racer s true <> RIdle;
  inv_fallback : rc_racer s false = RIdle <-> rc_timer s <> TFired;
  inv_offer : forall p res, rc_racer s p = ROffering res -> possible p res;
  inv_recorded : forall p e, recorded s p = Some e ->
    possible p (None, Some e) /\ rc_racer s p = RDelivered;
  inv_loop : rc_main s = MLoop ->
    (forall p c, rc_racer s p <> RGone c) /\
    (forall p, rc_racer s p = RDelivered -> is_Some (recorded s p)) /\
    (rc_primary s = None \/ rc_fallback s = None) /\
    (is_Some (rc_primary s) -> rc_timer s <> TArmed false);
  inv_returned : forall c e, rc_main s = MReturned (c, e) ->
    match e with
    | None => exists p, possible p (c, None) /\ rc_racer s p = RDelivered
    | Some pe => c = None /\ rc_primary s = Some pe /\ is_Some (rc_fallback s)
    end;
  inv_due : rc_timer s <> TArmed false -> In EDue tr \/ is_Some (rc_primary s);
  inv_conns : Permutation (opened tr)
    (main_conns (rc_main s) ++ racer_conns (rc_racer s true) ++ racer_conns (rc_racer s false));
}.

Lemma opened_snoc tr ev :
  opened (tr ++ [ev]) =
  opened tr ++ match ev with EDialDone _ r => res_conns r | _ => [] end.
Proof. unfold opened. rewrite flat_map_app. simpl. by rewrite app_nil_r. Qed.

Lemma race_inv_init : race_inv [] race_init.
Proof.
  split; simpl; try done; intros; try (destruct p; simpl in *; done).
  split; [by intros []|]. split; [by intros []|]. split; [by left|by intros []].
Qed.

(** A racer's dial returns. *)
Lemma inv_dial_done tr m pr fb t f p res :
  race_inv tr (MkRace m pr fb t f) -> f p = RDialing -> possible p res ->
  race_inv (tr ++ [EDialDone p res])
    (MkRace m pr fb t (set_racer p (ROffering res) f)).
Proof.
  intros [H1 H2 H3 H4 H5 H6 H7 H8] Hp Hres. simpl in *.
  assert (forall q x, f q = x -> x <> RDialing -> q <> p) as Hne by congruence.
  assert (forall q x, x <> ROffering res -> set_racer p (ROffering res) f q = x ->
          f q = x) as Hset.
  { intros q x Hx. unfold set_racer. destruct (Bool.eqb q p); congruence. }
  assert (forall q x, x <> RDialing -> f q = x -> set_racer p (ROffering res) f q = x) as Hset'.
  { intros q x Hx Hq. unfold set_racer. destruct (Bool.eqb_spec q p); [congruence|done]. }
  split; simpl.
  - destruct p; [done|]. simpl. done.
  - destruct p; simpl; [done|]. split; [done|]. intros Ht. apply H2 in Ht. congruence.
  - intros q r. unfold set_racer. destruct (Bool.eqb_spec q p) as [->|]; [congruence|eauto].
  - intros q e Hq. apply H4 in Hq as [Hq1 Hq2]. eauto.
  - intros Hm. destruct (H5 Hm) as (Ha & Hb & Hc & Hd). split; [|split; [|done]].
    + intros q c Hq. apply Hset in Hq; [by eapply Ha|done].
    + intros q Hq. apply Hset in Hq; [eauto|done].
  - intros c [e|] Hm.
    + by apply (H6 c (Some e)).
    + destruct (H6 c None Hm) as (q & ? & ?). eauto.
  - intros Ht. destruct (H7 Ht); [left; apply in_app_iff|]; auto.
  - rewrite opened_snoc, H8. destruct p; simpl; rewrite Hp; simpl.
    + rewrite <- !app_assoc. apply Permutation_app_head. simpl. apply Permutation_app_comm.
    + rewrite app_nil_r. by rewrite <- app_assoc.
Qed.

(** Facts about an event that leaves the connections alone. *)
Lemma opened_same tr ev :
  (forall p r, ev <> EDialDone p r) -> opened (tr ++ [ev]) = opened tr.
Proof.
  intros H. rewrite opened_snoc. destruct ev; try by rewrite app_nil_r. by destruct (H primary res).
Qed.

Lemma inv_due_event tr m pr fb f :
  race_inv tr (MkRace m pr fb (TArmed false) f) ->
  race_inv (tr ++ [EDue]) (MkRace m pr fb (TArmed true) f).
Proof.
  intros [H1 H2 H3 H4 H5 H6 H7 H8]. simpl in *. split; simpl; try done.
  - split; [done|]. intros _. by apply H2.
  - intros Hm. destruct (H5 Hm) as (Ha & Hb & Hc & Hd). done.
  - intros _. left. apply in_app_iff. right. by left.
  - by rewrite opened_same.
Qed.

(** The loop receives the tick and starts the fallback. *)
Lemma inv_timer_event tr m pr fb f :
  race_inv tr (MkRace m pr fb (TArmed true) f) ->
  race_inv (tr ++ [ETimer]) (on_timer (MkRace m pr fb (TArmed true) f)).
Proof.
  intros [H1 H2 H3 H4 H5 H6 H7 H8]. simpl in *.
  assert (f false = RIdle) as Hf by (by apply H2).
  split; simpl; try done.
  - intros [|] r; simpl; [apply (H3 true)|done].
  - intros [|] e He; simpl; [by apply (H4 true)|]. apply (H4 false) in He as [_ He]. congruence.
  - intros Hm. destruct (H5 Hm) as (Ha & Hb & Hc & Hd). split; [|split; [|done]].
    + intros [|] c; simpl; [apply Ha|done].
    + intros [|]; simpl; [apply Hb|done].
  - intros c [e|] Hm; [by apply (H6 c (Some e))|].
    destruct (H6 c None Hm) as ([|] & Hp & Hd); [by exists true|congruence].
  - intros _. destruct (H7 ltac:(done)); [left; apply in_app_iff; auto|auto].
  - rewrite opened_same, H8 by done. by rewrite Hf.
Qed.

(** A racer gives up its result after the return. *)
Lemma inv_returned_event tr r pr fb t f p res :
  race_inv tr (MkRace (MReturned r) pr fb t f) -> f p = ROffering res ->
  race_inv (tr ++ [EReturned p])
    (MkRace (MReturned r) pr fb t (set_racer p (RGone res.1) f)).
Proof.
  intros [H1 H2 H3 H4 H5 H6 H7 H8] Hp. simpl in *.
  assert (forall q x, x <> RGone res.1 -> set_racer p (RGone res.1) f q = x -> f q = x) as Hset.
  { intros q x Hx. unfold set_racer. destruct (Bool.eqb q p); congruence. }
  assert (forall q x, (forall r, x <> ROffering r) -> f q = x ->
          set_racer p (RGone res.1) f q = x) as Hset'.
  { intros q x Hx Hq. unfold set_racer. destruct (Bool.eqb_spec q p) as [->|]; [|done].
    rewrite Hp in Hq. by destruct (Hx res). }
  split; simpl; try done.
  - by destruct p.
  - destruct p; simpl; [done|]. split; [done|]. intros Ht. apply H2 in Ht. congruence.
  - intros q r'. unfold set_racer. destruct (Bool.eqb q p); [done|apply H3].
  - intros q e Hq. apply H4 in Hq as [Hq1 Hq2]. eauto.
  - intros c [e|] Hm; [by apply (H6 c (Some e))|].
    destruct (H6 c None Hm) as (q & ? & ?). eauto.
  - intros Ht. destruct (H7 Ht); [left; apply in_app_iff|]; auto.
  - rewrite opened_same, H8 by done.
    destruct p; simpl; rewrite Hp; destruct res as [[c|] e]; done.
Qed.

(** The loop receives a connection and returns it. *)
Lemma inv_result_ok tr pr fb t f p c :
  race_inv tr (MkRace MLoop pr fb t f) -> f p = ROffering (c, None) ->
  race_inv (tr ++ [EResult p])
    (MkRace (MReturned (c, None)) pr fb t (set_racer p RDelivered f)).
Proof.
  intros [H1 H2 H3 H4 H5 H6 H7 H8] Hp. simpl in *.
  assert (forall q x, x <> RDelivered -> set_racer p RDelivered f q = x -> f q = x) as Hset.
  { intros q x Hx. unfold set_racer. destruct (Bool.eqb q p); congruence. }
  split; simpl; try done.
  - by destruct p.
  - destruct p; simpl; [done|]. split; [done|]. intros Ht. apply H2 in Ht. congruence.
  - intros q r' Hq. apply Hset in Hq; [by apply H3|done].
  - intros q e Hq. apply H4 in Hq as [Hq1 Hq2]. split; [done|]. unfold set_racer.
    by destruct (Bool.eqb q p).
  - intros c' [e|]; [done|]. intros [= <-]. exists p. split; [by apply H3|].
    unfold set_racer. by rewrite Bool.eqb_reflx.
  - intros Ht. destruct (H7 Ht); [left; apply in_app_iff|]; auto.
  - rewrite opened_same, H8 by done. destruct p; simpl; rewrite Hp; simpl; [done|].
    rewrite app_nil_r. apply Permutation_app_comm.
Qed.

(** Setting one racer to [RDelivered] keeps every other state. *)
Lemma set_delivered_inv f p q x :
  x <> RDelivered -> set_racer p RDelivered f q = x -> f q = x.
Proof. unfold set_racer. destruct (Bool.eqb q p); congruence. Qed.

Lemma set_delivered_keep f p q :
  f q = RDelivered -> set_racer p RDelivered f q = RDelivered.
Proof. unfold set_racer. by destruct (Bool.eqb q p). Qed.

Lemma set_delivered_self f p : set_racer p RDelivered f p = RDelivered.
Proof. unfold set_racer. by rewrite Bool.eqb_reflx. Qed.

(** What receiving a failure keeps, whatever the loop then does with its
    timer ([t']) and whether it goes on or returns ([m']). *)
Lemma inv_failure tr pr fb t f p e t' m' pr' fb' :
  race_inv tr (MkRace MLoop pr fb t f) -> f p = ROffering (None, Some e) ->
  (t' <> TFired <-> t <> TFired) -> (t' <> TArmed false -> t <> TArmed false \/ p = true) ->
  pr' = (if p then Some e else pr) -> fb' = (if p then fb else Some e) ->
  (m' = MLoop /\ (pr' = None \/ fb' = None) /\ (is_Some pr' -> t' <> TArmed false) \/
   exists pe, m' = MReturned (None, Some pe) /\ pr' = Some pe /\ is_Some fb') ->
  race_inv (tr ++ [EResult p]) (MkRace m' pr' fb' t' (set_racer p RDelivered f)).
Proof.
  intros [H1 H2 H3 H4 H5 H6 H7 H8] Hp Ht1 Ht2 -> -> Hm'. simpl in *.
  destruct (H5 eq_refl) as (Ha & Hb & Hc & Hd). clear H5 H6.
  pose proof (H3 _ _ Hp) as Hpos. split; simpl.
  - by destruct p.
  - rewrite Ht1, <- H2. destruct p; simpl; [done|]. by rewrite Hp.
  - intros q r Hq. apply set_delivered_inv in Hq; [by apply H3|done].
  - intros q e' Hq.
    assert (q = p /\ e' = e \/ recorded (MkRace MLoop pr fb t f) q = Some e') as [[-> ->]|Hq'].
    { unfold recorded in *. simpl in *. destruct p, q; simplify_eq; auto. }
    + split; [done|apply set_delivered_self].
    + apply H4 in Hq' as [? ?]. auto using set_delivered_keep.
  - intros ->. destruct Hm' as [(_ & Hor & Hti)|(pe & ? & _)]; [|done].
    split; [|split; [|done]].
    + intros q c' Hq. apply set_delivered_inv in Hq; [by eapply Ha|done].
    + intros q Hq. unfold recorded in *. simpl in *.
      destruct p, q; simpl in Hq; try done; [by apply (Hb false)|by apply (Hb true)].
  - intros c' e' ->. destruct Hm' as [[? _]|(pe & [= <- ->] & -> & ?)]; [done|].
    split; [done|]. split; [by eexists|done].
  - intros Ht. destruct (Ht2 Ht) as [Ht'| ->]; [|by right; eexists].
    destruct (H7 Ht') as [|Hs]; [left; apply in_app_iff; auto|right].
    destruct p; [by eexists|done].
  - rewrite opened_same, H8 by done.
    destruct Hm' as [(-> & _)|(pe & -> & _)]; destruct p; simpl; rewrite Hp; done.
Qed.

(** The loop receives a failure: it returns when both failed, otherwise it
    goes on, with the timer due at once after a failure of the primary. *)
Lemma inv_result_err tr pr fb t f p c e :
  race_inv tr (MkRace MLoop pr fb t f) -> f p = ROffering (c, Some e) ->
  race_inv (tr ++ [EResult p])
    (on_result p (c, Some e) (MkRace MLoop pr fb t (set_racer p RDelivered f))).
Proof.
  intros Hinv Hp. pose proof Hinv as [H1 H2 H3 H4 H5 _ _ _]. simpl in *.
  assert (c = None) as -> by (by eapply possible_error, H3).
  destruct (H5 eq_refl) as (Ha & Hb & Hc & Hd).
  unfold on_result. simpl. destruct p; simpl in *.
  - destruct fb as [fe|].
    + eapply inv_failure; eauto.
    + eapply inv_failure with (t := t) (t' := stop_reset t); eauto; destruct t as [[]|]; simpl; auto; done.
  - destruct pr as [pe|].
    + eapply inv_failure; eauto.
    + eapply inv_failure; eauto.
Qed.

Lemma race_inv_reach tr s : reach tr s -> race_inv tr s.
Proof.
  induction 1 as [|tr [m pr fb t f] ev s' Hr IH Hok Hs]; [apply race_inv_init|].
  destruct ev as [p res| | |p|p]; simpl in Hs.
  - destruct (f p) eqn:E; try done. simplify_eq. by apply inv_dial_done.
  - destruct t as [[]|]; try done. simplify_eq. by apply inv_due_event.
  - destruct m; [|done]. destruct t as [[]|]; try done. simplify_eq. by apply inv_timer_event.
  - destruct m; [|done]. destruct (f p) as [| |[c [e|]]| |] eqn:E; try done; simplify_eq.
    + by eapply inv_result_err.
    + by apply inv_result_ok.
  - destruct m; [done|]. destruct (f p) eqn:E; try done. simplify_eq.
    by apply inv_returned_event.
Qed.

(** Every event makes a reachable state lighter. *)
Lemma race_step_weight tr s ev s' :
  race_inv tr s -> race_step ev s = Some s' -> race_weight s' < race_weight s.
Proof.
  intros [H1 H2 _ _ _ _ _ _] Hs. destruct s as [m pr fb t f]. unfold race_weight, set_racer in *. simpl in *.
  destruct ev as [p res| | |p|p]; simpl in Hs; unfold on_timer, set_racer in Hs.
  - destruct (f p) eqn:E; try done. simplify_eq. simpl. destruct p; simpl; rewrite E; simpl; lia.
  - destruct t as [[]|]; try done. simplify_eq. simpl. lia.
  - destruct m; [|done]. destruct t as [[]|]; try done. simplify_eq. simpl.
    rewrite (proj2 H2) by done. simpl. lia.
  - destruct m; [|done]. destruct (f p) as [| |[c e]| |] eqn:E; try done. simplify_eq.
    unfold on_result, set_racer. simpl.
    destruct e as [e|]; simpl; [destruct p, pr, fb|destruct p]; simpl; rewrite E;
      destruct t as [[]|]; simpl; lia.
  - destruct m; [done|]. destruct (f p) eqn:E; try done. simplify_eq. simpl.
    destruct p; simpl; rewrite E; simpl; lia.
Qed.

Lemma reach_weight tr s : reach tr s -> length tr + race_weight s <= 7.
Proof.
  induction 1 as [|tr s ev s' Hr IH Hok Hs]; [done|].
  pose proof (race_step_weight _ _ _ _ (race_inv_reach _ _ Hr) Hs).
  rewrite length_app. simpl. lia.
Qed.

(** A racer that has nothing more to do. *)
Definition racer_finished (r : racer) : Prop :=
  match r with RIdle | RDelivered | RGone _ => True | _ => False end.

(** When the dials do return, a state in which nothing can happen is one
    where [DialParallel] has returned. *)
Lemma race_stuck_returned tr s :
  (forall p, exists res, possible p res) -> race_inv tr s ->
  (forall ev, event_ok ev -> race_step ev s = None) ->
  (exists res, rc_main s = MReturned res) /\ forall p, racer_finished (rc_racer s p).
Proof.
  intros Hpos [H1 H2 H3 H4 H5 H6 H7 _] Hstuck. destruct s as [m pr fb t f]. simpl in *.
  assert (forall p, f p <> RDialing) as Hdial.
  { intros p Hp. destruct (Hpos p) as [res Hres].
    specialize (Hstuck (EDialDone p res) Hres). simpl in Hstuck. by rewrite Hp in Hstuck. }
  assert (forall p r, f p <> ROffering r) as Hoff.
  { intros p r Hp. destruct m.
    - specialize (Hstuck (EResult p) I). simpl in Hstuck. by rewrite Hp in Hstuck.
    - specialize (Hstuck (EReturned p) I). simpl in Hstuck. by rewrite Hp in Hstuck. }
  assert (forall p, racer_finished (f p)) as Hfin.
  { intros p. destruct (f p) eqn:E; simpl; try done; [by eapply Hdial|by eapply Hoff]. }
  split; [|done]. destruct m as [|res]; [|by eexists]. exfalso.
  destruct (H5 eq_refl) as (Ha & Hb & Hc & Hd).
  assert (is_Some pr) as Hpr.
  { apply (Hb true). specialize (Hfin true). destruct (f true) eqn:E; try done.
    by destruct (Ha true closed). }
  destruct t as [[]|].
  - specialize (Hstuck ETimer I). done.
  - by apply Hd in Hpr.
  - assert (is_Some fb) as [? ->].
    { apply (Hb false). specialize (Hfin false). destruct (f false) eqn:E; try done.
      - exfalso. by apply H2.
      - by destruct (Ha false closed). }
    destruct Hpr as [? ->]. by destruct Hc.
Qed.

(** What a race returns comes from its dials. *)
Lemma race_returned tr s c e :
  reach tr s -> rc_main s = MReturned (c, e) ->
  match e with
  | None => exists p, possible p (c, None)
  | Some pe => c = None /\ possible true (None, Some pe) /\
      exists fe, possible false (None, Some fe)
  end.
Proof.
  intros Hr Hm. apply race_inv_reach in Hr as [_ _ _ H4 _ H6 _ _].
  specialize (H6 c e Hm). destruct e as [pe|].
  - destruct H6 as (-> & Hp & [fe Hf]). split; [done|].
    split; [by apply (H4 true)|]. exists fe. by apply (H4 false).
  - destruct H6 as (p & Hp & _). by exists p.
Qed.

(** ** Properties *)

(** C10: the race ends: no interleaving has more than seven events, and as
    long as the dials return, the only states in which nothing more can
    happen are those where [DialParallel] has returned and no racer is left
    dialing or waiting to hand over a result. *)
Theorem race_terminates tr s :
  (forall p, exists res, possible p res) -> reach tr s ->
  length tr + race_weight s <= 7 /\
  ((forall ev, event_ok ev -> race_step ev s = None) ->
   (exists res, rc_main s = MReturned res) /\ forall p, racer_finished (rc_racer s p)).
Proof.
  intros Hpos Hr. split; [by apply reach_weight|].
  apply (race_stuck_returned tr); [done|by apply race_inv_reach].
Qed.

(** C7: what [DialParallel] returns: a result that one of the two serial
    dials had, when it is a success; and a failure only when both dials
    failed, with no connection and the error of the primary one. *)
Theorem race_result tr s c e :
  reach tr s -> rc_main s = MReturned (c, e) ->
  match e with
  | None => exists p, possible p (c, None)
  | Some pe => c = None /\ possible true (None, Some pe) /\
      exists fe, possible false (None, Some fe)
  end.
Proof. apply race_returned. Qed.

(** C5: no connection is leaked: once the race is over, the connections the
    two dials opened are exactly the returned one and those closed, each
    counted once. *)
Theorem race_no_leak tr s res :
  reach tr s -> rc_main s = MReturned res ->
  (forall p, racer_finished (rc_racer s p)) ->
  Permutation (opened tr)
    (res_conns res ++
     flat_map (fun p => match rc_racer s p with RGone (Some c) => [c] | _ => [] end) [true; false]).
Proof.
  intros Hr Hm Hf. apply race_inv_reach in Hr as [_ _ _ _ _ _ _ H8].
  rewrite H8, Hm. simpl. apply Permutation_app_head. rewrite app_nil_r.
  pose proof (Hf true) as Ht. pose proof (Hf false) as Hf'.
  destruct (rc_racer s true) as [| | | |[]]; try done;
    destruct (rc_racer s false) as [| | | |[]]; done.
Qed.

(** The fallback addresses are dialed only after the fallback delay or
    after the primary dial failed. *)
Theorem race_fallback_start tr s :
  reach tr s -> rc_racer s false <> RIdle ->
  In EDue tr \/ exists pe, possible true (None, Some pe) /\ rc_primary s = Some pe.
Proof.
  intros Hr Hf. apply race_inv_reach in Hr as [_ H2 _ H4 _ _ H7 _].
  destruct H7 as [|[pe Hpe]]; [|by left|].
  - intros Ht. apply Hf, H2. by rewrite Ht.
  - right. exists pe. split; [by apply (H4 true)|done].
Qed.

End race.

(** ** A concrete race: the primary fails early, the fallback connects *)

Module RaceExample.

Definition primary_err : err := ENew "connection refused".

Definition possible (p : bool) (r : gores (option nat)) : Prop :=
  r = if p then (None, Some primary_err) else (Some 7, None).

Lemma possible_error p c e : possible p (c, Some e) -> c = None.
Proof. unfold possible. destruct p; congruence. Qed.

Definition events : list (event (Conn := nat)) :=
  [EDialDone true (None, Some primary_err); EResult true; ETimer;
   EDialDone false (Some 7, None); EResult false].

Fixpoint run (evs : list (event (Conn := nat))) (s : race) : option race :=
  match evs with [] => Some s | ev :: evs => s' ← race_step ev s; run evs s' end.

Lemma run_reach tr s evs s' :
  reach possible tr s -> Forall (event_ok possible) evs -> run evs s = Some s' ->
  reach possible (tr ++ evs) s'.
Proof.
  revert tr s. induction evs as [|ev evs IH]; intros tr s Hr Hok; simpl.
  - intros [= <-]. by rewrite app_nil_r.
  - destruct (race_step ev s) as [s1|] eqn:E; [|done]. simpl. intros Hrun.
    apply Forall_cons in Hok as [Hev Hok].
    replace (tr ++ ev :: evs) with ((tr ++ [ev]) ++ evs) by (by rewrite <- app_assoc).
    eapply IH; [|done|done]. by econstructor.
Qed.

Definition final : race := default race_init (run events race_init).

Lemma events_ok : Forall (event_ok possible) events.
Proof. repeat constructor. Qed.

End RaceExample.

Lemma race_terminates_witness :
  exists s, RaceExample.run RaceExample.events race_init = Some s /\
    rc_main s = MReturned (Some 7, None) /\ length RaceExample.events + race_weight s <= 7.
Proof.
  exists RaceExample.final. split; [reflexivity|]. split; [reflexivity|].
  apply (race_terminates RaceExample.possible RaceExample.possible_error).
  - intros p. by eexists.
  - apply (RaceExample.run_reach [] race_init);
      [constructor|apply RaceExample.events_ok|reflexivity].
Defined.

Lemma race_result_witness :
  exists s, RaceExample.run RaceExample.events race_init = Some s /\
    exists p, RaceExample.possible p (Some 7, None).
Proof.
  exists RaceExample.final. split; [reflexivity|].
  apply (race_result RaceExample.possible RaceExample.possible_error RaceExample.events
    RaceExample.final (Some 7) None); [|reflexivity].
  apply (RaceExample.run_reach [] race_init);
    [constructor|apply RaceExample.events_ok|reflexivity].
Defined.

Lemma race_no_leak_witness :
  exists s, RaceExample.run RaceExample.events race_init = Some s /\
    Permutation (opened RaceExample.events) [7].
Proof.
  exists RaceExample.final. split; [reflexivity|].
  apply (race_no_leak RaceExample.possible RaceExample.possible_error RaceExample.events
    RaceExample.final (Some 7, None));
    [|reflexivity|by intros []].
  apply (RaceExample.run_reach [] race_init);
    [constructor|apply RaceExample.events_ok|reflexivity].
Defined.

Lemma race_fallback_start_witness :
  exists s, RaceExample.run RaceExample.events race_init = Some s /\
    (In EDue RaceExample.events \/
     exists pe, RaceExample.possible true (None, Some pe) /\ rc_primary s = Some pe).
Proof.
  exists RaceExample.final. split; [reflexivity|].
  apply (race_fallback_start RaceExample.possible RaceExample.possible_error RaceExample.events
    RaceExample.final);
    [|discriminate].
  apply (RaceExample.run_reach [] race_init);
    [constructor|apply RaceExample.events_ok|reflexivity].
Defined.
