(* ===== verification/Sockets.v ===== *)
(** * Sockets: what the code uses of package [net] and of tfo-go

    [net.Dialer], [net.ListenConfig] and the dialer and listener of
    [github.com/metacubex/tfo-go] are data, with the fields the sources set;
    making a connection or a listener is an operation of the class [NetLib],
    on the same world the control functions work on.  A context is part of
    the world. *)

From S2P Require Import Prelude GoStd Netip Meta Dns Addrs Control.

(** ** [netvars/tcp.go] and [netvars/udp.go], in nanoseconds *)

Definition DefaultTCPKeepAliveInitial : Z := 300000000000%Z.
Definition DefaultTCPKeepAliveInterval : Z := 75000000000%Z.
Definition DefaultTCPKeepAliveProbeCount : Z := 16%Z.
Definition DefaultDialerTimeout : Z := 5000000000%Z.

(** ** Data *)

Record KeepAliveConfig := MkKeepAlive {
  ka_Enable : bool; ka_Idle : Z; ka_Interval : Z; ka_Count : Z
}.

Definition KeepAlive_zero : KeepAliveConfig := MkKeepAlive false 0 0 0.

Section sockets.
Context {OS : Type} `{Sys OS} `{ExLib} `{SliceLib}.

(** [net.Dialer]; [nd_multipath] is what [SetMultipathTCP] sets. *)
Record NetDialer := MkNetDialer {
  nd_Timeout : Z;
  nd_LocalAddr : NetAddr;
  nd_KeepAliveConfig : KeepAliveConfig;
  nd_Control : Func (OS := OS);
  nd_multipath : bool;
}.

Definition NetDialer_zero : NetDialer := MkNetDialer 0 NA_nil KeepAlive_zero None false.

Definition nd_Append (f : Func) (d : NetDialer) : NetDialer :=
  MkNetDialer (nd_Timeout d) (nd_LocalAddr d) (nd_KeepAliveConfig d)
    (Append (nd_Control d) f) (nd_multipath d).

Definition nd_with_LocalAddr (a : NetAddr) (d : NetDialer) : NetDialer :=
  MkNetDialer (nd_Timeout d) a (nd_KeepAliveConfig d) (nd_Control d) (nd_multipath d).

Definition nd_SetMultipathTCP (use : bool) (d : NetDialer) : NetDialer :=
  MkNetDialer (nd_Timeout d) (nd_LocalAddr d) (nd_KeepAliveConfig d) (nd_Control d) use.

(** [net.ListenConfig] *)
Record ListenConfig := MkListenConfig {
  lc_Control : Func (OS := OS);
  lc_KeepAliveConfig : KeepAliveConfig;
  lc_multipath : bool;
}.

Definition ListenConfig_zero : ListenConfig := MkListenConfig None KeepAlive_zero false.

Definition lc_Append (f : Func) (l : ListenConfig) : ListenConfig :=
  MkListenConfig (Append (lc_Control l) f) (lc_KeepAliveConfig l) (lc_multipath l).

Definition lc_with_KeepAlive (k : KeepAliveConfig) (l : ListenConfig) : ListenConfig :=
  MkListenConfig (lc_Control l) k (lc_multipath l).

Definition lc_SetMultipathTCP (use : bool) (l : ListenConfig) : ListenConfig :=
  MkListenConfig (lc_Control l) (lc_KeepAliveConfig l) use.

(** [tfo.Dialer] *)
Record TfoDialer := MkTfoDialer { td_Dialer : NetDialer; td_DisableTFO : bool }.

Definition td_with_LocalAddr (a : NetAddr) (d : TfoDialer) : TfoDialer :=
  MkTfoDialer (nd_with_LocalAddr a (td_Dialer d)) (td_DisableTFO d).

(** ** Running several control functions *)

(** In order, the first error stopping the rest. *)
Fixpoint run_controls (fs : list Func) (network address : string) (conn : RawConn)
    : ST (CWorld OS) (option err) :=
  match fs with
  | [] => mret None
  | f :: fs =>
      e ← run_control f network address conn;
      match e with
      | Some err => mret (Some err)
      | None => run_controls fs network address conn
      end
  end.

Lemma run_controls_app fs gs network address conn w :
  run_controls (fs ++ gs) network address conn w =
  (let '(e, w') := run_controls fs network address conn w in
   match e with
   | Some err => (Some err, w')
   | None => run_controls gs network address conn w'
   end).
Proof.
  revert w. induction fs as [|f fs IH]; intros w; simpl; [done|].
  unfold mbind, ST_bind. destruct (run_control f network address conn w) as [[e|] w']; [done|].
  apply IH.
Qed.

(** Appending to a control that runs [fs] makes one that runs [fs] and then
    the new function. *)
Lemma run_controls_Append (f g : Func) fs :
  (forall network address conn w,
     run_control f network address conn w = run_controls fs network address conn w) ->
  forall network address conn w,
    run_control (Append f g) network address conn w =
    run_controls (fs ++ [g]) network address conn w.
Proof.
  intros Hf network address conn w. rewrite run_Append, run_controls_app, Hf.
  destruct (run_controls fs network address conn w) as [[e|] w']; [done|]. simpl.
  unfold mbind, ST_bind. by destruct (run_control g network address conn w') as [[e|] w''].
Qed.

End sockets.
Arguments NetDialer : clear implicits.
Arguments ListenConfig : clear implicits.
Arguments TfoDialer : clear implicits.

(** ** Connecting and listening

    [Conn], [PConn] and [Lis] are the values behind [net.Conn],
    [net.PacketConn] and [net.Listener]. *)
Class NetLib (OS Conn PConn Lis : Type) := {
  net_Dial : NetDialer OS -> string -> string -> ST (CWorld OS) (gores (option Conn));
  tfo_Dial : TfoDialer OS -> string -> string -> list Z -> ST (CWorld OS) (gores (option Conn));
  lc_Listen : ListenConfig OS -> string -> string -> ST (CWorld OS) (gores (option Lis));
  tfo_Listen : ListenConfig OS -> string -> string -> ST (CWorld OS) (gores (option Lis));
  lc_ListenPacket : ListenConfig OS -> string -> string -> ST (CWorld OS) (gores (option PConn));
}.

(** Documented behaviour of these calls: they return either a value or an
    error. *)
Class NetLaws {OS Conn PConn Lis} `{NetLib OS Conn PConn Lis} : Prop := {
  net_Dial_value : forall d network address w,
    (net_Dial d network address w).1.2 = None <-> is_Some (net_Dial d network address w).1.1;
  lc_Listen_value : forall l network address w,
    (lc_Listen l network address w).1.2 = None <-> is_Some (lc_Listen l network address w).1.1;
  tfo_Listen_value : forall l network address w,
    (tfo_Listen l network address w).1.2 = None <-> is_Some (tfo_Listen l network address w).1.1;
  lc_ListenPacket_value : forall l network address w,
    (lc_ListenPacket l network address w).1.2 = None <->
    is_Some (lc_ListenPacket l network address w).1.1;
}.

(** ** A network where every call succeeds, for the witnesses *)

Module NetTrace.

(** A value remembers the network and the address it was made with. *)
Definition value : Type := string * string.

#[global] Instance net_trace : NetLib SysTrace.os value value value | 100 := {
  net_Dial _ network address w := ((Some (network, address), None), w);
  tfo_Dial _ network address _ w := ((Some (network, address), None), w);
  lc_Listen _ network address w := ((Some (network, address), None), w);
  tfo_Listen _ network address w := ((Some (network, address), None), w);
  lc_ListenPacket _ network address w := ((Some (network, address), None), w);
}.

#[global] Instance net_trace_laws : @NetLaws _ _ _ _ net_trace | 100.
Proof. split; simpl; intros; split; [by eexists|done|by eexists|done|by eexists|done|by eexists|done]. Qed.

Definition finder : InterfaceFinder (OS := SysTrace.os) :=
  default_finder 2 (ENew "diverged").

End NetTrace.
