(* ===== verification/Default.v ===== *)
(** * The system dialer: [dialer/default.go]

    The configuration turned into four dialers and a listen configuration,
    and the dialing and listening operations. *)

From S2P Require Import Prelude GoStd Netip Meta Dns Addrs Control Dialer Sockets.

Section default.
Context {OS Conn PConn Lis : Type}.
Context `{Sys OS} `{ExLib} `{SliceLib} `{!NetLib OS Conn PConn Lis}.

(** ** Data *)

Record Config := MkConfig {
  c_Keepalive : KeepAliveConfig;
  c_Timeout : Z;
  c_Interface : string;
  c_BindAddress4 : Addr;
  c_BindAddress6 : Addr;
  c_FwMark : Z;
  c_ReuseAddr : bool;
  c_ReusePort : bool;
  c_MPTCP : bool;
  c_TFO : bool;
  c_UDPFragment : bool;
}.

Record DefaultDialer := MkDefaultDialer {
  dialer4 : TfoDialer OS;
  dialer6 : TfoDialer OS;
  udpDialer4 : NetDialer OS;
  udpDialer6 : NetDialer OS;
  udpAddr4 : string;
  udpAddr6 : string;
  udpListener : ListenConfig OS;
}.

(** What [DialContext] returns: a connection, or the not yet connected
    [TFOConn] with the dialer, network and destination it was made with. *)
Inductive DConn :=
  | DNet (c : Conn)
  | DTFO (dialer : TfoDialer OS) (network : string) (destination : Socksaddr).

(** ** [NewDefaultConfig] *)

(** The finder of a new dialer ([control.NewDefaultInterfaceFinder()]). *)
Variable finder : InterfaceFinder (OS := OS).

(** The body of an [if] that only updates a variable. *)
Definition when {A} (b : bool) (f : A -> A) (a : A) : A := if b then f a else a.

(** The control functions appended to the dialer, in the order of the code. *)
Definition config_dialer (config : Config) : NetDialer OS :=
  let bound := negb (String.eqb (c_Interface config) "") in
  let dialer := when bound (nd_Append (BindToInterface finder (c_Interface config) (-1)))
    NetDialer_zero in
  let dialer := when (negb (Z.eqb (c_FwMark config) 0))
    (nd_Append (RoutingMark (c_FwMark config))) dialer in
  let dialer := MkNetDialer
    (if Z.eqb (c_Timeout config) 0 then DefaultDialerTimeout else c_Timeout config)
    (nd_LocalAddr dialer) (c_Keepalive config) (nd_Control dialer) (nd_multipath dialer) in
  let dialer := when (negb (c_UDPFragment config)) (nd_Append DisableUDPFragment) dialer in
  when (c_MPTCP config) (nd_SetMultipathTCP true) dialer.

Definition config_listener (config : Config) : ListenConfig OS :=
  let bound := negb (String.eqb (c_Interface config) "") in
  let listener := when bound (lc_Append (BindToInterface finder (c_Interface config) (-1)))
    ListenConfig_zero in
  let listener := when (negb (Z.eqb (c_FwMark config) 0))
    (lc_Append (RoutingMark (c_FwMark config))) listener in
  let listener := when (c_ReuseAddr config) (lc_Append ReuseAddr) listener in
  let listener := when (c_ReusePort config) (lc_Append ReusePort) listener in
  when (negb (c_UDPFragment config)) (lc_Append DisableUDPFragment) listener.

(** [addrs.FromAddrPort(netip.AddrPortFrom(bind, 0)).String()] *)
Definition bind_string (bind : Addr) : string :=
  Socksaddr_String (FromAddrPort (AddrPortFrom bind 0)).

Definition NewDefaultConfig (config : Config) : DefaultDialer :=
  let dialer := config_dialer config in
  let listener := config_listener config in
  let tfo := MkTfoDialer dialer (negb (c_TFO config)) in
  let b4 := c_BindAddress4 config in
  let b6 := c_BindAddress6 config in
  let v4 := Addr_IsValid b4 in
  let v6 := Addr_IsValid b6 in
  MkDefaultDialer
    (when v4 (td_with_LocalAddr (NA_TCP (Addr_AsSlice b4) 0 "")) tfo)
    (when v6 (td_with_LocalAddr (NA_TCP (Addr_AsSlice b6) 0 "")) tfo)
    (when v4 (nd_with_LocalAddr (NA_UDP (Addr_AsSlice b4) 0 "")) dialer)
    (when v6 (nd_with_LocalAddr (NA_UDP (Addr_AsSlice b6) 0 "")) dialer)
    (if v4 then bind_string b4 else "")
    (if v6 then bind_string b6 else "")
    listener.

Definition NewDefault : DefaultDialer :=
  NewDefaultConfig (MkConfig
    (MkKeepAlive true DefaultTCPKeepAliveInitial DefaultTCPKeepAliveInterval
       DefaultTCPKeepAliveProbeCount)
    DefaultDialerTimeout "" AddrZero AddrZero 0 false false false false false).

(** ** Dialing *)

(** A call whose connection the code returns as a [net.Conn]. *)
Definition as_DConn (m : ST (CWorld OS) (gores (option Conn)))
    : ST (CWorld OS) (gores (option DConn)) :=
  '(c, e) ← m; mret (DNet <$> c, e).

Definition DialContext (d : DefaultDialer) (network : Network) (address : Socksaddr)
    : ST (CWorld OS) (gores (option DConn)) :=
  if negb (Socksaddr_Dialable address) then mret (None, Some ErrNotDialable)
  else if negb (Socksaddr_FqdnOnly address) then mret (None, Some ErrAddressNotResolved)
  else
  let address := Socksaddr_Unwrap address in
  if Addr_Is4 (sa_Addr address) && Z.eqb (net_Version network) NetworkVersion4 ||
     Addr_Is6 (sa_Addr address) && Z.eqb (net_Version network) NetworkVersion6
  then mret (None, Some (ex_New [XStr "no address to dialer"]))
  else if String.eqb (net_Protocol network) ProtocolTCP then
    let realDialer := if Addr_Is4 (sa_Addr address) then dialer4 d else dialer6 d in
    if td_DisableTFO realDialer then
      as_DConn (net_Dial (td_Dialer realDialer) (Network_ToString network)
                  (Socksaddr_String address))
    else mret (Some (DTFO realDialer (Network_ToString network) address), None)
  else if String.eqb (net_Protocol network) ProtocolUDP then
    if Addr_Is4 (sa_Addr address) then
      as_DConn (net_Dial (udpDialer4 d) (Network_ToString network) (Socksaddr_String address))
    else
      as_DConn (net_Dial (udpDialer6 d) (Network_ToString network) (Socksaddr_String address))
  else mret (None, Some (ex_New [XStr "not supported network: ";
                                 XStr (Network_ToString network)])).

Definition ListenPacket (d : DefaultDialer) (address : Socksaddr)
    : ST (CWorld OS) (gores (option PConn)) :=
  if Addr_Is6 (sa_Addr address) then
    lc_ListenPacket (udpListener d) (Network_ToString NetworkUDP6) (udpAddr6 d)
  else if Addr_Is4 (sa_Addr address) && negb (Addr_IsUnspecified (sa_Addr address)) then
    lc_ListenPacket (udpListener d) (Network_ToString NetworkUDP4) (udpAddr4 d)
  else lc_ListenPacket (udpListener d) (Protocol_ToString ProtocolUDP) (udpAddr4 d).

(** The dialer as the interface its clients use. *)
Definition default_Dialer (d : DefaultDialer) : Dialer (CWorld OS) DConn PConn :=
  MkDialer (DialContext d) (ListenPacket d).

(** [DefaultDialer.DialParallel]: which lists it hands to the serial dial. *)
Definition Default_DialParallel_plan `{SortLib} (network : Network) (address : list Addr) : plan :=
  DialParallel_plan network address DefaultHappyEyeballConf.

(** ** Lemmas *)

(** The control functions of a configuration, as a list. *)
Definition common_controls (config : Config) : list (Func (OS := OS)) :=
  (if String.eqb (c_Interface config) "" then []
   else [BindToInterface finder (c_Interface config) (-1)]) ++
  (if Z.eqb (c_FwMark config) 0 then [] else [RoutingMark (c_FwMark config)]).

Definition fragment_control (config : Config) : list (Func (OS := OS)) :=
  if c_UDPFragment config then [] else [DisableUDPFragment].

Definition reuse_controls (config : Config) : list (Func (OS := OS)) :=
  (if c_ReuseAddr config then [ReuseAddr] else []) ++
  (if c_ReusePort config then [ReusePort] else []).

(** [runs f fs]: the control [f] runs the list [fs]. *)
Definition runs (f : Func) (fs : list (Func (OS := OS))) : Prop :=
  forall network address conn w,
    run_control f network address conn w = run_controls fs network address conn w.

Lemma runs_nil : runs None [].
Proof. done. Qed.

Lemma runs_when_nd b f g d fs :
  runs (nd_Control d) fs -> (b = true -> g = [f]) -> (b = false -> g = []) ->
  runs (nd_Control (when b (nd_Append f) d)) (fs ++ g).
Proof.
  intros Hd Ht Hf. destruct b; simpl.
  - rewrite Ht by done. intros network address conn w. by apply run_controls_Append.
  - rewrite Hf, app_nil_r by done. exact Hd.
Qed.

Lemma runs_when_lc b f g l fs :
  runs (lc_Control l) fs -> (b = true -> g = [f]) -> (b = false -> g = []) ->
  runs (lc_Control (when b (lc_Append f) l)) (fs ++ g).
Proof.
  intros Hl Ht Hf. destruct b; simpl.
  - rewrite Ht by done. intros network address conn w. by apply run_controls_Append.
  - rewrite Hf, app_nil_r by done. exact Hl.
Qed.

Lemma config_dialer_runs config :
  runs (nd_Control (config_dialer config)) (common_controls config ++ fragment_control config).
Proof.
  unfold config_dialer, common_controls, fragment_control.
  assert (forall d, nd_Control (when (c_MPTCP config) (nd_SetMultipathTCP true) d) =
            nd_Control d) as -> by (intros; by destruct (c_MPTCP config)).
  apply runs_when_nd; [|by destruct (c_UDPFragment config)..]. simpl.
  apply runs_when_nd; [|by destruct (Z.eqb (c_FwMark config) 0)..].
  apply (runs_when_nd _ _ _ _ []); [apply runs_nil|by destruct (String.eqb (c_Interface config) "")..].
Qed.

Lemma config_listener_runs config :
  runs (lc_Control (config_listener config))
    (common_controls config ++ reuse_controls config ++ fragment_control config).
Proof.
  unfold config_listener, common_controls, reuse_controls, fragment_control.
  rewrite !app_assoc.
  apply runs_when_lc; [|by destruct (c_UDPFragment config)..].
  apply runs_when_lc; [|by destruct (c_ReusePort config)..].
  apply runs_when_lc; [|by destruct (c_ReuseAddr config)..].
  apply runs_when_lc; [|by destruct (Z.eqb (c_FwMark config) 0)..].
  apply (runs_when_lc _ _ _ _ []); [apply runs_nil|by destruct (String.eqb (c_Interface config) "")..].
Qed.

(** The fields [when] leaves alone. *)
Lemma when_keeps {A B} (get : A -> B) b f a :
  (forall x, get (f x) = get x) -> get (when b f a) = get a.
Proof. intros Hf. by destruct b; simpl. Qed.

Lemma config_dialer_fields config :
  nd_LocalAddr (config_dialer config) = NA_nil /\
  nd_Timeout (config_dialer config) <> 0%Z /\
  nd_multipath (config_dialer config) = c_MPTCP config.
Proof.
  unfold config_dialer. cbv zeta. split; [|split].
  - repeat (rewrite (when_keeps nd_LocalAddr) by done; simpl). done.
  - repeat (rewrite (when_keeps nd_Timeout) by done; simpl).
    by destruct (Z.eqb_spec (c_Timeout config) 0).
  - destruct (c_MPTCP config); simpl; [done|].
    repeat (rewrite (when_keeps nd_multipath) by done; simpl). done.
Qed.

Lemma config_listener_multipath config :
  lc_multipath (config_listener config) = false.
Proof.
  unfold config_listener. cbv zeta.
  repeat (rewrite (when_keeps lc_multipath) by done; simpl). done.
Qed.

(** An address that names an IP is refused, whatever the network. *)
Lemma DialContext_ip d network address w :
  Addr_IsValid (sa_Addr address) = true ->
  exists e, DialContext d network address w = ((None, Some e), w).
Proof.
  intros Hv. unfold DialContext, Socksaddr_FqdnOnly. rewrite Hv. simpl.
  destruct (Socksaddr_Dialable address); simpl; by eexists.
Qed.

Lemma default_dial_fails d network port l w :
  Forall (fun a => Addr_IsValid a = true) l ->
  forall w', dial_fails (default_Dialer d) network port l w w' -> w' = w.
Proof.
  induction 1 as [|a l Ha _ IH]; intros w' Hf;
    inversion Hf as [|? ? c e ? w1 ? Hd Hrest]; subst; [done|].
  destruct (DialContext_ip d network (FromAddrPort (AddrPortFrom a port)) w Ha) as [e' He'].
  change (d_DialContext (default_Dialer d)) with (DialContext d) in Hd.
  rewrite He' in Hd. injection Hd as _ _ <-. apply IH, Hrest.
Qed.

(** A serial dial over the system dialer tries addresses that are valid, so
    each is refused. *)
Lemma default_dial_outcome d network port l w r w' :
  Forall (fun a => Addr_IsValid a = true) l ->
  dial_outcome (default_Dialer d) network port l w r w' ->
  w' = w /\ r.1 = None /\ is_Some r.2.
Proof.
  intros Hl [(pre & a & post & c & w1 & -> & Hf & Ha & ->)|(e & Hf & ->)].
  - exfalso. apply Forall_app in Hl as [_ [Hv _]%Forall_cons].
    destruct (DialContext_ip d network (FromAddrPort (AddrPortFrom a port)) w1 Hv) as [e' He'].
    change (d_DialContext (default_Dialer d)) with (DialContext d) in Ha. congruence.
  - apply default_dial_fails in Hf as ->; [|done]. split; [done|]. split; [done|by eexists].
Qed.

(** ** Properties *)

(** What a configuration makes.  The control functions of all four
    dialers run in the order interface, mark, fragmentation, those of the
    listener have the reuse options before the last; each is there exactly
    when the configuration asks for it.  The dialers differ in their local
    address alone, which is the configured one with port 0. *)
Theorem NewDefaultConfig_spec config :
  let d := NewDefaultConfig config in
  let local4 (f : list Z -> Z -> string -> NetAddr) :=
    if Addr_IsValid (c_BindAddress4 config) then f (Addr_AsSlice (c_BindAddress4 config)) 0%Z ""
    else NA_nil in
  let local6 (f : list Z -> Z -> string -> NetAddr) :=
    if Addr_IsValid (c_BindAddress6 config) then f (Addr_AsSlice (c_BindAddress6 config)) 0%Z ""
    else NA_nil in
  runs (nd_Control (udpDialer4 d)) (common_controls config ++ fragment_control config) /\
  runs (lc_Control (udpListener d))
    (common_controls config ++ reuse_controls config ++ fragment_control config) /\
  udpDialer4 d = nd_with_LocalAddr (local4 NA_UDP) (udpDialer4 d) /\
  udpDialer6 d = nd_with_LocalAddr (local6 NA_UDP) (udpDialer4 d) /\
  dialer4 d = MkTfoDialer (nd_with_LocalAddr (local4 NA_TCP) (udpDialer4 d)) (negb (c_TFO config)) /\
  dialer6 d = MkTfoDialer (nd_with_LocalAddr (local6 NA_TCP) (udpDialer4 d)) (negb (c_TFO config)) /\
  (nd_Timeout (udpDialer4 d) <> 0 /\ nd_multipath (udpDialer4 d) = c_MPTCP config /\
   lc_multipath (udpListener d) = false)%Z.
Proof.
  cbv zeta. split; [|split; [apply config_listener_runs|]].
  { unfold NewDefaultConfig. cbv zeta. simpl.
    destruct (Addr_IsValid (c_BindAddress4 config)); simpl; apply config_dialer_runs. }
  destruct (config_dialer_fields config) as (Hl & Ht & Hm).
  pose proof (config_listener_multipath config) as Hlm.
  unfold NewDefaultConfig, when, nd_with_LocalAddr, td_with_LocalAddr. cbv zeta. simpl.
  destruct (config_dialer config) as [t la k c m], (Addr_IsValid (c_BindAddress4 config)),
    (Addr_IsValid (c_BindAddress6 config)); simpl in *; subst; done.
Qed.

(** What [DialContext] dials.  An address with an IP is always refused
    as not resolved, with no call made; an address that is only a host name
    and has a port is handed to the system by name, through the dialer that
    was configured for IPv6, under the network's name. *)
Theorem DialContext_spec d network address w :
  let run := DialContext d network address w in
  (Socksaddr_Dialable address = false -> run = ((None, Some ErrNotDialable), w)) /\
  (Socksaddr_Dialable address = true -> Addr_IsValid (sa_Addr address) = true ->
     run = ((None, Some ErrAddressNotResolved), w)) /\
  (Socksaddr_Dialable address = true -> Addr_IsValid (sa_Addr address) = false ->
     let dialed := JoinHostPort (sa_Fqdn address) (FormatUint (sa_Port address)) in
     let name := Network_ToString network in
     if String.eqb (net_Protocol network) ProtocolTCP then
       run = if td_DisableTFO (dialer6 d)
             then as_DConn (net_Dial (td_Dialer (dialer6 d)) name dialed) w
             else ((Some (DTFO (dialer6 d) name address), None), w)
     else if String.eqb (net_Protocol network) ProtocolUDP then
       run = as_DConn (net_Dial (udpDialer6 d) name dialed) w
     else run = ((None, Some (ex_New [XStr "not supported network: "; XStr name])), w)).
Proof.
  cbv zeta. unfold DialContext, Socksaddr_FqdnOnly. split; [by intros ->|].
  split; [by intros -> ->|]. intros -> Hv. rewrite Hv. cbn [negb].
  destruct address as [fqdn [| |] port]; try done. simpl.
  destruct (String.eqb (net_Protocol network) ProtocolTCP),
    (String.eqb (net_Protocol network) ProtocolUDP); split_ifs; done.
Qed.

(** Dialing resolved addresses through the system dialer, one after the
    other, never connects: every address is refused, without a call to the
    system, whatever the list, the network and the port. *)
Theorem DialSerial_default_never_connects d network addresses port w :
  let '((r, _), w') := DialSerial (default_Dialer d) network addresses port w in
  r.1 = None /\ is_Some r.2 /\ w' = w.
Proof.
  pose proof (DialSerial_outcome (default_Dialer d) network addresses port w) as Ho.
  destruct (DialSerial (default_Dialer d) network addresses port w) as [[r backing] w'].
  apply default_dial_outcome in Ho as (-> & ? & ?); [done|].
  apply List.Forall_forall. intros a Ha. unfold dial_candidates in Ha.
  by apply filter_In in Ha as [_ ?].
Qed.

End default.

(** The default dialer refuses 127.0.0.1:80, and dials "localhost:80". *)
Lemma DialContext_spec_witness :
  let d := NewDefault (OS := SysTrace.os) NetTrace.finder in
  let dial := DialContext (Conn := NetTrace.value) (PConn := NetTrace.value)
    (Lis := NetTrace.value) d NetworkTCP in
  dial (MkSocks "" (Addr4 0x7f000001) 80) SysTrace.world0 =
    ((None, Some ErrAddressNotResolved), SysTrace.world0) /\
  (dial (MkSocks "localhost" AddrZero 80) SysTrace.world0).1 =
    (Some (DNet ("tcp", "localhost:80")), None).
Proof.
  cbv zeta. split; [|reflexivity].
  apply (DialContext_spec (Conn := NetTrace.value) (PConn := NetTrace.value)
    (Lis := NetTrace.value)); reflexivity.
Defined.
