(* ===== verification/Tfo.v ===== *)
(** * The lazily connected TCP connection: [dialer/tfo.go]

    A [TFOConn] dials with its first write.  Its state is the fields of the
    structure; the methods interleave freely, so a run is a list of events:
    a write passes the lock and the [select] and starts to dial, its dial
    returns, it closes the channel [create]; or a [Close] happens.  Reads and
    the other writes wait for [create] or [done] and change nothing here. *)

From S2P Require Import Prelude GoStd Netip Meta Dns Addrs.

Definition os_ErrClosed : err := EStd "os.ErrClosed".
Definition os_ErrInvalid' : err := EStd "os.ErrInvalid".

Section tfo.
Context {Conn : Type}.

(** Where the write that holds [access] is: dialing with its bytes, or with
    the result stored and [create] not closed yet. *)
Inductive writer :=
  | WDialing (b : list Z)
  | WStored (b : list Z) (err : option err).

(** The fields [conn], [err], [create], [done] and [access] of [TFOConn];
    the closed connection and the panic flag (a second [close(c.create)])
    are what the outside sees. *)
Record TFOConn := MkTFO {
  tf_conn : option Conn;
  tf_err : option err;
  tf_create : bool;
  tf_done : bool;
  tf_access : option writer;
  tf_closed : option Conn;
  tf_panic : bool;
}.

Definition tfo_init : TFOConn := MkTFO None None false false None None false.

(** ** Operations that take effect at once *)

(** What a call does with the connection: it runs the method of [c.conn],
    it returns at once with an error, or it waits. *)
Inductive outcome :=
  | ODelegate (c : Conn)
  | OError (e : err)
  | OWait.

(** [Read]: the outcomes the [select] allows; when both channels are closed
    either can be taken. *)
Definition Read (s : TFOConn) : list outcome :=
  match tf_conn s with
  | Some c => [ODelegate c]
  | None =>
      (if tf_create s then
         match tf_err s with Some e => [OError e] | None => [] end
       else []) ++
      (if tf_done s then [OError os_ErrClosed] else []) ++
      (if tf_create s || tf_done s then [] else [OWait])
  end.

(** [Write], when it does not dial: the connection is there, or another
    write finished first, or the connection was closed. *)
Definition Write_again (s : TFOConn) : list outcome :=
  match tf_conn s with
  | Some c => [ODelegate c]
  | None =>
      (if tf_create s then
         match tf_err s with Some e => [OError e] | None => [] end
       else []) ++
      (if tf_done s then [OError os_ErrClosed] else [])
  end.

Definition LocalAddr (conn_addr : Conn -> NetAddr) (s : TFOConn) : NetAddr :=
  match tf_conn s with
  | None => NA_Socks (MkSocks "" AddrZero 0)
  | Some c => conn_addr c
  end.

Definition RemoteAddr (conn_addr : Conn -> NetAddr) (s : TFOConn) : NetAddr :=
  match tf_conn s with
  | None => NA_Socks (MkSocks "" AddrZero 0)
  | Some c => conn_addr c
  end.

(** [SetDeadline], [SetReadDeadline] and [SetWriteDeadline]: the method of
    the connection when there is one. *)
Definition SetDeadline (set : Conn -> option err) (s : TFOConn) : option err :=
  match tf_conn s with None => Some os_ErrInvalid' | Some c => set c end.

Definition UnderlayConn (s : TFOConn) : option Conn := tf_conn s.
Definition NeedHandshake (s : TFOConn) : bool :=
  match tf_conn s with None => true | Some _ => false end.

(** ** Events *)

Inductive event :=
  | EWrite (b : list Z)            (* a write takes the lock and the default case *)
  | EDial (res : gores (option Conn))  (* the dial it made returns *)
  | ECreate                        (* it closes [create] and returns *)
  | EClose.                        (* Close *)

(** [Handshake] is [Write]. *)
Definition Handshake (bs : list Z) : event := EWrite bs.

(** [Write] past the lock, the three cases of its [select] decided by the
    channels. *)
Definition tfo_step (ev : event) (s : TFOConn) : option TFOConn :=
  match ev with
  | EWrite b =>
      match tf_access s with
      | Some _ => None
      | None =>
          if tf_create s || tf_done s then None
          else Some (MkTFO (tf_conn s) (tf_err s) (tf_create s) (tf_done s)
                 (Some (WDialing b)) (tf_closed s) (tf_panic s))
      end
  | EDial (conn, e) =>
      match tf_access s with
      | Some (WDialing b) =>
          match e with
          | Some e => Some (MkTFO (tf_conn s) (Some e) (tf_create s) (tf_done s)
                        (Some (WStored b (Some e))) (tf_closed s) (tf_panic s))
          | None => Some (MkTFO conn (tf_err s) (tf_create s) (tf_done s)
                      (Some (WStored b None)) (tf_closed s) (tf_panic s))
          end
      | _ => None
      end
  | ECreate =>
      match tf_access s with
      | Some (WStored b e) =>
          Some (MkTFO (tf_conn s) (tf_err s) true (tf_done s) None (tf_closed s)
            (tf_panic s || tf_create s))
      | _ => None
      end
  | EClose =>
      Some (if tf_done s then s
            else MkTFO (tf_conn s) (tf_err s) (tf_create s) true (tf_access s)
                   (tf_conn s) (tf_panic s))
  end.

(** What the write that dialed returns: [n = len(b)] and the error of the
    dial. *)
Definition Write_result (s : TFOConn) : option (Z * option err) :=
  match tf_access s with
  | Some (WStored b e) => Some (Z.of_nat (length b), e)
  | _ => None
  end.

Inductive tfo_reach : list event -> TFOConn -> Prop :=
  | tfo_reach_init : tfo_reach [] tfo_init
  | tfo_reach_step tr s ev s' :
      tfo_reach tr s -> tfo_step ev s = Some s' -> tfo_reach (tr ++ [ev]) s'.

(** ** The invariant *)

Definition is_dial (ev : event) : bool := match ev with EDial _ => true | _ => false end.
Definition is_write (ev : event) : bool := match ev with EWrite _ => true | _ => false end.

(** The documented behaviour of a dial: a connection or an error. *)
Definition dial_ok (ev : event) : Prop :=
  match ev with EDial (c, e) => e = None <-> is_Some c | _ => True end.

(** The phases of the dial, with how many writes started one. *)
Record tfo_inv (tr : list event) (s : TFOConn) : Prop := {
  ti_panic : tf_panic s = false;
  ti_phase :
    match tf_access s with
    | None =>
        if tf_create s
        then length (List.filter is_write tr) = 1 /\ (is_Some (tf_conn s) <-> tf_err s = None)
        else tf_conn s = None /\ tf_err s = None /\ length (List.filter is_write tr) = 0
    | Some (WDialing _) =>
        tf_create s = false /\ tf_conn s = None /\ tf_err s = None /\
        length (List.filter is_write tr) = 1
    | Some (WStored _ e) =>
        tf_create s = false /\ tf_err s = e /\ length (List.filter is_write tr) = 1 /\
        (is_Some (tf_conn s) <-> tf_err s = None)
    end;
  ti_closed : forall c, tf_closed s = Some c -> tf_conn s = Some c /\ tf_done s = true;
}.

Lemma filter_write_snoc tr ev :
  length (List.filter is_write (tr ++ [ev])) =
  length (List.filter is_write tr) + (if is_write ev then 1 else 0).
Proof. rewrite List.filter_app, length_app. simpl. by destruct (is_write ev). Qed.

Lemma tfo_inv_step tr s ev s' :
  tfo_inv tr s -> dial_ok ev -> tfo_step ev s = Some s' -> tfo_inv (tr ++ [ev]) s'.
Proof.
  intros [Hp Hph Hc] Hok Hs. destruct s as [conn e cr dn acc cl pn]. simpl in *.
  destruct ev as [b|[c' e']| |]; simpl in Hs.
  - destruct acc; [done|]. destruct cr, dn; simpl in Hs; simplify_eq. destruct Hph as (-> & -> & Hw).
    split; simpl; rewrite ?filter_write_snoc, ?Hw; done.
  - destruct acc as [[b|]|]; try done. destruct Hph as (-> & -> & -> & Hw).
    destruct e' as [e'|]; simplify_eq; split; simpl in *;
      rewrite ?filter_write_snoc, ?Hw; simpl; try done.
    intros c Hcl. by destruct (Hc c Hcl).
  - destruct acc as [[|b e']|]; try done. simplify_eq. destruct Hph as (-> & He & Hw & Hx).
    split; simpl; rewrite ?filter_write_snoc, ?Hw; done.
  - simplify_eq. destruct dn; split; simpl; rewrite ?filter_write_snoc, ?Nat.add_0_r; try done.
Qed.

Lemma tfo_inv_reach tr s : tfo_reach tr s -> Forall dial_ok tr -> tfo_inv tr s.
Proof.
  induction 1 as [|tr s ev s' _ IH Hs]; intros Hok; [by split|].
  apply Forall_app in Hok as [Hok Hev].
  eapply tfo_inv_step; [by apply IH|by apply Forall_inv in Hev|done].
Qed.

(** Once closed before its dial returned, a connection stays unclosed. *)
Lemma tfo_closed_early tr s tr1 tr2 :
  tfo_reach tr s -> Forall dial_ok tr -> tr = tr1 ++ EClose :: tr2 ->
  List.filter is_dial tr1 = [] -> tf_closed s = None /\ tf_done s = true.
Proof.
  intros Hr. revert tr2. induction Hr as [|tr s ev s' Hr IH Hs]; intros tr2 Hok Htr Hd.
  { by destruct tr1. }
  apply Forall_app in Hok as [Hok _].
  destruct tr2 as [|ev2 tr2 _] using rev_ind.
  - apply app_inj_tail in Htr as [-> ->]. simpl in Hs.
    assert (tf_conn s = None) as Hn.
    { clear - Hr Hd. induction Hr as [|tr s ev s' Hr IH Hs]; [done|].
      rewrite List.filter_app in Hd. apply app_eq_nil in Hd as [Hd1 Hd2].
      specialize (IH Hd1). destruct ev as [b|[c e]| |]; simpl in *; try done.
      - destruct (tf_access s); [done|]. destruct (tf_create s || tf_done s); by simplify_eq.
      - destruct (tf_access s) as [[]|]; by simplify_eq.
      - destruct (tf_done s); by simplify_eq. }
    destruct (tfo_inv_reach _ _ Hr Hok) as [_ _ Hc].
    simplify_eq. destruct (tf_done s) eqn:E; simpl; [|by rewrite Hn].
    split; [|done]. destruct (tf_closed s) eqn:Ec; [|done].
    destruct (Hc _ eq_refl) as [? _]. congruence.
  - rewrite app_comm_cons, app_assoc in Htr. apply app_inj_tail in Htr as [Htr <-].
    destruct (IH tr2 Hok Htr Hd) as [IHc IHd].
    destruct ev as [b|[c e]| |]; simpl in Hs.
    + rewrite IHd, orb_true_r in Hs. by destruct (tf_access s).
    + destruct (tf_access s) as [[]|]; try done. by destruct e; simplify_eq.
    + destruct (tf_access s) as [[]|]; try done. by simplify_eq.
    + rewrite IHd in Hs. by simplify_eq.
Qed.

(** ** Properties *)

(** C27: whatever the interleaving of writes and [Close], a [TFOConn] dials
    at most once, never closes [create] twice, and once [create] is closed it
    has exactly one of a connection and an error; the write that dialed
    reports all its bytes as written even when the dial failed. *)
Theorem tfo_dials_once tr s :
  tfo_reach tr s -> Forall dial_ok tr ->
  length (List.filter is_write tr) <= 1 /\ tf_panic s = false /\
  (tf_create s = true -> (is_Some (tf_conn s) <-> tf_err s = None)) /\
  (forall n e, Write_result s = Some (n, e) ->
     exists b, tf_access s = Some (WStored b e) /\ n = Z.of_nat (length b) /\ tf_err s = e).
Proof.
  intros Hr Hok. destruct (tfo_inv_reach _ _ Hr Hok) as [Hp Hph _].
  unfold Write_result. destruct (tf_access s) as [[b|b e]|] eqn:Ea.
  - destruct Hph as (-> & _ & _ & Hw). rewrite Hw. done.
  - destruct Hph as (-> & He & Hw & _). rewrite Hw. repeat split; try done.
    intros n e' [= <- <-]. by exists b.
  - destruct (tf_create s).
    + destruct Hph as [Hw Hx]. rewrite Hw. repeat split; try done; apply Hx.
    + destruct Hph as (_ & _ & Hw). rewrite Hw. repeat split; try done; lia.
Qed.

(** A waiting [Read] is woken by the end of the dial or by [Close]: it
    waits only while neither has happened, and after both of [create] and
    [Close] a write or a read that finds no connection fails. *)
Theorem tfo_read_wakes tr s :
  tfo_reach tr s -> Forall dial_ok tr ->
  (In OWait (Read s) <-> tf_conn s = None /\ tf_create s = false /\ tf_done s = false) /\
  Read s <> [] /\
  (tf_create s || tf_done s = true -> tf_access s = None ->
     Write_again s <> [] /\
     forall o, In o (Write_again s) -> In o (Read s) /\ o <> OWait).
Proof.
  intros Hr Hok. destruct (tfo_inv_reach _ _ Hr Hok) as [_ Hph _].
  unfold Read, Write_again. destruct (tf_conn s) as [c|] eqn:Ec.
  { split; [|split; [done|]].
    - split; [by intros [|[]]|by intros [? _]].
    - intros _ _. split; [done|]. by intros o [<-|[]]; split; [left|]. }
  assert (tf_create s = true -> is_Some (tf_err s)) as Herr.
  { intros Hcr. rewrite Hcr in Hph. destruct (tf_access s) as [[]|]; try by destruct Hph.
    destruct Hph as [_ Hx]. destruct (tf_err s); [by eexists|].
    by destruct (proj2 Hx eq_refl). }
  clear Hph Ec. destruct (tf_create s), (tf_done s);
    [destruct (Herr eq_refl) as [e ->]|destruct (Herr eq_refl) as [e ->]| |]; simpl;
    (split; [|split; [done|]]); intuition (subst; eauto; congruence).
Qed.

(** Closing a [TFOConn] whose dial has not returned leaves the
    connection open for good: the [Close] that came first has nothing to
    close, later ones do nothing, and the connection the dial then stores
    is never closed. *)
Theorem tfo_close_during_dial_leaks tr1 tr2 s :
  tfo_reach (tr1 ++ EClose :: tr2) s -> Forall dial_ok (tr1 ++ EClose :: tr2) ->
  List.filter is_dial tr1 = [] ->
  tf_done s = true /\ tf_closed s = None /\
  forall ev s', tfo_step ev s = Some s' -> tf_closed s' = None.
Proof.
  intros Hr Hok Hd. destruct (tfo_closed_early _ _ tr1 tr2 Hr Hok eq_refl Hd) as [Hc Hdn].
  split; [done|]. split; [done|]. intros ev s'.
  destruct ev as [b|[c e]| |]; simpl; rewrite ?Hdn, ?orb_true_r.
  - by destruct (tf_access s).
  - destruct (tf_access s) as [[]|]; try done. destruct e; by intros [= <-].
  - destruct (tf_access s) as [[]|]; try done. by intros [= <-].
  - by intros [= <-].
Qed.

End tfo.

(** ** A connection closed while its first write dials *)

Module TfoExample.

Definition events : list (event (Conn := nat)) :=
  [EWrite [1; 2; 3]%Z; EClose; EDial (Some 9, None); ECreate].

Definition state (n : nat) : TFOConn :=
  fold_left (fun s ev => default s (tfo_step ev s)) (firstn n events) tfo_init.

Lemma reached n : n <= 4 -> tfo_reach (firstn n events) (state n).
Proof.
  induction n as [|n IH]; intros Hn; [constructor|].
  assert (exists ev, nth_error events n = Some ev /\
            tfo_step ev (state n) = Some (state (S n)) /\
            firstn (S n) events = firstn n events ++ [ev]) as (ev & _ & Hs & ->).
  { destruct n as [|[|[|[|n]]]]; [by eexists..|lia]. }
  econstructor; [apply IH; lia|done].
Qed.

Lemma dials_ok : Forall dial_ok events.
Proof. repeat constructor. by intros [=]. Qed.

End TfoExample.

(** The connection the dial made is stored, and never closed. *)
Lemma tfo_close_during_dial_leaks_witness :
  tf_conn (TfoExample.state 4) = Some 9 /\ tf_closed (TfoExample.state 4) = None.
Proof.
  split; [reflexivity|].
  refine (proj1 (proj2 (tfo_close_during_dial_leaks [EWrite [1; 2; 3]%Z]
    [EDial (Some 9, None); ECreate] (TfoExample.state 4) _ _ _)));
    [apply (TfoExample.reached 4); lia|apply TfoExample.dials_ok|reflexivity].
Defined.

Lemma tfo_dials_once_witness :
  length (List.filter is_write TfoExample.events) <= 1 /\
  Write_result (TfoExample.state 3) = Some (3%Z, None).
Proof.
  split; [|reflexivity].
  refine (proj1 (tfo_dials_once TfoExample.events (TfoExample.state 4) _ _));
    [apply (TfoExample.reached 4); lia|apply TfoExample.dials_ok].
Defined.

Lemma tfo_read_wakes_witness :
  Read (TfoExample.state 1) = [OWait] /\ Read (TfoExample.state 2) <> [].
Proof.
  split; [reflexivity|].
  refine (proj1 (proj2 (tfo_read_wakes (firstn 2 TfoExample.events) (TfoExample.state 2) _ _)));
    [apply (TfoExample.reached 2); lia|repeat constructor].
Defined.
