(* ===== verification/Resolve.v ===== *)
(** * DNS message helpers: [resolve/resolve.go], [FixedResponse]

    TTLs of a message, the EDNS downgrade of a response, the response made
    from fixed addresses ([resolve/transport/helper.go]), and the interface
    [resolve.Client]. *)

From S2P Require Import Prelude GoStd Netip Meta Dns Addrs.

(** ** TTLs *)

(** The records a walk over the three sections meets, in order. *)
Definition msg_records (m : Msg) : list RR := concat (msg_sections m).

(** One step of the loop of [CalculateTTL]. *)
Definition ttl_step (ttl : Z) (rr : RR) : Z :=
  if (Z.eqb ttl 0 || Z.ltb (rr_Ttl rr) ttl)%bool then rr_Ttl rr else ttl.

Definition CalculateTTL (message : Msg) : Z :=
  fold_left (fun ttl rrs => fold_left ttl_step rrs ttl) (msg_sections message) 0%Z.

(** [OverwriteTTL]: the message after the call. *)
Definition OverwriteTTL (message : Msg) (ttl : Z) : Msg :=
  msg_with_sections (List.map (rr_set_Ttl ttl) (m_Answer message))
    (List.map (rr_set_Ttl ttl) (m_Ns message))
    (List.map (rr_set_Ttl ttl) (m_Extra message)) message.

(** ** EDNS *)

Definition EdnsBackwards `{DnsLib} `{SliceLib} (req resp : Msg) : Msg :=
  let requestEdns0 := dns_IsEdns0 req in
  let responseEdns0 := dns_IsEdns0 resp in
  match responseEdns0 with
  | None => resp
  | Some ropt =>
      if match requestEdns0 with
         | None => true
         | Some qopt => Z.ltb (opt_Version qopt) (opt_Version ropt)
         end
      then
        let resp := msg_with_Extra
          (slice_Filter (m_Extra resp) (fun it => negb (Z.eqb (h_Rrtype (rr_Header it)) TypeOPT)))
          resp in
        match requestEdns0 with
        | Some qopt => dns_SetEdns0 (opt_UDPSize qopt) (opt_Do ropt) resp
        | None => resp
        end
      else resp
  end.

Definition NewDNSRecordError `{DnsLib} `{ExLib} (rcode : Z) : err :=
  ex_New [XStr "rcode: "; XStr (dns_RcodeToString rcode)].

(** ** [FixedResponse] *)

(** The record an address adds to the answer. *)
Definition fixed_record (question : Question) (timeToLive : Z) (address : Addr) : list RR :=
  if Addr_Is4 address && Z.eqb (q_Qtype question) TypeA then
    [RR_A (MkHdr (q_Name question) TypeA ClassINET timeToLive) (Addr_AsSlice address)]
  else if Addr_Is6 address && Z.eqb (q_Qtype question) TypeAAAA then
    [RR_AAAA (MkHdr (q_Name question) TypeAAAA ClassINET timeToLive) (Addr_AsSlice address)]
  else [].

Definition FixedResponse (id : Z) (question : Question) (addresses : list Addr)
    (timeToLive : Z) : Msg :=
  let response :=
    MkMsg id true true false true true false RcodeSuccess false [question] [] [] [] in
  msg_with_sections
    (fold_left (fun answer address => answer ++ fixed_record question timeToLive address)
       addresses []) [] [] response.

(** ** Ordering the two families *)

Definition sortAddresses (addresses4 addresses6 : list Addr) (strategy : Strategy) : list Addr :=
  if (Z.eqb strategy StrategyPreferIPv6 || Z.eqb strategy StrategyDefault)%bool
  then addresses6 ++ addresses4 else addresses4 ++ addresses6.

(** ** [type Client interface] *)

Record Client (W : Type) := MkClient {
  cl_Lookup : string -> Strategy -> ST W (gores (list Addr));
  cl_Exchange : Msg -> ST W (gores (option Msg));
}.
Arguments MkClient {W} _ _.
Arguments cl_Lookup {W} _ _ _ _.
Arguments cl_Exchange {W} _ _ _.

(** ** Lemmas *)

Lemma CalculateTTL_records m : CalculateTTL m = fold_left ttl_step (msg_records m) 0%Z.
Proof.
  unfold CalculateTTL, msg_records, msg_sections. simpl.
  by rewrite !fold_left_app.
Qed.

(** A record with TTL zero erases what came before it. *)
Lemma ttl_step_zero ttl rr : (0 <= ttl)%Z -> rr_Ttl rr = 0%Z -> ttl_step ttl rr = 0%Z.
Proof. intros ? E. unfold ttl_step. rewrite E. destruct (_ || _)%bool eqn:?; bool_hyps; lia. Qed.

Lemma ttl_step_nonneg ttl rr : (0 <= ttl)%Z -> (0 <= rr_Ttl rr)%Z -> (0 <= ttl_step ttl rr)%Z.
Proof. unfold ttl_step. by destruct (_ || _)%bool. Qed.

Lemma fold_ttl_nonneg l ttl :
  (0 <= ttl)%Z -> Forall (fun r => 0 <= rr_Ttl r)%Z l -> (0 <= fold_left ttl_step l ttl)%Z.
Proof.
  intros Ht Hl. revert ttl Ht. induction Hl as [|r l Hr _ IH]; intros ttl Ht; simpl; [done|].
  apply IH. by apply ttl_step_nonneg.
Qed.

(** Among records with positive TTLs the walk computes the minimum. *)
Lemma fold_ttl_min l ttl :
  (0 < ttl)%Z -> Forall (fun r => 0 < rr_Ttl r)%Z l ->
  let t := fold_left ttl_step l ttl in
  (t <= ttl)%Z /\ Forall (fun r => t <= rr_Ttl r)%Z l /\
  (t = ttl \/ exists r, In r l /\ t = rr_Ttl r).
Proof.
  intros Ht Hl. revert ttl Ht.
  induction Hl as [|r l Hr _ IH]; intros ttl Ht; simpl; [split; auto using Z.le_refl|].
  assert (ttl_step ttl r = Z.min (rr_Ttl r) ttl) as Hs.
  { unfold ttl_step. destruct (_ || _)%bool eqn:E; bool_hyps; lia. }
  destruct (IH (ttl_step ttl r)) as (H1 & H2 & H3); [lia|]. rewrite Hs in *.
  split; [lia|]. split; [constructor; [lia|done]|].
  destruct H3 as [H3|(r' & Hin & H3)].
  - destruct (Z.le_ge_cases (rr_Ttl r) ttl); [right; exists r|left]; [split; [by left|lia]|lia].
  - right. exists r'. split; [by right|done].
Qed.

Lemma rr_Ttl_set ttl r : rr_Ttl (rr_set_Ttl ttl r) = ttl.
Proof. by destruct r. Qed.

Lemma rr_set_Ttl_idem t t' r : rr_set_Ttl t (rr_set_Ttl t' r) = rr_set_Ttl t r.
Proof. by destruct r. Qed.

Lemma OverwriteTTL_records m ttl :
  msg_records (OverwriteTTL m ttl) = List.map (rr_set_Ttl ttl) (msg_records m).
Proof.
  destruct m. unfold msg_records, msg_sections, OverwriteTTL, msg_with_sections. simpl.
  by rewrite !List.map_app.
Qed.

Lemma fold_ttl_const l ttl t :
  Forall (fun r => rr_Ttl r = t) l -> ttl = t \/ ttl = 0%Z -> l <> [] \/ ttl = t ->
  fold_left ttl_step l ttl = t.
Proof.
  intros Hl. revert ttl. induction Hl as [|r l Hr _ IH]; intros ttl Ht Hne; simpl.
  - by destruct Hne.
  - assert (ttl_step ttl r = t) as ->; [|apply IH; auto].
    unfold ttl_step. destruct Ht as [->| ->]; simpl; [|done]. by destruct (_ || _)%bool.
Qed.

Lemma DNSMessageToAddresses_flat `{SliceLib} m :
  DNSMessageToAddresses m = flat_map answer_addresses (m_Answer m).
Proof. unfold DNSMessageToAddresses. by rewrite fold_left_flat_map. Qed.

(** Selecting and converting in one walk. *)
Lemma flat_map_select {A B} (p : A -> bool) (f : A -> B) l :
  flat_map (fun a => if p a then [f a] else []) l = List.map f (List.filter p l).
Proof. induction l as [|x l IH]; simpl; [done|]. destruct (p x); simpl; by f_equal. Qed.

Lemma flat_map_nil {A B} (l : list A) : flat_map (fun _ => @nil B) l = [].
Proof. by induction l. Qed.

Lemma flat_map_flat_map {A B C} (f : A -> list B) (g : B -> list C) l :
  flat_map g (flat_map f l) = flat_map (fun a => flat_map g (f a)) l.
Proof. induction l as [|x l IH]; simpl; [done|]. by rewrite flat_map_app, IH. Qed.

Lemma flat_map_ext_in {A B} (f g : A -> list B) l :
  Forall (fun a => f a = g a) l -> flat_map f l = flat_map g l.
Proof. induction 1 as [|x l Hx _ IH]; simpl; [done|]. by rewrite Hx, IH. Qed.

(** The family a query type asks for. *)
Definition type_family (typ : Z) (a : Addr) : bool :=
  if Z.eqb typ TypeA then Addr_Is4 a else if Z.eqb typ TypeAAAA then Addr_Is6 a else false.

Lemma fixed_record_addresses `{SliceLib} question ttl a :
  addr_wf a ->
  flat_map answer_addresses (fixed_record question ttl a) =
  if type_family (q_Qtype question) a then [Addr_withoutZone a] else [].
Proof.
  intros Hwf. unfold fixed_record, type_family.
  destruct (Z.eqb_spec (q_Qtype question) TypeA) as [->|E].
  - rewrite andb_true_r, andb_false_r. destruct (Addr_Is4 a) eqn:E4; [|done].
    cbn [flat_map answer_addresses app]. unfold AddrFromIP. by rewrite FromSlice_AsSlice.
  - rewrite andb_false_r.
    destruct (Z.eqb (q_Qtype question) TypeAAAA); [|by rewrite andb_false_r].
    rewrite andb_true_r. destruct (Addr_Is6 a) eqn:E6; [|done].
    cbn [flat_map answer_addresses app]. unfold AddrFromIP. by rewrite FromSlice_AsSlice.
Qed.

Lemma fixed_record_header question ttl a rr :
  In rr (fixed_record question ttl a) ->
  rr_Header rr = MkHdr (q_Name question) (q_Qtype question) ClassINET ttl.
Proof.
  unfold fixed_record. destruct (Z.eqb_spec (q_Qtype question) TypeA) as [->|E].
  - rewrite andb_true_r, andb_false_r. destruct (Addr_Is4 a); [|done]. by intros [<-|[]].
  - rewrite andb_false_r. destruct (Z.eqb_spec (q_Qtype question) TypeAAAA) as [->|E'];
      [|by rewrite andb_false_r].
    rewrite andb_true_r. destruct (Addr_Is6 a); [|done]. by intros [<-|[]].
Qed.

(** ** Properties *)

(** The TTL of a message.  When no record has TTL zero it is the
    smallest one, and zero for a message without records; but a record with
    TTL zero makes the walk forget everything before it, so that a message
    whose last record has TTL zero, as an [OPT] record usually does, has TTL
    zero whatever its answers say. *)
Theorem CalculateTTL_spec m :
  Forall (fun r => 0 <= rr_Ttl r)%Z (msg_records m) ->
  (msg_records m = [] -> CalculateTTL m = 0%Z) /\
  (Forall (fun r => 0 < rr_Ttl r)%Z (msg_records m) ->
     Forall (fun r => CalculateTTL m <= rr_Ttl r)%Z (msg_records m) /\
     (msg_records m <> [] -> exists r, In r (msg_records m) /\ CalculateTTL m = rr_Ttl r)) /\
  (forall l1 r l2, msg_records m = l1 ++ r :: l2 -> rr_Ttl r = 0%Z ->
     CalculateTTL m = fold_left ttl_step l2 0%Z) /\
  (0 <= CalculateTTL m)%Z.
Proof.
  rewrite CalculateTTL_records. intros Hn. split; [by intros ->|]. split; [|split].
  - intros Hp. destruct (msg_records m) as [|r l]; [by split|].
    apply Forall_cons in Hp as [Hr Hl]. simpl. change (ttl_step 0 r) with (rr_Ttl r).
    destruct (fold_ttl_min l (rr_Ttl r) Hr Hl) as (H1 & H2 & H3).
    split; [by constructor|]. intros _.
    destruct H3 as [H3|(r' & ? & H3)]; [exists r|exists r']; auto using in_eq, in_cons.
  - intros l1 r l2 Hm Hr. rewrite Hm, fold_left_app. simpl.
    rewrite Hm in Hn. apply Forall_app in Hn as [Hn _].
    rewrite ttl_step_zero; [done| |done]. by apply fold_ttl_nonneg.
  - by apply fold_ttl_nonneg.
Qed.

(** An answer with TTL 300 and an [OPT] record with TTL field 0. *)
Lemma CalculateTTL_spec_witness :
  let answer := RR_A (MkHdr "a." TypeA ClassINET 300) [1; 2; 3; 4]%Z in
  let opt := RR_Other (MkHdr "." TypeOPT 1232 0) [] in
  let m extra := msg_with_sections [answer] [] extra msg_zero in
  CalculateTTL (m [opt]) = 0%Z /\ CalculateTTL (m []) = 300%Z /\ (0 <= CalculateTTL (m [opt]))%Z.
Proof.
  cbv zeta. split; [reflexivity|]. split; [reflexivity|].
  apply CalculateTTL_spec. repeat constructor; done.
Defined.

(** After [OverwriteTTL] every record has the new TTL and is otherwise
    the same, the rest of the message is untouched, the message's own TTL is
    the new one as soon as it has a record, and only the last call counts. *)
Theorem OverwriteTTL_spec m ttl ttl' :
  let m' := OverwriteTTL m ttl in
  Forall (fun r => rr_Ttl r = ttl) (msg_records m') /\
  List.map (rr_set_Ttl 0) (msg_records m') = List.map (rr_set_Ttl 0) (msg_records m) /\
  msg_with_sections (m_Answer m) (m_Ns m) (m_Extra m) m' = m /\
  (msg_records m <> [] -> CalculateTTL m' = ttl) /\
  OverwriteTTL m' ttl' = OverwriteTTL m ttl'.
Proof.
  cbv zeta. assert (Forall (fun r => rr_Ttl r = ttl) (msg_records (OverwriteTTL m ttl))) as Hf.
  { rewrite OverwriteTTL_records. apply List.Forall_forall. intros r Hr.
    apply in_map_iff in Hr as (r' & <- & _). apply rr_Ttl_set. }
  split; [done|]. split; [|split; [|split]].
  - rewrite OverwriteTTL_records, List.map_map. apply List.map_ext.
    intros r. apply rr_set_Ttl_idem.
  - by destruct m.
  - intros Hne. rewrite CalculateTTL_records. apply fold_ttl_const; [done|by right|].
    left. rewrite OverwriteTTL_records. by destruct (msg_records m).
  - destruct m. unfold OverwriteTTL, msg_with_sections. simpl.
    rewrite !List.map_map. f_equal; apply List.map_ext; intros; apply rr_set_Ttl_idem.
Qed.

(** An answer's TTL is overwritten. *)
Lemma OverwriteTTL_spec_witness :
  let m := msg_with_sections [RR_A (MkHdr "a." TypeA ClassINET 300) [1; 2; 3; 4]%Z] [] [] msg_zero in
  CalculateTTL (OverwriteTTL m 5) = 5%Z.
Proof. cbv zeta. apply (OverwriteTTL_spec _ 5 0). discriminate. Defined.

(** Downgrading a response.  A response without EDNS is left alone; one
    whose request had none loses every [OPT] record and nothing else; one
    that answers an older version gets a single new [OPT] record of version
    0 with the size of the request and its own DO bit; otherwise it is left
    alone. *)
Theorem EdnsBackwards_spec `{DnsLaws} `{SliceLaws} req resp :
  let r := EdnsBackwards req resp in
  let is_opt rr := Z.eqb (h_Rrtype (rr_Header rr)) TypeOPT in
  let rest := List.filter (fun rr => negb (is_opt rr)) (m_Extra resp) in
  match dns_IsEdns0 req, dns_IsEdns0 resp with
  | _, None => r = resp
  | None, Some _ => r = msg_with_Extra rest resp /\ dns_IsEdns0 r = None
  | Some q, Some p =>
      if Z.ltb (opt_Version q) (opt_Version p) then
        exists opt, r = msg_with_Extra (rest ++ [opt]) resp /\ is_opt opt = true /\
          opt_Version opt = 0%Z /\ opt_UDPSize opt = opt_UDPSize q /\ opt_Do opt = opt_Do p
      else r = resp
  end.
Proof.
  cbv zeta. unfold EdnsBackwards. destruct (dns_IsEdns0 resp) as [p|]; [|by destruct (dns_IsEdns0 req)].
  rewrite slice_Filter_spec. destruct (dns_IsEdns0 req) as [q|].
  - destruct (Z.ltb (opt_Version q) (opt_Version p)); [|done].
    destruct (SetEdns0_spec (opt_UDPSize q) (opt_Do p)
      (msg_with_Extra (List.filter (fun rr => negb (Z.eqb (h_Rrtype (rr_Header rr)) TypeOPT))
        (m_Extra resp)) resp)) as (opt & -> & Ht & ? & ? & ?).
    exists opt. split; [by destruct resp|]. split; [by apply Z.eqb_eq|done].
  - split; [done|]. destruct (dns_IsEdns0 _) as [r|] eqn:E; [|done].
    apply IsEdns0_some in E as [Hin Ht]. exfalso. destruct resp. simpl in Hin.
    apply filter_In in Hin as [_ Hn]. rewrite Ht in Hn. done.
Qed.

(** A response of EDNS version 1 to a request of version 0. *)
Lemma EdnsBackwards_spec_witness :
  let opt version := RR_Other (MkHdr "." TypeOPT 1232 (version * 65536)) [] in
  let m version := msg_with_Extra [opt version] msg_zero in
  dns_IsEdns0 (EdnsBackwards (m 0%Z) (m 1%Z)) = Some (opt 0%Z) /\
  exists o, EdnsBackwards (m 0%Z) (m 1%Z) = msg_with_Extra [o] (m 1%Z) /\ opt_Version o = 0%Z.
Proof.
  cbv zeta. split; [reflexivity|].
  destruct (EdnsBackwards_spec
    (msg_with_Extra [RR_Other (MkHdr "." TypeOPT 1232 (0 * 65536)) []] msg_zero)
    (msg_with_Extra [RR_Other (MkHdr "." TypeOPT 1232 (1 * 65536)) []] msg_zero))
    as (o & Ho & _ & Hv & _).
  exists o. split; [exact Ho|exact Hv].
Defined.

(** A fixed response read back gives exactly the addresses of the family
    that was asked for, in order and without their zones, each under the
    question's name and the given TTL; the response is marked as one,
    answers the question and carries the id. *)
Theorem FixedResponse_addresses `{SliceLaws} id question addresses ttl :
  Forall addr_wf addresses ->
  let r := FixedResponse id question addresses ttl in
  DNSMessageToAddresses r =
    List.map Addr_withoutZone (List.filter (type_family (q_Qtype question)) addresses) /\
  Forall (fun rr => rr_Header rr =
    MkHdr (q_Name question) (q_Qtype question) ClassINET ttl) (m_Answer r) /\
  m_Id r = id /\ m_Question r = [question] /\ m_Response r = true /\ m_Rcode r = RcodeSuccess.
Proof.
  intros Hwf. cbv zeta. rewrite DNSMessageToAddresses_flat.
  assert (m_Answer (FixedResponse id question addresses ttl) =
          flat_map (fixed_record question ttl) addresses) as ->.
  { unfold FixedResponse. simpl. by rewrite fold_left_flat_map. }
  split; [|split; [|done]].
  - rewrite flat_map_flat_map, <- flat_map_select. apply flat_map_ext_in.
    eapply List.Forall_impl; [|exact Hwf]. intros a. apply fixed_record_addresses.
  - apply List.Forall_forall. intros rr Hr. apply in_flat_map in Hr as (a & _ & Hr).
    by eapply fixed_record_header.
Qed.

Lemma FixedResponse_addresses_witness :
  DNSMessageToAddresses (FixedResponse 7 (MkQuestion "a." TypeAAAA ClassINET)
    [Addr4 5; Addr6 1 "eth0"; Addr6 2 ""] 600) = [Addr6 1 ""; Addr6 2 ""].
Proof.
  refine (proj1 (FixedResponse_addresses 7 (MkQuestion "a." TypeAAAA ClassINET)
    [Addr4 5; Addr6 1 "eth0"; Addr6 2 ""] 600 _)).
  repeat constructor; simpl; lia.
Defined.
