(* ===== verification/Cache.v ===== *)
(** * The DNS cache: [resolve/cache.go]

    [defaultCache] over an LRU table and a singleflight group, both of
    packages outside the repository, and the clock.  Times are nanoseconds
    since Go's zero time, durations are [int64] nanoseconds. *)

From S2P Require Import Prelude GoStd Netip Meta Dns Addrs Resolve.

(** ** Time *)

Definition Second : Z := 1000000000%Z.

(** [time.Time.Sub] saturates at the ends of [int64]. *)
Definition time_Sub (t u : Z) : Z := Z.max (- 2 ^ 63) (Z.min (2 ^ 63 - 1) (t - u)).
Definition time_IsZero (t : Z) : bool := Z.eqb t 0.
Definition time_Before (t u : Z) : bool := Z.ltb t u.

(** [time.Now()]: reading the clock of the environment. *)
Class Clock (E : Type) := time_Now : ST E Z.

(** ** The tables of other packages *)

Record CacheEntry := MkEntry { ce_Expire : Z; ce_Message : option Msg }.

(** [freelru.Cache[dns.Question, CacheEntry]]. *)
Class LruLib (L : Type) := {
  lru_NewSharded : Z -> L + err;
  lru_Get : Question -> L -> option CacheEntry * L;
  lru_Add : Question -> CacheEntry -> L -> L;
  lru_Remove : Question -> L -> L;
  lru_Len : L -> Z;
  lru_Purge : L -> L;
  (** the entries of the table *)
  lru_has : L -> Question -> CacheEntry -> Prop;
}.

(** A table may evict what it likes, but it only has what was added last
    under a key, an entry just added is found, and a removed one is not. *)
Class LruLaws (L : Type) `{LruLib L} : Prop := {
  lru_New_empty : forall n l, lru_NewSharded n = inl l -> forall q e, ~ lru_has l q e;
  lru_Get_has : forall q l e, (lru_Get q l).1 = Some e -> lru_has l q e;
  lru_Get_keeps : forall q l q' e, lru_has (lru_Get q l).2 q' e -> lru_has l q' e;
  lru_Add_has : forall q e l q' e',
    lru_has (lru_Add q e l) q' e' -> (q' = q /\ e' = e) \/ lru_has l q' e';
  lru_Add_Get : forall q e l, (lru_Get q (lru_Add q e l)).1 = Some e;
  lru_Remove_has : forall q l q' e, lru_has (lru_Remove q l) q' e -> q' <> q /\ lru_has l q' e;
  lru_Purge_empty : forall l q e, ~ lru_has (lru_Purge l) q e;
}.

(** [singleflight.Group.Do] and [hashQuestion] ([resolve/hash.go]): when a
    call under the same key is in flight, waiting for it gives its result. *)
Class Flight (E : Type) := {
  hashQuestion : Question -> Z;
  sf_inflight : Z -> ST E (option (gores (option Msg)));
}.

(** An invariant of the environment that the clock and the group keep. *)
Class EnvKeeps {E : Type} `{!Clock E} `{!Flight E} (J : E -> Prop) : Prop := {
  keeps_clock : forall e, J e -> J (time_Now e).2;
  keeps_flight : forall key e, J e -> J (sf_inflight key e).2;
}.

#[export] Instance env_keeps_true {E} `{!Clock E} `{!Flight E} :
  EnvKeeps (E := E) (fun _ => True) | 10.
Proof. by split. Qed.

(** ** The cache *)

Record defaultCache := MkCache { minTTL : Z; maxTTL : Z }.

(** What a call of [LoadOrStore] comes to: it returns, or it calls [Copy]
    on a nil message. *)
Inductive outcome :=
  | OReturn (r : gores (option Msg))
  | ONilCopy.

(** The table and the environment the constructor runs in. *)
Abbreviation cache_world L E := (L * E)%type.

Section cache.
Context {L E : Type} `{DnsLib} `{SliceLib} `{!LruLib L} `{!Clock E} `{!Flight E}.

Definition lift_env {A} (m : ST E A) : ST (cache_world L E) A :=
  fun '(l, e) => let '(a, e') := m e in (a, (l, e')).
Definition modify_lru (f : L -> L) : ST (cache_world L E) unit := fun '(l, e) => (tt, (f l, e)).
Definition cache_Now : ST (cache_world L E) Z := lift_env time_Now.

Definition overwriteTTL (c : defaultCache) (ttl : Z) : Z :=
  Z.min (maxTTL c) (Z.max (minTTL c) ttl).

Definition enableCache (message : Msg) : bool := (length (m_Question message) =? 1)%nat.

Definition Store (c : defaultCache) (message : Msg) : ST (cache_world L E) bool :=
  match m_Question message with
  | [question] =>
      let ttl := overwriteTTL c (CalculateTTL message) in
      if Z.leb ttl 1 then mret false
      else
        now ← cache_Now;
        _ ← modify_lru (lru_Add question (MkEntry (now + ttl) (Some message)));
        mret true
  | _ => mret false
  end.

(** [uint32(answer.Expire.Sub(beforeConstructor) / time.Second)] *)
Definition entry_ttl (answer : CacheEntry) (now : Z) : Z :=
  u32 (Z.quot (time_Sub (ce_Expire answer) now) Second).

(** The entry's message and remaining TTL, when the code takes it as
    cached. *)
Definition entry_cached (answer : CacheEntry) (now : Z) : option (Msg * Z) :=
  if (time_IsZero (ce_Expire answer) || time_Before (ce_Expire answer) now)%bool then None
  else
    m ← ce_Message answer;
    let ttl := entry_ttl answer now in
    if Z.eqb ttl 0 then None else Some (m, ttl).

(** The part of [LoadOrStore] that looks into the table. *)
Definition cache_lookup (question : Question) : ST (cache_world L E) (option (Msg * Z)) :=
  fun '(l, e) =>
    let '(answer, l) := lru_Get question l in
    match answer with
    | None => (None, (l, e))
    | Some answer =>
        let '(beforeConstructor, e) := time_Now e in
        match entry_cached answer beforeConstructor with
        | Some hit => (Some hit, (l, e))
        | None => (None, (lru_Remove question l, e))
        end
    end.

(** The response of a hit. *)
Definition hit_response (message : Msg) (hit : Msg * Z) : Msg :=
  EdnsBackwards message (OverwriteTTL (msg_with_Id (m_Id message) hit.1) hit.2).

(** The function [LoadOrStore] gives to the singleflight group. *)
Definition construct_and_store (c : defaultCache)
    (constructor : Msg -> ST E (gores (option Msg))) (message : Msg)
    : ST (cache_world L E) (gores (option Msg)) :=
  '(response, e) ← lift_env (constructor message);
  match e, response with
  | Some e, _ => mret (None, Some e)
  | None, None => mret (None, None)
  | None, Some response =>
      if negb (Z.eqb (m_Rcode response) RcodeSuccess) then mret (Some response, None)
      else _ ← Store c response; mret (Some response, None)
  end.

Definition sf_Do (key : Z) (f : ST (cache_world L E) (gores (option Msg)))
    : ST (cache_world L E) (gores (option Msg)) :=
  joined ← lift_env (sf_inflight key);
  match joined with Some r => mret r | None => f end.

Definition FormErr_response (message : Msg) : Msg :=
  MkMsg (m_Id message) true false false false false false RcodeFormatError false
    (m_Question message) [] [] [].

(** The nil [constructor] is [None]. *)
Definition LoadOrStore (c : defaultCache) (message : Msg)
    (constructor : option (Msg -> ST E (gores (option Msg)))) : ST (cache_world L E) outcome :=
  match m_Question message with
  | [] => mret (OReturn (Some (FormErr_response message), None))
  | question :: _ =>
      if negb (enableCache message) then
        match constructor with
        | Some constructor => r ← lift_env (constructor message); mret (OReturn r)
        | None => mret (OReturn (None, None))
        end
      else
        let messageId := m_Id message in
        hit ← cache_lookup question;
        match hit with
        | Some hit => mret (OReturn (Some (hit_response message hit), None))
        | None =>
            match constructor with
            | None => mret (OReturn (None, None))
            | Some constructor =>
                '(response, e) ← sf_Do (hashQuestion question)
                  (construct_and_store c constructor message);
                match e, response with
                | Some e, _ => mret (OReturn (None, Some e))
                | None, None => mret ONilCopy
                | None, Some response =>
                    mret (OReturn (Some (msg_with_Id messageId
                      (EdnsBackwards message response)), None))
                end
            end
        end
  end.

Definition Clear : ST (cache_world L E) Z := fun '(l, e) => (lru_Len l, (lru_Purge l, e)).

(** ** [NewCacheSize] and [NewCache] *)

Record CacheOptions := MkCacheOptions { co_Size : Z; co_MaxTTL : Z; co_MinTTL : Z }.

(** The cache with its table, an error, or the panic of [ex.Must0]. *)
Inductive new_cache :=
  | NCache (c : defaultCache) (l : L)
  | NError (e : err)
  | NPanic (e : err).

Definition NewCacheSize `{ExLib} (opt : CacheOptions) : new_cache :=
  if Z.leb (co_Size opt) 0 then NError (ex_New [XStr "negative cache size"])
  else
    let MaxTTL := if Z.ltb (co_MaxTTL opt) (co_MinTTL opt) then co_MinTTL opt
                  else co_MaxTTL opt in
    match lru_NewSharded (co_Size opt) with
    | inl l => NCache (MkCache (co_MinTTL opt) MaxTTL) l
    | inr e => NPanic e
    end.

Definition DefaultResolverCacheSize : Z := 1024%Z.

(** The maximum is [math.MaxUint32]. *)
Definition NewCache `{ExLib} : new_cache :=
  NewCacheSize (MkCacheOptions DefaultResolverCacheSize (2 ^ 32 - 1) 0).

End cache.

(** ** Lemmas *)

Section cache_lemmas.
Context {L E : Type} `{DnsLaws} `{SliceLaws} `{LruLaws L} `{!Clock E} `{!Flight E}.
Implicit Types (l : L) (e : E).

(** The EDNS downgrade only changes the additional records. *)
Lemma EdnsBackwards_extra req resp :
  exists extra, EdnsBackwards req resp = msg_with_Extra extra resp.
Proof.
  unfold EdnsBackwards.
  assert (exists extra, resp = msg_with_Extra extra resp) as Hsame
    by (exists (m_Extra resp); by destruct resp).
  destruct (dns_IsEdns0 resp) as [p|]; [|done].
  destruct (dns_IsEdns0 req) as [q|]; [|by eexists].
  destruct (Z.ltb (opt_Version q) (opt_Version p)); [|done].
  destruct (SetEdns0_spec (opt_UDPSize q) (opt_Do p)
    (msg_with_Extra (slice_Filter (m_Extra resp)
      (fun it => negb (Z.eqb (h_Rrtype (rr_Header it)) TypeOPT))) resp)) as (opt & -> & _).
  by eexists.
Qed.

Lemma hit_response_fields message hit :
  m_Id (hit_response message hit) = m_Id message /\
  m_Question (hit_response message hit) = m_Question hit.1 /\
  m_Answer (hit_response message hit) = List.map (rr_set_Ttl hit.2) (m_Answer hit.1).
Proof.
  unfold hit_response.
  destruct (EdnsBackwards_extra message (OverwriteTTL (msg_with_Id (m_Id message) hit.1) hit.2))
    as [extra ->].
  by destruct hit as [[] ttl].
Qed.

(** An entry counts as cached exactly when a full second of it is left. *)
Lemma entry_cached_spec answer now m ttl :
  (0 <= now)%Z -> (ce_Expire answer - now < 2 ^ 32 * Second)%Z ->
  entry_cached answer now = Some (m, ttl) <->
  ce_Message answer = Some m /\ (Second <= ce_Expire answer - now)%Z /\
  ttl = ((ce_Expire answer - now) / Second)%Z.
Proof.
  intros Hnow Hmax. unfold entry_cached, entry_ttl, time_IsZero, time_Before, time_Sub.
  destruct (Z.le_gt_cases now (ce_Expire answer)) as [Hle|Hgt].
  - assert (Z.ltb (ce_Expire answer) now = false) as -> by (by apply Z.ltb_ge).
    rewrite orb_false_r. unfold Second in *.
    rewrite Z.min_r, Z.max_r by lia. rewrite Z.quot_div_nonneg by lia.
    assert (0 <= (ce_Expire answer - now) / 1000000000 < 2 ^ 32)%Z as Hq.
    { split; [apply Z.div_pos; lia|apply Z.div_lt_upper_bound; lia]. }
    rewrite wrapu_small by done.
    destruct (Z.eqb_spec (ce_Expire answer) 0) as [E0|E0].
    { split; [done|]. intros (_ & Hs & _). lia. }
    destruct (ce_Message answer) as [m'|]; simpl; [|by split; [|intros (? & _)]].
    destruct (Z.eqb_spec ((ce_Expire answer - now) / 1000000000) 0) as [Ez|Ez].
    + split; [done|]. intros (_ & Hs & _).
      pose proof (Z.div_le_lower_bound (ce_Expire answer - now) 1000000000 1 ltac:(lia)). lia.
    + split; [|by intros ([= ->] & _ & ->)]. intros [= -> <-]. split; [done|]. split; [|done].
      destruct (Z.le_gt_cases 1000000000 (ce_Expire answer - now)); [done|].
      rewrite Z.div_small in Ez by lia. done.
  - assert (Z.ltb (ce_Expire answer) now = true) as -> by (by apply Z.ltb_lt).
    rewrite orb_true_r. split; [done|]. intros (_ & Hs & _). unfold Second in Hs. lia.
Qed.

Lemma entry_cached_message answer now m ttl :
  entry_cached answer now = Some (m, ttl) -> ce_Message answer = Some m.
Proof.
  unfold entry_cached. destruct (_ || _)%bool; [done|].
  destruct (ce_Message answer) as [m'|]; [|done]. simpl.
  destruct (Z.eqb _ 0); [done|]. by intros [= -> _].
Qed.

(** A lookup takes its answer from the table and adds nothing to it. *)
Lemma cache_lookup_sound question l e :
  let '(hit, (l', e')) := cache_lookup question (l, e) in
  (forall q x, lru_has l' q x -> lru_has l q x) /\
  forall m ttl, hit = Some (m, ttl) ->
    exists x, lru_has l question x /\ ce_Message x = Some m.
Proof.
  unfold cache_lookup. destruct (lru_Get question l) as [answer l1] eqn:Eg.
  assert (forall q x, lru_has l1 q x -> lru_has l q x) as Hk.
  { intros q x Hx. eapply (lru_Get_keeps question). by rewrite Eg. }
  destruct answer as [answer|]; [|done].
  assert (lru_has l question answer) as Ha by (apply lru_Get_has; by rewrite Eg).
  destruct (time_Now e) as [now e1]. destruct (entry_cached answer now) as [hit|] eqn:Ec.
  - split; [done|]. intros m ttl [= ->]. exists answer. split; [done|].
    by eapply entry_cached_message.
  - split; [|done]. intros q x Hx. apply lru_Remove_has in Hx as [_ Hx]. auto.
Qed.

Lemma Store_table c message l e q x :
  lru_has (Store c message (l, e)).2.1 q x ->
  lru_has l q x \/ (m_Question message = [q] /\ ce_Message x = Some message /\
                    (1 < overwriteTTL c (CalculateTTL message))%Z).
Proof.
  unfold Store. destruct (m_Question message) as [|question [|? ?]]; try by left.
  destruct (Z.leb_spec (overwriteTTL c (CalculateTTL message)) 1); [by left|].
  unfold mbind, ST_bind, mret, ST_ret, cache_Now, lift_env. destruct (time_Now e) as [now e'].
  simpl. intros [[-> ->]|Hx]%lru_Add_has; [|by left]. by right.
Qed.

(** What a miss runs, with the group's call in flight or not. *)
Lemma construct_table c constructor message l e q x :
  lru_has (construct_and_store c constructor message (l, e)).2.1 q x ->
  lru_has l q x \/
  exists response, (constructor message e).1 = (Some response, None) /\
    m_Rcode response = RcodeSuccess /\ m_Question response = [q] /\
    ce_Message x = Some response /\ (1 < overwriteTTL c (CalculateTTL response))%Z.
Proof.
  unfold construct_and_store, mbind, ST_bind, mret, ST_ret, lift_env.
  destruct (constructor message e) as [[[response|] [err|]] e']; try by left. simpl.
  destruct (Z.eqb_spec (m_Rcode response) RcodeSuccess) as [Hr|]; simpl; [|by left].
  destruct (Store c response (l, e')) as [b [l' e'']] eqn:Es. simpl. intros Hx.
  replace l' with (Store c response (l, e')).2.1 in Hx by (by rewrite Es).
  apply Store_table in Hx as [Hx|(? & ? & ?)]; [by left|right].
  exists response. done.
Qed.

Lemma sf_Do_run key (f : ST (cache_world L E) (gores (option Msg))) l e :
  sf_Do key f (l, e) =
  (let '(joined, e') := sf_inflight key e in
   match joined with Some r => (r, (l, e')) | None => f (l, e') end).
Proof.
  unfold sf_Do, mbind, ST_bind, mret, ST_ret, lift_env.
  by destruct (sf_inflight key e) as [[r|] e'].
Qed.

Lemma cache_lookup_env (J : E -> Prop) `{!EnvKeeps J} question l e :
  J e -> J (cache_lookup question (l, e)).2.2.
Proof.
  intros He. unfold cache_lookup. destruct (lru_Get question l) as [[answer|] l1]; [|done].
  apply keeps_clock in He. destruct (time_Now e) as [now e1]. simpl in He.
  by destruct (entry_cached answer now).
Qed.

Lemma Store_env (J : E -> Prop) `{!EnvKeeps J} c message l e :
  J e -> J (Store c message (l, e)).2.2.
Proof.
  intros He. unfold Store. destruct (m_Question message) as [|question [|? ?]]; try done.
  destruct (Z.leb _ 1); [done|]. apply keeps_clock in He.
  unfold mbind, ST_bind, mret, ST_ret, cache_Now, lift_env. by destruct (time_Now e).
Qed.

(** The environment after a call. *)
Lemma LoadOrStore_env (J : E -> Prop) `{!EnvKeeps J} c message constructor l e :
  (forall f, constructor = Some f -> forall e, J e -> J (f message e).2) ->
  J e -> J (LoadOrStore c message constructor (l, e)).2.2.
Proof.
  intros Hf He. unfold LoadOrStore. destruct (m_Question message) as [|question qs]; [done|].
  destruct (negb (enableCache message)).
  { destruct constructor as [f|]; [|done]. specialize (Hf f eq_refl e He).
    unfold mbind, ST_bind, mret, ST_ret, lift_env. by destruct (f message e). }
  rewrite ST_bind_run. pose proof (cache_lookup_env J question l e He) as H1e.
  destruct (cache_lookup question (l, e)) as [hit [l1 e1]]. cbn [fst snd] in *.
  destruct hit as [hit|]; [done|]. destruct constructor as [f|]; [|done].
  rewrite ST_bind_run, sf_Do_run. pose proof (keeps_flight (hashQuestion question) e1 H1e) as H2e.
  destruct (sf_inflight (hashQuestion question) e1) as [[r|] e2]; cbn [fst snd] in *.
  { by destruct r as [[resp|] [err|]]. }
  specialize (Hf f eq_refl e2 H2e). unfold construct_and_store. rewrite ST_bind_run. simpl.
  destruct (f message e2) as [[[resp|] [err|]] e3]; simpl in *; try done.
  destruct (negb (Z.eqb (m_Rcode resp) RcodeSuccess)); simpl; [done|].
  rewrite ST_bind_run. simpl. by apply Store_env.
Qed.

(** Everything the call leaves in the table was there before, or is the
    successful response that the constructor gave to this call, stored under
    its own question. *)
Lemma LoadOrStore_table (J : E -> Prop) `{!EnvKeeps J} c message constructor l e q x :
  J e ->
  lru_has (LoadOrStore c message constructor (l, e)).2.1 q x ->
  lru_has l q x \/
  exists f e' response, constructor = Some f /\ J e' /\ (f message e').1 = (Some response, None) /\
    m_Rcode response = RcodeSuccess /\ m_Question response = [q] /\
    ce_Message x = Some response /\ (1 < overwriteTTL c (CalculateTTL response))%Z.
Proof.
  intros He. unfold LoadOrStore. destruct (m_Question message) as [|question qs]; [by left|].
  destruct (negb (enableCache message)).
  { destruct constructor as [f|]; [|by left].
    unfold mbind, ST_bind, mret, ST_ret, lift_env. by destruct (f message e); left. }
  rewrite ST_bind_run. pose proof (cache_lookup_sound question l e) as Hl.
  pose proof (cache_lookup_env J question l e He) as H1e.
  destruct (cache_lookup question (l, e)) as [hit [l1 e1]]. destruct Hl as [Hk _]. simpl in *.
  destruct hit as [hit|]; simpl; [auto|]. destruct constructor as [f|]; simpl; [|auto].
  rewrite ST_bind_run, sf_Do_run. pose proof (keeps_flight (hashQuestion question) e1 H1e) as H2e.
  destruct (sf_inflight (hashQuestion question) e1) as [[r|] e2]; simpl in *.
  { destruct r as [[resp|] [err|]]; simpl; auto. }
  intros Hx. assert (lru_has (construct_and_store c f message (l1, e2)).2.1 q x) as Hc.
  { destruct (construct_and_store c f message (l1, e2)) as [[[resp|] [err|]] w]; done. }
  apply construct_table in Hc as [Hc|(resp & Hr)]; [by left; auto|right].
  exists f, e2, resp. done.
Qed.

(** The same answer: question, code, and records up to their TTLs. *)
Definition same_answer (r m : Msg) : Prop :=
  m_Question r = m_Question m /\ m_Rcode r = m_Rcode m /\
  (m_Answer r = m_Answer m \/ exists ttl, m_Answer r = List.map (rr_set_Ttl ttl) (m_Answer m)).

Lemma same_answer_addresses r m :
  same_answer r m -> DNSMessageToAddresses r = DNSMessageToAddresses m.
Proof.
  intros (_ & _ & [Ha|[ttl Ha]]); rewrite !DNSMessageToAddresses_flat, Ha; [done|].
  generalize (m_Answer m). intros l. induction l as [|rr l IH]; [done|].
  cbn [List.map flat_map]. rewrite IH. f_equal. by destruct rr.
Qed.

Lemma EdnsBackwards_same req resp : same_answer (EdnsBackwards req resp) resp.
Proof. destruct (EdnsBackwards_extra req resp) as [extra ->]. destruct resp. by split_and!; [| |left]. Qed.

Lemma hit_response_same message hit : same_answer (hit_response message hit) hit.1.
Proof.
  unfold hit_response.
  destruct (EdnsBackwards_extra message (OverwriteTTL (msg_with_Id (m_Id message) hit.1) hit.2))
    as [extra ->]. destruct hit as [[] ttl]. split_and!; try done. right. by exists ttl.
Qed.

(** Where the message of an answer to [question] is from: an entry of the
    table, a call in flight that was joined, or the constructor. *)
Definition answer_source (J : E -> Prop) l (question : Question) (f : ST E (gores (option Msg)))
    (m : Msg) : Prop :=
  (exists x, lru_has l question x /\ ce_Message x = Some m) \/
  (exists e', J e' /\ (sf_inflight (hashQuestion question) e').1 = Some (Some m, None)) \/
  (exists e', J e' /\ (f e').1 = (Some m, None)).

(** The answers of [LoadOrStore], whatever the table and the constructor. *)
Lemma LoadOrStore_source (J : E -> Prop) `{!EnvKeeps J} c message question
    (f : Msg -> ST E (gores (option Msg))) l e :
  J e -> m_Question message = [question] ->
  match (LoadOrStore c message (Some f) (l, e)).1 with
  | OReturn (Some response, err) =>
      err = None /\ m_Id response = m_Id message /\
      exists m, same_answer response m /\ answer_source J l question (f message) m
  | OReturn (None, err) => is_Some err
  | ONilCopy => exists e', J e' /\
      ((f message e').1 = (None, None) \/
       (sf_inflight (hashQuestion question) e').1 = Some (None, None))
  end.
Proof.
  intros He Hq. unfold LoadOrStore, answer_source. rewrite Hq.
  assert (enableCache message = true) as -> by (unfold enableCache; by rewrite Hq).
  cbn [negb]. rewrite ST_bind_run. pose proof (cache_lookup_sound question l e) as Hs.
  pose proof (cache_lookup_env J question l e He) as H1e.
  destruct (cache_lookup question (l, e)) as [hit [l1 e1]]. destruct Hs as [_ Hhit].
  destruct hit as [[m ttl]|]; cbn [fst snd] in *.
  { destruct (Hhit m ttl eq_refl) as (x & Hx & Hm). cbn [mret ST_ret fst]. split; [done|].
    split; [apply hit_response_fields|]. exists m. split; [apply (hit_response_same _ (m, ttl))|].
    left. by exists x. }
  rewrite ST_bind_run, sf_Do_run. pose proof (keeps_flight (hashQuestion question) e1 H1e) as H2e.
  assert (forall resp : Msg, let r := msg_with_Id (m_Id message) (EdnsBackwards message resp) in
    m_Id r = m_Id message /\ same_answer r resp) as Hsame.
  { intros resp. destruct (EdnsBackwards_extra message resp) as [extra ->]. destruct resp.
    split; [done|]. by split_and!; [| |left]. }
  destruct (sf_inflight (hashQuestion question) e1) as [[r|] e2] eqn:Ej; simpl in *.
  - destruct r as [[resp|] [err|]]; simpl; try by eexists.
    + destruct (Hsame resp) as [Hid Hs]. split; [done|]. split; [done|]. exists resp.
      split; [done|]. right. left. exists e1. by rewrite Ej.
    + exists e1. split; [done|]. right. by rewrite Ej.
  - unfold construct_and_store. rewrite ST_bind_run. simpl.
    destruct (f message e2) as [[[resp|] [err|]] e3] eqn:Ef; simpl; try by eexists.
    + destruct (Hsame resp) as [Hid Hs].
      destruct (negb (Z.eqb (m_Rcode resp) RcodeSuccess)); simpl; rewrite ?ST_bind_run; simpl;
        (split; [done|]); (split; [done|]); exists resp; (split; [done|]);
        right; right; exists e2; by rewrite Ef.
    + exists e2. split; [done|]. left. by rewrite Ef.
Qed.

End cache_lemmas.

(** ** Properties *)

Section cache_properties.
Context {L E : Type} `{DnsLaws} `{SliceLaws} `{LruLaws L} `{!Clock E} `{!Flight E}.
Implicit Types (l : L) (e : E).

(** Every entry has a message, about the question it is stored under, of a
    TTL above one. *)
Definition coherent (c : defaultCache) (l : L) : Prop :=
  forall q x, lru_has l q x ->
    exists m, ce_Message x = Some m /\ m_Question m = [q] /\
      (1 < overwriteTTL c (CalculateTTL m))%Z.

(** C19: how long a stored response is served.  The table keeps it for its
    TTL in nanoseconds: a lookup of its question at a later time finds it
    exactly while a full second of those is left, so a TTL below 10^9 is
    never served, whatever the clock, and no answer is served for more than
    four seconds or with a TTL above four. *)
Theorem Store_lifetime c message question l e e' :
  m_Question message = [question] ->
  let ttl := overwriteTTL c (CalculateTTL message) in
  let t0 := (time_Now e).1 in
  let t1 := (time_Now e').1 in
  let stored := Store c message (l, e) in
  let found := (cache_lookup question (stored.2.1, e')).1 in
  (1 < ttl < 2 ^ 32)%Z -> (0 < t0 <= t1)%Z ->
  stored.1 = true /\
  (found = if Z.leb Second (t0 + ttl - t1) then Some (message, ((t0 + ttl - t1) / Second)%Z)
           else None) /\
  ((ttl < Second)%Z -> found = None) /\
  (forall m left, found = Some (m, left) -> (1 <= left <= 4)%Z /\ (t1 - t0 < 4 * Second)%Z).
Proof.
  intros Hq ttl t0 t1 stored found Httl Htime.
  assert (stored = (true, (lru_Add question (MkEntry (t0 + ttl) (Some message)) l,
                           (time_Now e).2))) as Hs.
  { unfold stored, Store. rewrite Hq. fold ttl.
    destruct (Z.leb_spec ttl 1); [lia|].
    unfold mbind, ST_bind, mret, ST_ret, cache_Now, lift_env, t0.
    by destruct (time_Now e). }
  assert (found = if Z.leb Second (t0 + ttl - t1)
                  then Some (message, ((t0 + ttl - t1) / Second)%Z) else None) as Hf.
  { unfold found. rewrite Hs. unfold cache_lookup. simpl.
    pose proof (lru_Add_Get question (MkEntry (t0 + ttl) (Some message)) l) as Hg.
    destruct (lru_Get question _) as [a l1]. simpl in Hg. subst a.
    pose proof (fun ttl' => entry_cached_spec (MkEntry (t0 + ttl) (Some message)) t1 message ttl')
      as Hc.
    destruct (time_Now e') as [now e1] eqn:En. unfold t1 in *. simpl in *.
    destruct (entry_cached (MkEntry (t0 + ttl) (Some message)) now) as [[m left]|] eqn:Ec.
    - simpl. assert (m = message) as -> by (apply entry_cached_message in Ec; by injection Ec).
      destruct (Hc left) as [(_ & Hle & ->) _]; [lia|unfold Second; lia|done|].
      by apply Z.leb_le in Hle as ->.
    - simpl. destruct (Z.leb_spec Second (t0 + ttl - now)) as [Hle|]; [|done].
      assert (None = Some (message, ((t0 + ttl - now) / Second)%Z)) as [=].
      apply Hc; [lia|unfold Second; lia|done]. }
  rewrite Hf. split; [by rewrite Hs|]. split; [done|]. clear Hs Hf found stored. split.
  - intros Hlt. destruct (Z.leb_spec Second (t0 + ttl - t1)); [lia|done].
  - intros m left. destruct (Z.leb_spec Second (t0 + ttl - t1)) as [Hle|]; [|done].
    intros [= <- <-]. unfold Second in *. split; [|lia].
    split; [apply Z.div_le_lower_bound; lia|].
    enough ((t0 + ttl - t1) / 1000000000 < 5)%Z by lia. apply Z.div_lt_upper_bound; lia.
Qed.

(** A coherent table stays coherent: whatever [LoadOrStore], [Store] and
    [Clear] do, every entry is about the question it is stored under; only
    the successful responses of the constructor enter it through
    [LoadOrStore], and [Clear] leaves it empty. *)
Theorem LoadOrStore_coherent c message constructor l e :
  coherent c l ->
  coherent c (LoadOrStore c message constructor (l, e)).2.1 /\
  coherent c (Store c message (l, e)).2.1 /\
  (forall q x, ~ lru_has (Clear (l, e)).2.1 q x) /\
  (forall q x, lru_has (LoadOrStore c message constructor (l, e)).2.1 q x -> ~ lru_has l q x ->
     exists f e' response, constructor = Some f /\ (f message e').1 = (Some response, None) /\
       ce_Message x = Some response /\ m_Rcode response = RcodeSuccess).
Proof.
  intros Hl. split; [|split; [|split]].
  - intros q x Hx. apply (LoadOrStore_table (fun _ => True) _ _ _ _ _ _ _ I) in Hx as [|(f & e' & r & _ & _ & _ & _ & ? & ? & ?)];
      [auto|by exists r].
  - intros q x Hx. apply Store_table in Hx as [|(? & ? & ?)]; [auto|by exists message].
  - intros q x. simpl. apply lru_Purge_empty.
  - intros q x Hx Hn. apply (LoadOrStore_table (fun _ => True) _ _ _ _ _ _ _ I) in Hx as [|(f & e' & r & ? & _ & ? & ? & ? & ? & ?)];
      [done|by exists f, e', r].
Qed.

(** What [LoadOrStore] answers to a request with one question.  Any
    response carries the id of the request and has the question, the code
    and, up to their TTLs, the answers of a message stored under the
    question, of a call in flight that was joined, or of the constructor;
    from a coherent table the first of these is about the question; errors
    of the constructor are passed on, and a missing response without an
    error is copied from nil. *)
Theorem LoadOrStore_answers c message question
    (f : Msg -> ST E (gores (option Msg))) l e :
  m_Question message = [question] -> coherent c l ->
  match (LoadOrStore c message (Some f) (l, e)).1 with
  | OReturn (Some response, err) =>
      err = None /\ m_Id response = m_Id message /\
      exists m, same_answer response m /\
        ((exists x, lru_has l question x /\ ce_Message x = Some m /\ m_Question m = [question]) \/
         (exists e', (sf_inflight (hashQuestion question) e').1 = Some (Some m, None)) \/
         (exists e', (f message e').1 = (Some m, None)))
  | OReturn (None, err) => is_Some err
  | ONilCopy => exists e',
      (f message e').1 = (None, None) \/
      (sf_inflight (hashQuestion question) e').1 = Some (None, None)
  end.
Proof.
  intros Hq Hl. pose proof (LoadOrStore_source (fun _ => True) c message question f l e I Hq) as Hr.
  destruct (LoadOrStore c message (Some f) (l, e)) as [[[[response|] err]|] w]; try done.
  2: { destruct Hr as (e' & _ & Hr). by exists e'. }
  destruct Hr as (He & Hid & m & Hs & Hm). split; [done|]. split; [done|]. exists m. split; [done|].
  destruct Hm as [(x & Hx & Hm)|[(e' & _ & Hm)|(e' & _ & Hm)]];
    [left|right; left; by exists e'|right; right; by exists e']. exists x. split; [done|]. split; [done|].
  destruct (Hl _ _ Hx) as (m' & Hm' & Hqm & _). congruence.
Qed.

(** The bounds of a new cache are in order: the lower one is the
    configured one and the upper one at least as large, so that every TTL is
    brought between them and left alone when it is there already; the
    default cache leaves every 32-bit TTL alone, and a size of zero is
    refused. *)
Theorem NewCacheSize_spec `{ExLib} opt :
  match NewCacheSize (L := L) opt with
  | NCache c l =>
      (0 < co_Size opt)%Z /\ minTTL c = co_MinTTL opt /\ (minTTL c <= maxTTL c)%Z /\
      coherent c l /\
      forall ttl, (minTTL c <= overwriteTTL c ttl <= maxTTL c)%Z /\
        ((minTTL c <= ttl <= maxTTL c)%Z -> overwriteTTL c ttl = ttl)
  | NError e => (co_Size opt <= 0)%Z
  | NPanic e => (0 < co_Size opt)%Z /\ lru_NewSharded (L := L) (co_Size opt) = inr e
  end /\
  (forall c l ttl, NewCache (L := L) = NCache c l -> (0 <= ttl < 2 ^ 32)%Z ->
     overwriteTTL c ttl = ttl).
Proof.
  split.
  - unfold NewCacheSize. destruct (Z.leb_spec (co_Size opt) 0); [done|].
    destruct (lru_NewSharded (co_Size opt)) as [l|e] eqn:En; [|done]. simpl.
    unfold overwriteTTL. simpl. split; [done|]. split; [done|].
    destruct (Z.ltb_spec (co_MaxTTL opt) (co_MinTTL opt)); split; try lia; split; try (intros; lia);
      intros q x Hx; by apply (lru_New_empty _ _ En) in Hx.
  - intros c l ttl Hn Ht. unfold NewCache, NewCacheSize in Hn. simpl in Hn.
    destruct (lru_NewSharded DefaultResolverCacheSize); [|done]. simplify_eq. unfold overwriteTTL. simpl. lia.
Qed.

End cache_properties.

(** ** An unbounded table and a clock, for the witnesses *)

Module CacheExample.

Abbreviation table := (gmap Question CacheEntry).

#[global] Instance lru_map : LruLib table | 100 := {
  lru_NewSharded _ := inl ∅;
  lru_Get q l := (l !! q, l);
  lru_Add q x l := <[q := x]> l;
  lru_Remove q l := delete q l;
  lru_Len l := Z.of_nat (size l);
  lru_Purge _ := ∅;
  lru_has l q x := l !! q = Some x;
}.

#[global] Instance lru_map_laws : LruLaws table | 100.
Proof.
  split; simpl.
  - intros n l [= <-] q x. rewrite (lookup_empty (M := gmap Question)). done.
  - done.
  - done.
  - intros q x l q' x'. destruct (decide (q' = q)) as [->|Hn].
    + rewrite (lookup_insert_eq (M := gmap Question)). intros [= ->]. by left.
    + rewrite (lookup_insert_ne (M := gmap Question)) by done. by right.
  - intros q x l. by rewrite (lookup_insert_eq (M := gmap Question)).
  - intros q l q' x. destruct (decide (q' = q)) as [->|Hn].
    + by rewrite (lookup_delete_eq (M := gmap Question)).
    + by rewrite (lookup_delete_ne (M := gmap Question)) by done.
  - intros l q x. rewrite (lookup_empty (M := gmap Question)). done.
Qed.

(** The environment is the time; at odd times another call is in flight,
    which got the answer to a question with the same hash. *)
#[global] Instance clock : Clock Z | 100 := fun t => (t, t).

Definition question : Question := MkQuestion "a." TypeA ClassINET.
Definition other : Question := MkQuestion "b." TypeA ClassINET.

Definition answer (q : Question) (ttl : Z) : Msg :=
  FixedResponse 1 q [Addr4 5] ttl.

#[global] Instance flight : Flight Z | 100 := {
  hashQuestion _ := 0%Z;
  sf_inflight _ t := (if Z.odd t then Some (Some (answer other 60), None) else None, t);
}.

Definition request : Msg := msg_with_Id 9 (answer question 0).

Definition constructor (m : Msg) : ST Z (gores (option Msg)) :=
  fun t => ((Some (answer question 60), None), t).

Definition cache : defaultCache := MkCache 0 (2 ^ 32 - 1).

Lemma coherent_empty : coherent cache (∅ : table).
Proof. intros q x. simpl. rewrite (lookup_empty (M := gmap Question)). done. Qed.

End CacheExample.

(** A response with TTL 600 is not found any more when looked up at once;
    one with a TTL of 3000000000 is. *)
Lemma Store_lifetime_witness :
  let look ttl := (cache_lookup CacheExample.question
    ((Store CacheExample.cache (CacheExample.answer CacheExample.question ttl)
        (∅ : CacheExample.table, 10%Z)).2.1, 10%Z)).1 in
  look 600%Z = None /\
  look 3000000000%Z = Some (CacheExample.answer CacheExample.question 3000000000, 3%Z).
Proof.
  split; [|reflexivity].
  refine (proj1 (proj2 (proj2 (Store_lifetime CacheExample.cache
    (CacheExample.answer CacheExample.question 600) CacheExample.question
    (∅ : CacheExample.table) 10%Z 10%Z _ _ _))) _);
    [reflexivity|vm_compute; auto|vm_compute; split; [done|discriminate]|reflexivity].
Defined.

Lemma LoadOrStore_coherent_witness :
  coherent CacheExample.cache
    (LoadOrStore CacheExample.cache CacheExample.request (Some CacheExample.constructor)
       (∅ : CacheExample.table, 10%Z)).2.1.
Proof. apply LoadOrStore_coherent, CacheExample.coherent_empty. Defined.

(** At an odd time the request for "a." is answered with "b.". *)
Lemma LoadOrStore_answers_witness :
  match (LoadOrStore CacheExample.cache CacheExample.request (Some CacheExample.constructor)
           (∅ : CacheExample.table, 11%Z)).1 with
  | OReturn (Some response, _) =>
      m_Id response = 9%Z /\ m_Question response = [CacheExample.other]
  | _ => False
  end /\
  match (LoadOrStore CacheExample.cache CacheExample.request (Some CacheExample.constructor)
           (∅ : CacheExample.table, 10%Z)).1 with
  | OReturn (Some response, err) => err = None /\ m_Id response = 9%Z /\
      exists m, same_answer response m /\
        ((exists x, lru_has (∅ : CacheExample.table) CacheExample.question x /\
            ce_Message x = Some m /\ m_Question m = [CacheExample.question]) \/
         (exists t, (sf_inflight (hashQuestion CacheExample.question) t).1 = Some (Some m, None)) \/
         (exists t, (CacheExample.constructor CacheExample.request t).1 = (Some m, None)))
  | OReturn (None, err) => is_Some err
  | ONilCopy => exists t,
      (CacheExample.constructor CacheExample.request t).1 = (None, None) \/
      (sf_inflight (hashQuestion CacheExample.question) t).1 = Some (None, None)
  end.
Proof.
  split; [vm_compute; auto|].
  apply (LoadOrStore_answers CacheExample.cache CacheExample.request CacheExample.question
    CacheExample.constructor).
  - reflexivity.
  - apply CacheExample.coherent_empty.
Defined.

Lemma NewCacheSize_spec_witness :
  NewCache (L := CacheExample.table) = NCache (MkCache 0 (2 ^ 32 - 1)) ∅ /\
  overwriteTTL (MkCache 0 (2 ^ 32 - 1)) 600 = 600%Z.
Proof.
  split; [reflexivity|].
  refine (proj2 (NewCacheSize_spec (L := CacheExample.table) (MkCacheOptions 1 0 0))
    _ ∅ 600%Z _ _); [reflexivity|vm_compute; split; [discriminate|done]].
Defined.
