(* ===== verification/CacheRun.v ===== *)
(** * The cache, shared

    [LoadOrStore], [Store] and [Clear] of [resolve/cache.go] as calls that run
    at the same time on one [defaultCache].  Each operation on the LRU table,
    each look at the clock and each call of the constructor is a step of its
    own, so that other calls come in between; the times and what the
    constructors return are part of the events.  The singleflight group is
    outside the repository: a flight is a call of its function, a call of
    [Do] joins a flight of its key that is under way, and starts one when
    there is none. *)

From S2P Require Import Prelude GoStd Netip Meta Dns Addrs Resolve Cache.

(** [singleflight.Group.Do], over the flights so far: their keys and whether
    they are under way; and [hashQuestion] ([resolve/hash.go]). *)
Class FlightGroup := {
  fg_hash : Question -> Z;
  fg_join : list (Z * bool) -> Z -> option nat;
}.

(** Documented behaviour: for a key at most one function runs at a time, and
    a call that comes while it does waits for its result. *)
Class FlightGroupLaws `{FlightGroup} : Prop := {
  fg_join_some : forall fs key i, fg_join fs key = Some i -> fs !! i = Some (key, true);
  fg_join_none : forall fs key, fg_join fs key = None -> (key, true) ∉ fs;
}.

(** ** State *)

(** A call of the group's function: its key, the call of [LoadOrStore] that
    runs it, and its result once it has returned. *)
Record flight := MkFlight {
  fl_key : Z;
  fl_leader : nat;
  fl_result : option (gores (option Msg));
}.

(** Where a call is.  In [LoadOrStore]: before [lru.Get], before [time.Now]
    with an entry, before [lru.Remove], before [sf.Do], waiting for a flight,
    in the constructor (of a flight, or called directly).  In [Store], for a
    flight or called directly: before [time.Now], before [lru.Add].  At the
    end of the function of its flight; and at its own end. *)
Inductive cache_pc :=
  | KGet
  | KNow (answer : CacheEntry)
  | KRemove
  | KDo
  | KWait (f : nat)
  | KConstruct (f : nat)
  | KDirect
  | KStore (f : option nat) (m : Msg)
  | KAdd (f : option nat) (m : Msg) (now : Z)
  | KEnd (f : nat) (r : gores (option Msg))
  | KDone (o : outcome)
  | KStored (b : bool).

(** A call; [cc_constructor] tells whether it has a constructor. *)
Record cache_call := MkCC { cc_message : Msg; cc_constructor : bool; cc_pc : cache_pc }.

Section cache_run.
Context {L : Type} `{DnsLib} `{SliceLib} `{!LruLib L} `{FlightGroup}.

Record cache_run_state := MkKR {
  kr_lru : L;
  kr_flights : list flight;
  kr_calls : list cache_call;
}.

Definition set_kpc (k : nat) (pc : cache_pc) (s : cache_run_state) : cache_run_state :=
  MkKR (kr_lru s) (kr_flights s)
    (alter (fun c => MkCC (cc_message c) (cc_constructor c) pc) k (kr_calls s)).

Definition with_lru (l : L) (s : cache_run_state) : cache_run_state :=
  MkKR l (kr_flights s) (kr_calls s).

(** The flights as the group sees them. *)
Definition group (s : cache_run_state) : list (Z * bool) :=
  (fun f => (fl_key f, match fl_result f with None => true | Some _ => false end)) <$> kr_flights s.

(** ** The pieces of a call *)

(** The start of [LoadOrStore]. *)
Definition load_pc (message : Msg) (constructor : bool) : cache_pc :=
  match m_Question message with
  | [] => KDone (OReturn (Some (FormErr_response message), None))
  | _ =>
      if negb (enableCache message)
      then if constructor then KDirect else KDone (OReturn (None, None))
      else KGet
  end.

(** What comes after a miss. *)
Definition miss_pc (constructor : bool) : cache_pc :=
  if constructor then KDo else KDone (OReturn (None, None)).

(** What [Store] has come to. *)
Definition stored_pc (f : option nat) (m : Msg) (b : bool) : cache_pc :=
  match f with Some f => KEnd f (Some m, None) | None => KStored b end.

(** The start of [Store]. *)
Definition store_pc (c : defaultCache) (f : option nat) (m : Msg) : cache_pc :=
  match m_Question m with
  | [_] => if Z.leb (overwriteTTL c (CalculateTTL m)) 1 then stored_pc f m false else KStore f m
  | _ => stored_pc f m false
  end.

(** After the constructor, in the function of flight [f]. *)
Definition constructed_pc (c : defaultCache) (f : nat) (r : gores (option Msg)) : cache_pc :=
  match r with
  | (_, Some e) => KEnd f (None, Some e)
  | (None, None) => KEnd f (None, None)
  | (Some response, None) =>
      if negb (Z.eqb (m_Rcode response) RcodeSuccess) then KEnd f (Some response, None)
      else store_pc c (Some f) response
  end.

(** After [sf.Do]. *)
Definition after_flight (message : Msg) (r : gores (option Msg)) : outcome :=
  match r with
  | (_, Some e) => OReturn (None, Some e)
  | (None, None) => ONilCopy
  | (Some response, None) =>
      OReturn (Some (msg_with_Id (m_Id message) (EdnsBackwards message response)), None)
  end.

(** ** The steps *)

Inductive cache_event :=
  | CvLoad (message : Msg) (constructor : bool)
  | CvStore (message : Msg)
  | CvClear
  | CvStep (k : nat)
  | CvTime (k : nat) (now : Z)
  | CvResult (k : nat) (r : gores (option Msg)).

Definition load_step (c : defaultCache) (k : nat) (cl : cache_call) (question : Question)
    (s : cache_run_state) : option cache_run_state :=
  match cc_pc cl with
  | KGet =>
      let '(answer, l) := lru_Get question (kr_lru s) in
      Some (set_kpc k (match answer with
                       | Some answer => KNow answer
                       | None => miss_pc (cc_constructor cl)
                       end) (with_lru l s))
  | KRemove =>
      Some (set_kpc k (miss_pc (cc_constructor cl)) (with_lru (lru_Remove question (kr_lru s)) s))
  | KDo =>
      let key := fg_hash question in
      match fg_join (group s) key with
      | Some f => Some (set_kpc k (KWait f) s)
      | None =>
          let f := length (kr_flights s) in
          Some (set_kpc k (KConstruct f)
            (MkKR (kr_lru s) (kr_flights s ++ [MkFlight key k None]) (kr_calls s)))
      end
  | KWait f =>
      fl ← kr_flights s !! f;
      r ← fl_result fl;
      Some (set_kpc k (KDone (after_flight (cc_message cl) r)) s)
  | KEnd f r =>
      Some (set_kpc k (KDone (after_flight (cc_message cl) r))
        (MkKR (kr_lru s) (alter (fun fl => MkFlight (fl_key fl) (fl_leader fl) (Some r)) f (kr_flights s))
           (kr_calls s)))
  | _ => None
  end.

Definition add_step (c : defaultCache) (k : nat) (f : option nat) (m : Msg) (now : Z)
    (s : cache_run_state) : option cache_run_state :=
  match m_Question m with
  | [question] =>
      let entry := MkEntry (now + overwriteTTL c (CalculateTTL m)) (Some m) in
      Some (set_kpc k (stored_pc f m true) (with_lru (lru_Add question entry (kr_lru s)) s))
  | _ => None
  end.

Definition cache_step (c : defaultCache) (ev : cache_event) (s : cache_run_state)
    : option cache_run_state :=
  match ev with
  | CvLoad message constructor =>
      Some (MkKR (kr_lru s) (kr_flights s)
              (kr_calls s ++ [MkCC message constructor (load_pc message constructor)]))
  | CvStore message =>
      Some (MkKR (kr_lru s) (kr_flights s) (kr_calls s ++ [MkCC message false (store_pc c None message)]))
  | CvClear => Some (with_lru (lru_Purge (kr_lru s)) s)
  | CvStep k =>
      cl ← kr_calls s !! k;
      match cc_pc cl with
      | KAdd f m now => add_step c k f m now s
      | _ => question ← head (m_Question (cc_message cl)); load_step c k cl question s
      end
  | CvTime k now =>
      cl ← kr_calls s !! k;
      match cc_pc cl with
      | KNow answer =>
          Some (set_kpc k match entry_cached answer now with
                          | Some hit => KDone (OReturn (Some (hit_response (cc_message cl) hit), None))
                          | None => KRemove
                          end s)
      | KStore f m => Some (set_kpc k (KAdd f m now) s)
      | _ => None
      end
  | CvResult k r =>
      cl ← kr_calls s !! k;
      match cc_pc cl with
      | KConstruct f => Some (set_kpc k (constructed_pc c f r) s)
      | KDirect => Some (set_kpc k (KDone (OReturn r)) s)
      | _ => None
      end
  end.

Definition cache_start (l : L) : cache_run_state := MkKR l [] [].

(** The states after a list of events, from an empty table. *)
Inductive cache_run (c : defaultCache) : list cache_event -> cache_run_state -> Prop :=
  | cache_run_nil n l : lru_NewSharded n = inl l -> cache_run c [] (cache_start l)
  | cache_run_snoc evs s ev s' :
      cache_run c evs s -> cache_step c ev s = Some s' -> cache_run c (evs ++ [ev]) s'.

End cache_run.

(** ** Lemmas *)

Section lemmas.
Context {L : Type} `{DnsLaws} `{SliceLaws} `{LruLaws L} `{FlightGroupLaws}.
Context (c : defaultCache).
Implicit Types (s : cache_run_state (L := L)) (evs : list cache_event).

(** *** What the calls know *)

(** [m] was given to [Store]: by its caller, or by a flight whose constructor
    returned it with success. *)
Definition stored_from evs (m : Msg) : Prop :=
  In (CvStore m) evs \/ (exists k, In (CvResult k (Some m, None)) evs /\ m_Rcode m = RcodeSuccess).

(** An entry for [q]: a message about it that was stored, kept for its TTL
    from a time that was looked at. *)
Definition entry_ok evs (q : Question) (x : CacheEntry) : Prop :=
  exists m k t, ce_Message x = Some m /\ ce_Expire x = (t + overwriteTTL c (CalculateTTL m))%Z /\
    m_Question m = [q] /\ (1 < overwriteTTL c (CalculateTTL m))%Z /\
    stored_from evs m /\ In (CvTime k t) evs.

(** What a flight makes of the result of the constructor. *)
Definition clean (r : gores (option Msg)) : gores (option Msg) :=
  match r with (_, Some e) => (None, Some e) | _ => r end.

(** [r] is the result of a constructor that ran for a question of this hash. *)
Definition flight_gave evs s (key : Z) (r : gores (option Msg)) : Prop :=
  exists k cl q r', kr_calls s !! k = Some cl /\ m_Question (cc_message cl) = [q] /\
    fg_hash q = key /\ cc_constructor cl = true /\ In (CvResult k r') evs /\ r = clean r'.

(** What [LoadOrStore] may have answered. *)
Definition answer_ok evs s (k : nat) (cl : cache_call) (o : outcome) : Prop :=
  match m_Question (cc_message cl) with
  | [] => o = OReturn (Some (FormErr_response (cc_message cl)), None)
  | [q] =>
      match o with
      | OReturn (Some r, err) => err = None /\ m_Id r = m_Id (cc_message cl) /\
          exists m, same_answer r m /\
            ((m_Question m = [q] /\ stored_from evs m) \/ flight_gave evs s (fg_hash q) (Some m, None))
      | OReturn (None, Some e) => flight_gave evs s (fg_hash q) (None, Some e)
      | OReturn (None, None) => cc_constructor cl = false
      | ONilCopy => flight_gave evs s (fg_hash q) (None, None)
      end
  | _ => (cc_constructor cl = false /\ o = OReturn (None, None)) \/
      exists r, In (CvResult k r) evs /\ o = OReturn r
  end.

(** Call [k] runs flight [f], for its question. *)
Definition leads s (k : nat) (cl : cache_call) (f : nat) : Prop :=
  exists q, m_Question (cc_message cl) = [q] /\ cc_constructor cl = true /\
    kr_flights s !! f = Some (MkFlight (fg_hash q) k None).

Definition storing evs s (k : nat) (cl : cache_call) (f : option nat) (m : Msg) : Prop :=
  (exists q, m_Question m = [q]) /\ (1 < overwriteTTL c (CalculateTTL m))%Z /\ stored_from evs m /\
  forall f', f = Some f' -> leads s k cl f' /\ In (CvResult k (Some m, None)) evs.

Definition kpc_ok evs s (k : nat) (cl : cache_call) (pc : cache_pc) : Prop :=
  match pc with
  | KGet | KRemove => exists q, m_Question (cc_message cl) = [q]
  | KNow x => exists q, m_Question (cc_message cl) = [q] /\ entry_ok evs q x
  | KDo => cc_constructor cl = true /\ exists q, m_Question (cc_message cl) = [q]
  | KWait f => exists q fl, m_Question (cc_message cl) = [q] /\ kr_flights s !! f = Some fl /\
      fl_key fl = fg_hash q
  | KConstruct f => leads s k cl f
  | KDirect => 2 <= length (m_Question (cc_message cl))
  | KStore f m => storing evs s k cl f m
  | KAdd f m now => storing evs s k cl f m /\ In (CvTime k now) evs
  | KEnd f r => leads s k cl f /\ exists r', In (CvResult k r') evs /\ r = clean r'
  | KDone o => answer_ok evs s k cl o
  | KStored _ => True
  end.

(** The flight a call runs, by where it is. *)
Definition leading (pc : cache_pc) : option nat :=
  match pc with
  | KConstruct f | KStore (Some f) _ | KAdd (Some f) _ _ | KEnd f _ => Some f
  | _ => None
  end.

Definition flight_ok evs s (f : nat) (fl : flight) : Prop :=
  match fl_result fl with
  | None => exists cl, kr_calls s !! fl_leader fl = Some cl /\ leading (cc_pc cl) = Some f
  | Some r => flight_gave evs s (fl_key fl) r
  end.

Record kr_ok evs s : Prop := {
  ko_table : forall q x, lru_has (kr_lru s) q x -> entry_ok evs q x;
  ko_calls : forall k cl, kr_calls s !! k = Some cl -> kpc_ok evs s k cl (cc_pc cl);
  ko_flights : forall f fl, kr_flights s !! f = Some fl -> flight_ok evs s f fl;
  ko_once : forall f f' fl fl', kr_flights s !! f = Some fl -> kr_flights s !! f' = Some fl' ->
    fl_result fl = None -> fl_result fl' = None -> fl_key fl = fl_key fl' -> f = f';
}.

(** *** What stays *)

Lemma set_kpc_lookup k pc s j :
  kr_calls (set_kpc k pc s) !! j =
  (if decide (j = k) then fun cl => MkCC (cc_message cl) (cc_constructor cl) pc else id) <$> kr_calls s !! j.
Proof.
  simpl. destruct (decide (j = k)) as [->|Hne].
  - by rewrite list_lookup_alter_eq.
  - rewrite list_lookup_alter_ne by done. by destruct (kr_calls s !! j).
Qed.

Lemma stored_from_snoc evs ev m : stored_from evs m -> stored_from (evs ++ [ev]) m.
Proof.
  intros [?|(k & ? & ?)]; [left|right; exists k; split; [|done]]; apply in_app_iff; auto.
Qed.

Lemma entry_ok_snoc evs ev q x : entry_ok evs q x -> entry_ok (evs ++ [ev]) q x.
Proof.
  intros (m & k & t & ? & ? & ? & ? & Hs & Ht). exists m, k, t. split_and!; try done.
  - by apply stored_from_snoc.
  - apply in_app_iff. auto.
Qed.

(** The calls of a state are in the next one, further on. *)
Definition calls_le s s' : Prop := forall k cl, kr_calls s !! k = Some cl ->
  exists cl', kr_calls s' !! k = Some cl' /\ cc_message cl' = cc_message cl /\
    cc_constructor cl' = cc_constructor cl.

Lemma flight_gave_le evs ev s s' key r :
  calls_le s s' -> flight_gave evs s key r -> flight_gave (evs ++ [ev]) s' key r.
Proof.
  intros Hle (k & cl & q & r' & Hk & Hq & Hh & Hc & Hin & ->).
  destruct (Hle _ _ Hk) as (cl' & Hk' & Hm & Hc'). exists k, cl', q, r'. rewrite Hm, Hc'.
  split_and!; try done. apply in_app_iff. auto.
Qed.

Lemma answer_ok_le evs ev s s' k cl o :
  calls_le s s' -> answer_ok evs s k cl o -> answer_ok (evs ++ [ev]) s' k cl o.
Proof.
  intros Hle. unfold answer_ok. destruct (m_Question (cc_message cl)) as [|q [|q' qs]]; [done| |].
  - destruct o as [[[r|] [e|]]|]; try done; try (by apply flight_gave_le).
    all: intros (? & ? & m & Hs & Hm); split; [done|]; split; [done|]; exists m; split; [done|].
    all: destruct Hm as [[? ?]|Hm]; [left; split; [done|by apply stored_from_snoc]|right].
    all: by eapply flight_gave_le.
  - intros [?|(r & Hin & ->)]; [by left|right]. exists r. split; [|done]. apply in_app_iff. auto.
Qed.

(** The flights of a state are in the next one; those that call [k] does not
    run are the same. *)
Definition flights_le (k : nat) s s' : Prop := forall f fl, kr_flights s !! f = Some fl ->
  exists fl', kr_flights s' !! f = Some fl' /\ fl_key fl' = fl_key fl /\
    (fl_leader fl <> k -> fl' = fl).

Lemma leads_le s s' k k' cl f : flights_le k s s' -> k' <> k -> leads s k' cl f -> leads s' k' cl f.
Proof.
  intros Hle Hne (q & Hq & Hc & Hf). exists q. split_and!; try done.
  destruct (Hle _ _ Hf) as (fl' & Hf' & _ & Hsame). rewrite Hf'. f_equal. by apply Hsame.
Qed.

Lemma kpc_ok_le evs ev s s' k k' cl pc :
  calls_le s s' -> flights_le k s s' -> k' <> k -> kpc_ok evs s k' cl pc -> kpc_ok (evs ++ [ev]) s' k' cl pc.
Proof.
  intros Hcalls Hfl Hne. pose proof (fun f => leads_le _ _ _ _ cl f Hfl Hne) as Hlead.
  assert (forall x, In x evs -> In x (evs ++ [ev])) as Hin by (intros x Hx; apply in_app_iff; auto).
  assert (forall f m, storing evs s k' cl f m -> storing (evs ++ [ev]) s' k' cl f m) as Hst.
  { intros f m (Hq & Ht & Hs & Hf). split_and!; try done; [by apply stored_from_snoc|].
    intros f' Hf'. destruct (Hf f' Hf'). auto. }
  destruct pc as [|x| | |f|f| |f m|f m now|f r|o|b]; simpl; try done.
  - intros (q & Hq & Hx). exists q. split; [done|]. by apply entry_ok_snoc.
  - intros (q & fl & Hq & Hf & Hk). destruct (Hfl _ _ Hf) as (fl' & Hf' & Hk' & _).
    exists q, fl'. by rewrite Hk'.
  - apply Hlead.
  - apply Hst.
  - intros [? ?]. auto.
  - intros [? (r' & ? & ?)]. split; [auto|]. exists r'. auto.
  - by apply answer_ok_le.
Qed.

(** *** The steps *)

Lemma calls_le_kpc s k pc l fls : calls_le s (set_kpc k pc (MkKR l fls (kr_calls s))).
Proof.
  intros j cl Hj. rewrite set_kpc_lookup. cbn [kr_calls]. rewrite Hj. eexists. split; [done|].
  by destruct (decide (j = k)).
Qed.

Lemma flights_le_refl k s s' : kr_flights s' = kr_flights s -> flights_le k s s'.
Proof. intros Hs f fl Hf. exists fl. by rewrite Hs. Qed.

(** A step of call [k]: what is left to show. *)
Lemma kr_ok_step evs ev s k cl pc l fls :
  let s' := set_kpc k pc (MkKR l fls (kr_calls s)) in
  kr_ok evs s -> kr_calls s !! k = Some cl ->
  (forall q x, lru_has l q x -> entry_ok (evs ++ [ev]) q x) ->
  flights_le k s s' -> kpc_ok (evs ++ [ev]) s' k cl pc ->
  (forall f fl, fls !! f = Some fl -> flight_ok (evs ++ [ev]) s' f fl) ->
  (forall f f' fl fl', fls !! f = Some fl -> fls !! f' = Some fl' ->
    fl_result fl = None -> fl_result fl' = None -> fl_key fl = fl_key fl' -> f = f') ->
  kr_ok (evs ++ [ev]) s'.
Proof.
  intros s' Hok Hk Htable Hfl Hpc Hflights Honce. split; try done.
  intros j cl'. unfold s'. rewrite set_kpc_lookup. cbn [kr_calls].
  destruct (kr_calls s !! j) as [cl0|] eqn:Ej; intros [= <-]. fold s'.
  destruct (decide (j = k)) as [->|Hne].
  - rewrite Hk in Ej. injection Ej as <-. exact Hpc.
  - eapply kpc_ok_le; [apply calls_le_kpc|exact Hfl|exact Hne|]. by apply (ko_calls _ _ Hok).
Qed.

(** The flights that call [k] does not stop running. *)
Lemma flight_ok_keeps evs ev s k cl pc l fls f fl :
  kr_ok evs s -> kr_calls s !! k = Some cl -> kr_flights s !! f = Some fl ->
  (leading (cc_pc cl) = Some f -> leading pc = Some f) ->
  flight_ok (evs ++ [ev]) (set_kpc k pc (MkKR l fls (kr_calls s))) f fl.
Proof.
  intros Hok Hk Hf Hpc. pose proof (ko_flights _ _ Hok _ _ Hf) as Hfl. unfold flight_ok in *.
  destruct (fl_result fl); [eapply flight_gave_le; [apply calls_le_kpc|done]|].
  destruct Hfl as (cl' & Hl & Hlead). rewrite set_kpc_lookup. cbn [kr_calls]. rewrite Hl.
  eexists. split; [done|]. destruct (decide (fl_leader fl = k)) as [Hlk|]; [|done].
  rewrite Hlk, Hk in Hl. injection Hl as <-. by apply Hpc.
Qed.

(** A step that leaves the flights alone. *)
Lemma kr_ok_same evs ev s k cl pc l :
  let s' := set_kpc k pc (MkKR l (kr_flights s) (kr_calls s)) in
  kr_ok evs s -> kr_calls s !! k = Some cl -> leading pc = leading (cc_pc cl) ->
  (forall q x, lru_has l q x -> entry_ok (evs ++ [ev]) q x) ->
  kpc_ok (evs ++ [ev]) s' k cl pc -> kr_ok (evs ++ [ev]) s'.
Proof.
  intros s' Hok Hk Hlead Htable Hpc. eapply kr_ok_step; try done.
  - by apply flights_le_refl.
  - intros f fl Hf. eapply flight_ok_keeps; [done..|]. by rewrite Hlead.
  - apply (ko_once _ _ Hok).
Qed.

Lemma table_snoc evs ev s : kr_ok evs s ->
  forall q x, lru_has (kr_lru s) q x -> entry_ok (evs ++ [ev]) q x.
Proof. intros Hok q x Hx. by apply entry_ok_snoc, (ko_table _ _ Hok). Qed.

(** And the table. *)
Lemma kr_ok_quiet evs ev s k cl pc :
  kr_ok evs s -> kr_calls s !! k = Some cl -> leading pc = leading (cc_pc cl) ->
  kpc_ok (evs ++ [ev]) (set_kpc k pc s) k cl pc -> kr_ok (evs ++ [ev]) (set_kpc k pc s).
Proof.
  intros Hok Hk Hlead Hpc. apply (kr_ok_same _ _ s k cl pc (kr_lru s)); try done. by apply table_snoc.
Qed.

Lemma miss_pc_ok evs s k cl q b :
  m_Question (cc_message cl) = [q] -> cc_constructor cl = b -> kpc_ok evs s k cl (miss_pc b).
Proof.
  intros Hq Hb. destruct b; simpl; [split; [done|by exists q]|]. unfold answer_ok. by rewrite Hq.
Qed.

Lemma stored_pc_ok evs s k cl f m b :
  storing evs s k cl f m -> kpc_ok evs s k cl (stored_pc f m b).
Proof.
  intros (_ & _ & _ & Hf). destruct f as [f|]; simpl; [|done]. destruct (Hf f eq_refl) as [Hl Hin].
  split; [done|]. by exists (Some m, None).
Qed.

Lemma stored_pc_leading f m b : leading (stored_pc f m b) = f.
Proof. by destruct f. Qed.

Lemma store_pc_leading f m : leading (store_pc c f m) = f.
Proof.
  unfold store_pc. destruct (m_Question m) as [|? [|? ?]]; rewrite ?stored_pc_leading; try done.
  destruct (Z.leb _ _); [apply stored_pc_leading|by destruct f].
Qed.

Lemma store_pc_ok evs s k cl f m :
  stored_from evs m -> (forall f', f = Some f' -> leads s k cl f' /\ In (CvResult k (Some m, None)) evs) ->
  kpc_ok evs s k cl (store_pc c f m).
Proof.
  intros Hs Hf. assert (forall b, kpc_ok evs s k cl (stored_pc f m b)) as Hstored.
  { intros b. destruct f as [f|]; simpl; [|done]. destruct (Hf f eq_refl) as [Hl Hin].
    split; [done|]. by exists (Some m, None). }
  unfold store_pc. destruct (m_Question m) as [|q [|? ?]] eqn:Hq; [apply Hstored| |apply Hstored].
  destruct (Z.leb_spec (overwriteTTL c (CalculateTTL m)) 1); [apply Hstored|].
  split_and!; [by exists q|done..].
Qed.

Lemma constructed_pc_leading f r : leading (constructed_pc c f r) = Some f.
Proof.
  destruct r as [[m|] [e|]]; try done. simpl. destruct (negb _); [done|]. apply store_pc_leading.
Qed.

Lemma constructed_pc_ok evs s k cl f r :
  leads s k cl f -> In (CvResult k r) evs -> kpc_ok evs s k cl (constructed_pc c f r).
Proof.
  intros Hl Hin. destruct r as [[m|] [e|]]; simpl; try (split; [done|]; by eexists).
  destruct (Z.eqb_spec (m_Rcode m) RcodeSuccess) as [Hr|]; simpl; [|split; [done|]; by eexists].
  apply store_pc_ok; [right; by exists k|]. by intros f' [= <-].
Qed.

(** The result of a flight, for a call that asked for its key. *)
Lemma after_flight_ok evs s k cl q r :
  m_Question (cc_message cl) = [q] -> flight_gave evs s (fg_hash q) r ->
  answer_ok evs s k cl (after_flight (cc_message cl) r).
Proof.
  intros Hq Hf. pose proof Hf as (_ & _ & _ & r' & _ & _ & _ & _ & _ & Hr). unfold answer_ok. rewrite Hq.
  destruct r as [[m|] [e|]]; simpl; try done.
  - by destruct r' as [[?|] [?|]].
  - destruct (EdnsBackwards_extra (cc_message cl) m) as [extra He]. rewrite He.
    split; [done|]. split; [by destruct m|]. exists m. split; [|by right].
    destruct m. by split_and!; [| |left].
Qed.

Lemma get_step_ok evs s k cl q :
  kr_ok evs s -> kr_calls s !! k = Some cl -> cc_pc cl = KGet -> m_Question (cc_message cl) = [q] ->
  forall s', load_step c k cl q s = Some s' -> kr_ok (evs ++ [CvStep k]) s'.
Proof.
  intros Hok Hk Hpc Hq s'. unfold load_step. rewrite Hpc.
  destruct (lru_Get q (kr_lru s)) as [answer l] eqn:Eg. intros [= <-].
  assert (forall q' x, lru_has l q' x -> entry_ok (evs ++ [CvStep k]) q' x) as Htable.
  { intros q' x Hx. apply (table_snoc _ _ s Hok). eapply (lru_Get_keeps q). by rewrite Eg. }
  apply (kr_ok_same _ _ s k cl); [done|done| |done|].
  - rewrite Hpc. destruct answer; [done|]. by destruct (cc_constructor cl).
  - destruct answer as [x|]; [|by eapply miss_pc_ok]. exists q. split; [done|].
    apply (table_snoc _ _ s Hok), lru_Get_has. by rewrite Eg.
Qed.

Lemma do_step_ok evs s k cl q :
  kr_ok evs s -> kr_calls s !! k = Some cl -> cc_pc cl = KDo -> m_Question (cc_message cl) = [q] ->
  forall s', load_step c k cl q s = Some s' -> kr_ok (evs ++ [CvStep k]) s'.
Proof.
  intros Hok Hk Hpc Hq s'. pose proof (ko_calls _ _ Hok _ _ Hk) as Hkpc. rewrite Hpc in Hkpc.
  destruct Hkpc as [Hc _]. unfold load_step. rewrite Hpc.
  destruct (fg_join (group s) (fg_hash q)) as [f|] eqn:Ej; intros [= <-].
  { apply fg_join_some in Ej. unfold group in Ej. apply list_lookup_fmap_Some in Ej as (fl & He & Hf).
    apply (kr_ok_quiet _ _ _ _ cl); [done|done|by rewrite Hpc|]. exists q, fl. by injection He as ->. }
  apply fg_join_none in Ej.
  assert (forall f fl, kr_flights s !! f = Some fl -> fl_result fl = None -> fl_key fl <> fg_hash q) as Hfree.
  { intros f fl Hf Hr Hkey. apply Ej, list_elem_of_fmap. exists fl. rewrite Hr, Hkey.
    split; [done|]. by eapply list_elem_of_lookup_2. }
  set (fls := kr_flights s ++ _).
  assert (forall f fl, fls !! f = Some fl -> kr_flights s !! f = Some fl \/
    (f = length (kr_flights s) /\ fl = MkFlight (fg_hash q) k None)) as Hfls.
  { intros f fl [Hf|[Hle Hf]]%lookup_app_Some; [by left|right].
    pose proof (lookup_lt_Some _ _ _ Hf) as Hlt. simpl in Hlt.
    assert (f - length (kr_flights s) = 0) as Hz by lia. rewrite Hz in Hf.
    injection Hf as <-. split; [lia|done]. }
  eapply kr_ok_step; [exact Hok|exact Hk|by apply table_snoc| | | |].
  - intros f fl Hf. exists fl. split; [by apply lookup_app_l_Some|done].
  - exists q. split_and!; [done..|]. cbn [kr_flights set_kpc]. by apply list_lookup_middle.
  - intros f fl [Hf|[-> ->]]%Hfls.
    + eapply flight_ok_keeps; [done..|]. by rewrite Hpc.
    + unfold flight_ok. cbn [fl_result fl_leader]. rewrite set_kpc_lookup. cbn [kr_calls].
      rewrite Hk, decide_True by done. by eexists.
  - intros f f' fl fl' [Hf|[-> ->]]%Hfls [Hf'|[-> ->]]%Hfls; simpl; [by eapply ko_once|..|done].
    + intros Hr _ Hkey. by destruct (Hfree _ _ Hf Hr).
    + intros _ Hr Hkey. by destruct (Hfree _ _ Hf' Hr).
Qed.

Lemma end_step_ok evs s k cl q f r :
  kr_ok evs s -> kr_calls s !! k = Some cl -> cc_pc cl = KEnd f r -> m_Question (cc_message cl) = [q] ->
  forall s', load_step c k cl q s = Some s' -> kr_ok (evs ++ [CvStep k]) s'.
Proof.
  intros Hok Hk Hpc Hq s'. pose proof (ko_calls _ _ Hok _ _ Hk) as Hkpc. rewrite Hpc in Hkpc.
  destruct Hkpc as [(q' & Hq' & Hc & Hf) (r' & Hin & Hr)]. rewrite Hq in Hq'. injection Hq' as <-.
  unfold load_step. rewrite Hpc. intros [= <-]. set (fls := alter _ _ _).
  assert (forall g fl, fls !! g = Some fl -> (g <> f /\ kr_flights s !! g = Some fl) \/
    (g = f /\ fl = MkFlight (fg_hash q) k (Some r))) as Hfls.
  { intros g fl. unfold fls. destruct (decide (g = f)) as [->|].
    - rewrite list_lookup_alter_eq, Hf. intros [= <-]. auto.
    - rewrite list_lookup_alter_ne by done. auto. }
  assert (forall o, flight_gave (evs ++ [CvStep k]) (set_kpc k (KDone o) (MkKR (kr_lru s) fls (kr_calls s)))
    (fg_hash q) r) as Hgave.
  { intros o. apply (flight_gave_le _ _ s); [apply calls_le_kpc|]. by exists k, cl, q, r'. }
  eapply kr_ok_step; [exact Hok|exact Hk|by apply table_snoc| | | |].
  - intros g fl Hg. unfold set_kpc. cbn [kr_flights]. unfold fls. destruct (decide (g = f)) as [->|].
    + rewrite list_lookup_alter_eq, Hf. rewrite Hf in Hg. injection Hg as <-. by eexists.
    + rewrite list_lookup_alter_ne by done. by exists fl.
  - by eapply after_flight_ok.
  - intros g fl [[Hne Hg]|[-> ->]]%Hfls; [|apply Hgave].
    eapply flight_ok_keeps; [done..|]. rewrite Hpc. intros Hlead. by injection Hlead.
  - intros g g' fl fl' [[_ Hg]|[-> ->]]%Hfls [[_ Hg']|[-> ->]]%Hfls; simpl; try done.
    by eapply ko_once.
Qed.

Lemma load_step_ok evs s k cl q s' :
  kr_ok evs s -> kr_calls s !! k = Some cl -> head (m_Question (cc_message cl)) = Some q ->
  load_step c k cl q s = Some s' -> kr_ok (evs ++ [CvStep k]) s'.
Proof.
  intros Hok Hk Hhead Hs. pose proof (ko_calls _ _ Hok _ _ Hk) as Hkpc.
  assert (forall q', m_Question (cc_message cl) = [q'] -> m_Question (cc_message cl) = [q]) as Hone.
  { intros q' Hq. rewrite Hq in *. by injection Hhead as ->. }
  pose proof Hs as Hs'. unfold load_step in Hs'.
  destruct (cc_pc cl) as [|x| | |f|f| |f m|f m now|f r|o|b] eqn:Epc; try done.
  - destruct Hkpc as [q' Hq%Hone]. by eapply get_step_ok.
  - destruct Hkpc as [q' Hq%Hone]. injection Hs' as <-. apply (kr_ok_same _ _ s k cl); [done|done| | |].
    + rewrite Epc. by destruct (cc_constructor cl).
    + intros q1 x [_ Hx]%lru_Remove_has. by apply (table_snoc _ _ s Hok).
    + by eapply miss_pc_ok.
  - destruct Hkpc as [_ [q' Hq%Hone]]. by eapply do_step_ok.
  - destruct Hkpc as (q' & fl & Hq' & Hf & Hkey). pose proof (Hone _ Hq') as Hq.
    assert (q' = q) as -> by congruence. rewrite Hf in Hs'. simpl in Hs'.
    destruct (fl_result fl) as [r|] eqn:Er; [|done]. injection Hs' as <-.
    pose proof (ko_flights _ _ Hok _ _ Hf) as Hfl. unfold flight_ok in Hfl. rewrite Er in Hfl.
    apply (kr_ok_quiet _ _ _ _ cl); [done|done|by rewrite Epc|].
    eapply after_flight_ok; [exact Hq|].
    apply (flight_gave_le _ _ s); [apply calls_le_kpc|]. by rewrite <- Hkey.
  - destruct Hkpc as [(q' & Hq%Hone & _) _]. by eapply end_step_ok.
Qed.

Lemma add_step_ok evs s k cl f m now s' :
  kr_ok evs s -> kr_calls s !! k = Some cl -> cc_pc cl = KAdd f m now ->
  add_step c k f m now s = Some s' -> kr_ok (evs ++ [CvStep k]) s'.
Proof.
  intros Hok Hk Epc. pose proof (ko_calls _ _ Hok _ _ Hk) as Hkpc. rewrite Epc in Hkpc.
  destruct Hkpc as [([q Hq] & Ht & Hs & Hf) Hnow]. unfold add_step. rewrite Hq. intros [= <-].
  assert (forall x, In x evs -> In x (evs ++ [CvStep k])) as Hin by (intros x Hx; apply in_app_iff; auto).
  apply (kr_ok_same _ _ s k cl); [done|done| | |].
  - rewrite Epc. rewrite stored_pc_leading. by destruct f.
  - intros q1 x [[-> ->]|Hx]%lru_Add_has; [|by apply (table_snoc _ _ s Hok)].
    exists m, k, now. split_and!; try done; [by apply stored_from_snoc|auto].
  - apply stored_pc_ok. split; [by exists q|]. split; [done|]. split; [by apply stored_from_snoc|].
    intros f' Hf'. destruct (Hf f' Hf') as [Hl Hm]. split; [|auto]. exact Hl.
Qed.

Lemma time_step_ok evs s k cl now s' :
  kr_ok evs s -> kr_calls s !! k = Some cl -> cache_step c (CvTime k now) s = Some s' ->
  kr_ok (evs ++ [CvTime k now]) s'.
Proof.
  intros Hok Hk. pose proof (ko_calls _ _ Hok _ _ Hk) as Hkpc. cbn [cache_step]. rewrite Hk.
  cbn [mbind option_bind]. destruct (cc_pc cl) as [|x| | |f|f| |f m|f m t|f r|o|b] eqn:Epc; try done.
  - destruct Hkpc as (q & Hq & m & j & t & Hm & He & Hqm & Ht & Hs & Hin). intros [= <-].
    apply (kr_ok_quiet _ _ _ _ cl); [done|done|rewrite Epc; by destruct (entry_cached x now)|].
    destruct (entry_cached x now) as [[m' ttl]|] eqn:Ec; [|by exists q].
    pose proof (entry_cached_message _ _ _ _ Ec) as Hm'. rewrite Hm in Hm'. injection Hm' as <-.
    simpl. unfold answer_ok. rewrite Hq. split; [done|]. split; [apply hit_response_fields|].
    exists m. split; [apply (hit_response_same _ (m, ttl))|]. left. split; [done|].
    by apply stored_from_snoc.
  - intros [= <-]. apply (kr_ok_quiet _ _ _ _ cl); [done|done|rewrite Epc; by destruct f|].
    destruct Hkpc as (Hq & Ht & Hs & Hf). split; [|apply in_app_iff; simpl; auto].
    split; [done|]. split; [done|]. split; [by apply stored_from_snoc|].
    intros f' Hf'. destruct (Hf f' Hf') as [Hl Hm]. split; [exact Hl|]. apply in_app_iff. auto.
Qed.

Lemma result_step_ok evs s k cl r s' :
  kr_ok evs s -> kr_calls s !! k = Some cl -> cache_step c (CvResult k r) s = Some s' ->
  kr_ok (evs ++ [CvResult k r]) s'.
Proof.
  intros Hok Hk. pose proof (ko_calls _ _ Hok _ _ Hk) as Hkpc. cbn [cache_step]. rewrite Hk.
  cbn [mbind option_bind]. assert (In (CvResult k r) (evs ++ [CvResult k r])) as Hin
    by (apply in_app_iff; simpl; auto).
  destruct (cc_pc cl) as [|x| | |f|f| |f m|f m t|f r0|o|b] eqn:Epc; try done; intros [= <-].
  - apply (kr_ok_quiet _ _ _ _ cl); [done|done|by rewrite Epc, constructed_pc_leading|].
    by apply constructed_pc_ok.
  - apply (kr_ok_quiet _ _ _ _ cl); [done|done|by rewrite Epc|].
    simpl. unfold answer_ok. simpl in Hkpc.
    destruct (m_Question (cc_message cl)) as [|? [|? ?]]; simpl in Hkpc; [lia|lia|]. right. by exists r.
Qed.

(** A step of a call is one of [LoadOrStore], or adds to the table. *)
Lemma step_cases s k cl s' :
  match cc_pc cl with
  | KAdd f m now => add_step c k f m now s
  | _ => question ← head (m_Question (cc_message cl)); load_step c k cl question s
  end = Some s' ->
  (exists f m now, cc_pc cl = KAdd f m now /\ add_step c k f m now s = Some s') \/
  exists q, head (m_Question (cc_message cl)) = Some q /\ load_step c k cl q s = Some s'.
Proof.
  destruct (cc_pc cl) as [|x| | |f|f| |f m|f m now|f r|o|b]; [..|by left; exists f, m, now| | |]; 
    (destruct (head _) as [q|]; [|done]; by right; exists q).
Qed.

(** A new call. *)
Lemma kr_ok_call evs ev s cl :
  kr_ok evs s -> leading (cc_pc cl) = None ->
  let s' := MkKR (kr_lru s) (kr_flights s) (kr_calls s ++ [cl]) in
  kpc_ok (evs ++ [ev]) s' (length (kr_calls s)) cl (cc_pc cl) -> kr_ok (evs ++ [ev]) s'.
Proof.
  intros Hok Hlead s' Hpc.
  assert (calls_le s s') as Hle.
  { intros k cl0 Hk. exists cl0. split; [by apply lookup_app_l_Some|done]. }
  split.
  - by apply (table_snoc _ _ s).
  - intros k cl0 [Hk|[Hge Hk]]%lookup_app_Some.
    + apply (kpc_ok_le _ _ s _ (length (kr_calls s))); [done|by apply flights_le_refl| |by apply (ko_calls _ _ Hok)].
      apply lookup_lt_Some in Hk. lia.
    + pose proof (lookup_lt_Some _ _ _ Hk) as Hlt. simpl in Hlt.
      assert (k = length (kr_calls s)) as -> by lia. rewrite Nat.sub_diag in Hk. by injection Hk as <-.
  - intros f fl Hf. pose proof (ko_flights _ _ Hok _ _ Hf) as Hfl. unfold flight_ok in *.
    destruct (fl_result fl); [by eapply flight_gave_le|].
    destruct Hfl as (cl' & Hl & ?). exists cl'. split; [by apply lookup_app_l_Some|done].
  - apply (ko_once _ _ Hok).
Qed.

Lemma load_pc_ok evs s k message b :
  kpc_ok evs s k (MkCC message b (load_pc message b)) (load_pc message b) /\ leading (load_pc message b) = None.
Proof.
  unfold load_pc, enableCache. destruct (m_Question message) as [|q [|q' qs]] eqn:Hq; simpl.
  - unfold answer_ok. simpl. by rewrite Hq.
  - split; [|done]. exists q. done.
  - destruct b; simpl; [rewrite Hq; simpl; split; [lia|done]|]. unfold answer_ok. simpl. rewrite Hq. auto.
Qed.

Lemma kr_ok_start n l : lru_NewSharded n = inl l -> kr_ok [] (cache_start l).
Proof. intros Hn. split; try done. intros q x Hx. by destruct (lru_New_empty _ _ Hn q x). Qed.

Lemma cache_run_ok evs s : cache_run c evs s -> kr_ok evs s.
Proof.
  induction 1 as [n l Hn|evs s ev s' _ Hok Hs]; [by eapply kr_ok_start|].
  destruct ev as [message b|message| |k|k now|k r]; cbn [cache_step] in Hs.
  - injection Hs as <-. destruct (load_pc_ok (evs ++ [CvLoad message b])
      (MkKR (kr_lru s) (kr_flights s) (kr_calls s ++ [MkCC message b (load_pc message b)]))
      (length (kr_calls s)) message b) as [Hpc Hl]. by apply kr_ok_call.
  - injection Hs as <-. apply kr_ok_call; [done|apply store_pc_leading|].
    apply store_pc_ok; [|done]. left. apply in_app_iff. simpl. auto.
  - injection Hs as <-. split.
    + intros q x Hx. by apply lru_Purge_empty in Hx.
    + intros k cl Hk. apply (kpc_ok_le _ _ s _ (S k)); [by intros j; eauto|by apply flights_le_refl|lia|].
      by apply (ko_calls _ _ Hok).
    + intros f fl Hf. pose proof (ko_flights _ _ Hok _ _ Hf) as Hfl. unfold flight_ok in *.
      destruct (fl_result fl); [eapply (flight_gave_le _ _ s); [by intros j; eauto|done]|done].
    + apply (ko_once _ _ Hok).
  - destruct (kr_calls s !! k) as [cl|] eqn:Ek; [|done]. cbn [mbind option_bind] in Hs.
    apply step_cases in Hs as [(f & m & now & Epc & Hs)|(q & Eq & Hs)];
      [by eapply add_step_ok|by eapply load_step_ok].
  - destruct (kr_calls s !! k) as [cl|] eqn:Ek; [|done]. eapply time_step_ok; [done|done|].
    cbn [cache_step]. by rewrite Ek.
  - destruct (kr_calls s !! k) as [cl|] eqn:Ek; [|done]. eapply result_step_ok; [done|done|].
    cbn [cache_step]. by rewrite Ek.
Qed.

(** *** How far a call has to go *)

Definition cost (pc : cache_pc) : nat :=
  match pc with
  | KGet => 8 | KNow _ => 7 | KRemove => 6 | KDo => 5 | KConstruct _ => 4 | KStore _ _ => 3
  | KAdd _ _ _ => 2 | KWait _ | KDirect | KEnd _ _ => 1 | KDone _ | KStored _ => 0
  end.

Definition total (s : cache_run_state (L := L)) : nat := 
  sum_list_with (fun cl => cost (cc_pc cl)) (kr_calls s).

(** Whether an event is a step of a call. *)
Definition own_step (ev : cache_event) : nat :=
  match ev with CvStep _ | CvTime _ _ | CvResult _ _ => 1 | _ => 0 end.

Definition called (ev : cache_event) : nat :=
  match ev with CvLoad _ _ | CvStore _ => 1 | _ => 0 end.

Lemma total_kpc k pc s cl l fls :
  kr_calls s !! k = Some cl ->
  total (set_kpc k pc (MkKR l fls (kr_calls s))) + cost (cc_pc cl) = total s + cost pc.
Proof. intros Hk. exact (sum_list_with_alter (fun cl => cost (cc_pc cl)) _ _ _ cl Hk). Qed.

Lemma total_set k pc s cl l fls :
  kr_calls s !! k = Some cl -> cost pc < cost (cc_pc cl) ->
  S (total (set_kpc k pc (MkKR l fls (kr_calls s)))) <= total s.
Proof. intros Hk Hc. pose proof (total_kpc k pc s cl l fls Hk). lia. Qed.

Lemma miss_cost b : cost (miss_pc b) <= 5.
Proof. destruct b; simpl; lia. Qed.

Lemma stored_cost f m b : cost (stored_pc f m b) <= 1.
Proof. destruct f; simpl; lia. Qed.

Lemma store_cost f m : cost (store_pc c f m) <= 3.
Proof.
  unfold store_pc. pose proof (stored_cost f m false).
  destruct (m_Question m) as [|? [|? ?]]; [lia| |lia]. destruct (Z.leb _ _); simpl; lia.
Qed.

Lemma constructed_cost f r : cost (constructed_pc c f r) <= 3.
Proof.
  destruct r as [[m|] [e|]]; simpl; try lia. destruct (negb _); simpl; [lia|apply store_cost].
Qed.

Lemma load_cost message b : cost (load_pc message b) <= 8.
Proof.
  unfold load_pc. destruct (m_Question message); simpl; [lia|]. destruct (negb _); [|done].
  destruct b; simpl; lia.
Qed.

Lemma load_step_cost k cl q s s' :
  kr_calls s !! k = Some cl -> load_step c k cl q s = Some s' -> S (total s') <= total s.
Proof.
  intros Hk. unfold load_step. pose proof (miss_cost (cc_constructor cl)) as Hmiss.
  destruct (cc_pc cl) as [|x| | |f|f| |f m|f m now|f r|o|b] eqn:Epc; try done.
  - destruct (lru_Get q (kr_lru s)) as [answer l]. intros [= <-].
    eapply total_set; [exact Hk|]. rewrite Epc. destruct answer; simpl; lia.
  - intros [= <-]. eapply total_set; [exact Hk|]. rewrite Epc. simpl. lia.
  - destruct (fg_join _ _); intros [= <-].
    + apply (total_set k _ s cl (kr_lru s) (kr_flights s) Hk). rewrite Epc. simpl. lia.
    + eapply total_set; [exact Hk|]. rewrite Epc. simpl. lia.
  - destruct (kr_flights s !! f) as [fl|]; [|done]. simpl. destruct (fl_result fl); [|done].
    intros [= <-]. apply (total_set k _ s cl (kr_lru s) (kr_flights s) Hk). rewrite Epc. simpl. lia.
  - intros [= <-]. eapply total_set; [exact Hk|]. rewrite Epc. simpl. lia.
Qed.

Lemma total_call s cl :
  total (MkKR (kr_lru s) (kr_flights s) (kr_calls s ++ [cl])) = total s + cost (cc_pc cl).
Proof. unfold total. cbn [kr_calls]. rewrite sum_list_with_app. simpl. lia. Qed.

Lemma cache_step_cost ev s s' :
  cache_step c ev s = Some s' -> own_step ev + total s' <= total s + 8 * called ev.
Proof.
  destruct ev as [message b|message| |k|k now|k r]; cbn [cache_step own_step called].
  - intros [= <-]. rewrite total_call. cbn [cc_pc]. pose proof (load_cost message b). lia.
  - intros [= <-]. rewrite total_call. cbn [cc_pc]. pose proof (store_cost None message). lia.
  - intros [= <-]. unfold total, with_lru. cbn [kr_calls]. lia.
  - destruct (kr_calls s !! k) as [cl|] eqn:Ek; [|done]. cbn [mbind option_bind].
    intros [(f & m & now & Epc & Hs)|(q & _ & Hs)]%step_cases.
    + unfold add_step in Hs. destruct (m_Question m) as [|? [|? ?]]; simplify_eq.
      pose proof (stored_cost f m true). enough (S (total (set_kpc k (stored_pc f m true)
        (with_lru (lru_Add q (MkEntry (now + overwriteTTL c (CalculateTTL m)) (Some m)) (kr_lru s)) s))) <= total s) by lia.
      eapply total_set; [exact Ek|]. rewrite Epc. simpl. lia.
    + pose proof (load_step_cost _ _ _ _ _ Ek Hs). lia.
  - destruct (kr_calls s !! k) as [cl|] eqn:Ek; [|done]. cbn [mbind option_bind].
    destruct (cc_pc cl) as [|x| | |f|f| |f m|f m t|f r|o|b] eqn:Epc; try done; intros [= <-].
    + enough (S (total (set_kpc k match entry_cached x now with
        | Some hit => KDone (OReturn (Some (hit_response (cc_message cl) hit), None))
        | None => KRemove end s)) <= total s) by lia.
      apply (total_set k _ s cl (kr_lru s) (kr_flights s) Ek). rewrite Epc.
      destruct (entry_cached x now); simpl; lia.
    + enough (S (total (set_kpc k (KAdd f m now) s)) <= total s) by lia.
      apply (total_set k _ s cl (kr_lru s) (kr_flights s) Ek). rewrite Epc. simpl. lia.
  - destruct (kr_calls s !! k) as [cl|] eqn:Ek; [|done]. cbn [mbind option_bind].
    destruct (cc_pc cl) as [|x| | |f|f| |f m|f m t|f r0|o|b] eqn:Epc; try done; intros [= <-].
    + pose proof (constructed_cost f r). enough (S (total (set_kpc k (constructed_pc c f r) s)) <= total s) by lia.
      apply (total_set k _ s cl (kr_lru s) (kr_flights s) Ek). rewrite Epc. simpl. lia.
    + enough (S (total (set_kpc k (KDone (OReturn r)) s)) <= total s) by lia.
      apply (total_set k _ s cl (kr_lru s) (kr_flights s) Ek). rewrite Epc. simpl. lia.
Qed.

Lemma cache_run_cost evs s :
  cache_run c evs s -> sum_list_with own_step evs + total s <= 8 * sum_list_with called evs.
Proof.
  induction 1 as [n l _|evs s ev s' _ IH Hs]; [done|].
  pose proof (cache_step_cost _ _ _ Hs). rewrite !sum_list_with_app. simpl. lia.
Qed.

(** Every call was made by an event. *)
Lemma length_kpc k pc s l fls :
  length (kr_calls (set_kpc k pc (MkKR (L := L) l fls (kr_calls s)))) = length (kr_calls s).
Proof. apply length_alter. Qed.

Lemma load_step_length k cl q s s' :
  load_step c k cl q s = Some s' -> length (kr_calls s') = length (kr_calls s).
Proof.
  unfold load_step. destruct (cc_pc cl) as [|x| | |f|f| |f m|f m now|f r|o|b]; try done.
  - destruct (lru_Get q (kr_lru s)). intros [= <-]. apply length_kpc.
  - intros [= <-]. apply length_kpc.
  - destruct (fg_join _ _); intros [= <-]; apply length_kpc.
  - destruct (kr_flights s !! f) as [fl|]; [|done]. simpl. destruct (fl_result fl); intros [= <-].
    apply length_kpc.
  - intros [= <-]. apply length_kpc.
Qed.

Lemma cache_run_called evs s : cache_run c evs s -> sum_list_with called evs = length (kr_calls s).
Proof.
  induction 1 as [n l _|evs s ev s' _ IH Hs]; [done|]. rewrite sum_list_with_app, IH. simpl.
  destruct ev as [message b|message| |k|k now|k r]; cbn [cache_step called] in *.
  1,2: injection Hs as <-; simpl; rewrite length_app; simpl; lia.
  { injection Hs as <-. simpl. lia. }
  all: destruct (kr_calls s !! k) as [cl|]; [|done]; cbn [mbind option_bind] in Hs;
    rewrite Nat.add_0_r; symmetry.
  - apply step_cases in Hs as [(f & m & now & _ & Hs)|(q & _ & Hs)]; [|by eapply load_step_length].
    unfold add_step in Hs. destruct (m_Question m) as [|? [|? ?]]; simplify_eq. apply length_kpc.
  - destruct (cc_pc cl); simplify_eq; apply length_kpc.
  - destruct (cc_pc cl); simplify_eq; apply length_kpc.
Qed.

(** *** Going on *)

Definition can_go s (k : nat) : Prop :=
  (exists s', cache_step c (CvStep k) s = Some s') \/
  (forall now, exists s', cache_step c (CvTime k now) s = Some s') \/
  (forall r, exists s', cache_step c (CvResult k r) s = Some s').

Definition ended (pc : cache_pc) : Prop :=
  match pc with KDone _ | KStored _ => True | _ => False end.

(** A call waits for the flight of another only. *)
Lemma call_goes evs s k cl :
  kr_ok evs s -> kr_calls s !! k = Some cl -> ~ ended (cc_pc cl) ->
  can_go s k \/ exists f fl, cc_pc cl = KWait f /\ kr_flights s !! f = Some fl /\ fl_result fl = None.
Proof.
  intros Hok Hk Hend. pose proof (ko_calls _ _ Hok _ _ Hk) as Hpc. unfold can_go. cbn [cache_step].
  rewrite Hk. cbn [mbind option_bind].
  destruct (cc_pc cl) as [|x| | |f|f| |f m|f m now|f r|o|b] eqn:Epc; try (by destruct Hend);
    simpl in Hpc.
  - destruct Hpc as [q Hq]. left. left. rewrite Hq. simpl. unfold load_step. rewrite Epc.
    destruct (lru_Get q (kr_lru s)). by eexists.
  - left. right. left. intros now. by eexists.
  - destruct Hpc as [q Hq]. left. left. rewrite Hq. simpl. unfold load_step. rewrite Epc. by eexists.
  - destruct Hpc as [_ [q Hq]]. left. left. rewrite Hq. simpl. unfold load_step. rewrite Epc.
    destruct (fg_join _ _); by eexists.
  - destruct Hpc as (q & fl & Hq & Hf & _). destruct (fl_result fl) as [r|] eqn:Er; [|right; by exists f, fl].
    left. left. rewrite Hq. simpl. unfold load_step. rewrite Epc, Hf. simpl. rewrite Er. by eexists.
  - left. right. right. intros r. by eexists.
  - left. right. right. intros r. by eexists.
  - left. right. left. intros now. by eexists.
  - destruct Hpc as [([q Hq] & _) _]. left. left. unfold add_step. rewrite Hq. by eexists.
  - destruct Hpc as [(q & Hq & _) _]. left. left. rewrite Hq. simpl. unfold load_step. rewrite Epc. by eexists.
Qed.

(** And that call can go on. *)
Lemma call_goes_or_waits evs s k cl :
  kr_ok evs s -> kr_calls s !! k = Some cl -> ~ ended (cc_pc cl) ->
  can_go s k \/
  exists f fl, cc_pc cl = KWait f /\ kr_flights s !! f = Some fl /\
    fl_leader fl <> k /\ can_go s (fl_leader fl).
Proof.
  intros Hok Hk Hend. destruct (call_goes _ _ _ _ Hok Hk Hend) as [?|(f & fl & Hpc & Hf & Hres)]; [by left|].
  right. exists f, fl. pose proof (ko_flights _ _ Hok _ _ Hf) as Hfl. unfold flight_ok in Hfl.
  rewrite Hres in Hfl. destruct Hfl as (cl' & Hk' & Hlead).
  assert (fl_leader fl <> k) as Hne.
  { intros Hlk. rewrite Hlk, Hk in Hk'. injection Hk' as <-. by rewrite Hpc in Hlead. }
  split_and!; try done.
  destruct (call_goes _ _ _ _ Hok Hk') as [?|(f' & fl' & Hpc' & _)]; [|done|by rewrite Hpc' in Hlead].
  intros Hended. by destruct (cc_pc cl').
Qed.

End lemmas.

(** *** Lists of steps *)

Section steps.
Context {L : Type} `{DnsLib} `{SliceLib} `{!LruLib L} `{FlightGroup}.
Context (c : defaultCache).
Implicit Types (s : cache_run_state (L := L)).

Fixpoint cache_steps (evs : list cache_event) (s : cache_run_state (L := L)) : option cache_run_state :=
  match evs with
  | [] => Some s
  | ev :: evs => s ← cache_step c ev s; cache_steps evs s
  end.

Lemma cache_run_steps evs s evs' s' :
  cache_run c evs s -> cache_steps evs' s = Some s' -> cache_run c (evs ++ evs') s'.
Proof.
  revert evs s. induction evs' as [|ev evs' IH]; intros evs s Hr Hs; simpl in Hs.
  - injection Hs as <-. by rewrite app_nil_r.
  - destruct (cache_step c ev s) as [s1|] eqn:E1; [|done].
    change (ev :: evs') with ([ev] ++ evs'). rewrite app_assoc. eapply IH; [|exact Hs]. by econstructor.
Qed.

End steps.

(** ** Properties *)

Section properties.
Context {L : Type} `{DnsLaws} `{SliceLaws} `{LruLaws L} `{FlightGroupLaws}.
Context (c : defaultCache).
Implicit Types (s : cache_run_state (L := L)) (evs : list cache_event).

(** C13: The table under concurrent calls.  However the steps of [LoadOrStore],
    [Store] and [Clear] interleave, an entry is about the question it is
    stored under, has a TTL above one, expires that many nanoseconds after a
    time at which some call looked at the clock, and has the message a caller
    gave to [Store] or one with which a constructor succeeded. *)
Theorem cache_run_coherent evs s :
  cache_run c evs s ->
  coherent c (kr_lru s) /\
  forall q x, lru_has (kr_lru s) q x -> exists m k t,
    ce_Message x = Some m /\ m_Question m = [q] /\
    ce_Expire x = (t + overwriteTTL c (CalculateTTL m))%Z /\ In (CvTime k t) evs /\
    (In (CvStore m) evs \/
     exists k', In (CvResult k' (Some m, None)) evs /\ m_Rcode m = RcodeSuccess).
Proof.
  intros Hr. pose proof (cache_run_ok c _ _ Hr) as Hok. split.
  - intros q x Hx. destruct (ko_table _ _ _ Hok q x Hx) as (m & _ & _ & ? & _ & ? & ? & _). by exists m.
  - intros q x Hx. destruct (ko_table _ _ _ Hok q x Hx) as (m & k & t & ? & ? & ? & _ & ? & ?).
    by exists m, k, t.
Qed.

(** C12: What concurrent calls answer.  A call of [LoadOrStore] for one
    question that returns a response returns it under its own id; question,
    code and answers are those of a message that was stored under the very
    question, or that a constructor returned to a call whose question has the
    same hash.  It passes on the errors of such a constructor only, copies nil
    only when such a constructor returned neither, and returns nothing only
    without a constructor. *)
Theorem cache_run_answers evs s k message constructor o question :
  cache_run c evs s -> kr_calls s !! k = Some (MkCC message constructor (KDone o)) ->
  m_Question message = [question] ->
  let constructed r := exists k' message' pc' q', kr_calls s !! k' = Some (MkCC message' true pc') /\
    m_Question message' = [q'] /\ fg_hash q' = fg_hash question /\ In (CvResult k' r) evs in
  match o with
  | OReturn (Some r, err) => err = None /\ m_Id r = m_Id message /\
      exists m, same_answer r m /\
        ((m_Question m = [question] /\
          (In (CvStore m) evs \/
           exists k', In (CvResult k' (Some m, None)) evs /\ m_Rcode m = RcodeSuccess)) \/
         constructed (Some m, None))
  | OReturn (None, Some e) => exists m, constructed (m, Some e)
  | OReturn (None, None) => constructor = false
  | ONilCopy => constructed (None, None)
  end.
Proof.
  intros Hr Hk Hq constructed. pose proof (cache_run_ok c _ _ Hr) as Hok.
  pose proof (ko_calls _ _ _ Hok _ _ Hk) as Hans. simpl in Hans. unfold answer_ok in Hans.
  cbn [cc_message cc_constructor] in Hans. rewrite Hq in Hans.
  assert (forall r, flight_gave evs s (fg_hash question) r -> exists r', constructed r' /\ r = clean r') as Hgave.
  { intros r (k' & [m' b' pc'] & q' & r' & Hk' & Hq' & Hh & Hc & Hin & ->). simpl in Hc. subst b'.
    exists r'. split; [|done]. by exists k', m', pc', q'. }
  destruct o as [[[r|] [e|]]|]; try done.
  - by destruct Hans as [? _].
  - destruct Hans as (He & Hid & m & Hs & Hm). split; [done|]. split; [done|]. exists m. split; [done|].
    destruct Hm as [Hm|Hm]; [by left|right]. destruct (Hgave _ Hm) as ([[m'|] [e|]] & Hc & [= ->]). exact Hc.
  - destruct (Hgave _ Hans) as ([m' [e'|]] & Hc & Heq); simpl in Heq; [|by destruct m'].
    injection Heq as ->. by exists m'.
  - destruct (Hgave _ Hans) as ([[m'|] [e'|]] & Hc & Heq); try done.
Qed.

(** Single flight, and no call left behind.  In every reachable state at
    most one constructor of the group runs for a hash; a call that has not
    ended can take its next step, whatever the clock and its constructor
    give, or waits for a flight that another call runs, which can take its
    own; and all calls together take at most eight steps each. *)
Theorem cache_run_progress evs s :
  cache_run c evs s ->
  (forall k k' cl cl' f f' q q',
     kr_calls s !! k = Some cl -> kr_calls s !! k' = Some cl' ->
     cc_pc cl = KConstruct f -> cc_pc cl' = KConstruct f' ->
     m_Question (cc_message cl) = [q] -> m_Question (cc_message cl') = [q'] ->
     fg_hash q = fg_hash q' -> k = k') /\
  (forall k cl, kr_calls s !! k = Some cl -> ~ ended (cc_pc cl) ->
     can_go c s k \/
     exists f fl, cc_pc cl = KWait f /\ kr_flights s !! f = Some fl /\
       fl_leader fl <> k /\ can_go c s (fl_leader fl)) /\
  sum_list_with own_step evs <= 8 * length (kr_calls s).
Proof.
  intros Hr. pose proof (cache_run_ok c _ _ Hr) as Hok. split_and!.
  - intros k k' cl cl' f f' q q' Hk Hk' Hpc Hpc' Hq Hq' Hh.
    pose proof (ko_calls _ _ _ Hok _ _ Hk) as Hl. pose proof (ko_calls _ _ _ Hok _ _ Hk') as Hl'.
    rewrite Hpc in Hl. rewrite Hpc' in Hl'. destruct Hl as (q1 & Hq1 & _ & Hf), Hl' as (q2 & Hq2 & _ & Hf').
    assert (f = f') as ->.
    { eapply (ko_once _ _ _ Hok _ _ _ _ Hf Hf'); [done|done|]. simpl. congruence. }
    congruence.
  - intros k cl Hk Hend. by eapply call_goes_or_waits.
  - pose proof (cache_run_cost c _ _ Hr). pose proof (cache_run_called c _ _ Hr). lia.
Qed.

End properties.

(** ** A run for the witnesses *)

Module CacheRunExample.
Import DnsSimple CacheExample.

(** Questions that hash to the same value, and a group that is joined at the
    first flight of the key that is under way. *)
#[global] Instance flight_group : FlightGroup | 100 := {
  fg_hash _ := 0%Z;
  fg_join fs key := fst <$> list_find (fun f => f = (key, true)) fs;
}.

#[global] Instance flight_group_laws : @FlightGroupLaws flight_group | 100.
Proof.
  split; simpl.
  - intros fs key i Hj. destruct (list_find (fun f => f = (key, true)) fs) as [[j f]|] eqn:E; [|done].
    injection Hj as <-. by apply list_find_Some in E as (Hf & -> & _).
  - intros fs key Hj. destruct (list_find (fun f => f = (key, true)) fs) as [[j f]|] eqn:E; [done|].
    apply list_find_None in E. rewrite Forall_forall in E. intros Hin. by apply (E _ Hin).
Qed.

Definition other_request : Msg := msg_with_Id 10 (answer other 0).

(** Two calls miss, and the second joins the flight of the first. *)
Definition joined : list cache_event :=
  [CvLoad request true; CvLoad other_request true; CvStep 0; CvStep 1; CvStep 0; CvStep 1].
Definition answered : list cache_event :=
  joined ++ [CvResult 0 (Some (answer question 60), None); CvTime 0 100; CvStep 0; CvStep 0; CvStep 1].

Definition after (evs : list cache_event) : cache_run_state (L := table) :=
  default (cache_start ∅) (cache_steps cache evs (cache_start ∅)).

Lemma after_cache_run evs :
  (if cache_steps cache evs (cache_start (∅ : table)) then true else false) = true ->
  cache_run cache evs (after evs).
Proof.
  intros Hs. unfold after. destruct (cache_steps cache evs _) as [s|] eqn:E; [|done].
  exact (cache_run_steps cache [] _ evs s (cache_run_nil cache 0 ∅ eq_refl) E).
Qed.

Lemma joined_run : cache_run cache joined (after joined).
Proof. apply after_cache_run. vm_compute. reflexivity. Qed.

Lemma cache_answered_run : cache_run cache answered (after answered).
Proof. apply after_cache_run. vm_compute. reflexivity. Qed.

(** The second call asked for "b." and gets the answer for "a.". *)
Lemma answered_other :
  kr_calls (after answered) !! 1 =
  Some (MkCC other_request true (KDone (OReturn (Some (msg_with_Id 10 (answer question 60)), None)))).
Proof. vm_compute. reflexivity. Qed.

Lemma joined_waits : kr_calls (after joined) !! 1 = Some (MkCC other_request true (KWait 0)).
Proof. vm_compute. reflexivity. Qed.
End CacheRunExample.

Import DnsSimple CacheExample CacheRunExample.

Lemma cache_run_coherent_witness :
  coherent cache (kr_lru (after answered)) /\ is_Some (kr_lru (after answered) !! question).
Proof.
  split; [exact (proj1 (cache_run_coherent cache answered (after answered) cache_answered_run))|].
  vm_compute. by eexists.
Defined.

Lemma cache_run_answers_witness :
  let r := msg_with_Id 10 (answer question 60) in
  m_Id r = m_Id other_request /\ exists m, same_answer r m.
Proof.
  destruct (cache_run_answers cache answered (after answered) 1 other_request true _ other
    cache_answered_run answered_other eq_refl) as (_ & Hid & m & Hm & _).
  exact (conj Hid (ex_intro _ m Hm)).
Defined.

Lemma cache_run_progress_witness :
  exists k, can_go cache (after joined) k /\ sum_list_with own_step joined <= 16.
Proof.
  destruct (cache_run_progress cache joined (after joined) joined_run) as (_ & Hgo & Hsteps).
  destruct (Hgo 1 _ joined_waits (fun H => H)) as [Hk|(f & fl & _ & _ & _ & Hk)].
  - exists 1. split; [exact Hk|exact Hsteps].
  - exists (fl_leader fl). split; [exact Hk|exact Hsteps].
Defined.
