(* ===== verification/CacheAlone.v ===== *)
(** * A call of the cache that runs alone

    A call of CacheRun that no other call comes between does what
    [LoadOrStore] of Cache does: the environment that gives [LoadOrStore] its
    clock and its constructor decides each event of the call. *)

From S2P Require Import Prelude GoStd Netip Meta Dns Addrs Resolve Cache CacheRun.

(** ** The steps of one call *)

Section steps.
Context {L E : Type} `{DnsLib} `{SliceLib} `{!LruLib L} `{FlightGroup} `{!Clock E} `{!Flight E}.
Context (c : defaultCache) (k : nat) (constructor : option (Msg -> ST E (gores (option Msg)))).

(** The next event of call [k]: where it looks at the clock, the time is the
    one the environment shows; where it calls its constructor, the result is
    the one the constructor gives in this environment. *)
Definition next_event (cl : cache_call) (e : E) : option (cache_event * E) :=
  match cc_pc cl with
  | KNow _ | KStore _ _ => let '(now, e) := time_Now e in Some (CvTime k now, e)
  | KConstruct _ | KDirect =>
      match constructor with
      | Some constructor => let '(r, e) := constructor (cc_message cl) e in Some (CvResult k r, e)
      | None => None
      end
  | KDone _ | KStored _ => None
  | _ => Some (CvStep k, e)
  end.

(** Up to [n] steps of call [k] and of no other: its events, and the state
    and the environment they lead to. *)
Fixpoint alone (n : nat) (s : cache_run_state (L := L)) (e : E)
    : list cache_event * cache_run_state (L := L) * E :=
  match n with
  | 0 => ([], s, e)
  | S n =>
      match (cl ← kr_calls s !! k; next_event cl e) with
      | None => ([], s, e)
      | Some (ev, e') =>
          match cache_step c ev s with
          | None => ([], s, e)
          | Some s' => let '(evs, s2, e2) := alone n s' e' in (ev :: evs, s2, e2)
          end
      end
  end.

Lemma alone_steps n s e :
  let '(evs, s', _) := alone n s e in cache_steps c evs s = Some s'.
Proof.
  revert s e. induction n as [|n IH]; intros s e; simpl; [done|].
  destruct (kr_calls s !! k) as [cl|]; simpl; [|done].
  destruct (next_event cl e) as [[ev e']|]; [|done].
  destruct (cache_step c ev s) as [s'|] eqn:Es; [|done].
  specialize (IH s' e'). destruct (alone n s' e') as [[evs s2] e2]. simpl. by rewrite Es.
Qed.
End steps.

(** ** Lemmas *)

Section alone.
Context {L E : Type} `{DnsLib} `{SliceLib} `{!LruLib L} `{FlightGroupLaws} `{!Clock E} `{!Flight E}.
Context (c : defaultCache) (k : nat) (message : Msg).
Context (constructor : option (Msg -> ST E (gores (option Msg)))).
Implicit Types (s : cache_run_state (L := L)) (l : L) (e : E).

Definition finished (fl : flight) : Prop := is_Some (fl_result fl).

(** Call [k] is at [pc], with this table and these flights. *)
Definition view s (b : bool) (pc : cache_pc) l (fls : list flight) : Prop :=
  kr_calls s !! k = Some (MkCC message b pc) /\ kr_lru s = l /\ kr_flights s = fls.

(** Alone it ends, in at most [n] steps, with outcome [o], table [l'] and
    environment [e']. *)
Definition ends s e (n : nat) (o : outcome) l' e' : Prop :=
  forall m, n <= m -> exists evs s' b fls, alone c k constructor m s e = (evs, s', e') /\
    length evs <= n /\ view s' b (KDone o) l' fls /\ Forall finished fls.

Lemma view_kpc s b pc l fls pc' l' fls' :
  view s b pc l fls -> view (set_kpc k pc' (MkKR l' fls' (kr_calls s))) b pc' l' fls'.
Proof.
  intros (Hk & _). split; [|done]. rewrite set_kpc_lookup. cbn [kr_calls]. by rewrite Hk, decide_True.
Qed.

Lemma ends_now s e n b o l fls : view s b (KDone o) l fls -> Forall finished fls -> ends s e n o l e.
Proof.
  intros Hv Hf m _. exists [], s, b, fls. split; [|split; [simpl; lia|done]].
  destruct m as [|m]; [done|]. simpl. by destruct Hv as (-> & _).
Qed.

Lemma ends_step s e n b pc l fls ev e1 s1 o l' e' :
  view s b pc l fls -> next_event k constructor (MkCC message b pc) e = Some (ev, e1) ->
  cache_step c ev s = Some s1 -> ends s1 e1 n o l' e' -> ends s e (S n) o l' e'.
Proof.
  intros (Hk & _) He Hs Hn [|m] Hm; [lia|]. destruct (Hn m ltac:(lia)) as (evs & s' & b' & fls' & Ha & Hl & Hv).
  exists (ev :: evs), s', b', fls'. split; [|split; [simpl; lia|done]].
  simpl. rewrite Hk. simpl. by rewrite He, Hs, Ha.
Qed.

Lemma ends_le s e n m o l' e' : ends s e n o l' e' -> n <= m -> ends s e m o l' e'.
Proof.
  intros Hn Hm m' Hm'. destruct (Hn m' ltac:(lia)) as (evs & s' & b & fls & Ha & Hl & Hv).
  exists evs, s', b, fls. split; [done|]. split; [lia|done].
Qed.

(** A step of [LoadOrStore]. *)
Lemma ends_load s e n b pc l fls q pc' l' fls' o l1 e1 :
  view s b pc l fls -> head (m_Question message) = Some q ->
  match pc with KGet | KRemove | KDo | KEnd _ _ => True | _ => False end ->
  load_step c k (MkCC message b pc) q s = Some (set_kpc k pc' (MkKR l' fls' (kr_calls s))) ->
  (forall s1, view s1 b pc' l' fls' -> ends s1 e n o l1 e1) -> ends s e (S n) o l1 e1.
Proof.
  intros Hv Hq Hpc Hs Hn. eapply (ends_step _ _ _ _ _ _ _ (CvStep k)); [exact Hv| | |by eapply Hn, view_kpc].
  - by destruct pc.
  - cbn [cache_step]. destruct Hv as (-> & _). cbn [mbind option_bind cc_pc cc_message]. rewrite Hq.
    destruct pc; try exact Hs; done.
Qed.

(** A look at the clock. *)
Lemma ends_time s e n b pc l fls pc' o l1 e1 :
  view s b pc l fls -> match pc with KNow _ | KStore _ _ => True | _ => False end ->
  cache_step c (CvTime k (time_Now e).1) s = Some (set_kpc k pc' s) ->
  (forall s1, view s1 b pc' l fls -> ends s1 (time_Now e).2 n o l1 e1) -> ends s e (S n) o l1 e1.
Proof.
  intros Hv Hpc Hs Hn. eapply (ends_step _ _ _ _ _ _ _ _ (time_Now e).2); [exact Hv| |exact Hs|].
  - destruct pc; try done; unfold next_event; cbn [cc_pc]; by destruct (time_Now e).
  - apply Hn. pose proof (view_kpc s b pc l fls pc' (kr_lru s) (kr_flights s) Hv) as Hv1.
    destruct Hv as (_ & <- & <-). exact Hv1.
Qed.

(** A call of the constructor. *)
Lemma ends_result s e n b pc l fls f pc' o l1 e1 :
  view s b pc l fls -> match pc with KConstruct _ | KDirect => True | _ => False end ->
  constructor = Some f ->
  cache_step c (CvResult k (f message e).1) s = Some (set_kpc k pc' s) ->
  (forall s1, view s1 b pc' l fls -> ends s1 (f message e).2 n o l1 e1) -> ends s e (S n) o l1 e1.
Proof.
  intros Hv Hpc Hf Hs Hn. eapply (ends_step _ _ _ _ _ _ _ _ (f message e).2); [exact Hv| |exact Hs|].
  - destruct pc; try done; unfold next_event; cbn [cc_pc cc_message]; rewrite Hf; by destruct (f message e).
  - apply Hn. pose proof (view_kpc s b pc l fls pc' (kr_lru s) (kr_flights s) Hv) as Hv1.
    destruct Hv as (_ & <- & <-). exact Hv1.
Qed.

Section leader.
Context (q : Question) (fls : list flight) (f : Msg -> ST E (gores (option Msg))).
Hypothesis Hq : m_Question message = [q].
Hypothesis Hfls : Forall finished fls.
Hypothesis Hf : constructor = Some f.

Definition led : list flight := fls ++ [MkFlight (fg_hash q) k None].

Lemma head_q : head (m_Question message) = Some q.
Proof. by rewrite Hq. Qed.

Lemma ends_flight s e r l :
  view s true (KEnd (length fls) r) l led -> ends s e 1 (after_flight message r) l e.
Proof.
  intros Hv. pose proof Hv as (Hk & Hl & Hfl).
  eapply (ends_load _ _ _ _ _ _ _ _ _ l (fls ++ [MkFlight (fg_hash q) k (Some r)]) _ _ _ Hv head_q); [done| |].
  - cbn [load_step cc_pc cc_message]. rewrite Hl, Hfl. unfold led.
    assert (alter (fun fl => MkFlight (fl_key fl) (fl_leader fl) (Some r)) (length fls)
      (fls ++ [MkFlight (fg_hash q) k None]) = fls ++ [MkFlight (fg_hash q) k (Some r)]) as ->; [|done].
    replace (length fls) with (length fls + 0) by lia. by rewrite alter_app_r.
  - intros s1 Hv1. eapply ends_now; [exact Hv1|]. apply Forall_app. split; [done|].
    constructor; [by eexists|constructor].
Qed.

Lemma ends_store s m l e :
  view s true (store_pc c (Some (length fls)) m) l led ->
  let '(_, (l', e')) := Store c m (l, e) in ends s e 3 (after_flight message (Some m, None)) l' e'.
Proof.
  unfold store_pc, Store. intros Hv.
  destruct (m_Question m) as [|qm [|? ?]] eqn:Hqm; [eapply ends_le; [by eapply ends_flight|lia]| |
    eapply ends_le; [by eapply ends_flight|lia]].
  destruct (Z.leb (overwriteTTL c (CalculateTTL m)) 1); [eapply ends_le; [by eapply ends_flight|lia]|].
  rewrite !ST_bind_run. unfold cache_Now, lift_env.
  pose proof (ends_time s e 2 true _ l led (KAdd (Some (length fls)) m (time_Now e).1)
    (after_flight message (Some m, None)) (lru_Add qm (MkEntry ((time_Now e).1 + overwriteTTL c (CalculateTTL m))
      (Some m)) l) (time_Now e).2 Hv I) as Hend.
  destruct (time_Now e) as [now e1]. cbn [fst snd] in *. cbn -[after_flight]. apply Hend.
  { cbn [cache_step]. destruct Hv as (-> & _). by cbn [mbind option_bind cc_pc]. }
  intros s1 Hv1. pose proof Hv1 as (Hk1 & Hl1 & Hf1).
  eapply (ends_step _ _ _ _ _ _ _ (CvStep k)); [exact Hv1|done| |].
  { cbn [cache_step]. rewrite Hk1. cbn [mbind option_bind cc_pc]. unfold add_step. by rewrite Hqm. }
  eapply ends_flight. unfold with_lru. rewrite Hl1, Hf1. by eapply view_kpc.
Qed.

Lemma ends_construct s l e :
  view s true (KConstruct (length fls)) l led ->
  let '(r, (l', e')) := construct_and_store c f message (l, e) in
  ends s e 4 (after_flight message r) l' e'.
Proof.
  intros Hv. unfold construct_and_store. rewrite ST_bind_run. unfold lift_env.
  pose proof (fun n o l' e' => ends_result s e n true _ l led f (constructed_pc c (length fls) (f message e).1)
    o l' e' Hv I Hf) as Hend.
  destruct (f message e) as [r e1]. cbn [fst snd] in *.
  assert (cache_step c (CvResult k r) s = Some (set_kpc k (constructed_pc c (length fls) r) s)) as Hs.
  { cbn [cache_step]. destruct Hv as (-> & _). by cbn [mbind option_bind cc_pc]. }
  destruct r as [[m|] [er|]]; cbn [constructed_pc] in *;
    try (cbn -[after_flight]; eapply Hend; [exact Hs|intros s1 Hv1]; eapply ends_le; [by eapply ends_flight|lia]).
  destruct (negb (Z.eqb (m_Rcode m) RcodeSuccess)).
  { cbn -[after_flight]. eapply Hend; [exact Hs|intros s1 Hv1]. eapply ends_le; [by eapply ends_flight|lia]. }
  rewrite ST_bind_run. pose proof (fun s1 => ends_store s1 m l e1) as Hst.
  destruct (Store c m (l, e1)) as [b [l' e2]]. cbn -[after_flight]. by apply Hend.
Qed.

Lemma ends_do s l e :
  (forall key e, sf_inflight key e = (None, e)) ->
  view s true KDo l fls ->
  let '(r, (l', e')) := sf_Do (hashQuestion q) (construct_and_store c f message) (l, e) in
  ends s e 5 (after_flight message r) l' e'.
Proof.
  intros Hsf Hv. rewrite sf_Do_run, Hsf.
  assert (forall s1, view s1 true (KConstruct (length fls)) l led ->
    let '(r, (l', e')) := construct_and_store c f message (l, e) in
    ends s1 e 4 (after_flight message r) l' e') as Hrun by (intros s1; apply ends_construct).
  destruct (construct_and_store c f message (l, e)) as [r [l' e']].
  pose proof Hv as (_ & Hl & Hfl).
  eapply (ends_load _ _ _ _ _ _ _ _ _ l led _ _ _ Hv head_q); [done| |exact Hrun].
  cbn [load_step cc_pc]. destruct (fg_join (group s) (fg_hash q)) as [j|] eqn:Ej; [|by rewrite Hl, Hfl].
  apply fg_join_some in Ej. unfold group in Ej. rewrite Hfl in Ej.
  apply list_lookup_fmap_Some in Ej as (fl & He & Hlk).
  destruct (Forall_lookup_1 _ _ _ _ Hfls Hlk) as [r0 Hr0]. by rewrite Hr0 in He.
Qed.
End leader.

Definition given : bool := match constructor with Some _ => true | None => false end.

Lemma ends_miss q fls s l e :
  m_Question message = [q] -> Forall finished fls ->
  (forall key e, sf_inflight key e = (None, e)) ->
  view s given (miss_pc given) l fls ->
  let '(o, (l', e')) := match constructor with
    | None => (OReturn (None, None), (l, e))
    | Some f =>
        let '(r, w) := sf_Do (hashQuestion q) (construct_and_store c f message) (l, e) in
        (after_flight message r, w)
    end in
  ends s e 5 o l' e'.
Proof.
  intros Hq Hfls Hsf. unfold given. pose proof (fun f => ends_do q fls f Hq Hfls) as Hdo. revert Hdo.
  destruct constructor as [f|]; simpl; intros Hdo Hv.
  - specialize (Hdo f eq_refl s l e Hsf Hv).
    by destruct (sf_Do _ _ _) as [r [l' e']].
  - by eapply ends_now.
Qed.

End alone.

Section alone_load.
Context {L E : Type} `{DnsLib} `{SliceLib} `{!LruLib L} `{FlightGroupLaws} `{!Clock E} `{!Flight E}.
Context (c : defaultCache) (k : nat) (message : Msg).
Context (constructor : option (Msg -> ST E (gores (option Msg)))).
Hypothesis no_flight : forall key (e : E), sf_inflight key e = (None, e).
Implicit Types (s : cache_run_state (L := L)).

(** [LoadOrStore] after a miss. *)
Lemma LoadOrStore_miss q (w : cache_world L E) :
  match constructor with
  | None => mret (OReturn (None, None))
  | Some constructor =>
      '(response, e) ← sf_Do (hashQuestion q) (construct_and_store c constructor message);
      match e, response with
      | Some e, _ => mret (OReturn (None, Some e))
      | None, None => mret ONilCopy
      | None, Some response =>
          mret (OReturn (Some (msg_with_Id (m_Id message) (EdnsBackwards message response)), None))
      end
  end w =
  match constructor with
  | None => (OReturn (None, None), w)
  | Some constructor =>
      let '(r, w) := sf_Do (hashQuestion q) (construct_and_store c constructor message) w in
      (after_flight message r, w)
  end.
Proof.
  destruct constructor as [f|]; [|done]. rewrite ST_bind_run.
  by destruct (sf_Do _ _ w) as [[[response|] [e|]] w'].
Qed.

(** The look into the table. *)
Lemma ends_lookup s b q l fls e n o l2 e2 :
  m_Question message = [q] -> view k message s b KGet l fls ->
  let '(hit, (l1, e1)) := cache_lookup q (l, e) in
  (forall s1, view k message s1 b match hit with
      | Some hit => KDone (OReturn (Some (hit_response message hit), None))
      | None => miss_pc b
      end l1 fls -> ends c k message constructor s1 e1 n o l2 e2) ->
  ends c k message constructor s e (3 + n) o l2 e2.
Proof.
  intros Hq Hv. pose proof Hv as (_ & Hl & Hf). unfold cache_lookup.
  destruct (lru_Get q l) as [answer l1] eqn:Eg.
  assert (forall m, (forall s1, view k message s1 b
      (match answer with Some x => KNow x | None => miss_pc b end) l1 fls ->
      ends c k message constructor s1 e m o l2 e2) -> ends c k message constructor s e (S m) o l2 e2) as Hget.
  { intros m Hn. eapply (ends_load _ _ _ _ _ _ _ _ _ _ _ _ _ l1 fls _ _ _ Hv); [by rewrite Hq|done| |exact Hn].
    cbn [load_step cc_pc cc_constructor]. rewrite Hl, Eg. unfold with_lru. by rewrite Hf. }
  destruct answer as [answer|]; [|intros Hn; eapply ends_le; [by apply Hget|lia]].
  assert (forall m, (forall s1, view k message s1 b (match entry_cached answer (time_Now e).1 with
      | Some hit => KDone (OReturn (Some (hit_response message hit), None))
      | None => KRemove end) l1 fls -> ends c k message constructor s1 (time_Now e).2 m o l2 e2) ->
      ends c k message constructor s e (S (S m)) o l2 e2) as Hnow.
  { intros m Hn. apply Hget. intros s1 Hv1. eapply ends_time; [exact Hv1|done| |exact Hn].
    cbn [cache_step]. destruct Hv1 as (-> & _). by cbn [mbind option_bind cc_pc cc_message]. }
  destruct (time_Now e) as [now e1]. cbn [fst snd] in Hnow.
  destruct (entry_cached answer now) as [hit|]; intros Hn; [eapply ends_le; [by apply Hnow|lia]|].
  apply (Hnow (S n)). intros s1 Hv1. pose proof Hv1 as (_ & Hl1 & Hf1).
  eapply (ends_load _ _ _ _ _ _ _ _ _ _ _ _ _ (lru_Remove q l1) fls _ _ _ Hv1); [by rewrite Hq|done| |exact Hn].
  cbn [load_step cc_pc cc_constructor]. unfold with_lru. by rewrite Hl1, Hf1.
Qed.

Lemma ends_load_pc s l fls e :
  Forall finished fls ->
  view k message s (given constructor) (load_pc message (given constructor)) l fls ->
  let '(o, (l', e')) := LoadOrStore c message constructor (l, e) in
  ends c k message constructor s e 8 o l' e'.
Proof.
  intros Hfls. unfold load_pc, LoadOrStore.
  destruct (m_Question message) as [|q qs] eqn:Hq; [intros Hv; by eapply ends_now|].
  destruct (negb (enableCache message)) eqn:Hen.
  { unfold given. destruct constructor as [f|]; intros Hv; [|by eapply ends_now].
    rewrite ST_bind_run. unfold lift_env.
    pose proof (ends_result c k message (Some f) s e 7 _ _ _ _ f (KDone (OReturn (f message e).1)) (OReturn (f message e).1)
      l (f message e).2 Hv I eq_refl) as Hend.
    destruct (f message e) as [r e']. cbn. apply Hend; [|intros s1 Hv1; by eapply ends_now].
    cbn [cache_step]. destruct Hv as (-> & _). by cbn [mbind option_bind cc_pc]. }
  assert (m_Question message = [q]) as Hone.
  { apply negb_false_iff, Nat.eqb_eq in Hen. rewrite Hq in *. destruct qs; [done|]. simpl in Hen. lia. }
  intros Hv. rewrite ST_bind_run.
  pose proof (fun n o l2 e2 => ends_lookup s (given constructor) q l fls e n o l2 e2 Hone Hv) as Hlook.
  destruct (cache_lookup q (l, e)) as [hit [l1 e1]]. cbn [fst snd]. destruct hit as [hit|].
  - eapply (ends_le _ _ _ _ _ _ 3); [|lia]. apply (Hlook 0). intros s1 Hv1. by eapply ends_now.
  - rewrite LoadOrStore_miss.
    pose proof (fun s1 => ends_miss c k message constructor q fls s1 l1 e1 Hone Hfls no_flight) as Hmiss.
    destruct (match constructor with Some _ => _ | None => _ end) as [o [l' e']].
    apply (Hlook 5). exact Hmiss.
Qed.

End alone_load.

(** ** Property *)

(** C39: A call that runs alone is [LoadOrStore] as Cache has it.  When no
    flight is under way, the steps that the call takes by itself, with the
    clock and the constructor of an environment, are at most eight; they are
    a run of the shared cache, and leave the call at its end, with the
    outcome, the table and the environment that [LoadOrStore] gives from this
    table in this environment, and again no flight under way. *)
Theorem cache_call_alone {L E} `{DnsLib} `{SliceLib} `{!LruLib L} `{FlightGroupLaws} `{!Clock E} `{!Flight E}
    c evs (s : cache_run_state (L := L)) message constructor (e : E) :
  cache_run c evs s -> Forall (fun fl => is_Some (fl_result fl)) (kr_flights s) ->
  (forall key (e : E), sf_inflight key e = (None, e)) ->
  let given := match constructor with Some _ => true | None => false end in
  let k := length (kr_calls s) in
  let '(o, (l, e_end)) := LoadOrStore c message constructor (kr_lru s, e) in
  exists s1 evs' s' b,
    cache_step c (CvLoad message given) s = Some s1 /\
    alone c k constructor 8 s1 e = (evs', s', e_end) /\
    cache_run c (evs ++ CvLoad message given :: evs') s' /\
    kr_calls s' !! k = Some (MkCC message b (KDone o)) /\
    kr_lru s' = l /\ Forall (fun fl => is_Some (fl_result fl)) (kr_flights s').
Proof.
  intros Hr Hfls Hsf given0 k.
  set (s1 := MkKR (kr_lru s) (kr_flights s) (kr_calls s ++ [MkCC message given0 (load_pc message given0)])).
  assert (cache_run c (evs ++ [CvLoad message given0]) s1) as Hr1 by (by econstructor).
  pose proof (ends_load_pc c k message constructor Hsf s1 (kr_lru s) (kr_flights s) e Hfls) as Hend.
  destruct (LoadOrStore c message constructor (kr_lru s, e)) as [o [l e']].
  destruct (Hend) with (m := 8) as (evs' & s' & b & fls & Ha & _ & (Hk & Hl & Hf) & Hfin); [|lia|].
  { split; [|done]. by apply list_lookup_middle. }
  pose proof (alone_steps c k constructor 8 s1 e) as Hs. rewrite Ha in Hs.
  exists s1, evs', s', b. split_and!; [done|done| |done|done|by rewrite Hf].
  change (CvLoad message given0 :: evs') with ([CvLoad message given0] ++ evs'). rewrite app_assoc.
  by eapply cache_run_steps.
Qed.

(** ** Witness *)

Module CacheAloneExample.
Definition no_flight : Flight Z := {| hashQuestion _ := 0%Z; sf_inflight _ t := (None, t) |}.
End CacheAloneExample.

Import DnsSimple CacheExample CacheRunExample CacheAloneExample.

Lemma cache_call_alone_witness :
  exists s1 evs' s', cache_step cache (CvLoad request true) (cache_start (∅ : table)) = Some s1 /\
    (alone cache 0 (Some constructor) 8 s1 10%Z).1 = (evs', s') /\
    cache_run (L := table) cache (CvLoad request true :: evs') s'.
Proof.
  pose proof (cache_call_alone (Flight0 := no_flight) cache [] (cache_start (∅ : table)) request
    (Some constructor) 10%Z (cache_run_nil cache 0 ∅ eq_refl) (Forall_nil_2 _) (fun _ _ => eq_refl)) as Halone.
  cbv zeta in Halone.
  destruct (LoadOrStore cache request (Some constructor) _) as [o [l e]].
  destruct Halone as (s1 & evs' & s' & b & Hs & Ha & Hr & _). exists s1, evs', s'.
  split; [exact Hs|]. split; [exact (f_equal fst Ha)|exact Hr].
Defined.
