(* ===== verification/Client.v ===== *)
(** * The resolver's client: [resolve/client.go]

    A [HeadlessClient] turns a name into two questions, asks them through a
    cache, and orders the addresses; a [TransportClient] fixes the transport.
    The cache is used through its interface only: [CachePromises] says what
    the client relies on, and [default_cache_promises] that the cache of
    [resolve/cache.go] keeps it. *)

From S2P Require Import Prelude GoStd Netip Meta Dns Addrs Resolve Cache.

(** ** [type Cache interface] *)

Record CacheOps (L E : Type) := MkCacheOps {
  op_LoadOrStore : Msg -> option (Msg -> ST E (gores (option Msg))) ->
    ST (cache_world L E) outcome;
  op_Store : Msg -> ST (cache_world L E) bool;
  op_Clear : ST (cache_world L E) Z;
}.
Arguments MkCacheOps {L E} _ _ _.
Arguments op_LoadOrStore {L E} _ _ _ _.
Arguments op_Store {L E} _ _ _.
Arguments op_Clear {L E} _ _.

(** What the answers to questions are trusted to satisfy: a relation between
    a question and an address.  It is a parameter of the interface, so that
    every relation the transport's answers satisfy carries over to what the
    client returns. *)
Definition answers_rel : Type := Question -> Addr -> Prop.

(** A message about [question] whose addresses, if it is a success, satisfy
    the relation. *)
Definition good `{SliceLib} (P : answers_rel) (question : Question) (m : Msg) : Prop :=
  m_Question m = [question] /\
  (m_Rcode m = RcodeSuccess -> forall a, In a (DNSMessageToAddresses m) -> P question a).

(** What the client takes as an answer to a question. *)
Definition good_result `{SliceLib} (P : answers_rel) (question : Question) (r : gores (option Msg)) : Prop :=
  match r with
  | (_, Some _) => True
  | (Some response, None) => good P question response
  | (None, None) => False
  end.

(** A function that asks [question]: while the environment is as [J] says,
    it fails or answers about it, and keeps it so. *)
Definition answers_to {E} `{SliceLib} (J : E -> Prop) (P : answers_rel) (question : Question)
    (f : ST E (gores (option Msg))) : Prop :=
  forall e, J e -> good_result P question (f e).1 /\ J (f e).2.

(** What the client relies on, for an invariant of the cache's table and one
    of the environment: asking through the cache one of the questions it is
    [safe] to ask fails, or answers the request. *)
Class CachePromises {L E} `{SliceLib} (ops : CacheOps L E) (J : E -> Prop) (P : answers_rel)
    (safe : Question -> Prop) (inv : L -> Prop) : Prop := {
  cp_LoadOrStore : forall message question f l e,
    m_Question message = [question] -> safe question -> inv l -> J e -> answers_to J P question (f message) ->
    inv (op_LoadOrStore ops message (Some f) (l, e)).2.1 /\
    J (op_LoadOrStore ops message (Some f) (l, e)).2.2 /\
    match (op_LoadOrStore ops message (Some f) (l, e)).1 with
    | OReturn (response, err) => good_result P question (response, err) /\
        (err = None -> m_Id <$> response = Some (m_Id message))
    | ONilCopy => False
    end;
  cp_Clear : forall l e, inv l -> inv (op_Clear ops (l, e)).2.1;
}.

(** ** Goroutine groups: [qtfra/threads] *)

Definition task (W : Type) : Type := string * ST W (exec (option err)).

(** Running the tasks one after the other, to the end. *)
Fixpoint run_tasks {W} (tasks : list (task W)) : ST W (exec (list (option err))) :=
  match tasks with
  | [] => ex_ret []
  | t :: tasks => let! e := t.2 in let! es := run_tasks tasks in ex_ret (e :: es)
  end.

Class ThreadsLib := group_Run : forall W, list (task W) -> ST W (exec (option err)).

(** A group runs all its tasks, in an order of its own, and reports an error
    exactly when one of them did.  Tasks take effect one after the other. *)
Class ThreadsLaws `{ThreadsLib} : Prop := {
  group_Run_spec : forall W (tasks : list (task W)) w,
    exists tasks', Permutation tasks tasks' /\
      match run_tasks tasks' w with
      | (Ret es, w') => exists e, group_Run W tasks w = (Ret e, w') /\
          (e = None <-> Forall (fun x => x = None) es)
      | (Panic why, w') => group_Run W tasks w = (Panic why, w')
      end;
}.

(** The fields of [HeadlessClient] that change: its query counter and what
    is behind its cache. *)
Abbreviation client_world L E := (Z * cache_world L E)%type.

(** [type Transport interface], [resolve/transport/transport.go] *)
Abbreviation Transport E := (Msg -> ST E (gores (option Msg))).

Section client.
Context {L E : Type} `{DnsLib} `{SliceLib} `{ExLib} `{ThreadsLib}.

(** ** State *)

(** The interface value [cache], nil when it is [None]. *)
Variable cache : option (CacheOps L E).

Definition on_cache {A} (m : ST (cache_world L E) A) : ST (client_world L E) A :=
  fun '(q, w) => let '(a, w') := m w in (a, (q, w')).

(** [uint16(atomic.AddUint32(&c.queryID, 1))] *)
Definition next_id : ST (client_world L E) Z :=
  fun '(q, w) => let q := u32 (q + 1) in (u16 q, (q, w)).

(** ** Operations *)

Definition nil_message : string := "transport returned an nil message with nil error".

Definition ExchangeTransport (trans : Transport E) (message : Msg)
    : ST (client_world L E) (exec (gores (option Msg))) :=
  match cache with
  | Some cache =>
      r ← on_cache (op_LoadOrStore cache message (Some trans));
      match r with
      | OReturn (response, Some err) => ex_ret (response, Some err)
      | OReturn (None, None) => ex_panic nil_message
      | OReturn (Some response, None) => ex_ret (Some response, None)
      | ONilCopy => ex_panic "a nil message is copied"
      end
  | None => r ← on_cache (lift_env (trans message)); ex_ret r
  end.

Definition lookup_message (id : Z) (fqdn : string) (typ : Z) : Msg :=
  MkMsg id false false false true false false 0 true [MkQuestion fqdn typ ClassINET] [] [] [].

Definition lookupToExchange (trans : Transport E) (fqdn : string) (typ : Z)
    : ST (client_world L E) (exec (gores (list Addr))) :=
  id ← next_id;
  let! (response, err) := ExchangeTransport trans (lookup_message id fqdn typ) in
  match err, response with
  | Some err, _ => ex_ret ([], Some err)
  | None, None => ex_ret ([], None)
  | None, Some response =>
      if negb (Z.eqb (m_Rcode response) RcodeSuccess)
      then ex_ret ([], Some (NewDNSRecordError (m_Rcode response)))
      else ex_ret (DNSMessageToAddresses response, None)
  end.

(** The variables the two tasks of the group write. *)
Definition lookup_vars : Type := (list Addr * list Addr) * (client_world L E).

(** One task: its addresses are stored when the exchange succeeded. *)
Definition exchange_task (trans : Transport E) (fqdn : string) (typ : Z)
    (store : list Addr -> list Addr * list Addr -> list Addr * list Addr)
    : ST lookup_vars (exec (option err)) :=
  fun '(vars, w) =>
    match lookupToExchange trans fqdn typ w with
    | (Ret (_, Some err), w') => (Ret (ex_Cause (Some err) "lookup"), (vars, w'))
    | (Ret (response, None), w') => (Ret None, (store response vars, w'))
    | (Panic why, w') => (Panic why, (vars, w'))
    end.

Definition lookup_tasks (trans : Transport E) (fqdn : string) : list (task lookup_vars) :=
  [("exchange4", exchange_task trans fqdn TypeA (fun a v => (a, v.2)));
   ("exchange6", exchange_task trans fqdn TypeAAAA (fun a v => (v.1, a)))].

Definition LookupTransport (trans : Transport E) (fqdn : string) (strategy : Strategy)
    : ST (client_world L E) (exec (gores (list Addr))) :=
  if (String.eqb fqdn "" || String.eqb fqdn ".")%bool then
    ex_ret ([], Some (ex_New [XStr "fqdn is empty"]))
  else
    let fqdn := dns_Fqdn fqdn in
    if Z.eqb strategy StrategyIPv4Only then lookupToExchange trans fqdn TypeA
    else if Z.eqb strategy StrategyIPv6Only then lookupToExchange trans fqdn TypeAAAA
    else fun w =>
      match group_Run lookup_vars (lookup_tasks trans fqdn) (([], []), w) with
      | (Panic why, (_, w')) => (Panic why, w')
      | (Ret err, ((response4, response6), w')) =>
          if ((length response4 =? 0)%nat && (length response6 =? 0)%nat)%bool
          then (Ret ([], err), w')
          else (Ret (sortAddresses response4 response6 strategy, None), w')
      end.

Definition CleanCache : ST (client_world L E) Z :=
  match cache with Some cache => on_cache (op_Clear cache) | None => mret 0%Z end.

Definition Headless_Close : ST (client_world L E) (option err) := _ ← CleanCache; mret None.

(** ** [TransportClient] *)

Variable Client_Transport : Transport E.
(** The transport's [Close], when it is an [io.Closer]. *)
Variable Transport_Close : option (ST (client_world L E) (option err)).

Definition Lookup (fqdn : string) (strategy : Strategy)
    : ST (client_world L E) (exec (gores (list Addr))) :=
  LookupTransport Client_Transport fqdn strategy.

Definition Exchange (message : Msg) : ST (client_world L E) (exec (gores (option Msg))) :=
  ExchangeTransport Client_Transport message.

Definition Client_Close : ST (client_world L E) (option err) :=
  err ← match Transport_Close with Some close => close | None => mret None end;
  e ← Headless_Close;
  mret (ex_Errors [err; e]).

End client.

(** [NewHeadlessClient]: the counter starts at a random 16-bit number. *)
Definition NewHeadlessClient {L E} (dns_Id : Z) (w : cache_world L E) : client_world L E :=
  (u32 dns_Id, w).

(** ** Lemmas *)

Section client_lemmas.
Context {L E : Type} `{DnsLib} `{SliceLib} `{ExLaws} `{ThreadsLaws}.
Context (ops : CacheOps L E) (J : E -> Prop) (P : answers_rel) (safe : Question -> Prop) (inv : L -> Prop).
Context `{!CachePromises ops J P safe inv}.
Implicit Types (w : client_world L E).

(** A transport that fails or answers the question of the message, when it
    asks for addresses. *)
Definition honest (trans : Transport E) : Prop :=
  forall message question, m_Question message = [question] ->
    q_Qtype question = TypeA \/ q_Qtype question = TypeAAAA ->
    answers_to J P question (trans message).

Definition world_ok (w : client_world L E) : Prop := inv w.2.1 /\ J w.2.2.

Lemma ExchangeTransport_run trans message q c :
  ExchangeTransport (Some ops) trans message (q, c) =
  match op_LoadOrStore ops message (Some trans) c with
  | (OReturn (response, Some err), c') => (Ret (response, Some err), (q, c'))
  | (OReturn (None, None), c') => (Panic nil_message, (q, c'))
  | (OReturn (Some response, None), c') => (Ret (Some response, None), (q, c'))
  | (ONilCopy, c') => (Panic "a nil message is copied", (q, c'))
  end.
Proof.
  unfold ExchangeTransport, on_cache, mbind, ST_bind, ex_ret, ex_panic.
  by destruct (op_LoadOrStore ops message (Some trans) c) as [[[[response|] [err|]]|] c'].
Qed.

(** Through the cache, a request with one question fails or is answered. *)
Lemma ExchangeTransport_sound trans message question q l e :
  honest trans -> inv l -> J e -> m_Question message = [question] -> safe question ->
  q_Qtype question = TypeA \/ q_Qtype question = TypeAAAA ->
  exists r c', ExchangeTransport (Some ops) trans message (q, (l, e)) = (Ret r, (q, c')) /\
    inv c'.1 /\ J c'.2 /\ good_result P question r.
Proof.
  intros Ht Hl He Hq Hsafe Hty.
  destruct (cp_LoadOrStore (ops := ops) message question trans l e Hq Hsafe Hl He (Ht message _ Hq Hty))
    as (Hinv & HJ & Hr).
  rewrite ExchangeTransport_run. revert Hinv HJ Hr.
  destruct (op_LoadOrStore ops message (Some trans) (l, e)) as [[[[response|] [err|]]|] c'];
    cbn [fst snd]; intros Hinv HJ Hr; try done; try by destruct Hr.
  all: eexists _, _; (split; [reflexivity|]); by destruct Hr.
Qed.

(** One exchange of a lookup: it asks the question under the next id, keeps
    the invariant of the cache and does not panic. *)
Lemma lookupToExchange_sound trans fqdn typ w :
  honest trans -> typ = TypeA \/ typ = TypeAAAA -> safe (MkQuestion fqdn typ ClassINET) -> world_ok w ->
  exists addrs err w', lookupToExchange (Some ops) trans fqdn typ w = (Ret (addrs, err), w') /\
    world_ok w' /\ w'.1 = u32 (w.1 + 1) /\ (is_Some err -> addrs = []) /\
    (forall a, In a addrs -> P (MkQuestion fqdn typ ClassINET) a).
Proof.
  intros Ht Hty Hsafe Hw. destruct w as [q [l e]], Hw as [Hl He].
  destruct (ExchangeTransport_sound trans (lookup_message (u16 (u32 (q + 1))) fqdn typ)
    (MkQuestion fqdn typ ClassINET) (u32 (q + 1)) l e Ht Hl He eq_refl Hsafe Hty)
    as (r & c' & Hx & Hinv & HJ & Hr).
  unfold lookupToExchange. rewrite ST_bind_run. cbn [next_id fst snd]. unfold ex_bind.
  rewrite Hx. unfold ex_ret. destruct r as [[response|] [err|]]; try done.
  - exists [], (Some err), (u32 (q + 1), c'). by repeat split.
  - destruct Hr as [_ Hr]. destruct (Z.eqb_spec (m_Rcode response) RcodeSuccess) as [Hc|Hc]; simpl.
    + exists (DNSMessageToAddresses response), None, (u32 (q + 1), c').
      split; [done|]. split; [done|]. split; [done|]. split; [by intros []|]. by apply Hr.
    + by eexists [], (Some _), (u32 (q + 1), c').
  - exists [], (Some err), (u32 (q + 1), c'). by repeat split.
Qed.

End client_lemmas.

Section client_properties.
Context {L E : Type} `{DnsLib} `{SliceLib} `{ExLaws} `{ThreadsLaws}.
Implicit Types (w : client_world L E).

(** What a task of the group leaves: the addresses only when the exchange
    succeeded. *)
Definition kept (addrs : list Addr) (err : option err) : list Addr :=
  match err with None => addrs | Some _ => [] end.

Lemma exchange_task_run cache trans fqdn typ store vars w addrs e w' :
  lookupToExchange cache trans fqdn typ w = (Ret (addrs, e), w') ->
  exchange_task cache trans fqdn typ store (vars, w) =
    (Ret (match e with None => None | Some e => ex_Cause (Some e) "lookup" end),
     ((match e with None => store addrs vars | Some _ => vars end), w')).
Proof. intros Hl. unfold exchange_task. rewrite Hl. by destruct e. Qed.

(** The two exchanges of a lookup, in the order [v4first]. *)
Definition both_exchanges cache trans fqdn (v4first : bool) w
    (a4 : list Addr) (e4 : option err) (a6 : list Addr) (e6 : option err) w' : Prop :=
  if v4first then exists w1,
    lookupToExchange (L := L) (E := E) cache trans fqdn TypeA w = (Ret (a4, e4), w1) /\
    lookupToExchange cache trans fqdn TypeAAAA w1 = (Ret (a6, e6), w')
  else exists w1,
    lookupToExchange cache trans fqdn TypeAAAA w = (Ret (a6, e6), w1) /\
    lookupToExchange cache trans fqdn TypeA w1 = (Ret (a4, e4), w').

#[local] Arguments exchange_task : simpl never.

(** How the two answers are combined. *)
Definition combined strategy a4 (e4 : option err) a6 (e6 : option err)
    (r : gores (list Addr)) : Prop :=
  if ((length (kept a4 e4) =? 0)%nat && (length (kept a6 e6) =? 0)%nat)%bool
  then r.1 = [] /\ (r.2 = None <-> e4 = None /\ e6 = None)
  else r = (sortAddresses (kept a4 e4) (kept a6 e6) strategy, None).

(** The error a task reports. *)
Definition task_err (e : option err) : option err :=
  match e with None => None | Some e => ex_Cause (Some e) "lookup" end.

Lemma task_err_none e : task_err e = None <-> e = None.
Proof.
  destruct e as [e|]; simpl; [|done]. destruct (ex_Cause_some e "lookup") as [x ->]. done.
Qed.

(** The variables after both tasks ran. *)
Lemma tasks_run cache trans fqdn v4first w a4 e4 a6 e6 w' :
  both_exchanges cache trans fqdn v4first w a4 e4 a6 e6 w' ->
  exists es, (es = [task_err e4; task_err e6] \/ es = [task_err e6; task_err e4]) /\
    run_tasks (let ts := lookup_tasks cache trans fqdn in if v4first then ts else rev ts)
      (([], []), w) = (Ret es, ((kept a4 e4, kept a6 e6), w')).
Proof.
  destruct v4first; intros (w1 & Hl1 & Hl2); simpl; unfold ex_bind, ex_ret;
    rewrite (exchange_task_run _ _ _ _ _ _ _ _ _ _ Hl1); simpl;
    rewrite (exchange_task_run _ _ _ _ _ _ _ _ _ _ Hl2); simpl;
    destruct e4, e6; simpl; eauto.
Qed.

Lemma LookupTransport_run cache trans fqdn strategy w :
  fqdn <> "" -> fqdn <> "." -> strategy <> StrategyIPv4Only -> strategy <> StrategyIPv6Only ->
  exists v4first, forall a4 e4 a6 e6 w',
    both_exchanges cache trans (dns_Fqdn fqdn) v4first w a4 e4 a6 e6 w' ->
    exists r, LookupTransport cache trans fqdn strategy w = (Ret r, w') /\
      combined strategy a4 e4 a6 e6 r.
Proof.
  intros Hf Hd Hs4 Hs6. unfold LookupTransport.
  apply String.eqb_neq in Hf as ->. apply String.eqb_neq in Hd as ->.
  apply Z.eqb_neq in Hs4 as ->. apply Z.eqb_neq in Hs6 as ->. cbn [orb].
  destruct (group_Run_spec _ (lookup_tasks cache trans (dns_Fqdn fqdn)) (([], []), w))
    as (tasks & Hp & Hg).
  assert (exists v4first, tasks = let ts := lookup_tasks cache trans (dns_Fqdn fqdn) in
            if v4first : bool then ts else rev ts) as [v4first ->].
  { apply Permutation_length_2_inv in Hp as [-> | ->]; [by exists true|by exists false]. }
  exists v4first. intros a4 e4 a6 e6 w' Hb.
  destruct (tasks_run _ _ _ _ _ _ _ _ _ _ Hb) as (es & Hes & Hrun).
  rewrite Hrun in Hg. destruct Hg as (e & -> & He).
  assert (e = None <-> e4 = None /\ e6 = None) as Hee.
  { rewrite He, <- (task_err_none e4), <- (task_err_none e6).
    destruct Hes as [-> | ->]; rewrite !Forall_cons, Forall_nil; tauto. }
  unfold combined. destruct (_ && _)%bool; eexists; split; try reflexivity. by split.
Qed.

(** ** Properties *)

(** A lookup of both families asks both questions, in one order or the
    other, and combines the answers: the addresses of the exchanges that
    succeeded, in the order the strategy prefers, without an error as soon
    as there is one address; with no address at all it reports an error
    exactly when an exchange failed. *)
Theorem LookupTransport_families cache trans fqdn strategy w :
  fqdn <> "" -> fqdn <> "." -> strategy <> StrategyIPv4Only -> strategy <> StrategyIPv6Only ->
  exists v4first, forall a4 e4 a6 e6 w',
    both_exchanges cache trans (dns_Fqdn fqdn) v4first w a4 e4 a6 e6 w' ->
    exists r, LookupTransport cache trans fqdn strategy w = (Ret r, w') /\
      combined strategy a4 e4 a6 e6 r.
Proof. apply LookupTransport_run. Qed.

(** The query types a strategy asks for. *)
Definition strategy_types (strategy : Strategy) : list Z :=
  if Z.eqb strategy StrategyIPv4Only then [TypeA]
  else if Z.eqb strategy StrategyIPv6Only then [TypeAAAA] else [TypeA; TypeAAAA].

Lemma kept_in addrs (err : option err) a : In a (kept addrs err) -> err = None /\ In a addrs.
Proof. by destruct err. Qed.

Lemma combined_in strategy a4 e4 a6 e6 r a :
  combined strategy a4 e4 a6 e6 r -> In a r.1 ->
  (e4 = None /\ In a a4) \/ (e6 = None /\ In a a6).
Proof.
  unfold combined. destruct (_ && _)%bool.
  - by intros [-> _].
  - intros -> Ha. simpl in Ha. unfold sortAddresses in Ha.
    destruct (_ || _)%bool; apply in_app_iff in Ha as [Ha|Ha]; apply kept_in in Ha; auto.
Qed.

Lemma combined_err strategy a4 e4 a6 e6 addrs err a :
  combined strategy a4 e4 a6 e6 (addrs, err) -> In a addrs -> err = None.
Proof. unfold combined. destruct (_ && _)%bool; simpl; [by intros [-> _]|by intros [= _ ->]]. Qed.

(** A strategy of one family asks one question. *)
Lemma LookupTransport_IPv4Only cache trans fqdn w :
  fqdn <> "" -> fqdn <> "." ->
  LookupTransport (L := L) (E := E) cache trans fqdn StrategyIPv4Only w =
  lookupToExchange cache trans (dns_Fqdn fqdn) TypeA w.
Proof.
  intros Hne Hnd. unfold LookupTransport.
  apply String.eqb_neq in Hne as ->. by apply String.eqb_neq in Hnd as ->.
Qed.

Lemma LookupTransport_IPv6Only cache trans fqdn w :
  fqdn <> "" -> fqdn <> "." ->
  LookupTransport (L := L) (E := E) cache trans fqdn StrategyIPv6Only w =
  lookupToExchange cache trans (dns_Fqdn fqdn) TypeAAAA w.
Proof.
  intros Hne Hnd. unfold LookupTransport.
  apply String.eqb_neq in Hne as ->. by apply String.eqb_neq in Hnd as ->.
Qed.

(** Both exchanges run, in either order, each answered. *)
Lemma both_exchanges_sound (ops : CacheOps L E) J P safe inv `{!CachePromises ops J P safe inv}
    trans fqdn v4first w :
  honest J P trans -> world_ok J inv w ->
  safe (MkQuestion fqdn TypeA ClassINET) -> safe (MkQuestion fqdn TypeAAAA ClassINET) ->
  exists a4 e4 a6 e6 w',
    both_exchanges (Some ops) trans fqdn v4first w a4 e4 a6 e6 w' /\ world_ok J inv w' /\
    (forall a, In a a4 -> P (MkQuestion fqdn TypeA ClassINET) a) /\
    (forall a, In a a6 -> P (MkQuestion fqdn TypeAAAA ClassINET) a).
Proof.
  intros Ht Hw Hs4 Hs6. destruct v4first.
  - destruct (lookupToExchange_sound ops J P safe inv trans fqdn TypeA w Ht (or_introl eq_refl) Hs4 Hw)
      as (a4 & e4 & w1 & Hl4 & Hw1 & _ & _ & Ha4).
    destruct (lookupToExchange_sound ops J P safe inv trans fqdn TypeAAAA w1 Ht (or_intror eq_refl) Hs6 Hw1)
      as (a6 & e6 & w2 & Hl6 & Hw2 & _ & _ & Ha6).
    exists a4, e4, a6, e6, w2. split; [by exists w1|]. auto.
  - destruct (lookupToExchange_sound ops J P safe inv trans fqdn TypeAAAA w Ht (or_intror eq_refl) Hs6 Hw)
      as (a6 & e6 & w1 & Hl6 & Hw1 & _ & _ & Ha6).
    destruct (lookupToExchange_sound ops J P safe inv trans fqdn TypeA w1 Ht (or_introl eq_refl) Hs4 Hw1)
      as (a4 & e4 & w2 & Hl4 & Hw2 & _ & _ & Ha4).
    exists a4, e4, a6, e6, w2. split; [by exists w1|]. auto.
Qed.

(** A lookup through a cache that keeps its promises, of questions it is
    safe to ask, over a transport that fails or answers the question, does not panic, keeps the cache's
    invariant, and returns only addresses that satisfy the relation for a
    question for that name, of a type the strategy asks for. *)
Lemma Lookup_promised (ops : CacheOps L E) J P safe inv `{!CachePromises ops J P safe inv}
    trans fqdn strategy w :
  honest J P trans -> world_ok J inv w ->
  (forall typ, In typ (strategy_types strategy) -> safe (MkQuestion (dns_Fqdn fqdn) typ ClassINET)) ->
  exists addrs err w', Lookup (Some ops) trans fqdn strategy w = (Ret (addrs, err), w') /\
    world_ok J inv w' /\ (is_Some err -> addrs = []) /\
    forall a, In a addrs -> exists typ, In typ (strategy_types strategy) /\
      P (MkQuestion (dns_Fqdn fqdn) typ ClassINET) a.
Proof.
  intros Ht Hw Hsafe. unfold Lookup.
  assert (forall typ, strategy_types strategy = [typ] -> typ = TypeA \/ typ = TypeAAAA ->
    exists addrs err w',
    lookupToExchange (Some ops) trans (dns_Fqdn fqdn) typ w = (Ret (addrs, err), w') /\
    world_ok J inv w' /\ (is_Some err -> addrs = []) /\ forall a, In a addrs -> exists typ,
      In typ (strategy_types strategy) /\ P (MkQuestion (dns_Fqdn fqdn) typ ClassINET) a) as Hone.
  { intros typ Htyp Hty. rewrite Htyp in *.
    destruct (lookupToExchange_sound ops J P safe inv trans (dns_Fqdn fqdn) typ w Ht Hty
      (Hsafe typ (or_introl eq_refl)) Hw)
      as (addrs & err & w' & Hl & Hw' & _ & Herr & Ha).
    exists addrs, err, w'. split_and!; [done..|]. intros a Hin. exists typ. split; [by left|auto]. }
  unfold strategy_types in *.
  destruct (String.eqb_spec fqdn "") as [->|Hne]; [by eexists [], (Some _), w|].
  destruct (String.eqb_spec fqdn ".") as [->|Hnd]; [by eexists [], (Some _), w|].
  destruct (Z.eqb_spec strategy StrategyIPv4Only) as [->|H4only].
  { rewrite LookupTransport_IPv4Only by done. apply Hone; [done|by left]. }
  destruct (Z.eqb_spec strategy StrategyIPv6Only) as [->|H6only].
  { rewrite LookupTransport_IPv6Only by done. apply Hone; [done|by right]. }
  destruct (LookupTransport_run (Some ops) trans fqdn strategy w Hne Hnd H4only H6only)
    as [v4first Hrun].
  destruct (both_exchanges_sound ops J P safe inv trans (dns_Fqdn fqdn) v4first w Ht Hw
    (Hsafe TypeA (or_introl eq_refl)) (Hsafe TypeAAAA (or_intror (or_introl eq_refl))))
    as (a4 & e4 & a6 & e6 & w' & Hb & Hw' & Ha4 & Ha6).
  destruct (Hrun _ _ _ _ _ Hb) as ([addrs err] & Hr & Hc).
  exists addrs, err, w'. split; [done|]. split; [done|]. split.
  - intros [e ->]. destruct addrs as [|a addrs]; [done|].
    by pose proof (combined_err _ _ _ _ _ _ _ a Hc (or_introl eq_refl)).
  - intros a Hin. apply (combined_in _ _ _ _ _ _ a Hc) in Hin as [[_ Hin]|[_ Hin]].
    + exists TypeA. split; [by left|auto].
    + exists TypeAAAA. split; [by right; left|auto].
Qed.

End client_properties.

(** ** The cache of [resolve/cache.go] keeps the promises *)

Definition default_cache_ops {L E} `{DnsLib} `{SliceLib} `{!LruLib L} `{!Clock E} `{!Flight E}
    (c : defaultCache) : CacheOps L E :=
  MkCacheOps (LoadOrStore c) (Store c) Clear.

(** The calls in flight are for some of the questions [flying], each under
    the hash of its own, and it comes to an error or an answer to it. *)
Class FlightHonest (E : Type) `{SliceLib} `{Flight E} (J : E -> Prop) (flying : Question -> Prop)
    (P : answers_rel) : Prop :=
  flight_honest : forall key e r, J e -> (sf_inflight key e).1 = Some r ->
    exists q, flying q /\ hashQuestion q = key /\ good_result P q r.

(** No other question that may be in flight has the hash of [question]: the
    hash has 32 bits, and does not promise it. *)
Definition no_collision {E} `{Flight E} (flying : Question -> Prop) (question : Question) : Prop :=
  forall q, flying q -> hashQuestion q = hashQuestion question -> q = question.

(** The successful entries of the table satisfy the relation. *)
Definition vouched {L} `{!LruLib L} `{SliceLib} (P : answers_rel) (l : L) : Prop :=
  forall q x m, lru_has l q x -> ce_Message x = Some m -> m_Rcode m = RcodeSuccess ->
    forall a, In a (DNSMessageToAddresses m) -> P q a.

Section default_cache.
Context {L E : Type} `{DnsLaws} `{SliceLaws} `{LruLaws L} `{!Clock E} `{!Flight E}.
Context (J : E -> Prop) (flying : Question -> Prop) (P : answers_rel).
Context `{!EnvKeeps J} `{!FlightHonest E J flying P}.

Lemma good_same question r m : same_answer r m -> good P question m -> good P question r.
Proof.
  intros Hs [Hq Hm]. unfold good. rewrite (same_answer_addresses _ _ Hs).
  destruct Hs as (-> & -> & _). done.
Qed.

(** What [CachePromises] asks of a call, from the lemmas of the cache. *)
Lemma default_LoadOrStore_promise c message question (f : Transport E) l e :
  m_Question message = [question] -> no_collision flying question ->
  coherent c l -> vouched P l -> J e ->
  answers_to J P question (f message) ->
  match (LoadOrStore c message (Some f) (l, e)).1 with
  | OReturn (response, err) => good_result P question (response, err) /\
      (err = None -> m_Id <$> response = Some (m_Id message))
  | ONilCopy => False
  end.
Proof.
  intros Hq Hnc Hl Hv HJ Hf.
  assert (forall e' r, J e' -> (sf_inflight (hashQuestion question) e').1 = Some r ->
    good_result P question r) as Hfly.
  { intros e' r He' Hj. destruct (flight_honest _ e' r He' Hj) as (q & Hfq & Hh & Hg).
    by rewrite <- (Hnc q Hfq Hh). }
  pose proof (LoadOrStore_source J c message question f l e HJ Hq) as Hr.
  destruct (LoadOrStore c message (Some f) (l, e)) as [[[[response|] err]|] w]; simpl in *.
  - destruct Hr as (-> & Hid & m & Hs & Hm). split; [|by rewrite Hid].
    apply (good_same _ _ _ Hs). destruct Hm as [(x & Hx & Hm)|[(e' & He' & Hj)|(e' & He' & Hm)]].
    + destruct (Hl _ _ Hx) as (m' & Hm' & Hqm & _). simplify_eq. split; [done|]. by eapply Hv.
    + exact (Hfly e' _ He' Hj).
    + destruct (Hf e' He') as [Hg _]. by rewrite Hm in Hg.
  - destruct Hr as [e0 ->]. by split.
  - destruct Hr as (e' & He' & [Hn|Hn]).
    + destruct (Hf e' He') as [Hg _]. by rewrite Hn in Hg.
    + by destruct (Hfly e' _ He' Hn).
Qed.

#[global] Instance default_cache_promises c :
  CachePromises (default_cache_ops (L := L) (E := E) c) J P (no_collision flying)
    (fun l => coherent c l /\ vouched P l).
Proof.
  split.
  - intros message question f l e Hq Hnc [Hl Hv] HJ Hf.
    split; [|split; [|by apply default_LoadOrStore_promise]].
    2: { apply (LoadOrStore_env J); [|done]. intros g [= <-] e' He'. by apply Hf. }
    split.
    + intros q x Hx. apply (LoadOrStore_table J) in Hx
        as [|(g & e' & r & _ & _ & _ & _ & ? & ? & ?)]; [auto|by exists r|done].
    + intros q x m Hx Hm Hok. apply (LoadOrStore_table J) in Hx
        as [Hx|(g & e' & r & [= <-] & He' & Hr & _ & Hqr & Hxr & _)]; [by eapply Hv| |done].
      destruct (Hf e' He') as [Hg _]. rewrite Hr in Hg. destruct Hg as [Hqr' Hgood].
      assert (q = question) as -> by congruence. simplify_eq. by apply Hgood.
  - intros l e _. split; intros q x; [|intros m]; intros Hx; by apply lru_Purge_empty in Hx.
Qed.

(** A lookup through the default cache. *)
Lemma Lookup_default `{ExLaws} `{ThreadsLaws} c trans fqdn strategy (w : client_world L E) :
  honest J P trans ->
  (forall typ, In typ (strategy_types strategy) ->
    no_collision flying (MkQuestion (dns_Fqdn fqdn) typ ClassINET)) ->
  coherent c w.2.1 -> vouched P w.2.1 -> J w.2.2 ->
  exists addrs err w',
    Lookup (Some (default_cache_ops c)) trans fqdn strategy w = (Ret (addrs, err), w') /\
    coherent c w'.2.1 /\ vouched P w'.2.1 /\ J w'.2.2 /\ (is_Some err -> addrs = []) /\
    forall a, In a addrs -> exists typ, In typ (strategy_types strategy) /\
      P (MkQuestion (dns_Fqdn fqdn) typ ClassINET) a.
Proof.
  intros Ht Hnc Hc Hv HJ.
  destruct (Lookup_promised (default_cache_ops c) J P (no_collision flying)
    (fun l => coherent c l /\ vouched P l) trans fqdn strategy w Ht (conj (conj Hc Hv) HJ) Hnc)
    as (addrs & err & w' & Hl & [[? ?] ?] & ? & ?).
  by exists addrs, err, w'.
Qed.

End default_cache.

(** C14: a lookup of a [TransportClient] with the default cache.  Let [P] be
    any relation between questions and addresses that holds of the
    successful answers of the transport, which fails or answers the question
    for addresses it is asked, and of what the cache holds; [J] is what these
    need of the environment, and keep.  The calls of other callers that may
    be in flight are for the questions [flying]: each comes to an error or to
    an answer to its own question, in the relation; and none of these
    questions, unless it is the same, has the hash of one that the lookup
    asks.  Then the lookup does not panic, keeps the cache coherent and its
    entries in the relation, and each address it returns is related to a
    question for the name, of a type the strategy asks for; with an error
    there is no address. *)
Theorem Lookup_sound {L E} `{DnsLaws} `{SliceLaws} `{LruLaws L} `{!Clock E} `{!Flight E}
    J flying P `{!EnvKeeps J} `{!FlightHonest E J flying P} `{ExLaws} `{ThreadsLaws} c trans fqdn strategy
    (w : client_world L E) :
  honest J P trans ->
  (forall typ, In typ (strategy_types strategy) ->
    no_collision flying (MkQuestion (dns_Fqdn fqdn) typ ClassINET)) ->
  coherent c w.2.1 -> vouched P w.2.1 -> J w.2.2 ->
  exists addrs err w',
    Lookup (Some (default_cache_ops c)) trans fqdn strategy w = (Ret (addrs, err), w') /\
    coherent c w'.2.1 /\ vouched P w'.2.1 /\ J w'.2.2 /\ (is_Some err -> addrs = []) /\
    forall a, In a addrs -> exists typ, In typ (strategy_types strategy) /\
      P (MkQuestion (dns_Fqdn fqdn) typ ClassINET) a.
Proof. intros ? ? ? ? ?. by eapply Lookup_default. Qed.

(** ** A concrete client for the witnesses *)

Module ClientExample.

(** Tasks in the order they were appended; the first error is reported. *)
#[global] Instance group_sequential : ThreadsLib | 100 := fun W tasks w =>
  match run_tasks tasks w with
  | (Ret es, w') => (Ret (List.nth 0 (List.filter (fun e : option err =>
      match e with Some _ => true | None => false end) es) None), w')
  | (Panic why, w') => (Panic why, w')
  end.

#[global] Instance group_sequential_laws : @ThreadsLaws group_sequential | 100.
Proof.
  split. intros W tasks w. exists tasks. split; [done|].
  unfold group_Run, group_sequential. destruct (run_tasks tasks w) as [[es|why] w']; [|done].
  eexists. split; [reflexivity|]. induction es as [|[e|] es IH]; simpl.
  - done.
  - split; [done|]. by intros [? _]%Forall_cons.
  - rewrite IH. split; [by constructor|by intros [_ ?]%Forall_cons].
Qed.

(** A caller has the question for "b." in flight; its hash is only that of
    questions for this name. *)
Definition question_b : Question := MkQuestion "b." TypeA ClassINET.
Definition flying : Question -> Prop := fun q => q = question_b.
Definition hash_name (q : Question) : Z := if String.eqb (q_Name q) "b." then 1%Z else 0%Z.

#[global] Instance flight_b : Flight nat | 100 := {
  hashQuestion := hash_name;
  sf_inflight key n :=
    ((if Z.eqb key 1 then Some (Some (FixedResponse 3 question_b [Addr4 5] 60), None) else None), n);
}.

#[global] Instance clock_stopped : Clock nat | 100 := fun n => (1%Z, n).

(** A server that answers both families and counts the questions. *)
Definition server : Transport nat := fun m n =>
  match m_Question m with
  | [q] => ((Some (FixedResponse (m_Id m) q [Addr4 5; Addr6 1 ""] 60), None), S n)
  | _ => ((None, Some (ENew "no question")), n)
  end.

(** Its addresses, by the type of the question. *)
Definition of_server : answers_rel := fun q a =>
  (q_Qtype q = TypeA /\ a = Addr4 5) \/ (q_Qtype q = TypeAAAA /\ a = Addr6 1 "").

Lemma server_honest : honest (fun _ => True) of_server server.
Proof.
  intros m q Hq _ e _. unfold server. rewrite Hq. simpl. split; [|done]. split; [done|]. intros _ a.
  rewrite (proj1 (FixedResponse_addresses (m_Id m) q [Addr4 5; Addr6 1 ""] 60
    ltac:(repeat constructor; simpl; lia))).
  unfold of_server, type_family.
  destruct (Z.eqb_spec (q_Qtype q) TypeA) as [E|E]; simpl.
  - rewrite E. simpl. intros [<-|[]]. by left.
  - destruct (Z.eqb_spec (q_Qtype q) TypeAAAA) as [E6|E6]; simpl; [|done].
    intros [<-|[]]. by right.
Qed.

#[global] Instance flight_b_honest : FlightHonest nat (fun _ => True) flying of_server | 100.
Proof.
  intros key e r _. simpl. destruct (Z.eqb_spec key 1) as [->|]; simpl; [|done]. intros [= <-].
  exists question_b. split; [done|]. split; [done|]. split; [done|]. intros _ a.
  rewrite (proj1 (FixedResponse_addresses 3 question_b [Addr4 5] 60 ltac:(repeat constructor; simpl; lia))).
  intros [<-|[]]. by left.
Qed.

Definition cache : defaultCache := MkCache 0 (2 ^ 32 - 1).

Definition start : client_world CacheExample.table nat := NewHeadlessClient 65534 (∅, 0).

End ClientExample.

(** Both families are asked for, under ids 65535 and 0, and preferred as the
    strategy says; a lookup of "b" for IPv4 joins the call in flight. *)
Lemma Lookup_sound_witness :
  let lookup := fun fqdn strategy =>
    Lookup (Some (default_cache_ops ClientExample.cache)) ClientExample.server fqdn strategy
      ClientExample.start in
  let run := lookup "a" StrategyPreferIPv4 in
  let joined := lookup "b" StrategyIPv4Only in
  run.1 = Ret ([Addr4 5; Addr6 1 ""], None) /\ run.2.2.2 = 2 /\
  joined.1 = Ret ([Addr4 5], None) /\ joined.2.2.2 = 0 /\
  (exists addrs err w', run = (Ret (addrs, err), w') /\ coherent ClientExample.cache w'.2.1 /\
    forall a, In a addrs -> exists typ, In typ (strategy_types StrategyPreferIPv4) /\
      ClientExample.of_server (MkQuestion (dns_Fqdn "a") typ ClassINET) a) /\
  (exists addrs err w', joined = (Ret (addrs, err), w') /\
    forall a, In a addrs -> exists typ, In typ (strategy_types StrategyIPv4Only) /\
      ClientExample.of_server (MkQuestion (dns_Fqdn "b") typ ClassINET) a).
Proof.
  cbv zeta. do 4 (split; [vm_compute; reflexivity|]).
  assert (vouched ClientExample.of_server (∅ : CacheExample.table)) as Hempty.
  { intros q x m Hx. simpl in Hx. by rewrite lookup_empty in Hx. }
  split.
  - destruct (Lookup_sound (L := CacheExample.table) (E := nat) (fun _ => True) ClientExample.flying
      ClientExample.of_server ClientExample.cache ClientExample.server "a" StrategyPreferIPv4
      ClientExample.start ClientExample.server_honest)
      as (addrs & err & w' & Hl & Hc & _ & _ & _ & Ha).
    + intros typ _ q ->. discriminate.
    + apply CacheExample.coherent_empty.
    + exact Hempty.
    + exact I.
    + exists addrs, err, w'. split; [exact Hl|]. split; [exact Hc|exact Ha].
  - destruct (Lookup_sound (L := CacheExample.table) (E := nat) (fun _ => True) ClientExample.flying
      ClientExample.of_server ClientExample.cache ClientExample.server "b" StrategyIPv4Only
      ClientExample.start ClientExample.server_honest)
      as (addrs & err & w' & Hl & _ & _ & _ & _ & Ha).
    + intros typ [<-|[]] q -> _. reflexivity.
    + apply CacheExample.coherent_empty.
    + exact Hempty.
    + exact I.
    + exists addrs, err, w'. split; [exact Hl|exact Ha].
Defined.

(** The order of the sequential group is IPv4 first. *)
Lemma LookupTransport_families_witness :
  exists v4first : bool, forall a4 e4 a6 e6 w',
    both_exchanges (Some (default_cache_ops ClientExample.cache)) ClientExample.server (dns_Fqdn "a")
      v4first ClientExample.start a4 e4 a6 e6 w' ->
    exists r, LookupTransport (Some (default_cache_ops ClientExample.cache)) ClientExample.server "a"
      StrategyPreferIPv6 ClientExample.start = (Ret r, w') /\
      combined StrategyPreferIPv6 a4 e4 a6 e6 r.
Proof.
  apply (LookupTransport_families (L := CacheExample.table) (E := nat)); discriminate.
Defined.
