(* ===== verification/Nat.v ===== *)
(** * Packet connections: [netio/serial.go], [netio/nat.go], [netio/packet.go]

    Opening a packet connection for the first address that works, and the
    connection that exchanges one address for another in both directions. *)

From S2P Require Import Prelude GoStd Netip Meta Dns Addrs Dialer.

(** ** [net.PacketConn] *)

(** The methods the sources call, on a world [W]. *)
Record PacketConn (W : Type) := MkPacketConn {
  pc_ReadFrom : Z -> ST W (list Z * NetAddr * option err);
  pc_WriteTo : list Z -> NetAddr -> ST W (Z * option err);
  pc_LocalAddr : NetAddr;
}.
Arguments MkPacketConn {W} _ _ _.
Arguments pc_ReadFrom {W} _ _ _.
Arguments pc_WriteTo {W} _ _ _ _.
Arguments pc_LocalAddr {W} _.

(** ** [ListenPacketSerial] *)

Section serial.
Context {W Conn PConn : Type} `{ExLib}.
Variable dialer : Dialer W Conn PConn.

(** The loop, with the errors joined so far. *)
Fixpoint listen_loop (errJoin : option err) (destination : list Addr) (port : Z)
    : ST W (gores (option PConn)) :=
  match destination with
  | [] => mret (None, errJoin)
  | addr :: destination =>
      '(packetConn, e) ← d_ListenPacket dialer (FromAddrPort (AddrPortFrom addr port));
      match packetConn with
      | Some packetConn => mret (Some packetConn, None)
      | None => listen_loop (ex_JoinError_NewError errJoin e) destination port
      end
  end.

Definition ListenPacketSerial (destination : list Addr) (port : Z)
    : ST W (gores (option PConn)) :=
  listen_loop None destination port.

(** The calls that give no connection, taking the world from [w] to [w']. *)
Inductive listen_fails (port : Z) : list Addr -> W -> W -> Prop :=
  | listen_fails_nil w : listen_fails port [] w w
  | listen_fails_cons a l e w w1 w2 :
      d_ListenPacket dialer (FromAddrPort (AddrPortFrom a port)) w = ((None, e), w1) ->
      listen_fails port l w1 w2 -> listen_fails port (a :: l) w w2.

Lemma listen_loop_outcome errs destination port w :
  let '(r, w') := listen_loop errs destination port w in
  (exists pre a post c e w1, destination = pre ++ a :: post /\ listen_fails port pre w w1 /\
     d_ListenPacket dialer (FromAddrPort (AddrPortFrom a port)) w1 = ((Some c, e), w') /\
     r = (Some c, None)) \/
  (exists e, listen_fails port destination w w' /\ r = (None, e)).
Proof.
  revert errs w. induction destination as [|a l IH]; intros errs w; simpl.
  { right. exists errs. split; [constructor|done]. }
  unfold mbind, ST_bind.
  destruct (d_ListenPacket dialer (FromAddrPort (AddrPortFrom a port)) w) as [[[c|] e] w1] eqn:Ed.
  { left. exists [], a, l, c, e, w. split; [done|]. split; [constructor|done]. }
  specialize (IH (ex_JoinError_NewError errs e) w1).
  destruct (listen_loop (ex_JoinError_NewError errs e) l port w1) as [r w'].
  destruct IH as [(pre & b & post & c & e' & w2 & -> & Hf & Hb & Hr)|(e' & Hf & Hr)].
  - left. exists (a :: pre), b, post, c, e', w2. split; [done|]. split; [by econstructor|done].
  - right. exists e'. split; [by econstructor|done].
Qed.

End serial.

(** ** [BidNatPacketConn] *)

Section nat.
Context {W : Type}.

Record BidNatPacketConn := MkBidNat {
  bn_PacketConn : PacketConn W;
  bn_destination : Socksaddr;
  bn_source : Socksaddr;
}.

Definition NewBidirectionalNatConn (conn : PacketConn W) (destination source : Socksaddr)
    : BidNatPacketConn :=
  MkBidNat conn (Socksaddr_NoPort destination) (Socksaddr_NoPort source).

(** [original] with the address and name of [to], when without its port it
    is [from]. *)
Definition nat_swap (from to original : Socksaddr) : Socksaddr :=
  if bool_decide (Socksaddr_NoPort original = from)
  then MkSocks (sa_Fqdn to) (sa_Addr to) (sa_Port original)
  else original.

Definition BidNat_ReadFrom (b : BidNatPacketConn) (size : Z)
    : ST W (list Z * NetAddr * option err) :=
  '(p, addr, e) ← pc_ReadFrom (bn_PacketConn b) size;
  match e with
  | Some e => mret (p, addr, Some e)
  | None =>
      mret (p, Socksaddr_UDPAddr (nat_swap (bn_source b) (bn_destination b) (FromNetAddr addr)),
            None)
  end.

Definition BidNat_WriteTo (b : BidNatPacketConn) (p : list Z) (addr : NetAddr)
    : ST W (Z * option err) :=
  pc_WriteTo (bn_PacketConn b) p
    (Socksaddr_UDPAddr (nat_swap (bn_destination b) (bn_source b) (FromNetAddr addr))).

(** ** [BindPacketWriter], [netio/packet.go] *)

Definition BindPacketWriter_WriteTo (writeTo : list Z -> NetAddr -> ST W (Z * option err))
    (Destination : NetAddr) (bs : list Z) (destination : NetAddr) : ST W (Z * option err) :=
  writeTo bs Destination.

End nat.
Arguments BidNatPacketConn : clear implicits.

(** ** Lemmas *)

(** The [net.UDPAddr] of an address without a zone, and back. *)
Definition udp (a : Addr) (port : Z) : NetAddr := NA_UDP (Addr_AsSlice a) port (Addr_Zone a).

Lemma FromNetAddr_udp a port :
  addr_wf a -> (0 <= port < 65536)%Z ->
  FromNetAddr (udp a port) = MkSocks "" (Addr_withoutZone a) port.
Proof.
  intros Ha Hp. unfold FromNetAddr, udp, AddrPortFromNetAddr, AddrFromIP, FromAddrPort. simpl.
  rewrite FromSlice_AsSlice by done. rewrite wrapu_small; done.
Qed.

(** The destination a write reaches and the source a read reports. *)
Definition nat_out (destination source : Socksaddr) (addr : NetAddr) : NetAddr :=
  Socksaddr_UDPAddr
    (nat_swap (Socksaddr_NoPort destination) (Socksaddr_NoPort source) (FromNetAddr addr)).
Definition nat_in (destination source : Socksaddr) (addr : NetAddr) : NetAddr :=
  Socksaddr_UDPAddr
    (nat_swap (Socksaddr_NoPort source) (Socksaddr_NoPort destination) (FromNetAddr addr)).

(** An IP address with a port, as the constructors make it. *)
Definition ip_socks (a : Addr) (port : Z) : Socksaddr := MkSocks "" a port.

Lemma nat_swap_udp from to fport tport a port :
  Addr_Zone from = "" -> Addr_Zone to = "" -> Addr_Zone a = "" ->
  addr_wf a -> (0 <= port < 65536)%Z ->
  Socksaddr_UDPAddr (nat_swap (Socksaddr_NoPort (ip_socks from fport))
    (Socksaddr_NoPort (ip_socks to tport)) (FromNetAddr (udp a port))) =
  udp (if bool_decide (a = from) then to else a) port.
Proof.
  intros Hf Ht Ha Hwf Hp. rewrite FromNetAddr_udp by done.
  assert (Addr_withoutZone a = a) as -> by (destruct a; simpl in *; by subst).
  unfold nat_swap, Socksaddr_NoPort, ip_socks. simpl.
  destruct (bool_decide_reflect (a = from)) as [->|Hne].
  - by rewrite bool_decide_eq_true_2.
  - rewrite bool_decide_eq_false_2; [done|congruence].
Qed.

(** ** Properties *)

(** Listening on a list of addresses tries them in order until one call
    gives a connection, which is returned without an error; with none, every
    address was tried. *)
Theorem ListenPacketSerial_spec {W Conn PConn} `{ExLib} (d : Dialer W Conn PConn)
    destination port w :
  let '(r, w') := ListenPacketSerial d destination port w in
  (exists pre a post c e w1, destination = pre ++ a :: post /\ listen_fails d port pre w w1 /\
     d_ListenPacket d (FromAddrPort (AddrPortFrom a port)) w1 = ((Some c, e), w') /\
     r = (Some c, None)) \/
  (exists e, listen_fails d port destination w w' /\ r = (None, e)).
Proof. apply listen_loop_outcome. Qed.

(** Between two IP addresses the translation is the one of a NAT in both
    directions: a write to the destination reaches the source at the same
    port, a read from the source reports the destination at the same port,
    other addresses pass unchanged, and a reply to an address that is
    reported reaches the address it came from, unless that address is the
    destination itself. *)
Theorem BidNat_translates {W} (conn : PacketConn W) d dport s sport a port :
  Addr_Zone d = "" -> Addr_Zone s = "" -> Addr_Zone a = "" ->
  addr_wf d -> addr_wf s -> addr_wf a -> (0 <= port < 65536)%Z ->
  let b := NewBidirectionalNatConn conn (ip_socks d dport) (ip_socks s sport) in
  let shown := if bool_decide (a = s) then d else a in
  (forall p w, BidNat_WriteTo b p (udp a port) w =
     pc_WriteTo conn p (udp (if bool_decide (a = d) then s else a) port) w) /\
  (forall size w p e, (pc_ReadFrom conn size w).1 = (p, udp a port, e) ->
     (BidNat_ReadFrom b size w).1 =
       (p, (match e with None => udp shown port | Some _ => udp a port end), e)) /\
  (a <> d -> forall p w,
     BidNat_WriteTo b p (udp shown port) w = pc_WriteTo conn p (udp a port) w).
Proof.
  intros Hd Hs Ha Hwd Hws Hwa Hp. cbv zeta. split; [|split].
  - intros p w. unfold BidNat_WriteTo. simpl. by rewrite nat_swap_udp.
  - intros size w p e Hr. unfold BidNat_ReadFrom, mbind, ST_bind, mret, ST_ret. simpl.
    destruct (pc_ReadFrom conn size w) as [[[p' addr] e'] w']. simpl in Hr. simplify_eq.
    destruct e; [done|]. simpl. by rewrite nat_swap_udp.
  - intros Hne p w. unfold BidNat_WriteTo. simpl.
    destruct (bool_decide_reflect (a = s)) as [->|Hns].
    + rewrite nat_swap_udp by done. by rewrite bool_decide_eq_true_2.
    + rewrite nat_swap_udp by done. by rewrite bool_decide_eq_false_2.
Qed.

(** The translation for a destination that is a host name, which is how
    the resolving dialer uses it, never applies to a write to an IP address,
    and hides the source of a read: packets from the source are reported
    without any address.  The same IPv4 address in its IPv4-mapped form is
    not the destination either. *)
Theorem BidNat_fqdn_destination {W} (conn : PacketConn W) fqdn dport s a port :
  fqdn <> "" -> Addr_Zone (sa_Addr s) = "" -> sa_Fqdn s = "" ->
  addr_wf a -> Addr_Zone a = "" -> (0 <= port < 65536)%Z ->
  let b := NewBidirectionalNatConn conn (MkSocks fqdn AddrZero dport) s in
  (forall p w, BidNat_WriteTo b p (udp a port) w = pc_WriteTo conn p (udp a port) w) /\
  (forall size w p, (pc_ReadFrom conn size w).1 = (p, udp a port, None) ->
     (BidNat_ReadFrom b size w).1 =
       (p, (if bool_decide (a = sa_Addr s) then NA_UDP [] port "" else udp a port), None)) /\
  (forall ip, (0 <= ip < 2 ^ 32)%Z ->
     nat_out (ip_socks (Addr4 ip) dport) s (udp (Addr6 (0xffff00000000 + ip) "") port) =
     udp (Addr6 (0xffff00000000 + ip) "") port).
Proof.
  intros Hf Hs Hsf Hwa Ha Hp. cbv zeta.
  assert (Addr_withoutZone a = a) as Hz by (destruct a; simpl in *; by subst).
  split; [|split].
  - intros p w. unfold BidNat_WriteTo. simpl. rewrite FromNetAddr_udp, Hz by done.
    unfold nat_swap, Socksaddr_NoPort. simpl.
    rewrite bool_decide_eq_false_2; [done|congruence].
  - intros size w p Hr. unfold BidNat_ReadFrom, mbind, ST_bind, mret, ST_ret. simpl.
    destruct (pc_ReadFrom conn size w) as [[[p' addr] e'] w']. simpl in Hr. simplify_eq. simpl.
    rewrite FromNetAddr_udp, Hz by done. unfold nat_swap, Socksaddr_NoPort. simpl.
    destruct s as [sf sa sp]. simpl in *. subst sf.
    destruct (bool_decide_reflect (a = sa)) as [->|Hne].
    + by rewrite bool_decide_eq_true_2.
    + rewrite bool_decide_eq_false_2; [done|congruence].
  - intros ip Hip.
    unfold nat_out. rewrite FromNetAddr_udp by (simpl; lia).
    done.
Qed.

(** ** A concrete connection *)

Module NatExample.

(** Every packet comes from 10.0.0.1:53; what is written is remembered. *)
Definition conn : PacketConn (list NetAddr) := MkPacketConn
  (fun size w => (([1]%Z, udp (Addr4 0x0a000001) 53, None), w))
  (fun p addr w => ((Z.of_nat (length p), None), addr :: w))
  (udp (Addr4 0x0a000002) 4000).

End NatExample.

Lemma BidNat_translates_witness :
  let b := NewBidirectionalNatConn NatExample.conn (ip_socks (Addr4 0x01020304) 1)
    (ip_socks (Addr4 0x0a000001) 2) in
  (BidNat_ReadFrom b 9 []).1 = ([1]%Z, udp (Addr4 0x01020304) 53, None) /\
  (BidNat_WriteTo b [1; 2]%Z (udp (Addr4 0x01020304) 53) []).2 = [udp (Addr4 0x0a000001) 53].
Proof.
  cbv zeta. split; [reflexivity|].
  erewrite (proj2 (proj2 (BidNat_translates NatExample.conn (Addr4 0x01020304) 1
    (Addr4 0x0a000001) 2 (Addr4 0x0a000001) 53 _ _ _ _ _ _ _)));
    [reflexivity|discriminate].
  Unshelve. all: first [reflexivity|vm_compute; split; [discriminate|reflexivity]].
Defined.

Lemma BidNat_fqdn_destination_witness :
  let b := NewBidirectionalNatConn NatExample.conn (MkSocks "example.org" AddrZero 53)
    (ip_socks (Addr4 0x0a000001) 53) in
  (BidNat_ReadFrom b 9 []).1 = ([1]%Z, NA_UDP [] 53 "", None).
Proof.
  cbv zeta.
  refine (proj1 (proj2 (BidNat_fqdn_destination NatExample.conn "example.org" 53
    (ip_socks (Addr4 0x0a000001) 53) (Addr4 0x0a000001) 53 _ _ _ _ _ _)) 9%Z [] [1]%Z _);
    first [discriminate|reflexivity|vm_compute; split; [discriminate|reflexivity]].
Defined.
