(* ===== verification/Listener.v ===== *)
(** * Package [listener]: [listener/listen.go]

    Resolving the addresses to listen on and opening the first listener that
    works, for TCP and UDP. *)

From S2P Require Import Prelude GoStd Netip Meta Dns Addrs Control Dialer Sockets Resolve.

Section listener.
Context {OS Conn PConn Lis : Type}.
Context `{Sys OS} `{ExLib} `{SliceLib} `{!NetLib OS Conn PConn Lis}.

Record Options := MkOptions {
  o_Family : string;
  o_Interface : string;
  o_ReuseAddr : bool;
  o_ReusePort : bool;
  o_KeepAlive : KeepAliveConfig;
  o_TFO : bool;
  o_MPTCP : bool;
  o_UDPFragment : bool;
}.

(** [control.NewDefaultInterfaceFinder()] and [resolve.SystemClient]. *)
Variable finder : InterfaceFinder (OS := OS).
Variable SystemClient : Client (CWorld OS).

(** ** [resolveListenAddresses] *)

(** The strategy a network asks the resolver for. *)
Definition listen_strategy (network : Network) (strategy : Strategy) : Strategy :=
  if (Network_Is4 network && Network_Is6 network)%bool then strategy
  else if Network_Is4 network then StrategyIPv4Only
  else if Network_Is6 network then StrategyIPv6Only
  else strategy.

Definition resolveListenAddresses (network : Network) (address : string) (port : Z)
    (resolver : Client (CWorld OS)) (strategy : Strategy)
    : ST (CWorld OS) (gores (list Socksaddr)) :=
  let sa := FromParseSocksaddrHostPort address port in
  if Socksaddr_FqdnOnly sa then
    '(netipAddresses, e) ←
      cl_Lookup resolver (Socksaddr_AddrString sa) (listen_strategy network strategy);
    match e with
    | Some e => mret ([], ex_Cause (Some e) "resolve addresses")
    | None =>
        mret (slice_Map netipAddresses (fun it => FromAddrPort (AddrPortFrom it port)), None)
    end
  else mret ([sa], None).

(** ** Listening on a list of addresses *)

(** The loop of [ListenTCPSerial]; [last] is the variable [err]. *)
Fixpoint listen_tcp_loop (lc : ListenConfig OS) (networkString : string) (enableTFO : bool)
    (last : option err) (address : list Socksaddr) : ST (CWorld OS) (gores (option Lis)) :=
  match address with
  | [] => mret (None, ex_Cause last "ListenTCPSerial: all failed")
  | a :: address =>
      if Socksaddr_FqdnOnly a then
        mret (None, Some (ex_New [XStr "ListenTCPSerial : listen on a not-resolved address:";
                                  XStr (Socksaddr_String a)]))
      else
        '(nl, e) ← (if enableTFO then tfo_Listen lc networkString (Socksaddr_String a)
                    else lc_Listen lc networkString (Socksaddr_String a));
        match e with
        | None => mret (nl, None)
        | Some e => listen_tcp_loop lc networkString enableTFO (Some e) address
        end
  end.

Definition ListenTCPSerial (lc : ListenConfig OS) (network : Network)
    (address : list Socksaddr) (enableTFO : bool) : ST (CWorld OS) (gores (option Lis)) :=
  if negb (Network_IsTCP network) then
    mret (None, Some (ex_New [XStr "ListenTCPSerial: called on a non-tcp network"]))
  else listen_tcp_loop lc (Network_ToString network) enableTFO None address.

(** The test that skips an address. *)
Definition listen_skips (network : Network) (a : Socksaddr) : bool :=
  (Network_Is4 network && Addr_Is6 (sa_Addr a) ||
   Network_Is6 network && Addr_Is4 (sa_Addr a))%bool.

Fixpoint listen_udp_loop (lc : ListenConfig OS) (network : Network)
    (last : option err) (address : list Socksaddr) : ST (CWorld OS) (gores (option PConn)) :=
  match address with
  | [] => mret (None, ex_Cause last "ListenUDPSerial: all failed")
  | a :: address =>
      if Socksaddr_FqdnOnly a then
        mret (None, Some (ex_New [XStr "ListenUDPSerial : listen on a not-resolved address:";
                                  XStr (Socksaddr_String a)]))
      else if listen_skips network a then listen_udp_loop lc network last address
      else
        '(pn, e) ← lc_ListenPacket lc (Network_ToString network) (Socksaddr_String a);
        match e with
        | None => mret (pn, None)
        | Some e => listen_udp_loop lc network (Some e) address
        end
  end.

Definition ListenUDPSerial (lc : ListenConfig OS) (network : Network)
    (address : list Socksaddr) : ST (CWorld OS) (gores (option PConn)) :=
  if negb (Network_IsUDP network) then
    mret (None, Some (ex_New [XStr "ListenUDPSerial: called on a non-udp network"]))
  else listen_udp_loop lc network None address.

(** ** The listener *)

Definition bind_interface (o : Options) (lc : ListenConfig OS) : ListenConfig OS :=
  if String.eqb (o_Interface o) "" then lc
  else lc_Append (BindToInterface finder (o_Interface o) (-1)) lc.

Definition udp_config (o : Options) : ListenConfig OS :=
  let listenConfig := bind_interface o ListenConfig_zero in
  let listenConfig := if o_ReuseAddr o then lc_Append ReuseAddr listenConfig else listenConfig in
  let listenConfig := if o_ReusePort o then lc_Append ReusePort listenConfig else listenConfig in
  if o_UDPFragment o then listenConfig else lc_Append DisableUDPFragment listenConfig.

Definition udp_network (o : Options) : Network :=
  if String.eqb (o_Family o) NetworkFamily6 then MkNetwork ProtocolUDP NetworkVersion6
  else if String.eqb (o_Family o) NetworkFamily4 then MkNetwork ProtocolUDP NetworkVersion4
  else MkNetwork ProtocolUDP 0.

Definition Listener_ListenUDP (o : Options) (address : string) (port : Z)
    : ST (CWorld OS) (gores (option PConn)) :=
  let network := udp_network o in
  '(addresses, e) ← resolveListenAddresses network address port SystemClient StrategyDefault;
  match e with
  | Some e => mret (None, Some e)
  | None => ListenUDPSerial (udp_config o) network addresses
  end.

Definition tcp_config (o : Options) : ListenConfig OS :=
  let listenConfig := bind_interface o ListenConfig_zero in
  let listenConfig := if o_ReuseAddr o then lc_Append ReuseAddr listenConfig else listenConfig in
  let listenConfig := lc_with_KeepAlive (o_KeepAlive o) listenConfig in
  if o_MPTCP o then lc_SetMultipathTCP true listenConfig else listenConfig.

Definition tcp_network (o : Options) : Network :=
  if String.eqb (o_Family o) NetworkFamily4 then MkNetwork ProtocolTCP NetworkVersion6
  else if String.eqb (o_Family o) NetworkFamily6 then MkNetwork ProtocolTCP NetworkVersion4
  else MkNetwork ProtocolTCP 0.

Definition Listener_ListenTCP (o : Options) (address : string) (port : Z)
    : ST (CWorld OS) (gores (option Lis)) :=
  let network := tcp_network o in
  '(addresses, e) ← resolveListenAddresses network address port SystemClient StrategyDefault;
  match e with
  | Some e => mret (None, Some e)
  | None => ListenTCPSerial (tcp_config o) network addresses (o_TFO o)
  end.

(** A listener has its options only. *)
Record Listener := MkListener { l_options : Options }.

Definition NewListener (options : Options) : Listener := MkListener options.

Definition ListenTCP (address : string) (port : Z) (opt : Options)
    : ST (CWorld OS) (gores (option Lis)) :=
  let l := NewListener opt in Listener_ListenTCP (l_options l) address port.
Definition ListenUDP (address : string) (port : Z) (opt : Options)
    : ST (CWorld OS) (gores (option PConn)) :=
  let l := NewListener opt in Listener_ListenUDP (l_options l) address port.

(** ** Lemmas *)

(** The listen calls of the TCP loop that fail, one after the other. *)
Inductive tcp_fails (lc : ListenConfig OS) (network : string) (tfo : bool)
    : list Socksaddr -> CWorld OS -> CWorld OS -> Prop :=
  | tcp_fails_nil w : tcp_fails lc network tfo [] w w
  | tcp_fails_cons a l nl e w w1 w2 :
      Socksaddr_FqdnOnly a = false ->
      (if tfo then tfo_Listen lc network (Socksaddr_String a) w
       else lc_Listen lc network (Socksaddr_String a) w) = ((nl, Some e), w1) ->
      tcp_fails lc network tfo l w1 w2 -> tcp_fails lc network tfo (a :: l) w w2.

(** How the loop ends: at the first address that listens, at one that is not
    resolved, or after all failed. *)
Definition tcp_outcome (lc : ListenConfig OS) (network : string) (tfo : bool)
    (address : list Socksaddr) (w : CWorld OS) (r : gores (option Lis)) (w' : CWorld OS) : Prop :=
  (exists pre a post nl w1, address = pre ++ a :: post /\ tcp_fails lc network tfo pre w w1 /\
     Socksaddr_FqdnOnly a = false /\
     (if tfo then tfo_Listen lc network (Socksaddr_String a) w1
      else lc_Listen lc network (Socksaddr_String a) w1) = ((nl, None), w') /\ r = (nl, None)) \/
  (exists pre a post, address = pre ++ a :: post /\ tcp_fails lc network tfo pre w w' /\
     Socksaddr_FqdnOnly a = true /\ r.1 = None /\ is_Some r.2) \/
  (tcp_fails lc network tfo address w w' /\ r.1 = None).

Lemma listen_tcp_loop_outcome lc network tfo last address w :
  tcp_outcome lc network tfo address w
    (listen_tcp_loop lc network tfo last address w).1
    (listen_tcp_loop lc network tfo last address w).2.
Proof.
  revert last w. induction address as [|a l IH]; intros last w; simpl.
  { right. right. split; [constructor|done]. }
  destruct (Socksaddr_FqdnOnly a) eqn:Ea.
  { right. left. exists [], a, l. split; [done|]. split; [constructor|]. split; [done|].
    split; [done|by eexists]. }
  rewrite ST_bind_run.
  destruct ((if tfo then tfo_Listen lc network (Socksaddr_String a)
             else lc_Listen lc network (Socksaddr_String a)) w) as [[nl [e|]] w1] eqn:El;
    cbn [fst snd].
  - assert (forall pre w2, tcp_fails lc network tfo pre w1 w2 ->
      tcp_fails lc network tfo (a :: pre) w w2) as Hcons.
    { intros pre w2 Hpre. econstructor; [done| |exact Hpre]. by destruct tfo. }
    destruct (IH (Some e) w1) as [(pre & b & post & nl' & w2 & -> & Hf & Hb)|
      [(pre & b & post & -> & Hf & Hb)|(Hf & Hr)]].
    + left. exists (a :: pre), b, post, nl', w2. auto.
    + right. left. exists (a :: pre), b, post. auto.
    + right. right. auto.
  - left. exists [], a, l, nl, w. split; [done|]. split; [constructor|].
    split; [done|]. split; [by destruct tfo|done].
Qed.

(** A loop over addresses that are all skipped calls nothing. *)
Lemma listen_udp_loop_skips lc network last address w :
  Forall (fun a => Socksaddr_FqdnOnly a = false /\ listen_skips network a = true) address ->
  listen_udp_loop lc network last address w =
  ((None, ex_Cause last "ListenUDPSerial: all failed"), w).
Proof. induction 1 as [|a l [Ha Hs] _ IH]; simpl; [done|]. by rewrite Ha, Hs. Qed.

(** A dual-stack network skips every resolved address. *)
Lemma listen_skips_dual p a :
  Socksaddr_FqdnOnly a = false -> listen_skips (MkNetwork p NetworkVersionDual) a = true.
Proof. destruct a as [f [| |] port]; done. Qed.

(** The addresses a network resolves to are IP addresses. *)
Lemma resolve_literal network address port resolver strategy w :
  let sa := FromParseSocksaddrHostPort address port in
  Socksaddr_FqdnOnly sa = false ->
  resolveListenAddresses network address port resolver strategy w = (([sa], None), w).
Proof. cbv zeta. intros Hf. unfold resolveListenAddresses. by rewrite Hf. Qed.

End listener.

(** ** Properties *)

Section listener_properties.
Context {OS Conn PConn Lis : Type}.
Context `{Sys OS} `{ExLaws} `{SliceLaws} `{!NetLib OS Conn PConn Lis}.
Variable finder : InterfaceFinder (OS := OS).
Variable SystemClient : Client (CWorld OS).

(** Listening on TCP addresses tries them in order, with or without
    fast open, and returns the first listener; an address that is only a
    host name stops the search with an error, before any later address is
    tried; a network that is not TCP is refused at once. *)
Theorem ListenTCPSerial_spec lc network address tfo (w : CWorld OS) :
  let run := ListenTCPSerial (Lis := Lis) (Conn := Conn) (PConn := PConn) lc network address tfo w in
  (Network_IsTCP network = true ->
     tcp_outcome lc (Network_ToString network) tfo address w run.1 run.2) /\
  (Network_IsTCP network = false -> run.2 = w /\ run.1.1 = None /\ is_Some run.1.2).
Proof.
  cbv zeta. unfold ListenTCPSerial. split; intros ->; simpl.
  - apply listen_tcp_loop_outcome.
  - split; [done|]. split; [done|by eexists].
Qed.

(** The part of the family options of [ListenUDP] that is not "4" or "6". *)
Definition dual_family (o : Options) : Prop :=
  o_Family o <> NetworkFamily4 /\ o_Family o <> NetworkFamily6.

Definition udp_run (o : Options) (address : string) (port : Z) (w : CWorld OS) :=
  Listener_ListenUDP (Conn := Conn) (PConn := PConn) (Lis := Lis) finder SystemClient
    o address port w.

(** [ListenUDP] never listens on an address of the family it is meant
    for: without a family every resolved address is skipped, and with family
    4 (or 6) every IPv4 (or IPv6) address is; no packet connection is
    opened, neither for a literal address nor for what a name resolves to. *)
Theorem ListenUDP_never_listens o address port w :
  let sa := FromParseSocksaddrHostPort address port in
  let nothing w' := ((None, ex_Cause None "ListenUDPSerial: all failed"), w') in
  (Socksaddr_FqdnOnly sa = false ->
     dual_family o \/
     (o_Family o = NetworkFamily4 /\ Addr_Is4 (sa_Addr sa) = true) \/
     (o_Family o = NetworkFamily6 /\ Addr_Is6 (sa_Addr sa) = true) ->
     udp_run o address port w = nothing w) /\
  (Socksaddr_FqdnOnly sa = true -> dual_family o -> forall l w',
     cl_Lookup SystemClient (sa_Fqdn sa) StrategyDefault w = ((l, None), w') ->
     Forall (fun a => Addr_IsValid a = true) l ->
     udp_run o address port w = nothing w').
Proof.
  cbv zeta. set (sa := FromParseSocksaddrHostPort address port).
  assert (forall lc network l w', net_Protocol network = ProtocolUDP ->
    Forall (fun a => Socksaddr_FqdnOnly a = false /\ listen_skips network a = true) l ->
    ListenUDPSerial (Conn := Conn) (PConn := PConn) (Lis := Lis) lc network l w' =
    ((None, ex_Cause None "ListenUDPSerial: all failed"), w')) as Hskip.
  { intros lc network l w' Hn Hl. unfold ListenUDPSerial, Network_IsUDP. rewrite Hn. simpl.
    by apply listen_udp_loop_skips. }
  assert (dual_family o -> udp_network o = MkNetwork ProtocolUDP NetworkVersionDual) as Hdual.
  { intros [E4 E6]. apply String.eqb_neq in E4, E6. unfold udp_network. by rewrite E4, E6. }
  unfold udp_run, Listener_ListenUDP. split.
  - intros Hf Hcase. rewrite ST_bind_run, resolve_literal by done. cbn [fst snd].
    apply Hskip; [unfold udp_network; by split_ifs|]. constructor; [|done]. split; [done|].
    fold sa. unfold listen_skips. destruct Hcase as [Hd|[[E Ha]|[E Ha]]].
    + rewrite Hdual by done. apply listen_skips_dual, Hf.
    + unfold udp_network. rewrite E, Ha. done.
    + unfold udp_network. rewrite E, Ha. done.
  - intros Hf Hd l w' Hl Hv. rewrite Hdual by done. unfold resolveListenAddresses. fold sa.
    rewrite Hf. unfold Socksaddr_AddrString.
    replace (Addr_IsValid (sa_Addr sa)) with false
      by (unfold Socksaddr_FqdnOnly in Hf; by destruct (Addr_IsValid (sa_Addr sa))).
    rewrite ST_bind_run. rewrite ST_bind_run. unfold listen_strategy. simpl. rewrite Hl.
    simpl. apply Hskip; [done|]. rewrite slice_Map_spec. apply List.Forall_forall.
    intros a Ha. apply in_map_iff in Ha as (x & <- & Hx). rewrite List.Forall_forall in Hv.
    assert (Socksaddr_FqdnOnly (FromAddrPort (AddrPortFrom x port)) = false) as Hx'.
    { unfold Socksaddr_FqdnOnly. simpl. by rewrite (Hv x Hx). }
    split; [done|by apply listen_skips_dual].
Qed.

(** [ListenTCP] with family 4 asks the system for the network tcp6, and
    with family 6 for tcp4, while a name is looked up in the family that was
    asked for: the literal address, or each address of the name, is passed
    to the listen call of the other family. *)
Theorem ListenTCP_family_swapped o address port (w : CWorld OS) :
  let sa := FromParseSocksaddrHostPort address port in
  let run := Listener_ListenTCP (Conn := Conn) (PConn := PConn) (Lis := Lis) finder SystemClient
    o address port w in
  forall name strategy,
  (o_Family o = NetworkFamily4 /\ name = "tcp6" /\ strategy = StrategyIPv4Only) \/
  (o_Family o = NetworkFamily6 /\ name = "tcp4" /\ strategy = StrategyIPv6Only) ->
  (Socksaddr_FqdnOnly sa = false ->
     tcp_outcome (tcp_config finder o) name (o_TFO o) [sa] w run.1 run.2) /\
  (Socksaddr_FqdnOnly sa = true ->
     let '((l, e), w') := cl_Lookup SystemClient (Socksaddr_AddrString sa) strategy w in
     match e with
     | Some e => run = ((None, ex_Cause (Some e) "resolve addresses"), w')
     | None => tcp_outcome (tcp_config finder o) name (o_TFO o)
         (List.map (fun it => FromAddrPort (AddrPortFrom it port)) l) w' run.1 run.2
     end).
Proof.
  cbv zeta. intros name strategy Hcase. set (sa := FromParseSocksaddrHostPort address port).
  assert (Network_ToString (tcp_network o) = name /\ Network_IsTCP (tcp_network o) = true /\
          listen_strategy (tcp_network o) StrategyDefault = strategy) as (Hn & Ht & Hs).
  { destruct Hcase as [(E & -> & ->)|(E & -> & ->)]; unfold tcp_network; rewrite E; done. }
  unfold Listener_ListenTCP, ListenTCPSerial. rewrite Ht, Hn. simpl negb. cbn iota. split.
  - intros Hf. rewrite ST_bind_run, resolve_literal by done. apply listen_tcp_loop_outcome.
  - intros Hf. rewrite ST_bind_run. unfold resolveListenAddresses. fold sa. rewrite Hf, Hs.
    rewrite ST_bind_run.
    destruct (cl_Lookup SystemClient (Socksaddr_AddrString sa) strategy w) as [[l [e|]] w'] eqn:El;
      simpl.
    + destruct (ex_Cause_some e "resolve addresses") as [e' ->]. done.
    + rewrite slice_Map_spec. apply listen_tcp_loop_outcome.
Qed.

End listener_properties.

(** ** Witnesses *)

Module ListenExample.

(** A resolver that knows one IPv4 address. *)
Definition resolver : Client (CWorld SysTrace.os) :=
  MkClient (fun _ _ w => (([Addr4 0x7f000001], None), w)) (fun _ w => ((None, None), w)).

Definition options (family : string) : Options :=
  MkOptions family "" false false KeepAlive_zero false false true.

End ListenExample.

Lemma ListenTCPSerial_spec_witness :
  let run := ListenTCPSerial (Lis := NetTrace.value) (Conn := NetTrace.value)
    (PConn := NetTrace.value) ListenConfig_zero NetworkUDP [] false SysTrace.world0 in
  run.1.1 = None /\ is_Some run.1.2.
Proof.
  cbv zeta.
  apply (ListenTCPSerial_spec (PConn := NetTrace.value) (Conn := NetTrace.value)
    ListenConfig_zero NetworkUDP [] false SysTrace.world0).
  reflexivity.
Defined.

(** 127.0.0.1 is not listened on, without a family and with family 4. *)
Lemma ListenUDP_never_listens_witness :
  let run family := udp_run (Conn := NetTrace.value) (PConn := NetTrace.value)
    (Lis := NetTrace.value) NetTrace.finder ListenExample.resolver
    (ListenExample.options family) "127.0.0.1" 53 SysTrace.world0 in
  run "4" = ((None, ex_Cause None "ListenUDPSerial: all failed"), SysTrace.world0) /\
  run "" = ((None, ex_Cause None "ListenUDPSerial: all failed"), SysTrace.world0).
Proof.
  cbv zeta. split.
  - apply (ListenUDP_never_listens NetTrace.finder ListenExample.resolver
      (ListenExample.options "4") "127.0.0.1" 53 SysTrace.world0); [reflexivity|].
    right. left. split; reflexivity.
  - apply (ListenUDP_never_listens NetTrace.finder ListenExample.resolver
      (ListenExample.options "") "127.0.0.1" 53 SysTrace.world0); [reflexivity|].
    left. split; discriminate.
Defined.

(** With family 4, 127.0.0.1 is listened on as tcp6. *)
Lemma ListenTCP_family_swapped_witness :
  let run := Listener_ListenTCP (Conn := NetTrace.value) (PConn := NetTrace.value)
    (Lis := NetTrace.value) NetTrace.finder ListenExample.resolver
    (ListenExample.options "4") "127.0.0.1" 80 SysTrace.world0 in
  run.1 = (Some ("tcp6", "127.0.0.1:80"), None) /\
  tcp_outcome (Conn := NetTrace.value) (PConn := NetTrace.value) (Lis := NetTrace.value)
    (tcp_config NetTrace.finder (ListenExample.options "4")) "tcp6" false
    [FromParseSocksaddrHostPort "127.0.0.1" 80] SysTrace.world0 run.1 run.2.
Proof.
  cbv zeta. split; [reflexivity|].
  refine (proj1 (ListenTCP_family_swapped NetTrace.finder ListenExample.resolver
    (ListenExample.options "4") "127.0.0.1" 80 SysTrace.world0 "tcp6" StrategyIPv4Only _) _);
    [left; repeat split; reflexivity|reflexivity].
Defined.
