(* ===== verification/ResolveDialer.v ===== *)
(** * The resolving dialer: [resolve/dialer.go]

    A dialer that looks a host name up before it hands the addresses to the
    dialer underneath, serially or in parallel. *)

From S2P Require Import Prelude GoStd Netip Meta Dns Addrs Control Dialer Race Sockets Default Resolve Nat.

Section resolve_dialer.
Context {W Conn PConn : Type} `{ExLib} `{SliceLib} `{SortLib}.

(** ** Data *)

(** A [ParallelDialer]: one that was given, or the [DefaultParallelDialer]
    around a dialer. *)
Inductive PDialer :=
  | PGiven (d : Dialer W Conn PConn)
      (DialParallel : Network -> list Addr -> Z -> ST W (gores (option Conn)))
  | PDefault (d : Dialer W Conn PConn) (conf : HappyEyeballConf).

Definition pd_Dialer (p : PDialer) : Dialer W Conn PConn :=
  match p with PGiven d _ | PDefault d _ => d end.

Record RDialer := MkRDialer {
  rd_parallelDialer : PDialer;
  rd_dnsClient : Client W;
  rd_strategy : Strategy;
}.

(** ** [NewResolvDialerWithStrategy]

    Dialers are objects: a store maps their addresses to their fields. *)

Inductive underlay :=
  | UResolve (loc : nat)          (* a [*resolve.Dialer] *)
  | UParallel (p : PDialer)       (* another [ParallelDialer] *)
  | UPlain (d : Dialer W Conn PConn).

Definition NewResolvDialerWithStrategy (u : underlay) (client : Client W) (strategy : Strategy)
    : ST (list RDialer) nat :=
  fun store =>
    match u with
    | UResolve loc =>
        (loc, alter (fun rd => MkRDialer (rd_parallelDialer rd) client strategy) loc store)
    | UParallel p => (length store, store ++ [MkRDialer p client strategy])
    | UPlain d =>
        (length store,
         store ++ [MkRDialer (PDefault d (MkHE DefaultDialerFallbackDelay strategy))
                     client strategy])
    end.

Definition NewResolveDialer (u : underlay) (client : Client W) : ST (list RDialer) nat :=
  NewResolvDialerWithStrategy u client StrategyDefault.

(** ** Dialing *)

(** What a race of [DialParallel] returns (see [Race]): the delay, the
    primaries and the fallbacks. *)
Variable run_race : Dialer W Conn PConn -> Network -> Z -> Z -> list Addr -> list Addr ->
  ST W (gores (option Conn)).

(** A serial dial, without the caller's array. *)
Definition dial_serial (d : Dialer W Conn PConn) (network : Network) (addresses : list Addr)
    (port : Z) : ST W (gores (option Conn)) :=
  '(r, _) ← DialSerial d network addresses port; mret r.

Definition pd_DialParallel (p : PDialer) (network : Network) (addresses : list Addr) (port : Z)
    : ST W (gores (option Conn)) :=
  match p with
  | PGiven _ dial => dial network addresses port
  | PDefault d conf =>
      match DefaultParallelDialer_plan conf network addresses with
      | PlanSerial l => dial_serial d network l port
      | PlanRace delay primaries fallbacks => run_race d network port delay primaries fallbacks
      end
  end.

(** A strategy of one family on a network of the other one. *)
Definition no_family (network : Network) (strategy : Strategy) : bool :=
  (Z.eqb (net_Version network) NetworkVersion6 && Z.eqb strategy StrategyIPv4Only ||
   Z.eqb (net_Version network) NetworkVersion4 && Z.eqb strategy StrategyIPv6Only)%bool.

Definition dialerParallel (network : Network) (strategy : Strategy) (addresses : list Addr)
    : bool :=
  (negb (Z.eqb strategy StrategyIPv6Only) && negb (Z.eqb strategy StrategyIPv4Only) &&
   Z.eqb (net_Version network) NetworkVersionDual &&
   String.eqb (net_Protocol network) ProtocolTCP && (2 <=? length addresses)%nat)%bool.

Definition RDialer_DialContext (d : RDialer) (network : Network) (address : Socksaddr)
    : ST W (gores (option Conn)) :=
  if negb (Socksaddr_FqdnOnly address) then
    d_DialContext (pd_Dialer (rd_parallelDialer d)) network address
  else
    let strategy := rd_strategy d in
    if no_family network strategy then
      mret (None, Some (ex_New [XStr "no available address to dial"]))
    else
      '(addresses, e) ← cl_Lookup (rd_dnsClient d) (sa_Fqdn address) strategy;
      match e with
      | Some e => mret (None, ex_Cause (Some e) "lookup")
      | None =>
          if dialerParallel network strategy addresses then
            pd_DialParallel (rd_parallelDialer d) network addresses (sa_Port address)
          else dial_serial (pd_Dialer (rd_parallelDialer d)) network addresses (sa_Port address)
      end.

(** [ListenPacket]: the connection of the dialer underneath, or the address
    translating one around it. *)
Inductive RPacketConn :=
  | RPlain (c : PConn)
  | RNat (c : PConn) (destination source : Socksaddr).

Variable PConn_LocalAddr : PConn -> NetAddr.

Definition RDialer_ListenPacket (d : RDialer) (address : Socksaddr)
    : ST W (exec (gores (option RPacketConn))) :=
  if negb (Socksaddr_FqdnOnly address) then
    '(c, e) ← d_ListenPacket (pd_Dialer (rd_parallelDialer d)) address; ex_ret (RPlain <$> c, e)
  else
    '(addresses, e) ← cl_Lookup (rd_dnsClient d) (sa_Fqdn address) (rd_strategy d);
    match e with
    | Some e => ex_ret (None, ex_Cause (Some e) "Lookup")
    | None =>
        '(packetConn, e) ←
          ListenPacketSerial (pd_Dialer (rd_parallelDialer d)) addresses (sa_Port address);
        match e, packetConn with
        | Some e, _ => ex_ret (None, ex_Cause (Some e) "ListenPacketSerial")
        | None, Some c => ex_ret (Some (RNat c address (FromNetAddr (PConn_LocalAddr c))), None)
        | None, None => ex_panic "LocalAddr of a nil net.PacketConn"
        end
    end.

End resolve_dialer.
Arguments PDialer : clear implicits.
Arguments RDialer : clear implicits.
Arguments underlay : clear implicits.

(** ** The race as a function

    [run_race] runs a race of [Race]: what it returns is what a reachable
    state returned, for the serial dials of the two lists. *)

Definition race_dials {W Conn PConn} `{ExLib} (d : Dialer W Conn PConn) (network : Network)
    (port : Z) (primaries fallbacks : list Addr) (p : bool) (r : gores (option Conn)) : Prop :=
  exists w w', dial_serial d network (if p then primaries else fallbacks) port w = (r, w').

Definition race_sound {W Conn PConn} `{ExLib}
    (run_race : Dialer W Conn PConn -> Network -> Z -> Z -> list Addr -> list Addr ->
      ST W (gores (option Conn))) : Prop :=
  forall d network port delay primaries fallbacks w r w',
    run_race d network port delay primaries fallbacks w = (r, w') ->
    exists tr s, reach (race_dials d network port primaries fallbacks) tr s /\
      rc_main s = MReturned r.

(** ** Lemmas *)

Section lemmas.
Context {W Conn PConn : Type} `{ExLaws} `{SliceLaws} `{SortLaws}.
Implicit Types (d : Dialer W Conn PConn).

Lemma dial_serial_outcome d network addresses port w :
  dial_outcome d network port (dial_candidates network addresses) w
    (dial_serial d network addresses port w).1 (dial_serial d network addresses port w).2.
Proof.
  pose proof (DialSerial_outcome d network addresses port w) as Ho.
  unfold dial_serial, mbind, ST_bind, mret, ST_ret.
  by destruct (DialSerial d network addresses port w) as [[r b] w'].
Qed.

(** A valid address of a list, dialed with success. *)
Definition dialed_from d network port (addresses : list Addr) (c : option Conn) : Prop :=
  exists a w1 w2, In a addresses /\ Addr_IsValid a = true /\
    d_DialContext d network (FromAddrPort (AddrPortFrom a port)) w1 = ((c, None), w2).

Lemma dialed_from_incl d network port l l' c :
  (forall a, In a l -> In a l') -> dialed_from d network port l c ->
  dialed_from d network port l' c.
Proof. intros Hl (a & w1 & w2 & Ha & Hrest). exists a, w1, w2. auto. Qed.

Lemma dial_candidates_incl network addresses a :
  In a (dial_candidates network addresses) -> In a addresses /\ Addr_IsValid a = true.
Proof.
  unfold dial_candidates. intros [Ha Hv]%filter_In. split; [|done].
  destruct (Z.eqb (net_Version network) NetworkVersionDual); [done|].
  by apply filter_In in Ha as [? _].
Qed.

Lemma dial_serial_success d network addresses port w c w' :
  dial_serial d network addresses port w = ((c, None), w') ->
  dialed_from d network port addresses c.
Proof.
  intros Hd. pose proof (dial_serial_outcome d network addresses port w) as Ho.
  rewrite Hd in Ho. simpl in Ho.
  destruct Ho as [(pre & a & post & c' & w1 & Hl & _ & Ha & [= <-])|(e & _ & [=])].
  assert (In a (dial_candidates network addresses)) as Hin
    by (rewrite Hl; apply in_app_iff; right; by left).
  apply dial_candidates_incl in Hin as [? ?]. by exists a, w1, w'.
Qed.

Lemma race_dials_error d network port primaries fallbacks p c e :
  race_dials d network port primaries fallbacks p (c, Some e) -> c = None.
Proof.
  intros (w & w' & Hd).
  pose proof (dial_serial_outcome d network (if p then primaries else fallbacks) port w) as Ho.
  rewrite Hd in Ho. destruct Ho as [(pre & a & post & c' & w1 & _ & _ & _ & [=])|(e' & _ & [=])].
  done.
Qed.

Lemma run_race_success run_race d network port delay primaries fallbacks w c w' :
  race_sound run_race ->
  run_race d network port delay primaries fallbacks w = ((c, None), w') ->
  dialed_from d network port (primaries ++ fallbacks) c.
Proof.
  intros Hs Hr. destruct (Hs _ _ _ _ _ _ _ _ _ Hr) as (tr & s & Hreach & Hm).
  destruct (race_returned _ (race_dials_error d network port primaries fallbacks)
    tr s c None Hreach Hm) as (p & w1 & w2 & Hp).
  apply dial_serial_success in Hp. eapply dialed_from_incl; [|exact Hp].
  intros a Ha. apply in_app_iff. destruct p; auto.
Qed.

(** The lists of a plan have no other addresses than the given ones. *)
Lemma plan_incl network addresses conf :
  match DefaultParallelDialer_plan conf network addresses with
  | PlanSerial l => forall a, In a l -> In a addresses
  | PlanRace _ p f => forall a, In a (p ++ f) -> In a addresses
  end.
Proof.
  unfold DefaultParallelDialer_plan, DialParallel_plan. rewrite !slice_Filter_spec.
  assert (forall (l : list Addr) p a, In a (List.filter p l) -> In a l) as Hfil
    by (intros l p a Ha; by apply filter_In in Ha as [? _]).
  assert (forall p q a, In a (List.filter p addresses ++ List.filter q addresses) ->
    In a addresses) as Happ by (intros p q a [?|?]%in_app_iff; eauto).
  split_ifs; eauto. intros a Ha.
  eapply Permutation_in; [|exact Ha]. symmetry. apply SortAddresses_perm.
Qed.

Lemma pd_DialParallel_success run_race d conf network addresses port w c w' :
  race_sound run_race ->
  pd_DialParallel run_race (PDefault d conf) network addresses port w = ((c, None), w') ->
  dialed_from d network port addresses c.
Proof.
  intros Hs. simpl. pose proof (plan_incl network addresses conf) as Hi.
  destruct (DefaultParallelDialer_plan conf network addresses) as [l|delay p f]; intros Hd.
  - apply dial_serial_success in Hd. by eapply dialed_from_incl.
  - apply run_race_success in Hd; [|done]. by eapply dialed_from_incl.
Qed.

(** A connection to a host name comes from dialing an address. *)
Lemma RDialer_lookup_success run_race d conf client strategy network address w :
  race_sound run_race -> Socksaddr_FqdnOnly address = true ->
  forall c w', RDialer_DialContext run_race (MkRDialer (PDefault d conf) client strategy) network
      address w = ((c, None), w') ->
  exists addresses w1, cl_Lookup client (sa_Fqdn address) strategy w = ((addresses, None), w1) /\
    dialed_from d network (sa_Port address) addresses c.
Proof.
  intros Hs Hf c w'. unfold RDialer_DialContext. rewrite Hf.
  cbn [negb rd_strategy rd_dnsClient rd_parallelDialer pd_Dialer].
  destruct (no_family network strategy); [done|]. rewrite ST_bind_run.
  destruct (cl_Lookup client (sa_Fqdn address) strategy w) as [[addresses [e|]] w1]; cbn [fst snd].
  { unfold mret, ST_ret. destruct (ex_Cause_some e "lookup") as [e' ->]. done. }
  exists addresses, w1. split; [done|]. destruct (dialerParallel network strategy addresses).
  - by eapply pd_DialParallel_success.
  - by eapply dial_serial_success.
Qed.

End lemmas.

(** ** Properties *)

Section properties.
Context {W Conn PConn : Type} `{ExLaws} `{SliceLaws} `{SortLaws}.
Variable run_race : Dialer W Conn PConn -> Network -> Z -> Z -> list Addr -> list Addr ->
  ST W (gores (option Conn)).

(** Dialing through the resolving dialer over a plain one.  An address
    with an IP goes to the dialer underneath as it is; for a host name a
    strategy of one family on a network of the other fails without a
    lookup, a failed lookup fails, and a connection is always the result of
    dialing, with the port of the request, a valid address that the lookup
    returned, whether the addresses were dialed in turn or raced. *)
Theorem RDialer_DialContext_spec d conf client strategy network address w :
  race_sound run_race ->
  let rd := MkRDialer (PDefault d conf) client strategy in
  let run := RDialer_DialContext run_race rd network address w in
  (Socksaddr_FqdnOnly address = false -> run = d_DialContext d network address w) /\
  (Socksaddr_FqdnOnly address = true -> no_family network strategy = true ->
     run.2 = w /\ run.1.1 = None /\ is_Some run.1.2) /\
  (Socksaddr_FqdnOnly address = true -> no_family network strategy = false ->
     let '((addresses, e), w1) := cl_Lookup client (sa_Fqdn address) strategy w in
     match e with
     | Some e => run.2 = w1 /\ run.1.1 = None /\ is_Some run.1.2
     | None => forall c, run.1 = (c, None) ->
         dialed_from d network (sa_Port address) addresses c
     end).
Proof.
  intros Hs. cbv zeta. split; [by unfold RDialer_DialContext; intros ->|].
  split; [unfold RDialer_DialContext; intros -> Hn; simpl; rewrite Hn;
          split; [done|]; split; [done|by eexists]|].
  intros Hf Hn.
  pose proof (RDialer_lookup_success run_race d conf client strategy network address w Hs Hf)
    as Hsucc.
  destruct (cl_Lookup client (sa_Fqdn address) strategy w) as [[addresses [e|]] w1] eqn:El.
  - unfold RDialer_DialContext. rewrite Hf.
    cbn [negb rd_strategy rd_dnsClient rd_parallelDialer pd_Dialer].
    rewrite Hn, ST_bind_run, El. cbn [fst snd].
    split; [done|]. split; [done|]. apply ex_Cause_some.
  - intros c Hc. destruct (RDialer_DialContext run_race _ network address w) as [r w'].
    simpl in Hc. subst r. destruct (Hsucc c w' eq_refl) as (l & w2 & Hl & ?). congruence.
Qed.

(** Listening for packets to a host name that resolves to no address,
    without an error, panics: the loop over no address returns neither a
    connection nor an error, and the nil connection is asked for its local
    address. *)
Theorem RDialer_ListenPacket_panics local (rd : RDialer W Conn PConn) address (w w1 : W) :
  Socksaddr_FqdnOnly address = true ->
  cl_Lookup (rd_dnsClient rd) (sa_Fqdn address) (rd_strategy rd) w = (([], None), w1) ->
  (RDialer_ListenPacket local rd address w).1 =
    Panic "LocalAddr of a nil net.PacketConn".
Proof.
  intros Hf Hl. unfold RDialer_ListenPacket. rewrite Hf. cbn [negb].
  rewrite ST_bind_run, Hl. reflexivity.
Qed.

(** Making a resolving dialer from one that exists changes that one: no
    new dialer is made, and whoever holds the old one dials through the new
    client with the new strategy from then on; from any other dialer a new
    one is made and the existing ones stay as they are. *)
Theorem NewResolvDialer_reuses (u : underlay W Conn PConn) client strategy store :
  let '(loc, store') := NewResolvDialerWithStrategy u client strategy store in
  match u with
  | UResolve old => loc = old /\ length store' = length store /\
      (forall rd, store !! old = Some rd ->
         store' !! old = Some (MkRDialer (rd_parallelDialer rd) client strategy)) /\
      (forall other, other <> old -> store' !! other = store !! other)
  | _ => loc = length store /\ length store' = S (length store) /\
      (forall i, i < length store -> store' !! i = store !! i) /\
      exists rd, store' !! loc = Some rd /\ rd_dnsClient rd = client /\ rd_strategy rd = strategy
  end.
Proof.
  destruct u as [old|p|d]; simpl.
  - split; [done|]. split; [by rewrite length_alter|]. split.
    + intros rd Hrd. by rewrite list_lookup_alter_eq, Hrd.
    + intros other Hne. by rewrite list_lookup_alter_ne.
  - split; [done|]. split; [rewrite length_app; simpl; lia|]. split.
    + intros i Hi. by apply lookup_app_l.
    + eexists. split; [by rewrite list_lookup_middle|done].
  - split; [done|]. split; [rewrite length_app; simpl; lia|]. split.
    + intros i Hi. by apply lookup_app_l.
    + eexists. split; [by rewrite list_lookup_middle|done].
Qed.

End properties.

(** The resolving dialer over the system dialer never connects to a host
    name: whatever the name resolves to, each resolved address is refused
    by [DefaultDialer], dialed in turn or raced. *)
Theorem RDialer_system_never_connects {OS Conn PConn Lis} `{Sys OS} `{ExLaws} `{SliceLaws}
    `{SortLaws} `{!NetLib OS Conn PConn Lis} run_race (sys : DefaultDialer (OS := OS))
    conf client strategy network address w :
  race_sound run_race -> Socksaddr_FqdnOnly address = true ->
  let rd := MkRDialer (PDefault (default_Dialer (Conn := Conn) (PConn := PConn) (Lis := Lis) sys)
    conf) client strategy in
  is_Some (RDialer_DialContext run_race rd network address w).1.2.
Proof.
  intros Hs Hf. cbv zeta.
  pose proof (RDialer_lookup_success run_race (default_Dialer sys) conf client strategy network
    address w Hs Hf) as Hd.
  destruct (RDialer_DialContext _ _ network address w) as [[c [e|]] w']; [by eexists|].
  exfalso. destruct (Hd c w' eq_refl) as (l & w0 & _ & a & w1 & w2 & _ & Hv & Hdial).
  destruct (DialContext_ip sys network (FromAddrPort (AddrPortFrom a (sa_Port address))) w1 Hv)
    as [e He].
  change (d_DialContext (default_Dialer sys)) with
    (DialContext (Conn := Conn) (PConn := PConn) (Lis := Lis) sys) in Hdial. congruence.
Qed.

(** ** Witnesses *)

(** One way a race can go: the primary dial returns before the delay; when
    it failed, the timer fires and the fallback dial runs. *)
Definition sequential_race {W Conn PConn} `{ExLib} (d : Dialer W Conn PConn)
    (network : Network) (port delay : Z) (primaries fallbacks : list Addr)
    : ST W (gores (option Conn)) :=
  fun w =>
    match dial_serial d network primaries port w with
    | ((c, None), w') => ((c, None), w')
    | ((_, Some e), w') =>
        match dial_serial d network fallbacks port w' with
        | ((c, None), w'') => ((c, None), w'')
        | (_, w'') => ((None, Some e), w'')
        end
    end.

Lemma reach_one {Conn} (possible : bool -> gores (option Conn) -> Prop) tr s ev s' :
  reach possible tr s -> event_ok possible ev -> race_step ev s = Some s' ->
  exists tr', reach possible tr' s'.
Proof. intros. eexists. by econstructor. Qed.

Lemma sequential_race_sound {W Conn PConn} `{ExLaws} :
  race_sound (sequential_race (W := W) (Conn := Conn) (PConn := PConn)).
Proof.
  intros d network port delay primaries fallbacks w r w' Hr. unfold sequential_race in Hr.
  set (possible := race_dials d network port primaries fallbacks).
  destruct (dial_serial d network primaries port w) as [[c [e|]] w1] eqn:E1.
  - assert (event_ok possible (EDialDone true (c, Some e))) as Hok1 by (by exists w, w1).
    destruct (reach_one possible _ _ (EDialDone true (c, Some e)) _ (reach_init possible) Hok1
      eq_refl) as [tr1 Hr1].
    destruct (reach_one possible _ _ (EResult true) _ Hr1 I eq_refl) as [tr2 Hr2].
    destruct (reach_one possible _ _ ETimer _ Hr2 I eq_refl) as [tr3 Hr3].
    destruct (dial_serial d network fallbacks port w1) as [[c2 e2] w2] eqn:E2.
    assert (event_ok possible (EDialDone false (c2, e2))) as Hok2 by (by exists w1, w2).
    destruct (reach_one possible _ _ (EDialDone false (c2, e2)) _ Hr3 Hok2 eq_refl) as [tr4 Hr4].
    destruct (reach_one possible _ _ (EResult false) _ Hr4 I eq_refl) as [tr5 Hr5].
    eexists tr5, _. split; [exact Hr5|]. destruct e2 as [e2|]; by simplify_eq.
  - assert (event_ok possible (EDialDone true (c, None))) as Hok1 by (by exists w, w1).
    destruct (reach_one possible _ _ (EDialDone true (c, None)) _ (reach_init possible) Hok1
      eq_refl) as [tr1 Hr1].
    destruct (reach_one possible _ _ (EResult true) _ Hr1 I eq_refl) as [tr2 Hr2].
    eexists tr2, _. split; [exact Hr2|]. by simplify_eq.
Qed.

Module ResolveDialerExample.

(** The world counts the dials; only the second address answers. *)
Definition dialer : Dialer nat nat nat := MkDialer
  (fun _ a n => (if bool_decide (sa_Addr a = Addr4 2) then (Some 9, None)
                 else (None, Some (ENew "refused")), S n))
  (fun _ n => ((None, Some (ENew "refused")), n)).

(** "a" has two addresses, any other name none. *)
Definition client : Client nat := MkClient
  (fun name _ n => ((if String.eqb name "a" then [Addr4 1; Addr4 2] else [], None), n))
  (fun _ n => ((None, None), n)).

Definition rd : RDialer nat nat nat :=
  MkRDialer (PDefault dialer DefaultHappyEyeballConf) client StrategyIPv4Only.

End ResolveDialerExample.

Lemma RDialer_ListenPacket_panics_witness :
  (RDialer_ListenPacket (fun _ => NA_nil) ResolveDialerExample.rd (MkSocks "b" AddrZero 53) 0).1 =
    Panic "LocalAddr of a nil net.PacketConn".
Proof.
  apply (RDialer_ListenPacket_panics (fun _ => NA_nil) ResolveDialerExample.rd
    (MkSocks "b" AddrZero 53) 0 0); reflexivity.
Defined.

(** The second address of "a" is dialed and answers. *)
Lemma RDialer_DialContext_spec_witness :
  let run := RDialer_DialContext sequential_race ResolveDialerExample.rd NetworkTCP
    (MkSocks "a" AddrZero 80) 0 in
  run = ((Some 9, None), 2) /\
  dialed_from ResolveDialerExample.dialer NetworkTCP 80 [Addr4 1; Addr4 2] (Some 9).
Proof.
  cbv zeta. split; [reflexivity|].
  refine (proj2 (proj2 (RDialer_DialContext_spec sequential_race ResolveDialerExample.dialer
    DefaultHappyEyeballConf ResolveDialerExample.client StrategyIPv4Only NetworkTCP
    (MkSocks "a" AddrZero 80) 0 _)) _ _ (Some 9) _);
    [apply sequential_race_sound|reflexivity|reflexivity|reflexivity].
Defined.

Lemma RDialer_system_never_connects_witness :
  is_Some (RDialer_DialContext sequential_race
    (MkRDialer (PDefault (default_Dialer (Conn := NetTrace.value) (PConn := NetTrace.value)
       (Lis := NetTrace.value) (NewDefault NetTrace.finder)) DefaultHappyEyeballConf)
       (MkClient (fun _ _ w => (([Addr4 1; Addr6 2 ""], None), w)) (fun _ w => ((None, None), w)))
       StrategyDefault)
    NetworkTCP (MkSocks "a" AddrZero 80) SysTrace.world0).1.2.
Proof.
  apply (RDialer_system_never_connects (Conn := NetTrace.value) (PConn := NetTrace.value)
    (Lis := NetTrace.value)); [apply sequential_race_sound|reflexivity].
Defined.
