(* ===== verification/Lines.v ===== *)
(** * Reading a file line by line

    [dnsReadConfig] and [hosts.File.update] read a file through
    [bufio.Reader.ReadLine] and join the pieces of a line that does not fit
    the reader's buffer.  The pieces are modelled as the reader hands them
    out; [file_lines_spec] shows that the loop sees the lines of the file, up
    to its last newline, and what becomes of a last line without one. *)

From S2P Require Import Prelude GoStd.

Definition newline : ascii := "010"%char.
Definition carriage : ascii := "013"%char.

(** The size of the buffer of [bufio.NewReader]. *)
Definition bufio_size : nat := 4096.

(** One trailing carriage return, which [ReadLine] drops with the newline. *)
Definition drop_cr (line : string) : string :=
  match slast line with
  | Some c => if Ascii.eqb c carriage then stake (String.length line - 1) line else line
  | None => line
  end.

(** [reader.ReadLine()]: the piece, whether it is only a prefix of its line,
    and what is left to read; [None] at the end of the file.  A full buffer
    that ends in a carriage return keeps that byte for the next piece. *)
Definition ReadLine (size : nat) (s : string) : option (string * bool * string) :=
  match IndexByte (stake size s) newline with
  | Some i => Some (drop_cr (stake i s), false, sdrop (S i) s)
  | None =>
      if (size <=? String.length s)%nat then
        let piece := stake size s in
        match slast piece with
        | Some c =>
            if Ascii.eqb c carriage
            then Some (stake (size - 1) s, true, sdrop (size - 1) s)
            else Some (piece, true, sdrop size s)
        | None => Some (piece, true, sdrop size s)
        end
      else match s with "" => None | _ => Some (s, false, "") end
  end.

(** The lines the loop goes through, with the pieces joined; a prefix that
    nothing follows is lost. *)
Fixpoint read_lines (fuel size : nat) (prefix s : string) : list string :=
  match fuel with
  | 0 => []
  | S fuel =>
      match ReadLine size s with
      | None => []
      | Some (line, true, rest) => read_lines fuel size (prefix +++ line) rest
      | Some (line, false, rest) => (prefix +++ line) :: read_lines fuel size "" rest
      end
  end.

(** The lines of a file's content; every piece is longer than nothing, so
    the length of the content bounds the number of pieces. *)
Definition file_lines (content : string) : list string :=
  read_lines (S (String.length content)) bufio_size "" content.

(** ** The reference: splitting at newlines *)

(** The lines, each ended by a newline, without one carriage return. *)
Fixpoint split_lines (cur s : string) : list string :=
  match s with
  | "" => []
  | String c s =>
      if Ascii.eqb c newline then drop_cr cur :: split_lines "" s
      else split_lines (cur +++ sbyte c) s
  end.

(** ** Lemmas *)

Lemma split_lines_app_no_newline cur t s :
  IndexByte t newline = None -> split_lines cur (t +++ s) = split_lines (cur +++ t) s.
Proof.
  revert cur. induction t as [|c t IH]; intros cur Ht; simpl; [by rewrite sapp_nil_r|].
  simpl in Ht. destruct (Ascii.eqb c newline); [done|].
  destruct (IndexByte t newline) eqn:E; [done|]. rewrite IH by done.
  by rewrite sapp_assoc.
Qed.

Lemma IndexByte_split t c i :
  IndexByte t c = Some i ->
  t = stake i t +++ String c (sdrop (S i) t) /\ IndexByte (stake i t) c = None /\
  i < String.length t.
Proof.
  revert i. induction t as [|x t IH]; intros i; simpl; [done|].
  destruct (Ascii.eqb_spec x c) as [->|Hne].
  - intros [= <-]. simpl. split; [done|]. split; [done|lia].
  - destruct (IndexByte t c) as [j|] eqn:E; [|done]. intros [= <-].
    destruct (IH j eq_refl) as (Ht & Hn & Hl). split; [|split].
    + simpl. f_equal. exact Ht.
    + simpl. apply Ascii.eqb_neq in Hne as ->. by rewrite Hn.
    + lia.
Qed.

Lemma slast_app s t : t <> "" -> slast (s +++ t) = slast t.
Proof.
  destruct (string_snoc t) as [->|(u & c & ->)]; [done|]. intros _.
  by rewrite <- sapp_assoc, !slast_snoc.
Qed.

Lemma slast_none s : slast s = None -> s = "".
Proof. destruct (string_snoc s) as [->|(t & c & ->)]; [done|by rewrite slast_snoc]. Qed.

Lemma stake_snoc t c : stake (String.length (t +++ sbyte c) - 1) (t +++ sbyte c) = t.
Proof.
  rewrite sapp_length. simpl. replace (String.length t + 1 - 1) with (String.length t) by lia.
  apply stake_app.
Qed.

Lemma drop_cr_app p l : l <> "" -> drop_cr (p +++ l) = p +++ drop_cr l.
Proof.
  destruct (string_snoc l) as [->|(u & c & ->)]; [done|]. intros _. unfold drop_cr.
  rewrite <- sapp_assoc, !slast_snoc. destruct (Ascii.eqb c carriage).
  - by rewrite !stake_snoc.
  - by rewrite sapp_assoc.
Qed.

(** Prefixes end in a carriage return only when the rest starts with one. *)
Definition cr_kept (prefix s : string) : Prop :=
  slast prefix = Some carriage -> sat s 0 = Some carriage.

(** A file whose last line is ended. *)
Definition terminated (s : string) : Prop := s = "" \/ slast s = Some newline.

Lemma terminated_rest n s : terminated s -> terminated (sdrop n s).
Proof.
  intros [->|Hs]; [by left; destruct n|].
  destruct (decide (sdrop n s = "")) as [->|Hne]; [by left|right].
  rewrite <- Hs. rewrite <- (stake_sdrop n s) at 2. by rewrite slast_app.
Qed.

Lemma stake_length n s : String.length (stake n s) = Nat.min n (String.length s).
Proof. revert n. induction s as [|c s IH]; intros [|n]; simpl; auto. Qed.

Lemma IndexByte_slast s c : slast s = Some c -> IndexByte s c <> None.
Proof.
  destruct (string_snoc s) as [->|(t & x & ->)]; [done|]. rewrite slast_snoc. intros [= ->].
  induction t as [|y t IH]; simpl; [by rewrite Ascii.eqb_refl|].
  destruct (Ascii.eqb y c); [done|]. by destruct (IndexByte (t +++ sbyte c) c).
Qed.

Lemma stake_stake n m s : n <= m -> stake n (stake m s) = stake n s.
Proof.
  revert m s. induction n as [|n IH]; intros m s Hm; [by destruct s|].
  destruct m as [|m]; [lia|]. destruct s as [|c s]; [done|]. simpl. by rewrite IH by lia.
Qed.

Lemma sdrop_stake_step n s c :
  sat s n = Some c -> sdrop n s = String c (sdrop (S n) s).
Proof.
  revert s. induction n as [|n IH]; intros [|x s]; simpl; try done.
  - by intros [= ->].
  - intros Hs. by apply IH in Hs.
Qed.

Lemma IndexByte_stake_none n m s c :
  n <= m -> IndexByte (stake m s) c = None -> IndexByte (stake n s) c = None.
Proof.
  revert m s. induction n as [|n IH]; intros m s Hm; [by destruct s|].
  destruct m as [|m]; [lia|]. destruct s as [|x s]; [done|]. simpl.
  destruct (Ascii.eqb x c); [done|]. intros Hn.
  destruct (IndexByte (stake m s) c) eqn:E; [done|]. by rewrite (IH m s) by (done || lia).
Qed.

Lemma stake_all_le n s : String.length s <= n -> stake n s = s.
Proof.
  revert n. induction s as [|c s IH]; intros [|n]; simpl; try done; [lia|].
  intros Hl. by rewrite IH by lia.
Qed.

Lemma IndexByte_app_none s t c :
  IndexByte s c = None -> IndexByte t c = None -> IndexByte (s +++ t) c = None.
Proof.
  intros Hs Ht. induction s as [|x s IH]; simpl in *; [done|].
  destruct (Ascii.eqb x c); [done|]. destruct (IndexByte s c); [done|]. by rewrite IH.
Qed.

(** ** Equivalence with the reference *)

(** One piece that ends a line. *)
Lemma split_lines_piece prefix s i size :
  IndexByte prefix newline = None -> cr_kept prefix s ->
  IndexByte (stake size s) newline = Some i ->
  split_lines "" (prefix +++ s) = (prefix +++ drop_cr (stake i s)) :: split_lines "" (sdrop (S i) s).
Proof.
  intros Hp Hc Hi. apply IndexByte_split in Hi as (Ht & Hn & Hl).
  rewrite stake_length in Hl. rewrite stake_stake in Ht, Hn by lia.
  assert (s = stake i s +++ String newline (sdrop (S i) s)) as Hs.
  { rewrite <- (stake_sdrop i s) at 1. f_equal. apply sdrop_stake_step.
    assert (String.length (stake i s) = i) as Hlen by (rewrite stake_length; lia).
    pose proof (sat_app_length (stake i s) newline
      (sdrop (S i) (stake size s) +++ sdrop size s)) as Hat.
    rewrite Hlen in Hat. rewrite <- Hat. f_equal.
    rewrite <- (stake_sdrop size s) at 1. rewrite Ht at 1. by rewrite sapp_assoc. }
  rewrite split_lines_app_no_newline by done. rewrite Hs at 1.
  rewrite split_lines_app_no_newline by done. simpl.
  f_equal. destruct (decide (stake i s = "")) as [He|Hne]; [|by apply drop_cr_app].
  rewrite He. change (drop_cr "") with "". rewrite !sapp_nil_r. unfold drop_cr. destruct (slast prefix) as [c|] eqn:El; [|done].
  destruct (Ascii.eqb_spec c carriage) as [->|]; [|done]. apply Hc in El.
  rewrite Hs, He in El. done.
Qed.

(** One piece of a line that does not fit the buffer. *)
Lemma ReadLine_prefix size s line rest :
  2 <= size -> terminated s -> ReadLine size s = Some (line, true, rest) ->
  s = line +++ rest /\ line <> "" /\ IndexByte line newline = None /\ terminated rest /\
  cr_kept line rest.
Proof.
  intros Hsz Ht. unfold ReadLine.
  destruct (IndexByte (stake size s) newline) as [i|] eqn:Ei; [done|].
  destruct (Nat.leb_spec size (String.length s)) as [Hle|]; [|by destruct s].
  assert (forall n, 1 <= n <= size -> stake n s <> "") as Hne.
  { intros n Hn Hs. apply (f_equal String.length) in Hs. rewrite stake_length in Hs.
    simpl in Hs. lia. }
  assert (forall n, n <= size -> IndexByte (stake n s) newline = None) as Hnl
    by (intros n Hn; by apply (IndexByte_stake_none n size)).
  assert (forall n, 1 <= n <= size -> cr_kept (stake n s) (sdrop n s) ->
    s = stake n s +++ sdrop n s /\ stake n s <> "" /\ IndexByte (stake n s) newline = None /\
    terminated (sdrop n s) /\ cr_kept (stake n s) (sdrop n s)) as Hall.
  { intros n Hn Hk. rewrite stake_sdrop. split; [done|]. split; [by apply Hne|].
    split; [apply Hnl; lia|]. split; [by apply terminated_rest|done]. }
  destruct (slast (stake size s)) as [c|] eqn:El.
  2: { apply slast_none in El. by apply (Hne size) in El; [|lia]. }
  destruct (Ascii.eqb_spec c carriage) as [->|Hc]; intros [= <- <-]; apply Hall; try lia.
  - intros _. destruct (string_snoc (stake size s)) as [E|(t & c & E)]; [by rewrite E in El|].
    rewrite E, slast_snoc in El. simplify_eq.
    assert (String.length t = size - 1) as Hl.
    { apply (f_equal String.length) in E. rewrite stake_length, sapp_length in E. simpl in E. lia. }
    rewrite <- (stake_sdrop size s), E, sapp_assoc, <- Hl, sdrop_app. done.
  - intros Hx. congruence.
Qed.

(** *** A last line without a newline *)

Lemma IndexByte_stake_lt n s c i : IndexByte s c = Some i -> i < n -> IndexByte (stake n s) c = Some i.
Proof.
  revert n i. induction s as [|x s IH]; intros [|n] i; simpl; try done; [lia|].
  destruct (Ascii.eqb x c); [done|]. destruct (IndexByte s c) as [j|]; [|done].
  intros [= <-] Hi. by rewrite (IH n j) by (done || lia).
Qed.

Lemma stake_app_le n s t : n <= String.length s -> stake n (s +++ t) = stake n s.
Proof.
  revert n. induction s as [|x s IH]; intros n Hn.
  - destruct n; [by destruct t|simpl in Hn; lia].
  - destruct n; [done|]. simpl in *. by rewrite IH by lia.
Qed.

Lemma sdrop_app_le n s t : n <= String.length s -> sdrop n (s +++ t) = sdrop n s +++ t.
Proof.
  revert n. induction s as [|x s IH]; intros n Hn.
  - destruct n; [done|simpl in Hn; lia].
  - destruct n; [done|]. simpl in *. apply IH. lia.
Qed.

Lemma IndexByte_app_some s t c i : IndexByte s c = Some i -> IndexByte (s +++ t) c = Some i.
Proof.
  revert i. induction s as [|x s IH]; intros i; simpl; [done|]. destruct (Ascii.eqb x c); [done|].
  destruct (IndexByte s c) as [j|]; [|done]. by rewrite (IH j).
Qed.

(** The reader does not look past the last newline before it has come to it. *)
Lemma ReadLine_app size s t :
  terminated s -> s <> "" ->
  ReadLine size (s +++ t) =
  match ReadLine size s with Some (line, b, rest) => Some (line, b, rest +++ t) | None => None end.
Proof.
  intros [->|Hs] Hne; [done|]. destruct (IndexByte s newline) as [i|] eqn:Ei; [|by apply IndexByte_slast in Hs].
  pose proof (IndexByte_split _ _ _ Ei) as (_ & _ & Hi). pose proof (IndexByte_app_some s t _ _ Ei) as Ea.
  unfold ReadLine. destruct (decide (i < size)) as [Hlt|Hge].
  - rewrite (IndexByte_stake_lt size s newline i), (IndexByte_stake_lt size (s +++ t) newline i) by done.
    rewrite (stake_app_le i), (sdrop_app_le (S i)) by lia. done.
  - rewrite (stake_app_le size) by lia. destruct (IndexByte (stake size s) newline) as [j|] eqn:Ej.
    { pose proof (IndexByte_split _ _ _ Ej) as (_ & _ & Hj). rewrite stake_length in Hj.
      rewrite (stake_app_le j), (sdrop_app_le (S j)) by lia. done. }
    rewrite sapp_length. do 2 (rewrite (proj2 (Nat.leb_le _ _)) by lia).
    rewrite (stake_app_le (size - 1)), !sdrop_app_le by lia.
    destruct (slast (stake size s)) as [c|]; [|done]. by destruct (Ascii.eqb c carriage).
Qed.

(** A last line without carriage returns comes in pieces as long as the
    buffer; the line is lost when nothing is left after them. *)
Definition last_line (size : nat) (prefix t : string) : list string :=
  if (String.length t mod size =? 0)%nat then [] else [prefix +++ t].

Lemma read_lines_last size fuel prefix t :
  0 < size -> String.length t < fuel -> IndexByte t newline = None -> IndexByte t carriage = None ->
  read_lines fuel size prefix t = last_line size prefix t.
Proof.
  intros Hsz. revert prefix t. induction fuel as [|fuel IH]; intros prefix t Hf Hn Hc; [lia|].
  assert (forall n c, IndexByte t c = None -> IndexByte (stake n t) c = None) as Htk.
  { intros n c Ht. destruct (decide (n <= String.length t)); [|by rewrite stake_all_le by lia].
    apply (IndexByte_stake_none n (String.length t)); [done|]. by rewrite stake_all_le. }
  assert (forall n c, IndexByte t c = None -> IndexByte (sdrop n t) c = None) as Hdr.
  { clear. induction t as [|x t IHt]; intros [|n] c; simpl; try done. destruct (Ascii.eqb x c); [done|].
    destruct (IndexByte t c) eqn:E; [done|]. intros _. by apply IHt. }
  simpl. unfold ReadLine. rewrite Htk by done. unfold last_line.
  destruct (Nat.leb_spec size (String.length t)) as [Hle|Hlt].
  - assert ((if (String.length t mod size =? 0)%nat then [] else [prefix +++ t]) =
      last_line size (prefix +++ stake size t) (sdrop size t)) as ->.
    { unfold last_line. rewrite sdrop_length, sapp_assoc, stake_sdrop.
      replace (String.length t mod size) with ((String.length t - size) mod size); [done|].
      replace (String.length t) with (String.length t - size + 1 * size) at 2 by lia.
      by rewrite Nat.Div0.mod_add. }
    assert (slast (stake size t) <> Some carriage) as Hsl.
    { intros Hs. apply IndexByte_slast in Hs. by rewrite Htk in Hs. }
    rewrite <- IH; [| |by apply Hdr..].
    + destruct (slast (stake size t)) as [c|]; [|done]. destruct (Ascii.eqb_spec c carriage); [congruence|done].
    + rewrite sdrop_length. lia.
  - rewrite Nat.mod_small by done. destruct t as [|x t]; [done|]. cbn [String.length Nat.eqb].
    f_equal. destruct fuel as [|fuel]; [done|]. by destruct size; [lia|].
Qed.

(** The joined pieces are the lines of the text up to its last newline, and
    what the rest gives. *)
Lemma read_lines_split size fuel prefix s t r :
  2 <= size -> String.length (s +++ t) < fuel -> terminated s -> (prefix <> "" -> s <> "") ->
  IndexByte prefix newline = None -> cr_kept prefix s ->
  (forall fuel, String.length t < fuel -> read_lines fuel size "" t = r) ->
  read_lines fuel size prefix (s +++ t) = split_lines "" (prefix +++ s) ++ r.
Proof.
  intros Hsz. revert prefix s. induction fuel as [|fuel IH]; intros prefix s Hf Ht Hps Hp Hc Hr; [lia|].
  destruct (decide (s = "")) as [->|Hs].
  { destruct prefix as [|x prefix]; [by apply Hr|]. by destruct (Hps ltac:(done)). }
  cbn [read_lines]. rewrite ReadLine_app by done. rewrite sapp_length in Hf.
  destruct (ReadLine size s) as [[[line []] rest]|] eqn:Er.
  - destruct (ReadLine_prefix _ _ _ _ Hsz Ht Er) as (-> & Hne & Hnl & Htr & Hk).
    assert (1 <= String.length line) by (destruct line; simpl; [done|lia]).
    rewrite sapp_length in Hf. rewrite <- sapp_assoc. apply IH; try done; [rewrite sapp_length; lia| | |].
    + intros _ ->. destruct Ht as [Ht|Ht].
      * rewrite sapp_nil_r in Ht. done.
      * rewrite sapp_nil_r in Ht. by apply (IndexByte_slast _ newline) in Ht.
    + by apply IndexByte_app_none.
    + intros Hl. apply Hk. by rewrite slast_app in Hl.
  - unfold ReadLine in Er. destruct (IndexByte (stake size s) newline) as [i|] eqn:Ei.
    + injection Er as <- <-. rewrite (split_lines_piece prefix s i size) by done. cbn [app]. f_equal.
      apply IndexByte_split in Ei as (_ & _ & Hl). rewrite stake_length in Hl.
      apply (IH "" (sdrop (S i) s)); try done; [|by apply terminated_rest].
      rewrite sapp_length, sdrop_length. lia.
    + destruct (Nat.leb_spec size (String.length s)) as [Hle|Hlt].
      * destruct (slast _) as [c|]; [|done]. by destruct (Ascii.eqb c carriage).
      * destruct Ht as [->|Ht]; [done|]. destruct s; [done|].
        apply (IndexByte_slast _ newline) in Ht.
        assert (stake size (String a s) = String a s) as Hst.
        { apply stake_all_le. lia. }
        congruence.
  - unfold ReadLine in Er. destruct (IndexByte (stake size s) newline); [done|].
    destruct (Nat.leb_spec size (String.length s)).
    + destruct (slast _) as [c|]; [|done]. by destruct (Ascii.eqb c carriage).
    + destruct s; done.
Qed.

(** ** Property *)

(** C36: reading a file, the text of its lines that end in a newline and a
    last line [t] that does not, goes through exactly the lines of the text,
    each without its newline and at most one carriage return, however long
    they are and wherever the reader's buffer cuts them.  The last line, when
    it has no carriage return, comes as it is; it is lost when its length is
    a multiple of the buffer's size.  A file that ends in a newline has the
    empty last line. *)
Theorem file_lines_spec content t :
  terminated content -> IndexByte t newline = None -> IndexByte t carriage = None ->
  file_lines (content +++ t) =
    split_lines "" content ++ (if (String.length t mod 4096 =? 0)%nat then [] else [t]).
Proof.
  intros Ht Hn Hc. unfold file_lines. apply (read_lines_split bufio_size _ "" content); try done.
  - unfold bufio_size. lia.
  - lia.
  - intros fuel Hf. by apply read_lines_last; [unfold bufio_size; lia|..].
Qed.

Lemma file_lines_spec_witness :
  let content := "a b" +++ sbyte carriage +++ sbyte newline +++ "# c" +++ sbyte newline in
  file_lines (content +++ "") = ["a b"; "# c"] /\ file_lines (content +++ "d") = ["a b"; "# c"; "d"].
Proof.
  cbv zeta. split; (rewrite file_lines_spec; [vm_compute; reflexivity|right; reflexivity|reflexivity|reflexivity]).
Defined.

(** The same with a buffer of four bytes. *)
Example unterminated_lines :
  read_lines 9 4 "" ("abcde" +++ sbyte newline +++ "abc") = ["abcde"; "abc"] /\
  read_lines 9 4 "" ("abcde" +++ sbyte newline +++ "abcd") = ["abcde"].
Proof. split; reflexivity. Qed.
