(* ===== verification/ResolvConf.v ===== *)
(** * The resolver configuration: [resolv.conf]

    [resolve/transport/local.go] from [dnsReadConfig] on, and the helpers of
    [resolve/transport/helper.go]: reading the file, the names a query goes
    through, the rotation of servers, and the reload. *)

From S2P Require Import Prelude GoStd Netip Meta Dns Addrs Cache Lines.

(** ** [helper.go] *)

Definition avoidDNS (name : string) : bool :=
  if String.eqb name "" then true
  else
    let name := match slast name with
                | Some c => if Ascii.eqb c "." then stake (String.length name - 1) name else name
                | None => name
                end in
    HasSuffix name ".onion".

Definition big : Z := 0xFFFFFF%Z.

(** The loop of [dtoi]: the number read, the digits read and whether it
    stayed below [big]. *)
Fixpoint dtoi_go (n : Z) (i : nat) (s : string) : Z * nat * bool :=
  match s with
  | String c s =>
      if is_digit c then
        let n := (n * 10 + digit_val c)%Z in
        if Z.leb big n then (big, i, false) else dtoi_go n (S i) s
      else if (i =? 0)%nat then (0%Z, 0, false) else (n, i, true)
  | "" => if (i =? 0)%nat then (0%Z, 0, false) else (n, i, true)
  end.

Definition dtoi (s : string) : Z * nat * bool := dtoi_go 0 0 s.

Definition defaultNS : list string := ["127.0.0.1:53"; "[::1]:53"].

(** ** [type dnsConfig] *)

Record dnsConfig := MkConf {
  cf_servers : list string;
  cf_search : list string;
  cf_ndots : Z;
  cf_timeout : Z;
  cf_attempts : Z;
  cf_rotate : bool;
  cf_unknownOpt : bool;
  cf_lookup : list string;
  cf_err : option err;
  cf_mtime : Z;
  cf_soffset : Z;
  cf_singleRequest : bool;
  cf_useTCP : bool;
  cf_trustAD : bool;
  cf_noReload : bool;
}.

Definition conf_init : dnsConfig :=
  MkConf [] [] 1 (5 * Second) 2 false false [] None 0 0 false false false false.

(** Field updates. *)
Definition set_servers (v : list string) (c : dnsConfig) : dnsConfig :=
  MkConf v (cf_search c) (cf_ndots c) (cf_timeout c) (cf_attempts c) (cf_rotate c)
    (cf_unknownOpt c) (cf_lookup c) (cf_err c) (cf_mtime c) (cf_soffset c) (cf_singleRequest c)
    (cf_useTCP c) (cf_trustAD c) (cf_noReload c).
Definition set_search (v : list string) (c : dnsConfig) : dnsConfig :=
  MkConf (cf_servers c) v (cf_ndots c) (cf_timeout c) (cf_attempts c) (cf_rotate c)
    (cf_unknownOpt c) (cf_lookup c) (cf_err c) (cf_mtime c) (cf_soffset c) (cf_singleRequest c)
    (cf_useTCP c) (cf_trustAD c) (cf_noReload c).
Definition set_numbers (ndots timeout attempts : Z) (c : dnsConfig) : dnsConfig :=
  MkConf (cf_servers c) (cf_search c) ndots timeout attempts (cf_rotate c)
    (cf_unknownOpt c) (cf_lookup c) (cf_err c) (cf_mtime c) (cf_soffset c) (cf_singleRequest c)
    (cf_useTCP c) (cf_trustAD c) (cf_noReload c).
Definition set_flags (rotate unknownOpt singleRequest useTCP trustAD noReload : bool)
    (c : dnsConfig) : dnsConfig :=
  MkConf (cf_servers c) (cf_search c) (cf_ndots c) (cf_timeout c) (cf_attempts c) rotate
    unknownOpt (cf_lookup c) (cf_err c) (cf_mtime c) (cf_soffset c) singleRequest
    useTCP trustAD noReload.
Definition set_lookup (v : list string) (c : dnsConfig) : dnsConfig :=
  MkConf (cf_servers c) (cf_search c) (cf_ndots c) (cf_timeout c) (cf_attempts c) (cf_rotate c)
    (cf_unknownOpt c) v (cf_err c) (cf_mtime c) (cf_soffset c) (cf_singleRequest c)
    (cf_useTCP c) (cf_trustAD c) (cf_noReload c).
Definition set_file (e : option err) (mtime : Z) (c : dnsConfig) : dnsConfig :=
  MkConf (cf_servers c) (cf_search c) (cf_ndots c) (cf_timeout c) (cf_attempts c) (cf_rotate c)
    (cf_unknownOpt c) (cf_lookup c) e mtime (cf_soffset c) (cf_singleRequest c)
    (cf_useTCP c) (cf_trustAD c) (cf_noReload c).
Definition set_soffset (v : Z) (c : dnsConfig) : dnsConfig :=
  MkConf (cf_servers c) (cf_search c) (cf_ndots c) (cf_timeout c) (cf_attempts c) (cf_rotate c)
    (cf_unknownOpt c) (cf_lookup c) (cf_err c) (cf_mtime c) v (cf_singleRequest c)
    (cf_useTCP c) (cf_trustAD c) (cf_noReload c).

Definition flag_rotate (c : dnsConfig) : dnsConfig :=
  set_flags true (cf_unknownOpt c) (cf_singleRequest c) (cf_useTCP c) (cf_trustAD c)
    (cf_noReload c) c.
Definition flag_unknown (c : dnsConfig) : dnsConfig :=
  set_flags (cf_rotate c) true (cf_singleRequest c) (cf_useTCP c) (cf_trustAD c)
    (cf_noReload c) c.
Definition flag_single (c : dnsConfig) : dnsConfig :=
  set_flags (cf_rotate c) (cf_unknownOpt c) true (cf_useTCP c) (cf_trustAD c) (cf_noReload c) c.
Definition flag_tcp (c : dnsConfig) : dnsConfig :=
  set_flags (cf_rotate c) (cf_unknownOpt c) (cf_singleRequest c) true (cf_trustAD c)
    (cf_noReload c) c.
Definition flag_trustAD (c : dnsConfig) : dnsConfig :=
  set_flags (cf_rotate c) (cf_unknownOpt c) (cf_singleRequest c) (cf_useTCP c) true
    (cf_noReload c) c.
Definition flag_noReload (c : dnsConfig) : dnsConfig :=
  set_flags (cf_rotate c) (cf_unknownOpt c) (cf_singleRequest c) (cf_useTCP c) (cf_trustAD c)
    true c.

Section resolv_conf.
Context `{DnsLib}.

(** ** [dnsDefaultSearch], for the result of [os.Hostname()] *)

Definition dnsDefaultSearch (hostname : gores string) : list string :=
  let '(hn, e) := hostname in
  match e with
  | Some _ => []
  | None =>
      match IndexByte hn "." with
      | Some i =>
          if (i <? String.length hn - 1)%nat then [dns_Fqdn (sdrop (S i) hn)] else []
      | None => []
      end
  end.

(** ** The lines of the file *)

(** One word after [options]. *)
Definition conf_option (conf : dnsConfig) (s : string) : dnsConfig :=
  if HasPrefix s "ndots:" then
    let n := (dtoi (sdrop 6 s)).1.1 in
    let n := if Z.ltb n 0 then 0%Z else if Z.ltb 15 n then 15%Z else n in
    set_numbers n (cf_timeout conf) (cf_attempts conf) conf
  else if HasPrefix s "timeout:" then
    let n := (dtoi (sdrop 8 s)).1.1 in
    let n := if Z.ltb n 1 then 1%Z else n in
    set_numbers (cf_ndots conf) (i64 (n * Second)) (cf_attempts conf) conf
  else if HasPrefix s "attempts:" then
    let n := (dtoi (sdrop 9 s)).1.1 in
    let n := if Z.ltb n 1 then 1%Z else n in
    set_numbers (cf_ndots conf) (cf_timeout conf) n conf
  else if String.eqb s "rotate" then flag_rotate conf
  else if (String.eqb s "single-request" || String.eqb s "single-request-reopen")%bool
    then flag_single conf
  else if (String.eqb s "use-vc" || String.eqb s "usevc" || String.eqb s "tcp")%bool
    then flag_tcp conf
  else if String.eqb s "trust-ad" then flag_trustAD conf
  else if String.eqb s "edns0" then conf
  else if String.eqb s "no-reload" then flag_noReload conf
  else flag_unknown conf.

Definition is_comment (line : string) : bool :=
  match line with
  | String c _ => (Ascii.eqb c ";" || Ascii.eqb c "#")%bool
  | "" => false
  end.

(** One line of the file. *)
Definition conf_line (conf : dnsConfig) (line : string) : dnsConfig :=
  if is_comment line then conf
  else
    match Fields line with
    | [] => conf
    | f0 :: f =>
        if String.eqb f0 "nameserver" then
          match f with
          | f1 :: _ =>
              if (length (cf_servers conf) <? 3)%nat then
                match ParseAddr f1 with
                | Some _ => set_servers (cf_servers conf ++ [JoinHostPort f1 "53"]) conf
                | None => conf
                end
              else conf
          | [] => conf
          end
        else if String.eqb f0 "domain" then
          match f with f1 :: _ => set_search [dns_Fqdn f1] conf | [] => conf end
        else if String.eqb f0 "search" then
          set_search (List.filter (fun name => negb (String.eqb name "."))
                        (List.map dns_Fqdn f)) conf
        else if String.eqb f0 "options" then fold_left conf_option f conf
        else if String.eqb f0 "lookup" then set_lookup f conf
        else flag_unknown conf
    end.

(** The defaults for what the file did not say. *)
Definition conf_defaults (hostname : gores string) (conf : dnsConfig) : dnsConfig :=
  let conf := match cf_servers conf with [] => set_servers defaultNS conf | _ => conf end in
  match cf_search conf with
  | [] => set_search (dnsDefaultSearch hostname) conf
  | _ => conf
  end.

(** What opening the file gives: an error, or its content with the result of
    [Stat] on it. *)
Definition file_view : Type := (string * (Z + err)) + err.

Definition dnsReadConfig (file : file_view) (hostname : gores string) : dnsConfig :=
  match file with
  | inr e =>
      set_file (Some e) 0 (set_search (dnsDefaultSearch hostname) (set_servers defaultNS conf_init))
  | inl (_, inr e) =>
      set_file (Some e) 0 (set_search (dnsDefaultSearch hostname) (set_servers defaultNS conf_init))
  | inl (content, inl mtime) =>
      conf_defaults hostname
        (fold_left conf_line (file_lines content) (set_file None mtime conf_init))
  end.

(** ** [serverOffset]: the offset and the configuration after the call *)

Definition serverOffset (conf : dnsConfig) : Z * dnsConfig :=
  if cf_rotate conf then
    let soffset := u32 (cf_soffset conf + 1) in
    (u32 (soffset - 1), set_soffset soffset conf)
  else (0%Z, conf).

(** ** [nameList] *)

Definition nameList (conf : dnsConfig) (name : string) : list string :=
  let l := String.length name in
  let rooted := match slast name with Some c => Ascii.eqb c "." | None => false end in
  if (254 <? l)%nat || ((l =? 254)%nat && negb rooted) then []
  else if rooted then (if avoidDNS name then [] else [name])
  else
    let hasNdots := Z.leb (cf_ndots conf) (Z.of_nat (Count name ".")) in
    let name := name +++ "." in
    (if hasNdots && negb (avoidDNS name) then [name] else []) ++
    omap (fun suffix =>
      let fqdn := name +++ suffix in
      if negb (avoidDNS fqdn) && (String.length fqdn <=? 254)%nat then Some fqdn else None)
      (cf_search conf) ++
    (if negb hasNdots && negb (avoidDNS name) then [name] else []).

(** ** [resolverConfig]: reading the file again *)

(** The fields of [resolverConfig]: whether [initOnce] ran, the semaphore
    [ch], [lastChecked] and the configuration. *)
Record resolverConfig := MkRC {
  rc_inited : bool;
  rc_sema : bool;           (* [true]: the slot of [ch] is taken *)
  rc_lastChecked : Z;
  rc_conf : dnsConfig;
}.

(** What a call of [tryUpdate] sees: the time, the modification time of the
    file ([Stat] on its name), and what reading it gives. *)
Record update_env := MkUpdateEnv {
  ue_now : Z;
  ue_stat : option Z;
  ue_read : dnsConfig;
}.

Definition rc_init (ev : update_env) (rc : resolverConfig) : resolverConfig :=
  MkRC true false (ue_now ev) (ue_read ev).

(** [tryUpdate]; the semaphore is released when the call returns. *)
Definition tryUpdate (ev : update_env) (rc : resolverConfig) : resolverConfig :=
  let rc := if rc_inited rc then rc else rc_init ev rc in
  if cf_noReload (rc_conf rc) then rc
  else if rc_sema rc then rc
  else
    let now := ue_now ev in
    if Z.ltb (now - 5 * Second) (rc_lastChecked rc) then rc
    else
      let rc := MkRC (rc_inited rc) (rc_sema rc) now (rc_conf rc) in
      let mtime := default 0%Z (ue_stat ev) in
      if Z.eqb mtime (cf_mtime (rc_conf rc)) then rc
      else MkRC (rc_inited rc) (rc_sema rc) (rc_lastChecked rc) (ue_read ev).

End resolv_conf.

(** ** Lemmas *)

Section resolv_lemmas.
Context `{DnsLaws}.

Lemma dtoi_go_range n i s : (0 <= n < big)%Z -> (0 <= (dtoi_go n i s).1.1 <= big)%Z.
Proof.
  revert n i. induction s as [|c s IH]; intros n i Hn; simpl.
  - destruct (i =? 0)%nat; simpl; unfold big in *; lia.
  - destruct (is_digit c) eqn:Ec; [|destruct (i =? 0)%nat; simpl; unfold big in *; lia].
    apply digit_val_range in Ec.
    destruct (Z.leb_spec big (n * 10 + digit_val c)); simpl; [unfold big; lia|].
    apply IH. lia.
Qed.

Lemma dtoi_range s : (0 <= (dtoi s).1.1 <= big)%Z.
Proof. apply dtoi_go_range. unfold big. lia. Qed.

(** Fully qualified: ends in a dot. *)
Definition rooted (s : string) : Prop := exists t, s = t +++ ".".

Lemma rooted_Fqdn s : rooted (dns_Fqdn s).
Proof. apply IsFqdn_dot, Fqdn_IsFqdn. Qed.

(** A server address the code can have: an address of the file with port
    53, or one of the defaults. *)
Definition server_ok (s : string) : Prop :=
  In s defaultNS \/ exists ip a, ParseAddr ip = Some a /\ s = JoinHostPort ip "53".

(** What every configuration read so far satisfies. *)
Record conf_inv (c : dnsConfig) : Prop := {
  ci_servers : Forall server_ok (cf_servers c) /\ length (cf_servers c) <= 3;
  ci_search : Forall rooted (cf_search c);
  ci_ndots : (0 <= cf_ndots c <= 15)%Z;
  ci_timeout : (Second <= cf_timeout c <= big * Second)%Z;
  ci_attempts : (1 <= cf_attempts c <= big)%Z;
  ci_soffset : cf_soffset c = 0%Z;
}.

Lemma conf_inv_init mtime : conf_inv (set_file None mtime conf_init).
Proof.
  split; simpl; unfold big, Second; try lia; [split; [constructor|lia]|constructor].
Qed.

Lemma conf_inv_numbers c ndots timeout attempts :
  conf_inv c -> (0 <= ndots <= 15)%Z -> (Second <= timeout <= big * Second)%Z ->
  (1 <= attempts <= big)%Z -> conf_inv (set_numbers ndots timeout attempts c).
Proof. intros [] ? ? ?. by split. Qed.

Lemma conf_inv_flags c rotate unknownOpt singleRequest useTCP trustAD noReload :
  conf_inv c ->
  conf_inv (set_flags rotate unknownOpt singleRequest useTCP trustAD noReload c).
Proof. intros []. by split. Qed.

Lemma clamp_low n : (0 <= n <= big)%Z -> (1 <= (if Z.ltb n 1 then 1 else n) <= big)%Z.
Proof. intros. unfold big in *. destruct (Z.ltb_spec n 1); lia. Qed.

Lemma conf_inv_option c s : conf_inv c -> conf_inv (conf_option c s).
Proof.
  intros Hc. pose proof Hc as [Hs Hse Hn Ht Ha Ho]. unfold conf_option.
  repeat match goal with |- conf_inv (if ?b then _ else _) => destruct b end;
    try (by apply conf_inv_flags); try done; apply conf_inv_numbers; auto; cbv zeta.
  - destruct (Z.ltb_spec (dtoi (sdrop 6 s)).1.1 0); [lia|].
    destruct (Z.ltb_spec 15 (dtoi (sdrop 6 s)).1.1); lia.
  - pose proof (clamp_low _ (dtoi_range (sdrop 8 s))) as Hr. revert Hr.
    generalize (if Z.ltb (dtoi (sdrop 8 s)).1.1 1 then 1%Z else (dtoi (sdrop 8 s)).1.1).
    intros n Hr. unfold big, Second in *. rewrite wraps_small; lia.
  - apply clamp_low, dtoi_range.
Qed.

Lemma conf_inv_line c line : conf_inv c -> conf_inv (conf_line c line).
Proof.
  intros Hc. pose proof Hc as [[Hs Hl] Hse Hn Ht Ha Ho]. unfold conf_line.
  destruct (is_comment line); [done|]. destruct (Fields line) as [|f0 f]; [done|].
  destruct (String.eqb f0 "nameserver").
  { destruct f as [|f1 f]; [done|]. destruct (Nat.ltb_spec (length (cf_servers c)) 3); [|done].
    destruct (ParseAddr f1) as [a|] eqn:Ea; [|done]. split; simpl; auto. split.
    - apply Forall_app. split; [done|]. constructor; [|done]. right. by exists f1, a.
    - rewrite length_app. simpl. lia. }
  destruct (String.eqb f0 "domain").
  { destruct f as [|f1 f]; [done|]. split; simpl; auto. constructor; [apply rooted_Fqdn|done]. }
  destruct (String.eqb f0 "search").
  { split; simpl; auto. apply List.Forall_forall. intros x Hx. apply filter_In in Hx as [Hx _].
    apply in_map_iff in Hx as (y & <- & _). apply rooted_Fqdn. }
  destruct (String.eqb f0 "options").
  { clear -Hc. revert c Hc. induction f as [|s f IH]; intros c Hc; simpl; [done|].
    apply IH. by apply conf_inv_option. }
  destruct (String.eqb f0 "lookup"); [by split|by apply conf_inv_flags].
Qed.

Lemma conf_inv_lines lines c : conf_inv c -> conf_inv (fold_left conf_line lines c).
Proof.
  revert c. induction lines as [|l lines IH]; intros c Hc; simpl; [done|].
  apply IH. by apply conf_inv_line.
Qed.

Lemma rooted_default hostname : Forall rooted (dnsDefaultSearch hostname).
Proof.
  unfold dnsDefaultSearch. destruct hostname as [hn [e|]]; [constructor|].
  destruct (IndexByte hn "."); [|constructor]. destruct (_ <? _)%nat; [|constructor].
  constructor; [apply rooted_Fqdn|constructor].
Qed.

Lemma default_servers_ok : Forall server_ok defaultNS.
Proof. apply List.Forall_forall. intros x Hx. by left. Qed.

Lemma conf_inv_defaults hostname c :
  conf_inv c -> conf_inv (conf_defaults hostname c) /\ cf_servers (conf_defaults hostname c) <> [].
Proof.
  intros Hc. unfold conf_defaults.
  set (c1 := match cf_servers c with [] => set_servers defaultNS c | _ => c end).
  assert (conf_inv c1 /\ cf_servers c1 <> []) as [Hc1 Hne].
  { subst c1. destruct (cf_servers c) eqn:E; [|by rewrite E]. destruct Hc as [? ? ? ? ? ?].
    split; [split; simpl; auto|done]. split; [apply default_servers_ok|simpl; lia]. }
  destruct (cf_search c1) eqn:E; [|done]. destruct Hc1 as [? ? ? ? ? ?].
  split; [split; simpl; auto using rooted_default|done].
Qed.

(** What is read is a configuration, whatever the file. *)
Lemma dnsReadConfig_inv file hostname :
  conf_inv (dnsReadConfig file hostname) /\ cf_servers (dnsReadConfig file hostname) <> [].
Proof.
  assert (forall e, conf_inv (set_file (Some e) 0
    (set_search (dnsDefaultSearch hostname) (set_servers defaultNS conf_init)))) as Hbad.
  { intros e. split; simpl; unfold big, Second; try lia; [|apply rooted_default].
    split; [apply default_servers_ok|lia]. }
  destruct file as [[content [mtime|e]]|e]; simpl; [|by split; [apply Hbad|]..].
  apply conf_inv_defaults, conf_inv_lines, conf_inv_init.
Qed.

(** *** Names *)

Lemma slast_dot t : slast (t +++ ".") = Some "."%char.
Proof. apply (slast_snoc t). Qed.

Lemma rooted_slast s : slast s = Some "."%char -> rooted s.
Proof.
  destruct (string_snoc s) as [->|(t & c & ->)]; [done|]. rewrite slast_snoc. intros [= ->].
  by exists t.
Qed.

(** A name the list may contain for [name]. *)
Definition listed (conf : dnsConfig) (name fqdn : string) : Prop :=
  fqdn = name /\ rooted name \/ fqdn = name +++ "." \/
  exists suffix, In suffix (cf_search conf) /\ fqdn = name +++ "." +++ suffix.

Lemma nameList_listed conf name fqdn :
  In fqdn (nameList conf name) ->
  listed conf name fqdn /\ avoidDNS fqdn = false /\ String.length fqdn <= 254 /\
  (Forall rooted (cf_search conf) -> rooted fqdn).
Proof.
  unfold nameList. set (rt := match slast name with Some c => Ascii.eqb c "." | None => false end).
  destruct (Nat.ltb_spec 254 (String.length name)) as [|Hl]; [done|].
  destruct (Nat.eqb_spec (String.length name) 254) as [El|El]; simpl.
  all: destruct rt eqn:Ert; simpl.
  all: assert (rt = true -> slast name = Some "."%char) as Hrt by
    (subst rt; destruct (slast name) as [c|]; [intros Hc; by apply Ascii.eqb_eq in Hc as ->|done]).
  1, 3: destruct (avoidDNS name) eqn:Ea; [done|]; intros [<-|[]];
    (split; [left; split; [done|by apply rooted_slast, Hrt]|]); split; [done|]; split; [lia|];
    intros _; by apply rooted_slast, Hrt.
  1: done.
  assert (avoidDNS (name +++ ".") = false -> listed conf name (name +++ ".") /\
    avoidDNS (name +++ ".") = false /\ String.length (name +++ ".") <= 254 /\
    (Forall rooted (cf_search conf) -> rooted (name +++ "."))) as Hname.
  { intros Ha. split; [by right; left|]. split; [done|]. split; [rewrite sapp_length; simpl; lia|].
    intros _. by exists name. }
  intros Hin. apply in_app_iff in Hin as [Hin|Hin]; [|apply in_app_iff in Hin as [Hin|Hin]].
  - destruct (_ && _)%bool eqn:Ec in Hin; [|done]. destruct Hin as [<-|[]]. bool_hyps. auto.
  - apply list_elem_of_In, list_elem_of_omap in Hin as (suffix & Hs & Hc).
    apply list_elem_of_In in Hs.
    destruct (_ && _)%bool eqn:Ec in Hc; [|done]. simplify_eq. bool_hyps.
    apply Nat.leb_le in H2. rewrite sapp_assoc in *.
    split; [right; right; by exists suffix|]. split; [done|]. split; [done|].
    intros Hr. rewrite List.Forall_forall in Hr. destruct (Hr _ Hs) as [t ->].
    exists (name +++ "." +++ t). by rewrite !sapp_assoc.
  - destruct (_ && _)%bool eqn:Ec in Hin; [|done]. destruct Hin as [<-|[]]. bool_hyps. auto.
Qed.

(** *** The fields the lines of a file leave alone *)

Lemma conf_option_file c s :
  cf_mtime (conf_option c s) = cf_mtime c /\ cf_err (conf_option c s) = cf_err c.
Proof. unfold conf_option. split_ifs; done. Qed.

Lemma conf_options_file l c :
  cf_mtime (fold_left conf_option l c) = cf_mtime c /\
  cf_err (fold_left conf_option l c) = cf_err c.
Proof.
  revert c. induction l as [|s l IH]; intros c; simpl; [done|].
  destruct (IH (conf_option c s)) as [-> ->]. apply conf_option_file.
Qed.

Lemma conf_line_file c line :
  cf_mtime (conf_line c line) = cf_mtime c /\ cf_err (conf_line c line) = cf_err c.
Proof.
  unfold conf_line. destruct (is_comment line); [done|].
  destruct (Fields line) as [|f0 f]; [done|].
  destruct (String.eqb f0 "nameserver").
  { destruct f as [|f1 f]; [done|]. destruct (_ <? _)%nat; [|done]. by destruct (ParseAddr f1). }
  destruct (String.eqb f0 "domain"); [by destruct f|].
  destruct (String.eqb f0 "search"); [done|].
  destruct (String.eqb f0 "options"); [apply conf_options_file|].
  by destruct (String.eqb f0 "lookup").
Qed.

Lemma conf_lines_file lines c :
  cf_mtime (fold_left conf_line lines c) = cf_mtime c /\
  cf_err (fold_left conf_line lines c) = cf_err c.
Proof.
  revert c. induction lines as [|l lines IH]; intros c; simpl; [done|].
  destruct (IH (conf_line c l)) as [-> ->]. apply conf_line_file.
Qed.

Lemma conf_defaults_file hostname c :
  cf_mtime (conf_defaults hostname c) = cf_mtime c /\
  cf_err (conf_defaults hostname c) = cf_err c.
Proof.
  unfold conf_defaults. destruct (cf_servers c) eqn:Es; simpl; by destruct (cf_search c).
Qed.

(** *** Lists and counters *)

Lemma omap_filter_map {A B} (f : A -> B) (p : B -> bool) l :
  omap (fun a => if p (f a) then Some (f a) else None) l = List.filter p (List.map f l).
Proof. induction l as [|x l IH]; csimpl; [done|]. destruct (p (f x)); csimpl; by rewrite IH. Qed.

Lemma u32_succ n k : u32 (u32 (n + Z.of_nat k) + 1) = u32 (n + Z.of_nat (S k)).
Proof. unfold wrapu. rewrite Zplus_mod_idemp_l. f_equal. lia. Qed.

Lemma u32_succ_pred n : u32 (u32 (u32 n + 1) - 1) = u32 n.
Proof.
  unfold wrapu. rewrite Zminus_mod_idemp_l.
  replace (n mod 2 ^ 32 + 1 - 1)%Z with (n mod 2 ^ 32)%Z by lia. by rewrite Zmod_mod.
Qed.

End resolv_lemmas.

(** ** Properties *)

Section resolv_properties.
Context `{DnsLaws}.

(** C30: whatever the file holds, or when it cannot be read, the configuration
    is usable: one to three servers, each an IP address of the file with
    port 53 or a default one, fully qualified search names, [ndots] from 0
    to 15, at least one attempt, a timeout of at least a second that does
    not overflow, and rotation starting at the first server; an unreadable
    file gives the default servers and keeps the error. *)
Theorem dnsReadConfig_wf file hostname :
  let c := dnsReadConfig file hostname in
  conf_inv c /\ cf_servers c <> [] /\
  match file with
  | inl (_, inl mtime) => cf_mtime c = mtime /\ cf_err c = None
  | inl (_, inr e) | inr e => cf_servers c = defaultNS /\ cf_err c = Some e
  end.
Proof.
  destruct (dnsReadConfig_inv file hostname) as [Hc Hs]. cbv zeta. split; [done|]. split; [done|].
  destruct file as [[content [mtime|e]]|e]; simpl; [|done..].
  destruct (conf_defaults_file hostname
    (fold_left conf_line (file_lines content) (set_file None mtime conf_init))) as [-> ->].
  apply conf_lines_file.
Qed.

(** The names a query for [name] goes through: all of them are the name
    itself or the name with a search suffix, none longer than 254 bytes or
    in the onion domain, all rooted when the search names are; a rooted name
    stands for itself only; any other one comes first when it has at least
    [ndots] dots and last otherwise, and every search name whose result is
    allowed is used, in the order of the configuration. *)
Theorem nameList_spec conf name :
  Forall (fun fqdn => listed conf name fqdn /\ avoidDNS fqdn = false /\
    String.length fqdn <= 254 /\ (Forall rooted (cf_search conf) -> rooted fqdn))
    (nameList conf name) /\
  (slast name = Some "."%char -> avoidDNS name = false -> String.length name <= 254 ->
     nameList conf name = [name]) /\
  (slast name <> Some "."%char -> avoidDNS (name +++ ".") = false -> String.length name <= 253 ->
     exists searched,
       searched = List.filter
         (fun fqdn => negb (avoidDNS fqdn) && (String.length fqdn <=? 254)%nat)
         (List.map (fun suffix => (name +++ ".") +++ suffix) (cf_search conf)) /\
       nameList conf name =
         if Z.leb (cf_ndots conf) (Z.of_nat (Count name ".")) then (name +++ ".") :: searched
         else searched ++ [name +++ "."]).
Proof.
  split; [|split].
  - apply List.Forall_forall. intros fqdn. apply nameList_listed.
  - intros Hs Ha Hl. unfold nameList. rewrite Hs, Ha. simpl.
    destruct (Nat.ltb_spec 254 (String.length name)); [lia|]. by rewrite andb_false_r.
  - intros Hs Ha Hl. eexists. split; [reflexivity|]. unfold nameList.
    assert (match slast name with Some c => Ascii.eqb c "." | None => false end = false) as ->.
    { destruct (slast name) as [c|]; [|done]. apply Ascii.eqb_neq. congruence. }
    destruct (Nat.ltb_spec 254 (String.length name)); [lia|].
    destruct (Nat.eqb_spec (String.length name) 254); [lia|]. cbn [orb andb negb].
    rewrite Ha, !andb_true_r.
    rewrite (omap_filter_map (fun suffix => (name +++ ".") +++ suffix)
      (fun fqdn => negb (avoidDNS fqdn) && (String.length fqdn <=? 254)%nat)).
    destruct (Z.leb (cf_ndots conf) (Z.of_nat (Count name "."))); simpl.
    + by rewrite app_nil_r.
    + done.
Qed.

(** The offsets [n] calls of [serverOffset] give, one after the other. *)
Fixpoint offsets (n : nat) (conf : dnsConfig) : list Z :=
  match n with
  | 0 => []
  | S n => let '(o, conf) := serverOffset conf in o :: offsets n conf
  end.

(** With [rotate] successive queries start at successive servers,
    counting modulo 2^32 from the first one; without it they all start at
    the first server. *)
Theorem serverOffset_rotates conf n :
  (0 <= cf_soffset conf < 2 ^ 32)%Z ->
  offsets n conf =
  if cf_rotate conf
  then List.map (fun k => u32 (cf_soffset conf + Z.of_nat k)) (seq 0 n)
  else repeat 0%Z n.
Proof.
  intros Hs. destruct (cf_rotate conf) eqn:Er.
  - assert (forall m c k, cf_rotate c = true -> cf_soffset c = u32 (cf_soffset conf + Z.of_nat k) ->
      offsets m c = List.map (fun k => u32 (cf_soffset conf + Z.of_nat k)) (seq k m)) as Hgen.
    { induction m as [|m IH]; intros c k Hc Hk; [done|]. cbn [offsets seq List.map].
      unfold serverOffset at 1. rewrite Hc. f_equal.
      - rewrite Hk. apply u32_succ_pred.
      - apply IH; [done|]. cbn [cf_soffset set_soffset]. rewrite Hk. apply u32_succ. }
    apply Hgen; [done|]. rewrite Z.add_0_r. symmetry. by apply wrapu_small.
  - assert (forall m c, cf_rotate c = false -> offsets m c = repeat 0%Z m) as Hgen.
    { induction m as [|m IH]; intros c Hc; [done|]. cbn [offsets repeat].
      unfold serverOffset. rewrite Hc. f_equal. by apply IH. }
    by apply Hgen.
Qed.

(** The reload: the file is read on the first use and then at most once
    in five seconds, never with [no-reload] or while another call reads it;
    an unchanged modification time keeps the configuration, and a file whose
    time cannot be read counts as changed unless the configuration was made
    without a file. *)
Theorem tryUpdate_spec ev rc :
  let rc' := tryUpdate ev rc in
  rc_inited rc' = true /\
  (rc_inited rc = false -> rc_conf rc' = ue_read ev) /\
  (rc_inited rc = true ->
     (rc_conf rc' = rc_conf rc \/ rc_conf rc' = ue_read ev) /\
     (rc_lastChecked rc' <> rc_lastChecked rc \/ rc_conf rc' <> rc_conf rc ->
        rc_lastChecked rc' = ue_now ev /\ (rc_lastChecked rc + 5 * Second <= ue_now ev)%Z /\
        cf_noReload (rc_conf rc) = false /\ rc_sema rc = false) /\
     (rc_conf rc' <> rc_conf rc -> default 0%Z (ue_stat ev) <> cf_mtime (rc_conf rc))).
Proof.
  cbv zeta. unfold tryUpdate. destruct (rc_inited rc) eqn:Ei.
  - split; [|split; [done|intros _]].
    { split_ifs; done. }
    destruct (cf_noReload (rc_conf rc)) eqn:En; [tauto|].
    destruct (rc_sema rc) eqn:Es; [tauto|].
    destruct (Z.ltb_spec (ue_now ev - 5 * Second) (rc_lastChecked rc)); [tauto|].
    cbn [rc_conf rc_lastChecked].
    destruct (Z.eqb_spec (default 0%Z (ue_stat ev)) (cf_mtime (rc_conf rc))) as [E|E];
      cbn [rc_conf rc_lastChecked]; (split; [auto|split; [|tauto]]); intros _;
      repeat split; lia.
  - unfold rc_init. cbn [rc_conf rc_inited rc_sema rc_lastChecked].
    split; [|split; [|done]].
    + split_ifs; done.
    + intros _. destruct (cf_noReload (ue_read ev)); [done|].
      destruct (Z.ltb_spec (ue_now ev - 5 * Second) (ue_now ev)); [done|].
      unfold Second in *. lia.
Qed.

End resolv_properties.

(** ** Witnesses *)

Module ResolvConfExample.

Definition file : string :=
  "nameserver 10.0.0.1" +++ sbyte newline +++ "search corp.example" +++ sbyte newline +++
  "options rotate attempts:0 ndots:99" +++ sbyte newline.

Definition conf : dnsConfig := dnsReadConfig (inl (file, inl 7%Z)) ("host", None).

End ResolvConfExample.

Example read_example :
  cf_servers ResolvConfExample.conf = ["10.0.0.1:53"] /\
  cf_search ResolvConfExample.conf = ["corp.example."] /\
  cf_ndots ResolvConfExample.conf = 15%Z /\ cf_attempts ResolvConfExample.conf = 1%Z.
Proof. vm_compute. auto. Qed.

Lemma dnsReadConfig_wf_witness :
  cf_servers ResolvConfExample.conf <> [] /\ cf_mtime ResolvConfExample.conf = 7%Z /\
  cf_err ResolvConfExample.conf = None.
Proof. exact (proj2 (dnsReadConfig_wf (inl (ResolvConfExample.file, inl 7%Z)) ("host", None))). Defined.

Lemma nameList_spec_witness :
  nameList ResolvConfExample.conf "www.a" = ["www.a.corp.example."; "www.a."] /\
  nameList ResolvConfExample.conf "www.a." = ["www.a."].
Proof.
  split; [reflexivity|].
  apply (nameList_spec ResolvConfExample.conf "www.a."); [reflexivity|reflexivity|].
  simpl. lia.
Defined.

Lemma serverOffset_rotates_witness :
  offsets 3 (set_soffset (2 ^ 32 - 2) ResolvConfExample.conf) = [2 ^ 32 - 2; 2 ^ 32 - 1; 0]%Z.
Proof.
  rewrite (serverOffset_rotates (set_soffset (2 ^ 32 - 2) ResolvConfExample.conf) 3);
    [reflexivity|].
  simpl. lia.
Defined.

Lemma tryUpdate_spec_witness :
  let rc := MkRC true false 100 ResolvConfExample.conf in
  let ev := MkUpdateEnv 200 (Some 9%Z) conf_init in
  rc_conf (tryUpdate ev rc) = ResolvConfExample.conf /\
  (rc_conf (tryUpdate ev rc) = rc_conf rc \/ rc_conf (tryUpdate ev rc) = ue_read ev).
Proof.
  cbv zeta. split; [reflexivity|].
  refine (proj1 (proj2 (proj2 (tryUpdate_spec (MkUpdateEnv 200 (Some 9%Z) conf_init)
    (MkRC true false 100 ResolvConfExample.conf))) _)).
  reflexivity.
Defined.
