(* ===== verification/ResolvUpdate.v ===== *)
(** * Reading [resolv.conf] again: the calls of [tryUpdate]

    [resolverConfig.tryUpdate] of [resolve/transport/local.go] as the steps
    of concurrent calls: the [sync.Once], the semaphore that only one call
    takes at a time and the others do not wait for, and what its holder does.
    [tryUpdate] of ResolvConf is one such call on its own. *)

From S2P Require Import Prelude GoStd Netip Meta Dns Addrs Cache Lines ResolvConf.

(** ** The calls *)

(** Where a call is. *)
Inductive upc :=
  | UInit      (* before [initOnce.Do] *)
  | ULoad      (* before the test of [noReload] *)
  | UAcquire   (* before [tryAcquireSema] *)
  | UCheck     (* holds the semaphore; before the test of [lastChecked] *)
  | UStat      (* before [os.Stat] *)
  | URead      (* before [dnsReadConfig] *)
  | URelease   (* before the deferred [releaseSema] *)
  | UEnd.

Definition holds (pc : upc) : bool :=
  match pc with UCheck | UStat | URead | URelease => true | _ => false end.

Record update_state := MkUS { us_rc : resolverConfig; us_calls : list upc }.

(** [tryAcquireSema]: whether the slot was free, which it then no longer is. *)
Definition tryAcquireSema (rc : resolverConfig) : bool * resolverConfig :=
  if rc_sema rc then (false, rc)
  else (true, MkRC (rc_inited rc) true (rc_lastChecked rc) (rc_conf rc)).

(** [releaseSema] takes the value out of the channel; it waits when there is
    none. *)
Definition releaseSema (rc : resolverConfig) : option resolverConfig :=
  if rc_sema rc then Some (MkRC (rc_inited rc) false (rc_lastChecked rc) (rc_conf rc)) else None.

Section steps.
Context `{DnsLib}.

(** What the calls do with the file: the first one reads it and takes the
    time; a call decides at some time to look at it, asks for its
    modification time, reads it. *)
Inductive look := LInit (now : Z) | LDecide (now : Z) | LStat | LRead.

(** The next step of a call, in the environment of that moment, and what it
    does with the file. [initOnce.Do] is one step: the calls that come while
    another initialises wait for it. *)
Definition call_step (ev : update_env) (rc : resolverConfig) (pc : upc)
    : option (resolverConfig * upc * option look) :=
  match pc with
  | UInit =>
      if rc_inited rc then Some (rc, ULoad, None)
      else Some (rc_init ev rc, ULoad, Some (LInit (ue_now ev)))
  | ULoad => Some (rc, if cf_noReload (rc_conf rc) then UEnd else UAcquire, None)
  | UAcquire =>
      match tryAcquireSema rc with
      | (true, rc) => Some (rc, UCheck, None)
      | (false, rc) => Some (rc, UEnd, None)
      end
  | UCheck =>
      let now := ue_now ev in
      if Z.ltb (now - 5 * Second) (rc_lastChecked rc) then Some (rc, URelease, None)
      else Some (MkRC (rc_inited rc) (rc_sema rc) now (rc_conf rc), UStat, Some (LDecide now))
  | UStat =>
      let mtime := default 0%Z (ue_stat ev) in
      Some (rc, if Z.eqb mtime (cf_mtime (rc_conf rc)) then URelease else URead, Some LStat)
  | URead =>
      Some (MkRC (rc_inited rc) (rc_sema rc) (rc_lastChecked rc) (ue_read ev), URelease, Some LRead)
  | URelease => rc ← releaseSema rc; Some (rc, UEnd, None)
  | UEnd => None
  end.

(** A new call, or a step of call [i]. *)
Inductive update_event := UpCall | UpStep (i : nat) (ev : update_env).

Definition update_step (e : update_event) (s : update_state)
    : option (update_state * option (nat * look)) :=
  match e with
  | UpCall => Some (MkUS (us_rc s) (us_calls s ++ [UInit]), None)
  | UpStep i ev =>
      pc ← us_calls s !! i;
      '(rc, pc, looked) ← call_step ev (us_rc s) pc;
      Some (MkUS rc (<[i := pc]> (us_calls s)), option_map (pair i) looked)
  end.

(** The states after some events, with what the calls did with the file, the
    call first; the start is the zero value of [resolvConf]. *)
Definition update_start : update_state := MkUS (MkRC false false 0 conf_init) [].

Inductive update_run : list (nat * look) -> update_state -> Prop :=
  | update_run_start : update_run [] update_start
  | update_run_step log s e s' looked :
      update_run log s -> update_step e s = Some (s', looked) ->
      update_run (log ++ option_list looked) s'.

(** The times of the first reading and of the decisions to look. *)
Definition decided (log : list (nat * look)) : list Z :=
  omap (fun l => match l.2 with LInit now | LDecide now => Some now | _ => None end) log.

(** ** Lemmas *)

Definition holders (s : update_state) : nat := length (List.filter holds (us_calls s)).

Lemma holders_insert (l : list upc) i pc pc' :
  l !! i = Some pc ->
  length (List.filter holds (<[i := pc']> l)) + (if holds pc then 1 else 0) =
  length (List.filter holds l) + (if holds pc' then 1 else 0).
Proof.
  revert i. induction l as [|x l IH]; intros [|i] Hi; simplify_eq/=.
  - destruct (holds pc), (holds pc'); simpl; lia.
  - specialize (IH i Hi). destruct (holds x); simpl; lia.
Qed.

(** The call that holds the semaphore is where the log ends: behind its
    decision before [os.Stat], behind its [os.Stat] before it reads. *)
Definition log_ends (log : list (nat * look)) (i : nat) (pc : upc) : Prop :=
  match pc with
  | UStat => exists now before, log = before ++ [(i, LDecide now)]
  | URead => exists before, log = before ++ [(i, LStat)]
  | _ => True
  end.

(** Each look at the file follows the decision or the look of the same call
    that led to it. *)
Definition log_ok (log : list (nat * look)) : Prop :=
  forall before i l after, log = before ++ (i, l) :: after ->
    match l with
    | LStat => exists b now, before = b ++ [(i, LDecide now)]
    | LRead => exists b, before = b ++ [(i, LStat)]
    | LInit _ => before = []
    | LDecide _ => True
    end.

(** The semaphore is taken exactly when one call holds it, and everything
    but the calls that have not begun sees an initialised configuration. *)
Record update_ok (log : list (nat * look)) (s : update_state) : Prop := {
  uo_sema : holders s = if rc_sema (us_rc s) then 1 else 0;
  uo_inited : forall i pc, us_calls s !! i = Some pc -> pc <> UInit -> rc_inited (us_rc s) = true;
  uo_fresh : rc_inited (us_rc s) = false -> log = [];
  uo_spaced : forall before t t' after, decided log = before ++ t :: t' :: after -> (t + 5 * Second <= t')%Z;
  uo_last : rc_inited (us_rc s) = true -> last (decided log) = Some (rc_lastChecked (us_rc s));
  uo_ends : forall i pc, us_calls s !! i = Some pc -> log_ends log i pc;
  uo_log : log_ok log;
}.

Lemma update_ok_call log s : update_ok log s -> update_ok log (MkUS (us_rc s) (us_calls s ++ [UInit])).
Proof.
  intros [H1 H2 H3 H4 H5 H6 H7]. split; simpl; try done.
  - unfold holders in *. simpl. by rewrite List.filter_app, app_nil_r.
  - intros i pc [Hi|[_ [_ <-]%list_lookup_singleton_Some]]%lookup_app_Some; [by eapply H2|done].
  - intros i pc [Hi|[_ [_ <-]%list_lookup_singleton_Some]]%lookup_app_Some; [by eapply H6|done].
Qed.

(** When one call holds the semaphore, no other does. *)
Lemma holder_only log s i j pc pc' :
  update_ok log s -> us_calls s !! i = Some pc -> holds pc = true ->
  us_calls s !! j = Some pc' -> holds pc' = true -> j = i.
Proof.
  intros Hok Hi Hpc Hj Hpc'. destruct (decide (j = i)) as [|Hne]; [done|exfalso].
  pose proof (uo_sema _ _ Hok) as Hn. unfold holders in Hn.
  pose proof (holders_insert _ _ _ UEnd Hi) as H1.
  assert (<[i := UEnd]> (us_calls s) !! j = Some pc') as Hj' by (by rewrite list_lookup_insert_ne).
  pose proof (holders_insert _ _ _ UEnd Hj') as H2. rewrite Hpc in H1. rewrite Hpc' in H2. simpl in H1, H2.
  destruct (rc_sema (us_rc s)); lia.
Qed.

Lemma log_ends_holds log i pc : (holds pc = true -> log_ends log i pc) -> log_ends log i pc.
Proof. intros Hh. destruct pc; try done; by apply Hh. Qed.

(** A step of call [i] that does nothing with the file. *)
Lemma update_ok_quiet log s i pc rc pc' :
  update_ok log s -> us_calls s !! i = Some pc ->
  (if holds pc' then 1 else 0) + (if rc_sema (us_rc s) then 1 else 0) =
    (if holds pc then 1 else 0) + (if rc_sema rc then 1 else 0) ->
  rc_inited (us_rc s) = true -> rc_inited rc = true -> rc_lastChecked rc = rc_lastChecked (us_rc s) ->
  log_ends log i pc' ->
  update_ok log (MkUS rc (<[i := pc']> (us_calls s))).
Proof.
  intros [H1 H2 H3 H4 H5 H6 H7] Hi Hs Hin Hin' Hl He. split; simpl; try done.
  - pose proof (holders_insert _ _ _ pc' Hi). unfold holders in *. simpl. lia.
  - by rewrite Hin'.
  - intros _. rewrite Hl. by apply H5.
  - intros j pcj [(-> & <- & _)|[_ Hj]]%list_lookup_insert_Some; [done|by apply H6].
Qed.

(** A step of the holder that does something. *)
Lemma update_ok_look log s i pc rc pc' l :
  update_ok log s -> us_calls s !! i = Some pc -> holds pc = true -> holds pc' = true ->
  rc_inited rc = rc_inited (us_rc s) -> rc_sema rc = rc_sema (us_rc s) ->
  match l with
  | LInit _ => False
  | LDecide now => (rc_lastChecked (us_rc s) + 5 * Second <= now)%Z /\ rc_lastChecked rc = now
  | _ => rc_lastChecked rc = rc_lastChecked (us_rc s)
  end ->
  match l with
  | LStat => exists now before, log = before ++ [(i, LDecide now)]
  | LRead => exists before, log = before ++ [(i, LStat)]
  | _ => True
  end ->
  log_ends (log ++ [(i, l)]) i pc' ->
  update_ok (log ++ [(i, l)]) (MkUS rc (<[i := pc']> (us_calls s))).
Proof.
  intros Hok Hi Hpc Hpc' Hin Hs Hl Hlog He. pose proof Hok as [H1 H2 H3 H4 H5 H6 H7].
  assert (rc_inited (us_rc s) = true) as Hini by (apply (H2 i pc Hi); by intros ->).
  assert (decided (log ++ [(i, l)]) = decided log ++ match l with LDecide now => [now] | _ => [] end) as Hd.
  { unfold decided. rewrite omap_app. by destruct l. }
  split; simpl.
  - pose proof (holders_insert _ _ _ pc' Hi) as Hh. rewrite Hpc, Hpc' in Hh. unfold holders in *. simpl. rewrite Hs. lia.
  - intros _ _ _ _. by rewrite Hin.
  - by rewrite Hin, Hini.
  - rewrite Hd. destruct l as [|now| |]; [done| |by rewrite app_nil_r..].
    intros before t t' after E. destruct after as [|x after' _] using rev_ind.
    + change (t :: [t']) with ([t] ++ [t']) in E. rewrite app_assoc in E.
      apply app_inj_tail in E as [E ->]. destruct Hl as [Hl _]. specialize (H5 Hini). rewrite E in H5.
      rewrite last_snoc in H5. injection H5 as H5. lia.
    + change (before ++ t :: t' :: after' ++ [x]) with (before ++ ((t :: t' :: after') ++ [x])) in E.
      rewrite app_assoc in E. apply app_inj_tail in E as [E _]. by eapply H4.
  - intros _. rewrite Hd. destruct l as [|now| |]; [done| |rewrite app_nil_r, Hl; by apply H5..].
    destruct Hl as [_ ->]. by rewrite last_snoc.
  - intros j pcj [(-> & <- & _)|[Hne Hj]]%list_lookup_insert_Some; [done|]. apply log_ends_holds. intros Hh.
    by destruct Hne; symmetry; eapply (holder_only _ _ i j).
  - intros before j l' after E. destruct after as [|x after' _] using rev_ind.
    + apply app_inj_tail in E as [<- [= <- <-]]. destruct l; try done.
      destruct Hlog as (now & b & ->). by exists b, now.
    + change (before ++ (j, l') :: after' ++ [x]) with (before ++ (((j, l') :: after') ++ [x])) in E.
      rewrite app_assoc in E. apply app_inj_tail in E as [E _]. by eapply H7.
Qed.

(** The first call to come to [initOnce]. *)
Lemma update_ok_init log s i ev :
  update_ok log s -> us_calls s !! i = Some UInit -> rc_inited (us_rc s) = false ->
  update_ok (log ++ [(i, LInit (ue_now ev))]) (MkUS (rc_init ev (us_rc s)) (<[i := ULoad]> (us_calls s))).
Proof.
  intros [H1 H2 H3 H4 H5 H6 H7] Hi Ei. rewrite (H3 Ei) in *. simpl.
  assert (forall j pc, us_calls s !! j = Some pc -> pc = UInit) as Hall.
  { intros j pc Hj. destruct pc; try done; by rewrite (H2 j _ Hj) in Ei. }
  assert (holders s = 0) as H0.
  { unfold holders. destruct (List.filter holds (us_calls s)) as [|x l] eqn:Ef; [done|].
    assert (In x (List.filter holds (us_calls s))) as Hx by (rewrite Ef; by left).
    apply filter_In in Hx as [[j Hj]%list_elem_of_In%list_elem_of_lookup Hh]. by rewrite (Hall j x Hj) in Hh. }
  split; simpl; try done.
  - pose proof (holders_insert _ _ _ ULoad Hi). unfold holders in *. simpl in *. lia.
  - intros before t t' after E. by destruct before as [|? []].
  - intros j pc [(_ & <- & _)|[_ Hj]]%list_lookup_insert_Some; [done|]. by rewrite (Hall _ _ Hj).
  - intros before j l after E. destruct before as [|? []]; simplify_eq/=. done.
Qed.

Lemma update_ok_held log s i pc :
  update_ok log s -> us_calls s !! i = Some pc -> holds pc = true -> rc_sema (us_rc s) = true.
Proof.
  intros Hok Hi Hh. pose proof (uo_sema _ _ Hok) as Hn. pose proof (holders_insert _ _ _ UEnd Hi) as Hd.
  rewrite Hh in Hd. unfold holders in Hn. destruct (rc_sema (us_rc s)); [done|simpl in Hd; lia].
Qed.

Lemma update_ok_step log s i ev pc rc pc' looked :
  update_ok log s -> us_calls s !! i = Some pc ->
  call_step ev (us_rc s) pc = Some (rc, pc', looked) ->
  update_ok (log ++ option_list (option_map (pair i) looked)) (MkUS rc (<[i := pc']> (us_calls s))).
Proof.
  intros Hok Hi Hs. pose proof (update_ok_held _ _ _ _ Hok Hi) as Hheld.
  assert (pc <> UInit -> rc_inited (us_rc s) = true) as Hin by (intros; by eapply (uo_inited _ _ Hok)).
  pose proof (uo_ends _ _ Hok _ _ Hi) as Hends.
  destruct pc; simpl in Hs, Hheld, Hends; unfold tryAcquireSema, releaseSema in Hs.
  - destruct (rc_inited (us_rc s)) eqn:Ei; simplify_eq/=; [|by apply update_ok_init].
    rewrite app_nil_r. by eapply update_ok_quiet.
  - simplify_eq/=. rewrite app_nil_r. destruct (cf_noReload _); (eapply update_ok_quiet; [done..| | | | |]; auto).
  - destruct (rc_sema (us_rc s)) eqn:Es; simplify_eq/=; rewrite app_nil_r; eapply update_ok_quiet; try done;
      simpl; rewrite ?Es; auto.
  - destruct (Z.ltb_spec (ue_now ev - 5 * Second) (rc_lastChecked (us_rc s))); simplify_eq/=.
    + rewrite app_nil_r. eapply update_ok_quiet; try done; auto.
    + eapply update_ok_look; try done; [split; [lia|done]|]. by eexists _, _.
  - simplify_eq/=. eapply update_ok_look; try done; destruct (Z.eqb _ _); try done. by eexists.
  - simplify_eq/=. by eapply update_ok_look.
  - rewrite Hheld in Hs by done. simplify_eq/=. rewrite app_nil_r. eapply update_ok_quiet; try done; auto.
    simpl. by rewrite Hheld.
  - done.
Qed.

Lemma update_ok_run log s : update_run log s -> update_ok log s.
Proof.
  induction 1 as [|log s e s' looked _ IH Hs].
  { split; try done; [by intros []|by intros []]. }
  destruct e as [|i ev]; simpl in Hs; [simplify_eq/=; rewrite app_nil_r; by apply update_ok_call|].
  destruct (us_calls s !! i) as [pc|] eqn:Ei; [|done]. simpl in Hs.
  destruct (call_step ev (us_rc s) pc) as [[[rc pc'] l]|] eqn:Es; [|done].
  simplify_eq/=. by eapply update_ok_step.
Qed.

(** How many steps a call still has before it, at most. *)
Definition steps_left (pc : upc) : nat :=
  match pc with
  | UInit => 7 | ULoad => 6 | UAcquire => 5 | UCheck => 4 | UStat => 3 | URead => 2
  | URelease => 1 | UEnd => 0
  end.

Lemma call_step_left ev rc pc rc' pc' checked :
  call_step ev rc pc = Some (rc', pc', checked) -> steps_left pc' < steps_left pc.
Proof.
  destruct pc; simpl; unfold tryAcquireSema, releaseSema; intros Hs;
    repeat (case_match; simplify_eq/=); simplify_eq/=; lia.
Qed.

(** The whole of one call on its own. *)
Fixpoint lone_call (n : nat) (ev : update_env) (rc : resolverConfig) (pc : upc) : resolverConfig * upc :=
  match n with
  | 0 => (rc, pc)
  | S n =>
      match call_step ev rc pc with
      | Some (rc, pc, _) => lone_call n ev rc pc
      | None => (rc, pc)
      end
  end.
End steps.

(** ** Properties *)

Section update_properties.
Context `{DnsLib}.

(** C32: Whatever calls of [tryUpdate] run at once and in whatever order
    their steps are taken, at most one of them holds the semaphore, and it is
    taken exactly when one does.  The times at which calls decide to look at
    the file, the first reading included, are at least five seconds apart;
    and nothing looks at the file without such a decision: every [os.Stat]
    comes right after a decision of the same call, and every reading after
    that right after its [os.Stat], with no look of another call in between.
    (How long after the decision they happen is up to the scheduler, so that
    two looks may be closer to each other.) *)
Theorem update_exclusive log s :
  update_run log s ->
  (length (List.filter holds (us_calls s)) = if rc_sema (us_rc s) then 1 else 0) /\
  (forall before t t' after, decided log = before ++ t :: t' :: after -> (t + 5 * Second <= t')%Z) /\
  forall before i l after, log = before ++ (i, l) :: after ->
    match l with
    | LStat => exists b now, before = b ++ [(i, LDecide now)]
    | LRead => exists b, before = b ++ [(i, LStat)]
    | LInit _ => before = []
    | LDecide _ => True
    end.
Proof. intros Hok%update_ok_run. exact (conj (uo_sema _ _ Hok) (conj (uo_spaced _ _ Hok) (uo_log _ _ Hok))). Qed.

(** No call of [tryUpdate] waits for another: in every state that calls
    can reach, a call that has not returned has a next step, the deferred
    [releaseSema] included (whose receive would wait if the semaphore were
    free), and every step brings it nearer to its end, so that it returns
    after at most seven. *)
Theorem update_never_waits log s i pc ev :
  update_run log s -> us_calls s !! i = Some pc -> pc <> UEnd ->
  exists s' pc' checked, update_step (UpStep i ev) s = Some (s', checked) /\
    us_calls s' !! i = Some pc' /\ steps_left pc' < steps_left pc <= 7.
Proof.
  intros Hok%update_ok_run Hi Hpc.
  assert (exists rc pc' checked, call_step ev (us_rc s) pc = Some (rc, pc', checked)) as (rc & pc' & checked & Hs).
  { pose proof (update_ok_held _ _ _ _ Hok Hi) as Hheld.
    destruct pc; simpl in *; unfold tryAcquireSema, releaseSema; try done;
      rewrite ?Hheld by done; simpl; repeat case_match; do 3 eexists; reflexivity. }
  exists (MkUS rc (<[i := pc']> (us_calls s))), pc', (option_map (pair i) checked). simpl. rewrite Hi. simpl. rewrite Hs.
  split; [done|]. split; [apply list_lookup_insert_eq; by eapply lookup_lt_Some|].
  split; [by eapply call_step_left|]. destruct pc; simpl; lia.
Qed.

(** A call of [tryUpdate] that runs alone does in its steps what the
    sequential definition says: from any state of the configuration it ends,
    and leaves the state [tryUpdate] gives, the semaphore free again if it was. *)
Theorem tryUpdate_steps ev rc :
  lone_call 7 ev rc UInit = (tryUpdate ev rc, UEnd).
Proof.
  unfold tryUpdate. destruct rc as [[] [] last conf]; unfold rc_init, call_step; simpl;
    repeat (case_match; simplify_eq/=; try done).
Qed.
End update_properties.

(** ** Witnesses *)

Module UpdateExample.

(** Two calls: the first is the one that reads the file, the second finds
    the semaphore taken. *)
Definition ev (now : Z) : update_env := MkUpdateEnv now None conf_init.
Definition events : list update_event :=
  [UpCall; UpStep 0 (ev 10); UpCall; UpStep 1 (ev 11); UpStep 0 (ev 12); UpStep 1 (ev 13);
   UpStep 0 (ev (20 * Second)); UpStep 0 (ev (20 * Second)); UpStep 1 (ev (21 * Second))].

Fixpoint run (es : list update_event) (log : list (nat * look)) (s : update_state)
    : option (list (nat * look) * update_state) :=
  match es with
  | [] => Some (log, s)
  | e :: es =>
      match update_step e s with
      | Some (s, looked) => run es (log ++ option_list looked) s
      | None => None
      end
  end.

Lemma run_ok es log s log' s' :
  update_run log s -> run es log s = Some (log', s') -> update_run log' s'.
Proof.
  revert log s. induction es as [|e es IH]; intros log s Hr Hs; simplify_eq/=; [done|].
  destruct (update_step e s) as [[s1 looked]|] eqn:Es; [|done]. eapply IH; [|exact Hs]. by econstructor.
Qed.

Definition state : update_state :=
  MkUS (MkRC true true (20 * Second) conf_init) [UStat; UEnd].

Lemma exclusive_reached : update_run [(0, LInit 10); (0, LDecide (20 * Second))] state.
Proof.
  apply (run_ok events [] update_start); [constructor|]. vm_compute. reflexivity.
Qed.

(** The first call goes on: the file has another modification time, and is
    read again. *)
Definition changed : update_env := MkUpdateEnv (22 * Second) (Some 5%Z) conf_init.
Definition read_log : list (nat * look) :=
  [(0, LInit 10); (0, LDecide (20 * Second)); (0, LStat); (0, LRead)].
Definition read_state : update_state :=
  MkUS (MkRC true true (20 * Second) conf_init) [URelease; UEnd].

Lemma read_reached : update_run read_log read_state.
Proof.
  apply (run_ok [UpStep 0 changed; UpStep 0 changed] _ _ _ _ exclusive_reached). vm_compute. reflexivity.
Qed.
End UpdateExample.

Lemma update_exclusive_witness :
  length (List.filter holds (us_calls UpdateExample.read_state)) = 1 /\ (10 + 5 * Second <= 20 * Second)%Z /\
  exists b, [(0, LInit 10); (0, LDecide (20 * Second)); (0, LStat)] = b ++ [(0, LStat)].
Proof.
  destruct (update_exclusive _ _ UpdateExample.read_reached) as (Hone & Hspaced & Hlog).
  split; [exact Hone|]. split; [exact (Hspaced [] _ _ [] eq_refl)|].
  exact (Hlog [(0, LInit 10); (0, LDecide (20 * Second)); (0, LStat)] 0 LRead [] eq_refl).
Defined.

Lemma update_never_waits_witness :
  exists s' pc' checked,
    update_step (UpStep 0 (UpdateExample.ev 0)) UpdateExample.state = Some (s', checked) /\
    us_calls s' !! 0 = Some pc' /\ steps_left pc' < 3 <= 7.
Proof.
  refine (update_never_waits _ _ 0 UStat _ UpdateExample.exclusive_reached _ _); [reflexivity|discriminate].
Defined.
