(* ===== verification/Hosts.v ===== *)
(** * The hosts file: [resolve/hosts/hosts.go]

    The table of names read from a file in the format of [/etc/hosts], when
    it is read again, and the lookup.  The file is seen through [Stat] and
    through its content. *)

From S2P Require Import Prelude GoStd Netip Meta Dns Addrs Cache Lines.

Definition cacheMaxAge : Z := (5 * Second)%Z.

(** The fields of [File] that change; [modTime] and [size] of the file last
    read. *)
Record File := MkFile {
  f_byName : gmap string (list Addr);
  f_expire : Z;
  f_modTime : Z;
  f_size : Z;
}.

Definition NewFile : File := MkFile ∅ 0 0 0.

(** The file of the system; the path is seen in [host_env]. *)
Definition NewFileDefault : File := NewFile.

(** What a call sees of the file system: the result of [Stat] (the
    modification time and the size), and of reading the file: its content,
    and whether the reader ended with something else than the end of the
    file. *)
Record host_env := MkHostEnv {
  he_now : Z;
  he_Stat : option (Z * Z);
  he_Open : option (string * bool);
}.

Section hosts.
Context `{DnsLib}.

(** ** The lines *)

(** [line[:commentIndex]] *)
Definition strip_comment (line : string) : string :=
  match IndexByte line "#" with Some i => stake i line | None => line end.

(** [byName[canonicalName] = append(byName[canonicalName], addr)] *)
Definition add_name (addr : Addr) (byName : gmap string (list Addr)) (name : string)
    : gmap string (list Addr) :=
  partial_alter (fun old => Some (default [] old ++ [addr])) (dns_CanonicalName name) byName.

Definition hosts_line (byName : gmap string (list Addr)) (line : string)
    : gmap string (list Addr) :=
  match Fields (strip_comment line) with
  | f0 :: ((_ :: _) as names) =>
      match ParseAddr f0 with
      | Some addr => fold_left (add_name addr) names byName
      | None => byName
      end
  | _ => byName
  end.

Definition parse_hosts (content : string) : gmap string (list Addr) :=
  fold_left hosts_line (file_lines content) ∅.

(** ** [update] and [Lookup] *)

Definition update (ev : host_env) (f : File) : File :=
  let now := he_now ev in
  if (Z.ltb now (f_expire f) && negb (bool_decide (f_byName f = ∅)))%bool then f
  else
    match he_Stat ev with
    | None => f
    | Some (modTime, size) =>
        if (Z.eqb (f_modTime f) modTime && Z.eqb (f_size f) size)%bool
        then MkFile (f_byName f) (now + cacheMaxAge) (f_modTime f) (f_size f)
        else
          match he_Open ev with
          | None => f
          | Some (_, true) => f
          | Some (content, false) =>
              MkFile (parse_hosts content) (now + cacheMaxAge) modTime size
          end
    end.

Definition File_Lookup (ev : host_env) (name : string) (f : File) : list Addr * File :=
  let f := update ev f in
  (default [] (f_byName f !! dns_CanonicalName name), f).

(** ** What a content says about a name *)

(** The addresses of a line for a canonical name: once for each time the
    line gives the name. *)
Definition line_addresses (name line : string) : list Addr :=
  match Fields (strip_comment line) with
  | f0 :: names =>
      match ParseAddr f0 with
      | Some addr =>
          List.map (fun _ => addr)
            (List.filter (fun n => String.eqb (dns_CanonicalName n) name) names)
      | None => []
      end
  | [] => []
  end.

Definition content_addresses (name content : string) : list Addr :=
  flat_map (line_addresses name) (file_lines content).

(** ** Lemmas *)

Lemma add_name_lookup addr byName n name :
  default [] (add_name addr byName n !! name) =
  default [] (byName !! name) ++
    (if String.eqb (dns_CanonicalName n) name then [addr] else []).
Proof.
  unfold add_name. destruct (String.eqb_spec (dns_CanonicalName n) name) as [<-|Hne].
  - by rewrite lookup_partial_alter_eq.
  - rewrite lookup_partial_alter_ne by done. by rewrite app_nil_r.
Qed.

Lemma add_names_lookup addr names byName name :
  default [] (fold_left (add_name addr) names byName !! name) =
  default [] (byName !! name) ++
    List.map (fun _ => addr)
      (List.filter (fun n => String.eqb (dns_CanonicalName n) name) names).
Proof.
  revert byName. induction names as [|n names IH]; intros byName; simpl; [by rewrite app_nil_r|].
  rewrite IH, add_name_lookup, <- app_assoc. f_equal.
  by destruct (String.eqb (dns_CanonicalName n) name).
Qed.

Lemma hosts_line_lookup byName line name :
  default [] (hosts_line byName line !! name) =
  default [] (byName !! name) ++ line_addresses name line.
Proof.
  unfold hosts_line, line_addresses. destruct (Fields (strip_comment line)) as [|f0 names].
  { by rewrite app_nil_r. }
  destruct names as [|n names].
  { destruct (ParseAddr f0); simpl; by rewrite app_nil_r. }
  destruct (ParseAddr f0) as [addr|]; [apply add_names_lookup|by rewrite app_nil_r].
Qed.

Lemma parse_hosts_lookup content name :
  default [] (parse_hosts content !! name) = content_addresses name content.
Proof.
  unfold parse_hosts, content_addresses.
  assert (forall lines byName, default [] (fold_left hosts_line lines byName !! name) =
    default [] (byName !! name) ++ flat_map (line_addresses name) lines) as Hgen.
  { induction lines as [|l lines IH]; intros byName; simpl; [by rewrite app_nil_r|].
    by rewrite IH, hosts_line_lookup, <- app_assoc. }
  rewrite Hgen. by rewrite lookup_empty.
Qed.

(** ** Properties *)

(** A lookup that reads the file answers with the addresses of its
    lines that give the name, compared in canonical form, in the order of
    the file; lines that are comments, have a single field or start with
    something that is not an address say nothing. *)
Theorem Lookup_reads ev name f content modTime size :
  he_Stat ev = Some (modTime, size) -> he_Open ev = Some (content, false) ->
  (f_expire f <= he_now ev)%Z \/ f_byName f = ∅ ->
  f_modTime f <> modTime \/ f_size f <> size ->
  (File_Lookup ev name f).1 = content_addresses (dns_CanonicalName name) content /\
  f_modTime (File_Lookup ev name f).2 = modTime /\ f_size (File_Lookup ev name f).2 = size /\
  f_expire (File_Lookup ev name f).2 = (he_now ev + 5000000000)%Z.
Proof.
  intros Hs Ho He Hm. unfold File_Lookup, update. rewrite Hs, Ho.
  assert ((Z.ltb (he_now ev) (f_expire f) && negb (bool_decide (f_byName f = ∅)))%bool = false)
    as ->.
  { destruct He as [He|He].
    - by rewrite (proj2 (Z.ltb_ge _ _) He).
    - rewrite bool_decide_eq_true_2 by done. by rewrite andb_false_r. }
  assert ((Z.eqb (f_modTime f) modTime && Z.eqb (f_size f) size)%bool = false) as ->.
  { destruct Hm as [Hm|Hm]; apply Z.eqb_neq in Hm as ->; [done|by rewrite andb_false_r]. }
  simpl. split; [apply parse_hosts_lookup|done].
Qed.

(** The table is kept as it is within five seconds of reading it, unless
    it is empty, and whenever the file cannot be read to its end or has the
    same modification time and size as before; it only ever changes to what
    the file says, with the time and size that were seen. *)
Theorem update_keeps ev f :
  let f' := update ev f in
  ((he_now ev < f_expire f)%Z -> f_byName f <> ∅ -> f' = f) /\
  (he_Stat ev = None \/ he_Open ev = None \/ (exists c, he_Open ev = Some (c, true)) ->
     f_byName f' = f_byName f) /\
  (he_Stat ev = Some (f_modTime f, f_size f) -> f_byName f' = f_byName f) /\
  (f_byName f' <> f_byName f -> exists content,
     he_Open ev = Some (content, false) /\ f_byName f' = parse_hosts content /\
     he_Stat ev = Some (f_modTime f', f_size f') /\
     f_expire f' = (he_now ev + cacheMaxAge)%Z).
Proof.
  cbv zeta. unfold update.
  destruct (Z.ltb_spec (he_now ev) (f_expire f)) as [Hlt|Hge]; simpl.
  - destruct (bool_decide_reflect (f_byName f = ∅)) as [He|He]; simpl;
      [|split; [done|split; [done|split; [done|by intros []]]]].
    split; [done|]. destruct (he_Stat ev) as [[m s]|]; [|split; [done|split; [done|by intros []]]].
    destruct (Z.eqb_spec (f_modTime f) m), (Z.eqb_spec (f_size f) s); simpl;
      try (split; [done|split; [done|by intros []]]).
    all: destruct (he_Open ev) as [[content []]|]; simpl;
      try (split; [done|split; [done|by intros []]]).
    all: split; [by intros [?|[?|[? ?]]]|split; [congruence|intros _; by exists content]].
  - split; [lia|]. destruct (he_Stat ev) as [[m s]|]; [|split; [done|split; [done|by intros []]]].
    destruct (Z.eqb_spec (f_modTime f) m), (Z.eqb_spec (f_size f) s); simpl;
      try (split; [done|split; [done|by intros []]]).
    all: destruct (he_Open ev) as [[content []]|]; simpl;
      try (split; [done|split; [done|by intros []]]).
    all: split; [by intros [?|[?|[? ?]]]|split; [congruence|intros _; by exists content]].
Qed.

End hosts.

(** ** A hosts file *)

Module HostsExample.

Definition content : string :=
  "127.0.0.1 localhost LocalHost" +++ sbyte newline +++
  "# ::1 localhost" +++ sbyte newline +++
  "::1 localhost # loopback" +++ sbyte newline.

Definition env : host_env := MkHostEnv 10 (Some (3, 70)%Z) (Some (content, false)).

End HostsExample.

Lemma Lookup_reads_witness :
  (File_Lookup HostsExample.env "LOCALHOST." NewFile).1 =
    [Addr4 0x7f000001; Addr4 0x7f000001; Addr6 1 ""].
Proof.
  refine (eq_trans (proj1 (Lookup_reads HostsExample.env "LOCALHOST." NewFile
    HostsExample.content 3 70 _ _ _ _)) _).
  - reflexivity.
  - reflexivity.
  - right. reflexivity.
  - left. discriminate.
  - vm_compute. reflexivity.
Defined.

Lemma update_keeps_witness :
  f_byName (update (MkHostEnv 10 None None) (update HostsExample.env NewFile)) =
    f_byName (update HostsExample.env NewFile).
Proof.
  refine (proj1 (proj2 (update_keeps (MkHostEnv 10 None None)
    (update HostsExample.env NewFile))) _).
  left. reflexivity.
Defined.
