(* ===== verification/Tcp.v ===== *)
(** * DNS over TCP: [resolve/transport/tcp.go]

    Messages on a stream, each after its length in two bytes, and the
    transport that opens a connection for one exchange.  Encoding and
    decoding a message is [github.com/miekg/dns]'s; what the stream carries
    is a list of bytes.  What a new buffer of [qtfra/buf] holds is a
    parameter. *)

From S2P Require Import Prelude GoStd Netip Meta Dns Addrs Dialer.

(** [Msg.Len], [Msg.PackBuffer] and [Msg.Unpack]: the encoding of a message,
    whether it is packed into a given buffer of some length or, because that
    is too small, into a new one; and the bytes of a new buffer
    ([buf.NewSize]). *)
Class DnsWire := {
  msg_Len : Msg -> Z;
  msg_Pack : Msg -> list Z + err;
  msg_fits : Msg -> nat -> bool;
  msg_Unpack : list Z -> Msg + err;
  buf_NewSize : Z -> list Z;
}.

(** [Len] is at least the length of the encoding, which fits the buffer it is
    packed into; a new buffer has the size that is asked for, at least. *)
Class DnsWireLaws `{DnsWire} : Prop := {
  Pack_Len : forall m raw, msg_Pack m = inl raw -> (Z.of_nat (length raw) <= msg_Len m)%Z;
  Pack_bytes : forall m raw, msg_Pack m = inl raw -> Forall (fun b => 0 <= b < 256)%Z raw;
  Pack_fits : forall m raw n, msg_Pack m = inl raw -> msg_fits m n = true -> length raw <= n;
  NewSize_length : forall n, (n <= Z.of_nat (length (buf_NewSize n)))%Z;
}.

Definition io_EOF : err := EStd "io.EOF".
Definition io_ErrUnexpectedEOF : err := EStd "io.ErrUnexpectedEOF".
Definition dns_ErrShortRead : err := EStd "dns.ErrShortRead".

Section tcp.
Context `{DnsWire}.

(** ** Framing *)

(** [io.ReadFull]: [n] bytes of the stream, or the error at its end. *)
Definition ReadFull (n : nat) (stream : list Z) : (list Z + err) * list Z :=
  if (n <=? length stream)%nat then (inl (firstn n stream), skipn n stream)
  else match stream with
       | [] => (inr io_EOF, [])
       | _ => (inr io_ErrUnexpectedEOF, [])
       end.

(** [binary.Write] and [binary.Read] of a big-endian [uint16]. *)
Definition put_uint16 (n : Z) : list Z := be_bytes 2 n.
Definition get_uint16 (bs : list Z) : Z := be_value bs.

Definition readMessage (stream : list Z) : (Msg + err) * list Z :=
  match ReadFull 2 stream with
  | (inr e, rest) => (inr e, rest)
  | (inl header, rest) =>
      let length := get_uint16 header in
      if Z.ltb length 10 then (inr dns_ErrShortRead, rest)
      else
        match ReadFull (Z.to_nat length) rest with
        | (inr e, rest) => (inr e, rest)
        | (inl raw, rest) => (msg_Unpack raw, rest)
        end
  end.

(** [buffer.FreeBytes()] after the prefix is written. *)
Definition free_bytes (requestLen : Z) : list Z := drop 2 (buf_NewSize (requestLen + 3)).

(** The bytes [writeMessage] gives to the connection in one call: those of the
    buffer, which has the encoding only when it was packed into it. *)
Definition message_bytes (message : Msg) : list Z + err :=
  let requestLen := msg_Len message in
  let free := free_bytes requestLen in
  match msg_Pack message with
  | inr e => inr e
  | inl rawMessage =>
      let filled :=
        if msg_fits message (length free) then rawMessage ++ drop (length rawMessage) free else free in
      inl (take (2 + length rawMessage) (put_uint16 (u16 requestLen) ++ filled))
  end.

(** ** Connections *)

(** The methods of [net.Conn] the transports call, on a world [W]:
    [conn_stream] is all the peer sends from here on, which a reader then
    takes its bytes from. *)
Class ConnOps (W Conn : Type) := {
  conn_Write : Conn -> list Z -> ST W (option err);
  conn_stream : Conn -> ST W (list Z);
  conn_Close : Conn -> ST W unit;
}.

Context {W Conn PConn : Type} `{!ConnOps W Conn}.

Definition writeMessage (conn : Conn) (message : Msg) : ST W (option err) :=
  match message_bytes message with
  | inr e => mret (Some e)
  | inl bytes => conn_Write conn bytes
  end.

Definition read_answer (conn : Conn) : ST W (gores (option Msg)) :=
  stream ← conn_stream conn;
  mret match (readMessage stream).1 with
       | inl m => (Some m, None)
       | inr e => (None, Some e)
       end.

Definition exchangeTCP (conn : Conn) (message : Msg) : ST W (gores (option Msg)) :=
  e ← writeMessage conn message;
  match e with Some e => mret (None, Some e) | None => read_answer conn end.

(** ** [TCPTransport] *)

Record TCPTransport := MkTCP {
  tcp_serverAddr : Socksaddr;
  tcp_dialer : Dialer W Conn PConn;
}.

(** [NewTCPTransport] and [NewUDP] use port 53 when there is none; the nil
    dialer is [dialer.System]. *)
Definition with_port (server : Socksaddr) : Socksaddr :=
  if Z.eqb (sa_Port server) 0 then MkSocks (sa_Fqdn server) (sa_Addr server) 53 else server.

Definition NewTCPTransport (System : Dialer W Conn PConn) (server : Socksaddr)
    (Dialer : option (Dialer W Conn PConn)) : TCPTransport :=
  MkTCP (with_port server) (default System Dialer).

(** [Exchange]; the deferred [Close] runs on every way out. *)
Definition TCP_Exchange (t : TCPTransport) (message : Msg) : ST W (exec (gores (option Msg))) :=
  '(conn, e) ← d_DialContext (tcp_dialer t) NetworkTCP (tcp_serverAddr t);
  match e, conn with
  | Some e, _ => ex_ret (None, Some e)
  | None, None => ex_panic "a nil net.Conn is used"
  | None, Some conn =>
      e ← writeMessage conn message;
      r ← match e with Some e => mret (None, Some e) | None => read_answer conn end;
      _ ← conn_Close conn;
      ex_ret r
  end.

End tcp.
Arguments TCPTransport : clear implicits.

(** ** Lemmas *)

Section tcp_lemmas.
Context `{DnsWireLaws}.

Lemma get_put_uint16 n : (0 <= n < 2 ^ 16)%Z -> get_uint16 (put_uint16 n) = n.
Proof. intros. unfold get_uint16, put_uint16. by apply (be_value_bytes 2). Qed.

Lemma put_uint16_length n : length (put_uint16 n) = 2.
Proof. apply be_bytes_length. Qed.

Lemma ReadFull_app a b : ReadFull (length a) (a ++ b) = (inl a, b).
Proof.
  unfold ReadFull. rewrite length_app.
  destruct (Nat.leb_spec (length a) (length a + length b)); [|lia].
  by rewrite take_app_length, drop_app_length.
Qed.

(** Reading after a length prefix. *)
Lemma readMessage_prefix n stream :
  (0 <= n < 2 ^ 16)%Z ->
  readMessage (put_uint16 n ++ stream) =
  if Z.ltb n 10 then (inr dns_ErrShortRead, stream)
  else match ReadFull (Z.to_nat n) stream with
       | (inr e, rest) => (inr e, rest)
       | (inl raw, rest) => (msg_Unpack raw, rest)
       end.
Proof.
  intros Hn. unfold readMessage. rewrite <- (put_uint16_length n), ReadFull_app.
  by rewrite get_put_uint16.
Qed.

(** What follows the prefix: the encoding, or as many bytes of the buffer. *)
Definition payload (m : Msg) (raw : list Z) : list Z :=
  let free := free_bytes (msg_Len m) in
  if msg_fits m (length free) then raw else take (length raw) free.

Lemma payload_length m raw : msg_Pack m = inl raw -> length (payload m raw) = length raw.
Proof.
  intros Hp. unfold payload. destruct (msg_fits _ _); [done|]. rewrite length_take.
  pose proof (Pack_Len _ _ Hp). pose proof (NewSize_length (msg_Len m + 3)).
  unfold free_bytes. rewrite length_drop. lia.
Qed.

Lemma message_bytes_payload m raw :
  msg_Pack m = inl raw -> message_bytes m = inl (put_uint16 (u16 (msg_Len m)) ++ payload m raw).
Proof.
  intros Hp. unfold message_bytes, payload. rewrite Hp.
  rewrite <- (put_uint16_length (u16 (msg_Len m))) at 1. rewrite take_app_add.
  destruct (msg_fits _ _); [|done]. by rewrite take_app_length.
Qed.

(** Reading what has as many bytes as the prefix says, and what has fewer. *)
Lemma readMessage_whole n body rest :
  n = Z.of_nat (length body) -> (10 <= n < 2 ^ 16)%Z ->
  readMessage (put_uint16 n ++ body ++ rest) = (msg_Unpack body, rest).
Proof.
  intros Hn Hl. rewrite readMessage_prefix by lia. destruct (Z.ltb_spec n 10); [lia|].
  by rewrite Hn, Nat2Z.id, ReadFull_app.
Qed.

Lemma readMessage_short n body rest :
  (Z.of_nat (length body) < n)%Z -> (10 <= n < 2 ^ 16)%Z ->
  let missing := Z.to_nat n - length body in
  readMessage (put_uint16 n ++ body ++ rest) =
  if (missing <=? length rest)%nat then (msg_Unpack (body ++ take missing rest), drop missing rest)
  else (inr (match body ++ rest with [] => io_EOF | _ => io_ErrUnexpectedEOF end), []).
Proof.
  intros Hn Hl. cbv zeta. rewrite readMessage_prefix by lia. destruct (Z.ltb_spec n 10); [lia|].
  unfold ReadFull. rewrite length_app.
  destruct (Nat.leb_spec (Z.to_nat n) (length body + length rest)) as [Hle|Hgt].
  - rewrite (proj2 (Nat.leb_le _ _)) by lia.
    by rewrite firstn_app, skipn_app, firstn_all2, skipn_all2 by lia.
  - rewrite (proj2 (Nat.leb_gt _ _)) by lia. by destruct (body ++ rest).
Qed.

(** ** Properties *)

(** C29: framing.  What [writeMessage] sends after the prefix, which is what
    [Len] says, is the encoding when it was packed into the buffer; when
    [PackBuffer] needed a new slice, it is whatever the buffer holds, as many
    bytes as the encoding has, and nothing of the message is sent.  When
    [Len] is the length of the encoding, the reader decodes exactly these
    bytes and leaves the stream after them; when [Len] is larger, it takes
    the missing bytes from whatever follows, or fails at the end of the
    stream. *)
Theorem message_framing m raw rest :
  msg_Pack m = inl raw -> (10 <= msg_Len m < 2 ^ 16)%Z ->
  exists body,
    message_bytes m = inl (put_uint16 (msg_Len m) ++ body) /\ length body = length raw /\
    (if msg_fits m (length (free_bytes (msg_Len m))) then body = raw
     else body = take (length raw) (free_bytes (msg_Len m))) /\
    let missing := Z.to_nat (msg_Len m) - length raw in
    (missing = 0 -> readMessage (put_uint16 (msg_Len m) ++ body ++ rest) = (msg_Unpack body, rest)) /\
    (0 < missing -> readMessage (put_uint16 (msg_Len m) ++ body ++ rest) =
       if (missing <=? length rest)%nat then (msg_Unpack (body ++ take missing rest), drop missing rest)
       else (inr (match body ++ rest with [] => io_EOF | _ => io_ErrUnexpectedEOF end), [])).
Proof.
  intros Hp Hl. exists (payload m raw). pose proof (payload_length m raw Hp) as Hlen.
  pose proof (Pack_Len m raw Hp) as Hle. cbv zeta. split_and!.
  - rewrite (message_bytes_payload m raw Hp). by rewrite wrapu_small by lia.
  - exact Hlen.
  - unfold payload. by destruct (msg_fits _ _).
  - intros Hm. apply readMessage_whole; lia.
  - intros Hm. rewrite readMessage_short by lia. by rewrite Hlen.
Qed.

Context {W Conn PConn : Type} `{!ConnOps W Conn}.

(** One exchange over TCP opens one connection to the server, closes it
    on every way out, reports the errors of dialing, encoding, writing and
    reading, and its answer is the first message of the stream. *)
Theorem TCP_Exchange_spec (t : TCPTransport W Conn PConn) message w conn w1 :
  d_DialContext (tcp_dialer t) NetworkTCP (tcp_serverAddr t) w = ((Some conn, None), w1) ->
  exists r w2, TCP_Exchange t message w = (Ret r, (conn_Close conn w2).2) /\
    match message_bytes message with
    | inr e => r = (None, Some e) /\ w2 = w1
    | inl bytes =>
        match conn_Write conn bytes w1 with
        | (Some e, w3) => r = (None, Some e) /\ w2 = w3
        | (None, w3) => let '(stream, w4) := conn_stream conn w3 in
            w2 = w4 /\
            match (readMessage stream).1 with
            | inl m => r = (Some m, None)
            | inr e => r = (None, Some e)
            end
        end
    end.
Proof.
  intros Hd. unfold TCP_Exchange. rewrite ST_bind_run, Hd. cbn [fst snd].
  rewrite ST_bind_run. unfold writeMessage.
  destruct (message_bytes message) as [bytes|e]; cbn [fst snd].
  - destruct (conn_Write conn bytes w1) as [[e|] w3]; cbn [fst snd].
    + exists (None, Some e), w3. split; [|done]. unfold mbind, ST_bind, mret, ST_ret, ex_ret.
      by destruct (conn_Close conn w3).
    + rewrite ST_bind_run. unfold read_answer at 1 2. rewrite !ST_bind_run.
      destruct (conn_stream conn w3) as [stream w4]. cbn [fst snd mret ST_ret].
      eexists _, w4. split.
      * unfold mbind, ST_bind, mret, ST_ret, ex_ret. by destruct (conn_Close conn w4).
      * split; [done|]. by destruct (readMessage stream) as [[m|e] s'].
  - exists (None, Some e), w1. split; [|done]. unfold mbind, ST_bind, mret, ST_ret, ex_ret.
    simpl. by destruct (conn_Close conn w1).
Qed.

End tcp_lemmas.

(** ** An encoding of messages, for the witnesses *)

Module WireExample.

(** Three messages, told apart by their id; the encoding of the first is two
    bytes shorter than [Len], the third does not fit the buffer that [Len]
    asks for. *)
Definition m1 : Msg := msg_with_Id 1 msg_zero.
Definition m2 : Msg := msg_with_Id 2 msg_zero.
Definition m3 : Msg := msg_with_Id 3 msg_zero.
Definition encoding (n : nat) : list Z := repeat (Z.of_nat n) n.

#[global] Instance wire : DnsWire | 100 := {
  msg_Len m := 12%Z;
  msg_Pack m := if bool_decide (m = m1) then inl (encoding 10)
                else if bool_decide (m = m2) then inl (encoding 12)
                else if bool_decide (m = m3) then inl (3%Z :: encoding 11) else inr (ENew "unknown");
  msg_fits m n := (12 <=? n)%nat && negb (bool_decide (m = m3));
  msg_Unpack raw := if bool_decide (raw = encoding 10) then inl m1
                    else if bool_decide (raw = encoding 12) then inl m2
                    else if bool_decide (raw = 3%Z :: encoding 11) then inl m3 else inr (ENew "unknown");
  buf_NewSize n := repeat 0%Z (Z.to_nat n);
}.

End WireExample.

(** The encoding is as the laws ask for. *)
#[global] Instance wire_example_laws : @DnsWireLaws WireExample.wire | 100.
Proof.
  assert (forall m raw, msg_Pack m = inl raw ->
    (Z.of_nat (length raw) <= 12)%Z /\ Forall (fun b => 0 <= b < 256)%Z raw) as Hp.
  { intros m raw. simpl. repeat case_bool_decide; intros [= <-]; (split; [vm_compute; discriminate|repeat constructor; lia]). }
  split.
  - intros m raw Hm. apply (Hp m raw Hm).
  - intros m raw Hm. apply (Hp m raw Hm).
  - intros m raw n Hm Hf. pose proof (proj1 (Hp m raw Hm)) as Hl. apply andb_prop in Hf as [Hn%Nat.leb_le _]. lia.
  - intros n. simpl. rewrite repeat_length. lia.
Qed.

(** [m2] comes back; after [m1] the reader takes two bytes too many; of [m3]
    the reader gets twelve zero bytes. *)
Lemma message_framing_witness :
  let bytes m := match message_bytes m with inl b => b | inr _ => [] end in
  readMessage (bytes WireExample.m2 ++ [7]%Z) = (inl WireExample.m2, [7]%Z) /\
  readMessage (bytes WireExample.m1) = (inr io_ErrUnexpectedEOF, []) /\
  bytes WireExample.m3 = put_uint16 12 ++ repeat 0%Z 12.
Proof.
  cbv zeta. split_and!.
  - destruct (message_framing WireExample.m2 (WireExample.encoding 12) [7]%Z) as (body & -> & _ & -> & Hr & _);
      [reflexivity|simpl; lia|]. rewrite <- app_assoc. exact (Hr eq_refl).
  - destruct (message_framing WireExample.m1 (WireExample.encoding 10) []) as (body & -> & _ & -> & _ & Hr);
      [reflexivity|simpl; lia|]. rewrite app_nil_r in Hr. exact (Hr ltac:(simpl; lia)).
  - destruct (message_framing WireExample.m3 (3%Z :: WireExample.encoding 11) []) as (body & -> & _ & -> & _);
      [reflexivity|simpl; lia|]. reflexivity.
Defined.

Module TcpExample.

(** A server that sends [m2] and counts the closes. *)
#[global] Instance ops : ConnOps nat unit | 100 := {
  conn_Write _ _ w := (None, w);
  conn_stream _ w := (put_uint16 12 ++ WireExample.encoding 12, w);
  conn_Close _ w := (tt, S w);
}.

Definition transport : TCPTransport nat unit unit :=
  MkTCP (MkSocks "" (Addr4 1) 53)
    (MkDialer (fun _ _ w => ((Some tt, None), w)) (fun _ w => ((None, None), w))).

End TcpExample.

Lemma TCP_Exchange_spec_witness :
  TCP_Exchange TcpExample.transport WireExample.m1 0 = (Ret (Some WireExample.m2, None), 1) /\
  exists r w2, TCP_Exchange TcpExample.transport WireExample.m1 0 =
    (Ret r, (conn_Close tt w2).2).
Proof.
  split; [reflexivity|].
  destruct (TCP_Exchange_spec TcpExample.transport WireExample.m1 0 tt 0 eq_refl)
    as (r & w2 & Hr & _).
  exists r, w2. exact Hr.
Defined.
