(* ===== verification/TcpRun.v ===== *)
(** * An exchange over TCP and its watcher: [TCPTransport.Exchange]

    [Exchange] of [resolve/transport/tcp.go] starts a goroutine that closes
    the connection when the context ends, and stops it through a second
    context when it returns.  Here both are stepped, with the end of the
    context and the network as events, so that every interleaving is a list
    of events; [TCP_Exchange] of Tcp is what the exchange does on its own. *)

From S2P Require Import Prelude GoStd Netip Meta Dns Addrs Dialer Tcp.

(** ** State *)

(** Where the exchange is: in the dial, in the write, in reading the answer,
    before the deferred [conn.Close], before the deferred [cancel], or at its
    end with its result. *)
Inductive tcp_pc :=
  | TDial
  | TWrite
  | TRead
  | TClose (r : gores (option Msg))
  | TCancel (r : gores (option Msg))
  | TDone (r : gores (option Msg)).

(** The goroutine: not started, in its [select], before its [conn.Close],
    at its end. *)
Inductive watcher := WNone | WSelect | WClose | WEnd.

(** [ts_ctx]: the caller's context has ended; [ts_cancelled]: [closeCtx]
    has; [ts_closes] counts the calls of [conn.Close]. *)
Record tcp_state := MkTS {
  ts_pc : tcp_pc;
  ts_watcher : watcher;
  ts_ctx : bool;
  ts_cancelled : bool;
  ts_closes : nat;
}.

Definition tcp_start : tcp_state := MkTS TDial WNone false false 0.

(** ** The steps *)

(** The case the [select] of the goroutine takes. *)
Inductive watch_case := WatchCtx | WatchCancel.

Inductive tcp_event :=
  | TEnds                                (* the context ends *)
  | TDialed (e : option err)             (* DialContext returns *)
  | TWritten (e : option err)            (* conn.Write returns *)
  | TAnswer (read : list Z + err)        (* what the reads of readMessage get *)
  | TCloses                              (* the deferred conn.Close *)
  | TCancels                             (* the deferred cancel *)
  | TWatch (case : watch_case)
  | TWatchCloses.

Definition set_tpc (pc : tcp_pc) (s : tcp_state) : tcp_state :=
  MkTS pc (ts_watcher s) (ts_ctx s) (ts_cancelled s) (ts_closes s).

Section exchange.
Context `{DnsWire}.

(** After the dial: the goroutine is started and the message encoded, with
    the write to come. *)
Definition after_dial (message : Msg) (s : tcp_state) : tcp_state :=
  MkTS (match message_bytes message with inr e => TClose (None, Some e) | inl _ => TWrite end)
    WSelect (ts_ctx s) (ts_cancelled s) (ts_closes s).

(** What the exchange returns for what it could read. *)
Definition answer_of (read : list Z + err) : gores (option Msg) :=
  match read with
  | inr e => (None, Some e)
  | inl stream =>
      match (readMessage stream).1 with inl m => (Some m, None) | inr e => (None, Some e) end
  end.

Definition tcp_step (message : Msg) (ev : tcp_event) (s : tcp_state) : option tcp_state :=
  match ev with
  | TEnds =>
      if ts_ctx s then None
      else Some (MkTS (ts_pc s) (ts_watcher s) true (ts_cancelled s) (ts_closes s))
  | TDialed e =>
      match ts_pc s with
      | TDial => Some match e with
                      | Some e => set_tpc (TDone (None, Some e)) s
                      | None => after_dial message s
                      end
      | _ => None
      end
  | TWritten e =>
      match ts_pc s with
      | TWrite => Some (set_tpc match e with Some e => TClose (None, Some e) | None => TRead end s)
      | _ => None
      end
  | TAnswer read =>
      match ts_pc s with TRead => Some (set_tpc (TClose (answer_of read)) s) | _ => None end
  | TCloses =>
      match ts_pc s with
      | TClose r =>
          Some (MkTS (TCancel r) (ts_watcher s) (ts_ctx s) (ts_cancelled s) (S (ts_closes s)))
      | _ => None
      end
  | TCancels =>
      match ts_pc s with
      | TCancel r => Some (MkTS (TDone r) (ts_watcher s) (ts_ctx s) true (ts_closes s))
      | _ => None
      end
  | TWatch case =>
      match ts_watcher s with
      | WSelect =>
          match case with
          | WatchCtx =>
              if ts_ctx s
              then Some (MkTS (ts_pc s) WClose (ts_ctx s) (ts_cancelled s) (ts_closes s))
              else None
          | WatchCancel =>
              if ts_cancelled s
              then Some (MkTS (ts_pc s) WEnd (ts_ctx s) (ts_cancelled s) (ts_closes s))
              else None
          end
      | _ => None
      end
  | TWatchCloses =>
      match ts_watcher s with
      | WClose => Some (MkTS (ts_pc s) WEnd (ts_ctx s) (ts_cancelled s) (S (ts_closes s)))
      | _ => None
      end
  end.

(** The states after some events. *)
Inductive tcp_run (message : Msg) : list tcp_event -> tcp_state -> Prop :=
  | tcp_run_start : tcp_run message [] tcp_start
  | tcp_run_step evs s ev s' :
      tcp_run message evs s -> tcp_step message ev s = Some s' -> tcp_run message (evs ++ [ev]) s'.

Definition net_ErrClosed : err := EStd "net.ErrClosed".

(** The steps that need nothing from the network: those of the code, and,
    as [net] documents, a dial whose context has ended, and a write or a
    read of a connection that was closed, return an error. *)
Definition own_step (s : tcp_state) (ev : tcp_event) : Prop :=
  match ev with
  | TEnds => False
  | TDialed e => is_Some e /\ ts_ctx s = true
  | TWritten e => is_Some e /\ 0 < ts_closes s
  | TAnswer read => (exists e, read = inr e) /\ 0 < ts_closes s
  | TCloses | TCancels | TWatch _ | TWatchCloses => True
  end.

(** Both goroutines are through. *)
Definition tcp_ended (s : tcp_state) : Prop :=
  (exists r, ts_pc s = TDone r) /\ (ts_watcher s = WNone \/ ts_watcher s = WEnd).

(** ** Lemmas *)

Definition pc_progress (pc : tcp_pc) : nat :=
  match pc with TDial => 0 | TWrite => 1 | TRead => 2 | TClose _ => 3 | TCancel _ => 4 | TDone _ => 5 end.
Definition watcher_progress (wt : watcher) : nat :=
  match wt with WNone | WSelect => 0 | WClose => 1 | WEnd => 2 end.
Definition tcp_progress (s : tcp_state) : nat :=
  pc_progress (ts_pc s) + watcher_progress (ts_watcher s) + if ts_ctx s then 1 else 0.

Lemma tcp_progress_bound s : tcp_progress s <= 8.
Proof. unfold tcp_progress. destruct (ts_pc s), (ts_watcher s), (ts_ctx s); simpl; lia. Qed.

(** Where a result comes from: the error of the dial, of the encoding or of
    the write, or what was read after the write. *)
Definition result_from (message : Msg) (evs : list tcp_event) (r : gores (option Msg)) : Prop :=
  (exists e, r = (None, Some e) /\
     (In (TDialed (Some e)) evs \/ message_bytes message = inr e \/ In (TWritten (Some e)) evs)) \/
  (exists read, In (TWritten None) evs /\ In (TAnswer read) evs /\ r = answer_of read).

(** The goroutine runs from the dial on, and has closed the connection
    unless it was stopped; the exchange closes it before it stops the
    goroutine. *)
Record tcp_ok (message : Msg) (evs : list tcp_event) (s : tcp_state) : Prop := {
  to_steps : length evs <= tcp_progress s;
  to_dial :
    match ts_watcher s, ts_pc s with
    | WNone, TDial => ts_closes s = 0
    | WNone, TDone r => ts_closes s = 0 /\ exists e, r = (None, Some e) /\ In (TDialed (Some e)) evs
    | WNone, _ | _, TDial => False
    | _, TCancel _ | _, TDone _ => 0 < ts_closes s
    | _, _ => True
    end;
  to_cancelled :
    ts_cancelled s = match ts_watcher s, ts_pc s with WNone, _ => false | _, TDone _ => true | _, _ => false end;
  to_watcher :
    match ts_watcher s with WClose => ts_ctx s = true | WEnd => 0 < ts_closes s | _ => True end;
  to_result :
    match ts_pc s with
    | TRead => In (TWritten None) evs
    | TClose r | TCancel r | TDone r => result_from message evs r
    | _ => True
    end;
}.

Lemma result_from_app message evs ev r :
  result_from message evs r -> result_from message (evs ++ [ev]) r.
Proof.
  intros [(e & -> & Hf)|(read & Hw & Ha & ->)]; [left; exists e|right; exists read];
    rewrite !in_app_iff; tauto.
Qed.

Lemma in_snoc {A} (l : list A) (x : A) : In x (l ++ [x]).
Proof. apply in_app_iff. right. by left. Qed.

#[local] Ltac event :=
  match goal with
  | |- result_from _ (_ ++ [_]) _ => by apply result_from_app
  | |- result_from _ (_ ++ [TAnswer ?read]) _ =>
      right; exists read; rewrite !in_app_iff; simpl; tauto
  | |- result_from _ _ (None, Some ?e) => left; exists e; rewrite !in_app_iff; simpl; tauto
  | |- In _ (_ ++ [_]) => apply in_app_iff; simpl; tauto
  | H : _ /\ (exists e, _) |- _ /\ (exists e, _) =>
      let x := fresh in destruct H as (? & x & ? & ?); split; [done|]; exists x; rewrite in_app_iff; tauto
  | |- _ /\ (exists e, (None, Some ?x) = _ /\ _) =>
      split; [done|]; exists x; rewrite in_app_iff; simpl; tauto
  end.

Lemma tcp_ok_step message evs ev s s' :
  tcp_ok message evs s -> tcp_step message ev s = Some s' -> tcp_ok message (evs ++ [ev]) s'.
Proof.
  intros [H1 H2 H3 H4 H5] Hs. destruct s as [pc wt ctx cancelled closes].
  unfold tcp_progress in *. simpl in *.
  destruct ev as [|e|e|read| | |case|]; simpl in Hs.
  all: unfold after_dial, set_tpc in Hs; simpl in Hs.
  all: destruct (message_bytes message) eqn:Hb; repeat (case_match; simplify_eq/=); simplify_eq/=.
  all: split; unfold tcp_progress; simpl in *; rewrite ?length_app; simpl; first [lia|done|event].
Qed.

Lemma tcp_ok_run message evs s : tcp_run message evs s -> tcp_ok message evs s.
Proof.
  induction 1 as [|evs s ev s' _ IH Hs]; [by split|]. by eapply tcp_ok_step.
Qed.

(** ** Properties *)

(** C34: No exchange over TCP hangs or leaks.  In every state that an
    exchange and its watcher reach there have been at most eight steps, and:
    either both have ended, the connection was closed unless the dial failed,
    and the result is the error of the dial, the encoding or the write, or
    what was read after the write; or one of them can go on by itself; or
    the context has not ended and the exchange waits for the network.  So
    once the context has ended the exchange returns, whatever the network
    does, and the watcher ends in every case. *)
Theorem tcp_exchange_ends message evs s :
  tcp_run message evs s ->
  length evs <= 8 /\
  ((exists r, tcp_ended s /\ ts_pc s = TDone r /\ result_from message evs r /\
      (0 < ts_closes s \/ exists e, In (TDialed (Some e)) evs /\ r = (None, Some e))) \/
   (exists ev, own_step s ev /\ is_Some (tcp_step message ev s)) \/
   (ts_ctx s = false /\ (ts_pc s = TDial \/ ts_pc s = TWrite \/ ts_pc s = TRead))).
Proof.
  intros Hr%tcp_ok_run. destruct Hr as [H1 H2 H3 H4 H5].
  split; [pose proof (tcp_progress_bound s); lia|].
  destruct s as [pc wt ctx cancelled closes]. unfold tcp_ended. simpl in *.
  destruct wt.
  - destruct pc as [| | | | |r]; try done; [destruct ctx; [|tauto]|].
    + right. left. exists (TDialed (Some net_ErrClosed)). simpl. eauto.
    + left. exists r. destruct H2 as (_ & e & -> & He). eauto 10.
  - destruct pc as [| | |r|r|r]; try done; [destruct ctx; [|tauto]..| | |].
    1,2: right; left; exists (TWatch WatchCtx); simpl; eauto.
    + right. left. exists TCloses. simpl. eauto.
    + right. left. exists TCancels. simpl. eauto.
    + right. left. exists (TWatch WatchCancel). simpl. rewrite H3. eauto.
  - right. left. exists TWatchCloses. simpl. eauto.
  - destruct pc as [| | |r|r|r]; try done.
    + right. left. exists (TWritten (Some net_ErrClosed)). simpl. eauto.
    + right. left. exists (TAnswer (inr net_ErrClosed)). simpl. eauto.
    + right. left. exists TCloses. simpl. eauto.
    + right. left. exists TCancels. simpl. eauto.
    + left. exists r. eauto 10.
Qed.
End exchange.

(** ** Witnesses *)

Module TcpRunExample.

(** The context ends during the read: the watcher closes the connection,
    the read fails, and the exchange returns. *)
Definition events : list tcp_event :=
  [TDialed None; TWritten None; TEnds; TWatch WatchCtx; TWatchCloses;
   TAnswer (inr net_ErrClosed); TCloses; TCancels].

Fixpoint tcp_events (message : Msg) (evs : list tcp_event) (s : tcp_state) : option tcp_state :=
  match evs with
  | [] => Some s
  | ev :: evs => s ← tcp_step message ev s; tcp_events message evs s
  end.

Lemma tcp_events_run message evs evs0 s s' :
  tcp_run message evs0 s -> tcp_events message evs s = Some s' -> tcp_run message (evs0 ++ evs) s'.
Proof.
  revert evs0 s. induction evs as [|ev evs IH]; intros evs0 s Hr; simpl.
  { intros [= <-]. by rewrite app_nil_r. }
  destruct (tcp_step message ev s) as [s1|] eqn:Es; [|done]. simpl. intros Hs.
  replace (evs0 ++ ev :: evs) with ((evs0 ++ [ev]) ++ evs) by (by rewrite <- app_assoc).
  eapply IH; [|exact Hs]. by eapply tcp_run_step.
Qed.

Definition ended : tcp_state := MkTS (TDone (None, Some net_ErrClosed)) WEnd true true 2.

Lemma ended_reached : tcp_run WireExample.m2 events ended.
Proof. apply (tcp_events_run _ events [] tcp_start); [constructor|reflexivity]. Qed.

End TcpRunExample.

Lemma tcp_exchange_ends_witness :
  length TcpRunExample.events <= 8 /\
  ((exists r, tcp_ended TcpRunExample.ended /\ ts_pc TcpRunExample.ended = TDone r /\
      result_from WireExample.m2 TcpRunExample.events r /\
      (0 < ts_closes TcpRunExample.ended \/
       exists e, In (TDialed (Some e)) TcpRunExample.events /\ r = (None, Some e))) \/
   (exists ev, own_step TcpRunExample.ended ev /\
      is_Some (tcp_step WireExample.m2 ev TcpRunExample.ended)) \/
   (ts_ctx TcpRunExample.ended = false /\ (ts_pc TcpRunExample.ended = TDial \/
      ts_pc TcpRunExample.ended = TWrite \/ ts_pc TcpRunExample.ended = TRead))).
Proof. exact (tcp_exchange_ends _ _ _ TcpRunExample.ended_reached). Defined.
