(* ===== verification/Udp.v ===== *)
(** * DNS over UDP: [resolve/transport/udp.go]

    A [dnsConnection] multiplexes queries over one connection: every query
    registers a callback under the next 16-bit id, the receive loop hands a
    message to the callback with its id.  The operations of the exchanges and
    of the loop interleave; each takes effect under the connection's lock.
    Also here: what an exchange returns for every outcome, and [exchangeUDP];
    the transport's goroutines are in UdpTransport. *)

From S2P Require Import Prelude GoStd Netip Meta Dns Addrs Dialer Tcp.

(** ** [dnsConnection] *)

(** A callback: the id it was registered with, the message it was given
    ([done] is closed by the first one), and whether its exchange is over. *)
Record callback := MkCb { cb_id : Z; cb_message : option Msg; cb_over : bool }.

(** [queryId], [callbacks] (the callback under an id), the callbacks made so
    far, and [err], set when [done] is closed. *)
Record dnsConnection := MkConn {
  dc_queryId : Z;
  dc_callbacks : gmap Z nat;
  dc_made : list callback;
  dc_err : option err;
}.

Definition conn_init : dnsConnection := MkConn 0 ∅ [] None.

(** [conn.queryId++; conn.callbacks[exMessage.Id] = callback] *)
Definition conn_register (c : dnsConnection) : dnsConnection :=
  let id := u16 (dc_queryId c + 1) in
  MkConn id (<[id := length (dc_made c)]> (dc_callbacks c))
    (dc_made c ++ [MkCb id None false]) (dc_err c).

(** The body of [recvLoop] for a message that was decoded. *)
Definition conn_recv (m : Msg) (c : dnsConnection) : dnsConnection :=
  match dc_callbacks c !! m_Id m with
  | None => c
  | Some k =>
      MkConn (dc_queryId c) (dc_callbacks c)
        (alter (fun cb => match cb_message cb with
                          | None => MkCb (cb_id cb) (Some m) (cb_over cb)
                          | Some _ => cb
                          end) k (dc_made c))
        (dc_err c)
  end.

(** The deferred [delete(conn.callbacks, exMessage.Id)] of exchange [k]. *)
Definition conn_finish (k : nat) (c : dnsConnection) : dnsConnection :=
  match dc_made c !! k with
  | None => c
  | Some cb =>
      MkConn (dc_queryId c) (delete (cb_id cb) (dc_callbacks c))
        (alter (fun cb => MkCb (cb_id cb) (cb_message cb) true) k (dc_made c)) (dc_err c)
  end.

(** [Close]: the first error stays. *)
Definition conn_close (e : err) (c : dnsConnection) : dnsConnection :=
  MkConn (dc_queryId c) (dc_callbacks c) (dc_made c)
    (match dc_err c with Some e => Some e | None => Some e end).

Inductive conn_event :=
  | CRegister
  | CRecv (m : Msg)
  | CFinish (k : nat)
  | CClose (e : err).

Definition conn_step (ev : conn_event) (c : dnsConnection) : dnsConnection :=
  match ev with
  | CRegister => conn_register c
  | CRecv m => conn_recv m c
  | CFinish k => conn_finish k c
  | CClose e => conn_close e c
  end.

(** A run of the connection. *)
Definition conn_run (evs : list conn_event) (c : dnsConnection) : dnsConnection :=
  fold_left (fun c ev => conn_step ev c) evs c.

(** ** The result of an exchange *)

(** How the attempt went: opening, encoding or writing failed, or what the
    [select] saw.  The connection's [err] is set, and never to nil, before its
    [done] is closed. *)
Inductive attempt :=
  | AOpenErr (e : err)
  | APackErr (e : err)
  | AWriteErr (e : err)
  | ACallback (m : Msg)
  | AConnDone (e : err)
  | ATransportDone
  | ACtx (e : err).

Definition os_ErrClosed : err := EStd "os.ErrClosed".
Definition EMSGSIZE : err := EErrno 90.

Definition exchange_result `{ExLib} (messageId : Z) (a : attempt) : option Msg * bool * option err :=
  match a with
  | AOpenErr e => (None, true, Some e)
  | APackErr e => (None, false, Some e)
  | AWriteErr e => (None, ex_IsMulti e [EMSGSIZE], Some e)
  | ACallback m => (Some (msg_with_Id messageId m), m_Truncated m, None)
  | AConnDone e => (None, false, Some e)
  | ATransportDone => (None, false, Some os_ErrClosed)
  | ACtx e => (None, false, Some e)
  end.

(** The rest of [UDPTransport.Exchange], for what [exchange] returned and
    what a TCP exchange of the same query would return; the boolean says
    whether that is made.  A nil response without an error is dereferenced. *)
Definition after_exchange (r : option Msg * bool * option err) (tcp : gores (option Msg))
    : exec (gores (option Msg)) * bool :=
  match r with
  | (_, _, Some e) => (Ret (None, Some e), false)
  | (None, _, None) => (Panic "nil response", false)
  | (Some response, needTcp, None) =>
      if (m_Truncated response || needTcp)%bool then (Ret tcp, true)
      else (Ret (Some response, None), false)
  end.

Definition UDP_Exchange `{ExLib} (messageId : Z) (a : attempt) (tcp : gores (option Msg))
    : exec (gores (option Msg)) * bool :=
  after_exchange (exchange_result messageId a) tcp.

(** ** [exchangeUDP] *)

(** The methods of [net.Conn] it calls: [Write], a [Read] into a buffer of a
    given size, and [SetDeadline], whose error is dropped; [buf_New_size] is
    the size of the buffers [buf.New] makes. *)
Class DatagramOps (W Conn : Type) := {
  dg_Write : Conn -> list Z -> ST W (option err);
  dg_Read : Conn -> Z -> ST W (list Z + err);
  dg_SetDeadline : Conn -> Z -> ST W unit;
  buf_New_size : Z;
}.

(** One query on a connection of its own; [deadline] is the context's, when
    it has one that is not the zero time. *)
Definition exchangeUDP {W Conn} `{DnsWire} `{!DatagramOps W Conn} (deadline : option Z)
    (conn : Conn) (message : Msg) : ST W (gores (option Msg)) :=
  _ ← match deadline with Some d => dg_SetDeadline conn d | None => mret tt end;
  match msg_Pack message with
  | inr e => mret (None, Some e)
  | inl rawMessage =>
      e ← dg_Write conn rawMessage;
      match e with
      | Some e => mret (None, Some e)
      | None =>
          r ← dg_Read conn (buf_New_size (Conn := Conn));
          mret match r with
               | inr e => (None, Some e)
               | inl bytes =>
                   match msg_Unpack bytes with
                   | inr e => (None, Some e)
                   | inl response => (Some response, None)
                   end
               end
      end
  end.

(** ** What a connection promises *)

(** A mailbox for every query, on its own: until its exchange is over it
    takes the first message with its id; nothing that happens to another
    query changes it. *)
Definition mailbox_event (k : nat) (ev : conn_event) (b : callback) : callback :=
  match ev with
  | CRecv m =>
      match cb_over b, cb_message b with
      | false, None => if Z.eqb (m_Id m) (cb_id b) then MkCb (cb_id b) (Some m) false else b
      | _, _ => b
      end
  | CFinish j => if decide (j = k) then MkCb (cb_id b) (cb_message b) true else b
  | CRegister | CClose _ => b
  end.

Definition mailboxes_step (ev : conn_event) (bs : list callback) : list callback :=
  imap (fun k => mailbox_event k ev) bs ++
  match ev with
  | CRegister => [MkCb (u16 (Z.of_nat (length bs) + 1)) None false]
  | _ => []
  end.

Definition mailboxes (evs : list conn_event) : list callback :=
  fold_left (fun bs ev => mailboxes_step ev bs) evs [].

(** The first message with the id before exchange [k] is over, whether it is
    over, and the error of the first [Close]. *)
Fixpoint first_reply (k : nat) (id : Z) (evs : list conn_event) : option Msg :=
  match evs with
  | [] => None
  | CFinish j :: evs => if decide (j = k) then None else first_reply k id evs
  | CRecv m :: evs => if Z.eqb (m_Id m) id then Some m else first_reply k id evs
  | _ :: evs => first_reply k id evs
  end.

Definition finished (k : nat) (evs : list conn_event) : bool :=
  existsb (fun ev => match ev with CFinish j => bool_decide (j = k) | _ => false end) evs.

Fixpoint first_close (evs : list conn_event) : option err :=
  match evs with
  | [] => None
  | CClose e :: _ => Some e
  | _ :: evs => first_close evs
  end.

(** ** Lemmas *)

Definition registrations (evs : list conn_event) : nat :=
  length (List.filter (fun ev => match ev with CRegister => true | _ => false end) evs).

(** The ids are handed out in sequence, a message sits with its id, and the
    table holds, under an id, a callback made with that id. *)
Record conn_inv (evs : list conn_event) (c : dnsConnection) : Prop := {
  cv_count : length (dc_made c) = registrations evs;
  cv_queryId : dc_queryId c = u16 (Z.of_nat (length (dc_made c)));
  cv_id : forall k cb, dc_made c !! k = Some cb -> cb_id cb = u16 (Z.of_nat k + 1);
  cv_message : forall k cb m, dc_made c !! k = Some cb -> cb_message cb = Some m ->
    m_Id m = cb_id cb /\ In (CRecv m) evs;
  cv_table : forall id k, dc_callbacks c !! id = Some k ->
    exists cb, dc_made c !! k = Some cb /\ cb_id cb = id;
}.

Lemma registrations_snoc evs ev :
  registrations (evs ++ [ev]) =
  registrations evs + match ev with CRegister => 1 | _ => 0 end.
Proof. unfold registrations. rewrite List.filter_app, length_app. by destruct ev. Qed.

Lemma u16_step n : u16 (u16 n + 1) = u16 (n + 1).
Proof. unfold wrapu. by rewrite Zplus_mod_idemp_l. Qed.

Lemma conn_inv_init : conn_inv [] conn_init.
Proof.
  split; try done; simpl; intros *; rewrite ?lookup_nil, ?lookup_empty; done.
Qed.

Lemma conn_inv_register evs c :
  conn_inv evs c -> conn_inv (evs ++ [CRegister]) (conn_register c).
Proof.
  intros [H1 H2 H3 H4 H5]. unfold conn_register.
  assert (u16 (dc_queryId c + 1) = u16 (Z.of_nat (length (dc_made c)) + 1)) as Hid
    by (rewrite H2; apply u16_step).
  split; simpl.
  - rewrite length_app, registrations_snoc, H1. done.
  - rewrite length_app. simpl. rewrite Hid. f_equal. lia.
  - intros k cb Hk. apply lookup_app_Some in Hk as [Hk|[Hk1 Hk]]; [by apply H3|].
    destruct (k - length (dc_made c)) as [|n] eqn:E; [|by destruct n]. simpl in Hk. simplify_eq.
    simpl. rewrite Hid. do 3 f_equal. lia.
  - intros k cb m Hk Hm. apply lookup_app_Some in Hk as [Hk|[_ Hk]].
    + destruct (H4 _ _ _ Hk Hm). rewrite in_app_iff. auto.
    + destruct (k - length (dc_made c)) as [|n]; [|by destruct n]. simpl in Hk. by simplify_eq.
  - intros id k. rewrite lookup_insert_Some. intros [[<- <-]|[_ Hk]].
    + eexists. split; [by apply list_lookup_middle|done].
    + destruct (H5 _ _ Hk) as (cb & Hcb & ?). exists cb. split; [|done].
      by apply lookup_app_l_Some.
Qed.

(** Events that keep the table's keys and the ids of the callbacks. *)
Lemma conn_inv_alter evs ev c f k callbacks e :
  conn_inv evs c -> (ev <> CRegister) ->
  (forall cb, cb_id (f cb) = cb_id cb) ->
  (forall cb m, dc_made c !! k = Some cb -> cb_message (f cb) = Some m ->
     cb_message cb = Some m \/ (m_Id m = cb_id cb /\ ev = CRecv m)) ->
  (forall id j, callbacks !! id = Some j -> dc_callbacks c !! id = Some j) ->
  conn_inv (evs ++ [ev]) (MkConn (dc_queryId c) callbacks (alter f k (dc_made c)) e).
Proof.
  intros [H1 H2 H3 H4 H5] Hev Hid Hmsg Hcbs.
  assert (forall j cb', alter f k (dc_made c) !! j = Some cb' ->
    exists cb, dc_made c !! j = Some cb /\ cb_id cb' = cb_id cb /\
      (cb' = cb \/ (j = k /\ cb' = f cb))) as Halt.
  { intros j cb' Hj. destruct (decide (j = k)) as [->|Hne].
    - rewrite list_lookup_alter_eq in Hj. destruct (dc_made c !! k) as [cb|]; [|done].
      simpl in Hj. simplify_eq. exists cb. auto.
    - rewrite list_lookup_alter_ne in Hj by done. exists cb'. auto. }
  split; simpl.
  - rewrite length_alter, registrations_snoc, H1. destruct ev; simpl; done || lia.
  - by rewrite length_alter.
  - intros j cb' Hj. destruct (Halt _ _ Hj) as (cb & Hcb & -> & _). eauto.
  - intros j cb' m Hj Hm. rewrite in_app_iff.
    destruct (Halt _ _ Hj) as (cb & Hcb & Hi & [->|[-> ->]]).
    + destruct (H4 _ _ _ Hcb Hm). auto.
    + destruct (Hmsg _ _ Hcb Hm) as [Hm'|[Hm' ->]].
      * destruct (H4 _ _ _ Hcb Hm'). rewrite Hi. auto.
      * rewrite Hi. simpl. auto.
  - intros id j Hj. apply Hcbs in Hj. destruct (H5 _ _ Hj) as (cb & Hcb & Hi).
    destruct (decide (j = k)) as [->|Hne].
    + exists (f cb). by rewrite list_lookup_alter_eq, Hcb, Hid.
    + exists cb. by rewrite list_lookup_alter_ne.
Qed.

Lemma conn_inv_step evs c ev : conn_inv evs c -> conn_inv (evs ++ [ev]) (conn_step ev c).
Proof.
  intros Hc. destruct ev as [|m|k|e]; simpl; [by apply conn_inv_register| | |].
  - unfold conn_recv. destruct (dc_callbacks c !! m_Id m) as [k|] eqn:Ek.
    + apply conn_inv_alter; try done.
      * intros cb. by destruct (cb_message cb).
      * intros cb m' Hcb. destruct (cb_message cb) eqn:Em; [rewrite Em; by left|].
        simpl. intros Hm. simplify_eq.
        right. destruct (cv_table _ _ Hc _ _ Ek) as (cb' & ? & ?). by simplify_eq.
    + apply (conn_inv_alter _ (CRecv m) c (fun cb => cb) 0 (dc_callbacks c) (dc_err c)) in Hc;
        [|done|done|by left|done].
      replace (alter (fun cb => cb) 0 (dc_made c)) with (dc_made c) in Hc; [by destruct c|].
      symmetry. by apply list_alter_id.
  - unfold conn_finish. destruct (dc_made c !! k) as [cb|] eqn:Ek.
    + apply conn_inv_alter; try done.
      * by left.
      * intros id j. rewrite lookup_delete_Some. by intros [_ ?].
    + apply (conn_inv_alter _ (CFinish k) c (fun cb => cb) 0 (dc_callbacks c) (dc_err c)) in Hc;
        [|done|done|by left|done].
      replace (alter (fun cb => cb) 0 (dc_made c)) with (dc_made c) in Hc; [by destruct c|].
      symmetry. by apply list_alter_id.
  - unfold conn_close. set (e' := match dc_err c with Some e0 => Some e0 | None => Some e end).
    apply (conn_inv_alter _ (CClose e) c (fun cb => cb) 0 (dc_callbacks c) e') in Hc;
      [|done|done|by left|done].
    replace (alter (fun cb => cb) 0 (dc_made c)) with (dc_made c) in Hc; [done|].
    symmetry. by apply list_alter_id.
Qed.

Lemma conn_run_snoc evs ev c : conn_run (evs ++ [ev]) c = conn_step ev (conn_run evs c).
Proof. unfold conn_run. by rewrite fold_left_app. Qed.

Lemma conn_inv_run evs : conn_inv evs (conn_run evs conn_init).
Proof.
  induction evs as [|ev evs IH] using rev_ind; [apply conn_inv_init|].
  rewrite conn_run_snoc. by apply conn_inv_step.
Qed.

(** While no id was used twice, every exchange that is not over is in the
    table. *)
Lemma ids_distinct j k :
  (Z.of_nat j < 65536)%Z -> (Z.of_nat k < 65536)%Z ->
  u16 (Z.of_nat j + 1) = u16 (Z.of_nat k + 1) -> j = k.
Proof. unfold wrapu. intros Hj Hk He. change (2 ^ 16)%Z with 65536%Z in He.
  Z.to_euclidean_division_equations; lia.
Qed.

Definition live (c : dnsConnection) : Prop :=
  forall k cb, dc_made c !! k = Some cb -> cb_over cb = false ->
    dc_callbacks c !! cb_id cb = Some k.

Lemma live_run evs :
  (Z.of_nat (registrations evs) <= 65536)%Z -> live (conn_run evs conn_init).
Proof.
  induction evs as [|ev evs IH] using rev_ind; [done|]. intros Hn.
  rewrite registrations_snoc in Hn. specialize (IH ltac:(lia)).
  pose proof (conn_inv_run evs) as [H1 H2 H3 H4 H5]. rewrite conn_run_snoc.
  set (c := conn_run evs conn_init) in *. intros k cb Hk Ho. rewrite <- H1 in Hn.
  destruct ev as [|m|j|e]; simpl in Hk |- *.
  - assert (u16 (dc_queryId c + 1) = u16 (Z.of_nat (length (dc_made c)) + 1)) as Hid
      by (rewrite H2; apply u16_step).
    apply lookup_app_Some in Hk as [Hk|[Hk1 Hk]].
    + rewrite lookup_insert_ne; [by apply IH|]. rewrite Hid, (H3 _ _ Hk). intros He.
      apply lookup_lt_Some in Hk. apply ids_distinct in He; lia.
    + destruct (k - length (dc_made c)) as [|n] eqn:E; [|by destruct n]. simpl in Hk. simplify_eq.
      simpl. rewrite lookup_insert_eq. f_equal. lia.
  - unfold conn_recv in *. destruct (dc_callbacks c !! m_Id m) as [j|]; [|by apply IH].
    simpl in *. destruct (decide (k = j)) as [->|Hne].
    + rewrite list_lookup_alter_eq in Hk. destruct (dc_made c !! j) as [cb'|] eqn:Ej; [|done].
      simpl in Hk. destruct (cb_message cb') eqn:Em; simplify_eq; simpl in *; by apply IH.
    + rewrite list_lookup_alter_ne in Hk by done. by apply IH.
  - unfold conn_finish in *. destruct (dc_made c !! j) as [cbj|] eqn:Ej; [|by apply IH].
    simpl in *. destruct (decide (k = j)) as [->|Hne].
    + rewrite list_lookup_alter_eq, Ej in Hk. simpl in Hk. by simplify_eq.
    + rewrite list_lookup_alter_ne in Hk by done. rewrite lookup_delete_ne; [by apply IH|].
      rewrite (H3 _ _ Ej), (H3 _ _ Hk). intros He.
      apply lookup_lt_Some in Hk, Ej. apply ids_distinct in He; lia.
  - by apply IH.
Qed.

(** An entry of the table is that of a query that is not over. *)
Lemma table_waiting evs id k cb :
  dc_callbacks (conn_run evs conn_init) !! id = Some k ->
  dc_made (conn_run evs conn_init) !! k = Some cb -> cb_over cb = false.
Proof.
  revert id k cb. induction evs as [|ev evs IH] using rev_ind; [done|].
  pose proof (conn_inv_run evs) as [_ _ _ _ H5]. rewrite conn_run_snoc.
  set (c := conn_run evs conn_init) in *. intros id k cb.
  destruct ev as [|m|j|e]; simpl; [| | |apply IH].
  - rewrite lookup_insert_Some. intros [[_ <-]|[_ Ht]] Hk.
    + rewrite list_lookup_middle in Hk by done. by simplify_eq.
    + destruct (H5 _ _ Ht) as (cb' & Hcb & _).
      apply (IH id k); [done|]. rewrite lookup_app_l in Hk; [done|]. by eapply lookup_lt_Some.
  - unfold conn_recv. destruct (dc_callbacks c !! m_Id m) as [j|]; [|apply IH]. simpl.
    intros Ht. destruct (decide (k = j)) as [->|Hne].
    + rewrite list_lookup_alter_eq. destruct (dc_made c !! j) as [cb'|] eqn:Ej; [|done].
      simpl. intros [= <-]. rewrite <- (IH _ _ _ Ht Ej). by destruct (cb_message cb').
    + rewrite list_lookup_alter_ne by done. by apply (IH id).
  - unfold conn_finish. destruct (dc_made c !! j) as [cbj|] eqn:Ej; [|apply IH]. simpl.
    rewrite lookup_delete_Some. intros [Hid Ht].
    destruct (H5 _ _ Ht) as (cb' & Hcb & Hi).
    destruct (decide (k = j)) as [->|Hne]; [congruence|].
    rewrite list_lookup_alter_ne by done. by apply (IH id).
Qed.

(** ** The connection and its mailboxes *)

Lemma mailboxes_snoc evs ev : mailboxes (evs ++ [ev]) = mailboxes_step ev (mailboxes evs).
Proof. unfold mailboxes. by rewrite fold_left_app. Qed.

(** Giving a message to the callback under its id is giving it to every
    mailbox that waits for it. *)
Lemma recv_mailboxes m c :
  live c ->
  (forall id k, dc_callbacks c !! id = Some k ->
     exists cb, dc_made c !! k = Some cb /\ cb_id cb = id /\ cb_over cb = false) ->
  dc_made (conn_recv m c) = imap (fun k => mailbox_event k (CRecv m)) (dc_made c).
Proof.
  intros Hl Ht. apply list_eq. intros j. rewrite list_lookup_imap. unfold conn_recv.
  destruct (dc_callbacks c !! m_Id m) as [k|] eqn:Ek.
  - destruct (Ht _ _ Ek) as (cb & Hcb & Hid & Ho). simpl.
    destruct (decide (j = k)) as [->|Hne].
    + rewrite list_lookup_alter_eq, Hcb. simpl. rewrite Ho, Hid, Z.eqb_refl.
      by destruct (cb_message cb).
    + rewrite list_lookup_alter_ne by done. destruct (dc_made c !! j) as [cbj|] eqn:Ej; [|done].
      simpl. f_equal. destruct (cb_over cbj) eqn:Eo; [done|]. destruct (cb_message cbj); [done|].
      destruct (Z.eqb_spec (m_Id m) (cb_id cbj)) as [E|]; [|done].
      pose proof (Hl _ _ Ej Eo) as Hj. rewrite <- E in Hj. congruence.
  - destruct (dc_made c !! j) as [cbj|] eqn:Ej; [|done].
    simpl. f_equal. destruct (cb_over cbj) eqn:Eo; [done|]. destruct (cb_message cbj); [done|].
    destruct (Z.eqb_spec (m_Id m) (cb_id cbj)) as [E|]; [|done].
    pose proof (Hl _ _ Ej Eo) as Hj. rewrite <- E in Hj. congruence.
Qed.

Lemma finish_mailboxes k c :
  dc_made (conn_finish k c) = imap (fun j => mailbox_event j (CFinish k)) (dc_made c).
Proof.
  apply list_eq. intros j. rewrite list_lookup_imap. unfold conn_finish.
  destruct (dc_made c !! k) as [cb|] eqn:Ek; simpl.
  - destruct (decide (j = k)) as [->|Hne].
    + rewrite list_lookup_alter_eq, Ek. simpl. by rewrite decide_True.
    + rewrite list_lookup_alter_ne by done. destruct (dc_made c !! j); [|done]. simpl.
      by rewrite decide_False.
  - destruct (dc_made c !! j) eqn:Ej; [|done]. simpl. rewrite decide_False; [done|]. congruence.
Qed.

Lemma imap_same {A} (l : list A) : imap (fun _ x => x) l = l.
Proof. apply list_eq. intros i. rewrite list_lookup_imap. by destruct (l !! i). Qed.

(** One event of the connection is one event of every mailbox. *)
Lemma made_mailboxes evs :
  (Z.of_nat (registrations evs) <= 65536)%Z ->
  dc_made (conn_run evs conn_init) = mailboxes evs.
Proof.
  induction evs as [|ev evs IH] using rev_ind; [done|]. intros Hn.
  rewrite registrations_snoc in Hn. rewrite conn_run_snoc, mailboxes_snoc, <- IH by lia.
  pose proof (conn_inv_run evs) as Hc. pose proof (live_run evs ltac:(lia)) as Hl.
  pose proof (table_waiting evs) as Hw. set (c := conn_run evs conn_init) in *.
  unfold mailboxes_step. destruct ev as [|m|k|e]; rewrite ?app_nil_r; simpl conn_step.
  - unfold conn_register. simpl. rewrite imap_same, (cv_queryId _ _ Hc), u16_step. done.
  - apply recv_mailboxes; [done|]. intros id k Hk.
    destruct (cv_table _ _ Hc _ _ Hk) as (cb & ? & ?). eauto.
  - apply finish_mailboxes.
  - simpl. by rewrite imap_same.
Qed.

Lemma first_close_snoc evs ev :
  first_close (evs ++ [ev]) =
  match first_close evs, ev with Some e, _ => Some e | None, CClose e => Some e | None, _ => None end.
Proof. induction evs as [|[] evs IH]; simpl; try done; by destruct ev. Qed.

Lemma err_first_close evs : dc_err (conn_run evs conn_init) = first_close evs.
Proof.
  induction evs as [|ev evs IH] using rev_ind; [done|].
  rewrite conn_run_snoc, first_close_snoc, <- IH.
  set (c := conn_run evs conn_init). destruct ev as [|m|k|e]; simpl; try by destruct (dc_err c).
  - unfold conn_recv. destruct (dc_callbacks c !! m_Id m); simpl; by destruct (dc_err c).
  - unfold conn_finish. destruct (dc_made c !! k); simpl; by destruct (dc_err c).
Qed.

(** What one mailbox holds after the events that follow its query. *)
Lemma mailbox_reply k id after b :
  cb_id b = id ->
  fold_left (fun b ev => mailbox_event k ev b) after b =
  MkCb id
    (match cb_message b, cb_over b with
     | Some m, _ => Some m | None, false => first_reply k id after | None, true => None end)
    (cb_over b || finished k after).
Proof.
  revert b. induction after as [|ev after IH]; intros [i msg over] Hid; simpl in Hid; subst i.
  - simpl. rewrite orb_false_r. destruct msg, over; done.
  - simpl fold_left. destruct ev as [|m|j|e]; simpl.
    + by rewrite IH.
    + destruct over, msg; simpl; try by rewrite IH. destruct (Z.eqb_spec (m_Id m) id); by rewrite IH.
    + destruct (decide (j = k)) as [->|Hne].
      * rewrite IH by done. simpl. rewrite bool_decide_true by done. simpl.
        destruct msg, over; done.
      * rewrite IH by done. simpl. rewrite bool_decide_false by done. done.
    + by rewrite IH.
Qed.

Lemma mailboxes_length evs : length (mailboxes evs) = registrations evs.
Proof.
  induction evs as [|ev evs IH] using rev_ind; [done|].
  rewrite mailboxes_snoc, registrations_snoc. unfold mailboxes_step.
  rewrite length_app, length_imap, IH. by destruct ev.
Qed.

Lemma mailboxes_lookup before after :
  let k := registrations before in
  mailboxes (before ++ CRegister :: after) !! k =
  Some (fold_left (fun b ev => mailbox_event k ev b) after
    (MkCb (u16 (Z.of_nat k + 1)) None false)).
Proof.
  cbv zeta. induction after as [|ev after IH] using rev_ind.
  - rewrite mailboxes_snoc. unfold mailboxes_step. rewrite mailboxes_length.
    apply list_lookup_middle. by rewrite length_imap, mailboxes_length.
  - rewrite app_comm_cons, app_assoc, mailboxes_snoc, fold_left_app. unfold mailboxes_step.
    rewrite lookup_app_l.
    + rewrite list_lookup_imap, IH. done.
    + rewrite length_imap. by eapply lookup_lt_Some.
Qed.

(** ** Properties *)

(** C3: Refinement.  Whatever the order of registrations, messages, endings
    and errors, a connection that has carried at most 65536 queries behaves
    as one mailbox for each query: the table of 16-bit ids, shared by all of
    them, cannot be told from it.  The message of the [k]-th query is the
    first one with its id that arrives before its exchange is over. *)
Theorem conn_refines_mailboxes evs :
  (Z.of_nat (registrations evs) <= 65536)%Z ->
  dc_made (conn_run evs conn_init) = mailboxes evs /\
  dc_err (conn_run evs conn_init) = first_close evs /\
  forall before after, evs = before ++ CRegister :: after ->
    let k := registrations before in
    let id := u16 (Z.of_nat k + 1) in
    dc_made (conn_run evs conn_init) !! k =
      Some (MkCb id (first_reply k id after) (finished k after)).
Proof.
  intros Hn. pose proof (made_mailboxes evs Hn) as Hm. split; [done|].
  split; [apply err_first_close|]. cbv zeta. intros before after He.
  rewrite Hm, He, mailboxes_lookup. f_equal. by apply mailbox_reply.
Qed.

(** Two queries, whose answers come in the other order. *)
Lemma conn_refines_mailboxes_witness :
  let a := msg_with_Id 1 msg_zero in let b := msg_with_Id 2 msg_zero in
  dc_made (conn_run [CRegister; CRegister; CRecv b; CFinish 1; CRecv b; CRecv a] conn_init) =
    [MkCb 1 (Some a) false; MkCb 2 (Some b) true].
Proof.
  cbv zeta. etrans; [apply (conn_refines_mailboxes [_; _; _; _; _; _]); vm_compute; discriminate|].
  reflexivity.
Defined.

(** Matching answers to queries.  Whatever the order of registrations,
    messages, endings and errors, a message an exchange is given carries the
    id its query was sent with and was received on the connection; the
    [k]-th query of a connection has id [k] modulo 2^16; as long as a
    connection has carried at most 65536 queries, every exchange that is not
    over is given the next message with its id, if it has none yet. *)
Theorem conn_delivers evs k cb :
  let c := conn_run evs conn_init in
  dc_made c !! k = Some cb ->
  cb_id cb = u16 (Z.of_nat k + 1) /\
  (forall m, cb_message cb = Some m -> m_Id m = cb_id cb /\ In (CRecv m) evs) /\
  ((Z.of_nat (registrations evs) <= 65536)%Z -> cb_over cb = false -> forall m, m_Id m = cb_id cb ->
     dc_made (conn_recv m c) !! k =
       Some (MkCb (cb_id cb) (match cb_message cb with Some old => Some old | None => Some m end)
               false)).
Proof.
  cbv zeta. pose proof (conn_inv_run evs) as [H1 H2 H3 H4 H5].
  set (c := conn_run evs conn_init) in *. intros Hk. split; [eauto|]. split; [eauto|].
  intros Hn Ho m Hm. pose proof (live_run evs Hn k cb Hk Ho) as Hl. fold c in Hl.
  unfold conn_recv. rewrite Hm, Hl. simpl. rewrite list_lookup_alter_eq, Hk. simpl.
  destruct cb as [id [old|] over]; simpl in *; by subst.
Qed.

Lemma conn_delivers_witness :
  let m := MkMsg 2 true false false true true false 0 false [] [] [] [] in
  let evs := [CRegister; CRegister; CFinish 0] in
  dc_made (conn_recv m (conn_run evs conn_init)) !! 1 = Some (MkCb 2 (Some m) false).
Proof.
  cbv zeta.
  apply (fun m H => proj2 (proj2 (conn_delivers [CRegister; CRegister; CFinish 0] 1
    (MkCb 2 None false) eq_refl)) ltac:(vm_compute; discriminate) eq_refl m H).
  reflexivity.
Defined.

Lemma conn_run_registers n :
  dc_made (conn_run (repeat CRegister n) conn_init) =
  map (fun i => MkCb (u16 (Z.of_nat i + 1)) None false) (seq 0 n).
Proof.
  induction n as [|n IH]; [done|]. replace (S n) with (n + 1) by lia.
  rewrite repeat_app, seq_app, map_app, <- IH. simpl (repeat CRegister 1). rewrite conn_run_snoc.
  pose proof (conn_inv_run (repeat CRegister n)) as [H1 H2 _ _ _]. simpl.
  rewrite H2, u16_step. do 5 f_equal. by rewrite IH, length_map, length_seq.
Qed.

(** After 65536 more queries on the same connection an id comes around:
    the new query takes over the id of one that may still be waiting, which
    from then on is given nothing. *)
Theorem conn_id_reused evs k cb :
  let c := conn_run evs conn_init in
  dc_made c !! k = Some cb -> Z.of_nat (length (dc_made c)) = (Z.of_nat k + 65536)%Z ->
  let c' := conn_register c in
  dc_callbacks c' !! cb_id cb = Some (length (dc_made c)) /\
  (forall m, m_Id m = cb_id cb -> dc_made (conn_recv m c') !! k = Some cb).
Proof.
  cbv zeta. pose proof (conn_inv_run evs) as [H1 H2 H3 H4 H5].
  set (c := conn_run evs conn_init) in *. intros Hk Hlen.
  assert (u16 (dc_queryId c + 1) = cb_id cb) as Hid.
  { rewrite H2, u16_step, (H3 _ _ Hk), Hlen. unfold wrapu. change (2 ^ 16)%Z with 65536%Z.
    Z.to_euclidean_division_equations; lia. }
  assert (dc_callbacks (conn_register c) !! cb_id cb = Some (length (dc_made c))) as Ht.
  { unfold conn_register. simpl. rewrite Hid. apply lookup_insert_eq. }
  split; [done|]. intros m Hm. unfold conn_recv. rewrite Hm, Ht. simpl.
  rewrite list_lookup_alter_ne by lia. by apply lookup_app_l_Some.
Qed.

Lemma conn_run_first z :
  (0 < z)%Z -> dc_made (conn_run (repeat CRegister (Z.to_nat z)) conn_init) !! 0 = Some (MkCb 1 None false).
Proof. intros Hz. rewrite conn_run_registers, list_lookup_fmap, lookup_seq_lt by lia. done. Qed.

Lemma conn_run_length z :
  (0 <= z)%Z ->
  Z.of_nat (length (dc_made (conn_run (repeat CRegister (Z.to_nat z)) conn_init))) = (Z.of_nat 0 + z)%Z.
Proof. intros Hz. rewrite conn_run_registers, length_map, length_seq, Z2Nat.id; lia. Qed.

Lemma conn_id_reused_witness :
  exists evs, let c' := conn_register (conn_run evs conn_init) in
  forall m, m_Id m = 1%Z -> dc_made (conn_recv m c') !! 0 = Some (MkCb 1 None false).
Proof.
  exists (repeat CRegister (Z.to_nat 65536)).
  exact (proj2 (conn_id_reused _ 0 _ (conn_run_first 65536 ltac:(lia))
    (conn_run_length 65536 ltac:(lia)))).
Defined.

(** What an exchange returns: an answer restored to the id of the query
    when it came over UDP and was not truncated, the answer of the TCP
    exchange when it was, and otherwise the error of the attempt; TCP is
    not tried when the query was too large to send or the UDP connection
    could not be opened, though the inner exchange asks for it. *)
Theorem UDP_Exchange_spec `{ExLib} messageId a tcp :
  UDP_Exchange messageId a tcp =
  match a with
  | ACallback m => if m_Truncated m then (Ret tcp, true)
                   else (Ret (Some (msg_with_Id messageId m), None), false)
  | AOpenErr e | APackErr e | AWriteErr e | AConnDone e | ACtx e =>
      (Ret (None, Some e), false)
  | ATransportDone => (Ret (None, Some os_ErrClosed), false)
  end /\
  (forall e, (exchange_result messageId (AOpenErr e)).1.2 = true).
Proof.
  split; [|done]. destruct a as [e|e|e|m|e| |e]; try done.
  unfold UDP_Exchange. simpl. destruct m as [? ? ? tc]. simpl. by destruct tc.
Qed.
