(* ===== verification/UdpTransport.v ===== *)
(** * The UDP transport: [UDPTransport] of [resolve/transport/udp.go]

    The goroutines of a transport, step by step: the exchanges, with their
    local variables, the receive loop of every connection that was opened,
    and [Close].  Each step is what one goroutine does under one lock or in
    one call; what the network and the context do is part of the event, so
    that every interleaving is a list of events.  The receive loop looks a
    callback up and delivers to it in two steps: [settle] is the connection
    with the delivery that is under way, and it behaves as the connections
    of Udp. *)

From S2P Require Import Prelude GoStd Netip Meta Dns Addrs Dialer Tcp Udp.

(** ** State *)

(** Where [recvLoop] is: reading into a buffer of a given size, about to
    deliver a message to a callback, or at its end. *)
Inductive recv_loop :=
  | LRead (size : Z)
  | LDeliver (k : nat) (m : Msg)
  | LEnd.

(** An opened connection: its fields, the datagrams written to it, and its
    receive loop. *)
Record udpConn := MkUdpConn {
  uc_conn : dnsConnection;
  uc_sent : list (list Z);
  uc_loop : recv_loop;
}.

(** A call of [exchange]: its argument, the variables [conn] and [callback]
    (as indexes), and where it is; [XReturn] is about to run the deferred
    function. *)
Inductive xpc :=
  | XCheck
  | XOpen
  | XRegister (c : nat)
  | XWrite (c k : nat)
  | XSelect (c k : nat)
  | XReturn (c k : nat) (r : option Msg * bool * option err)
  | XDone (r : option Msg * bool * option err).
Record exchange := MkX { x_message : Msg; x_pc : xpc }.

(** [udpSize], [done] (the nil channel is [None], otherwise whether it is
    closed), [conn] (as an index into the connections opened so far), and
    the goroutines. *)
Record UDPState := MkUDP {
  ut_udpSize : Z;
  ut_done : option bool;
  ut_conn : option nat;
  ut_conns : list udpConn;
  ut_xs : list exchange;
}.

Definition maxUDPSize : Z := 1232%Z.

Definition NewUDP : UDPState := MkUDP maxUDPSize None None [] [].

(** ** The steps *)

(** [close(t.done); t.done = make(chan struct{})] *)
Definition renew_done (t : UDPState) : exec UDPState :=
  match ut_done t with
  | None => Panic "close of nil channel"
  | Some true => Panic "close of closed channel"
  | Some false =>
      Ret (MkUDP (ut_udpSize t) (Some false) (ut_conn t) (ut_conns t) (ut_xs t))
  end.

Definition UDP_Close (t : UDPState) : exec UDPState := renew_done t.

(** The start of [exchange]: [edns] is the UDP size of the query's OPT
    record, when it has one. *)
Definition check_edns (edns : option Z) (t : UDPState) : exec UDPState :=
  match edns with
  | Some udpSize =>
      if Z.ltb (ut_udpSize t) (i32 udpSize)
      then renew_done (MkUDP (i32 udpSize) (ut_done t) (ut_conn t) (ut_conns t) (ut_xs t))
      else Ret t
  | None => Ret t
  end.

(** The size of the buffer [recvLoop] reads into. *)
Definition loop_start (t : UDPState) : recv_loop := LRead (ut_udpSize t + 1).

(** [open]: the connection to use, for the result of the dial that is made
    when there is none or it is closed. *)
Definition UDP_open (dial : option err) (t : UDPState) : (nat + err) * UDPState :=
  let dialed :=
    match dial with
    | Some e => (inr e, t)
    | None =>
        let c := length (ut_conns t) in
        (inl c, MkUDP (ut_udpSize t) (ut_done t) (Some c)
                  (ut_conns t ++ [MkUdpConn conn_init [] (loop_start t)]) (ut_xs t))
    end in
  match ut_conn t with
  | Some c =>
      match ut_conns t !! c with
      | Some (MkUdpConn (MkConn _ _ _ None) _ _) => (inl c, t)
      | _ => dialed
      end
  | None => dialed
  end.

Definition set_pc (i : nat) (pc : xpc) (t : UDPState) : UDPState :=
  MkUDP (ut_udpSize t) (ut_done t) (ut_conn t) (ut_conns t)
    (alter (fun x => MkX (x_message x) pc) i (ut_xs t)).

Definition on_conn (c : nat) (f : udpConn -> udpConn) (t : UDPState) : UDPState :=
  MkUDP (ut_udpSize t) (ut_done t) (ut_conn t) (alter f c (ut_conns t)) (ut_xs t).

Definition uc_step (ev : conn_event) (u : udpConn) : udpConn :=
  MkUdpConn (conn_step ev (uc_conn u)) (uc_sent u) (uc_loop u).

Definition uc_write (raw : list Z) (u : udpConn) : udpConn :=
  MkUdpConn (uc_conn u) (uc_sent u ++ [raw]) (uc_loop u).

Definition uc_at (loop : recv_loop) (u : udpConn) : udpConn :=
  MkUdpConn (uc_conn u) (uc_sent u) loop.

(** What the [select] of [exchange] can see. *)
Inductive select_case := SelCallback | SelConn | SelTransport | SelCtx (e : err).

Inductive udp_event :=
  | UCall (message : Msg)                    (* [exchange] is called *)
  | UCheck (i : nat)                         (* its first critical section *)
  | UOpen (i : nat) (dial : option err)
  | URegister (i : nat)
  | UWrite (i : nat) (written : option err)  (* packing and writing *)
  | USelect (i : nat) (sel : select_case)
  | UUnregister (i : nat)                    (* the deferred function *)
  | URecv (c : nat) (read : list Z + err)    (* reading, decoding, looking up *)
  | UDeliver (c : nat)
  | UClose.

Section transport.
Context `{ExLib} `{DnsLib} `{DnsWire}.

(** The query that is sent, under the id of its callback. *)
Definition exMessage (message : Msg) (id : Z) : Msg := msg_with_Id id message.

(** Packing and writing the query of exchange [i]. *)
Definition x_write (i c k : nat) (message : Msg) (written : option err) (t : UDPState) : option UDPState :=
  u ← ut_conns t !! c;
  cb ← dc_made (uc_conn u) !! k;
  Some match msg_Pack (exMessage message (cb_id cb)) with
       | inr e => set_pc i (XReturn c k (exchange_result (m_Id message) (APackErr e))) t
       | inl raw =>
           match written with
           | Some e => set_pc i (XReturn c k (exchange_result (m_Id message) (AWriteErr e)))
                         (on_conn c (uc_step (CClose e)) t)
           | None => set_pc i (XSelect c k) (on_conn c (uc_write raw) t)
           end
       end.

(** The [select]: [None] when the case is not ready. *)
Definition x_select (i c k : nat) (message : Msg) (sel : select_case) (t : UDPState) : option UDPState :=
  u ← ut_conns t !! c;
  let return_ a := set_pc i (XReturn c k (exchange_result (m_Id message) a)) in
  match sel with
  | SelCallback =>
      cb ← dc_made (uc_conn u) !! k;
      m ← cb_message cb;
      Some (return_ (ACallback m) t)
  | SelConn => e ← dc_err (uc_conn u); Some (return_ (AConnDone e) t)
  | SelTransport =>
      match ut_done t with Some true => Some (return_ ATransportDone t) | _ => None end
  | SelCtx e => Some (return_ (ACtx e) (on_conn c (uc_step (CClose e)) t))
  end.

(** What the loop reads: at most [size] bytes of the datagram. *)
Definition datagram (size : Z) (bytes : list Z) : list Z := firstn (Z.to_nat size) bytes.

(** One round of [recvLoop] up to the lookup. *)
Definition loop_recv (c : nat) (read : list Z + err) (t : UDPState) : option UDPState :=
  u ← ut_conns t !! c;
  match uc_loop u with
  | LRead size =>
      Some match read with
           | inr e => on_conn c (fun u => uc_at LEnd (uc_step (CClose e) u)) t
           | inl bytes =>
               match msg_Unpack (datagram size bytes) with
               | inr e => on_conn c (fun u => uc_at LEnd (uc_step (CClose e) u)) t
               | inl m =>
                   match dc_callbacks (uc_conn u) !! m_Id m with
                   | None => on_conn c (uc_at (loop_start t)) t
                   | Some k => on_conn c (uc_at (LDeliver k m)) t
                   end
               end
           end
  | _ => None
  end.

(** Delivering under the callback's lock. *)
Definition deliver (k : nat) (m : Msg) (conn : dnsConnection) : dnsConnection :=
  MkConn (dc_queryId conn) (dc_callbacks conn)
    (alter (fun cb => match cb_message cb with
                      | None => MkCb (cb_id cb) (Some m) (cb_over cb)
                      | Some _ => cb
                      end) k (dc_made conn))
    (dc_err conn).

Definition loop_deliver (c : nat) (t : UDPState) : option UDPState :=
  u ← ut_conns t !! c;
  match uc_loop u with
  | LDeliver k m =>
      Some (on_conn c (fun u =>
        MkUdpConn (deliver k m (uc_conn u)) (uc_sent u) (loop_start t)) t)
  | _ => None
  end.

(** A step, [None] when it cannot be taken. *)
Definition udp_step (ev : udp_event) (t : UDPState) : option (exec UDPState) :=
  match ev with
  | UCall message =>
      Some (Ret (MkUDP (ut_udpSize t) (ut_done t) (ut_conn t) (ut_conns t)
                   (ut_xs t ++ [MkX message XCheck])))
  | UCheck i =>
      match ut_xs t !! i with
      | Some (MkX message XCheck) =>
          Some match check_edns (opt_UDPSize <$> dns_IsEdns0 message) t with
               | Ret t => Ret (set_pc i XOpen t)
               | Panic why => Panic why
               end
      | _ => None
      end
  | UOpen i dial =>
      match ut_xs t !! i with
      | Some (MkX message XOpen) =>
          Some (Ret match UDP_open dial t with
                    | (inl c, t) => set_pc i (XRegister c) t
                    | (inr e, t) =>
                        set_pc i (XDone (exchange_result (m_Id message) (AOpenErr e))) t
                    end)
      | _ => None
      end
  | URegister i =>
      match ut_xs t !! i with
      | Some (MkX _ (XRegister c)) =>
          u ← ut_conns t !! c;
          Some (Ret (set_pc i (XWrite c (length (dc_made (uc_conn u))))
            (on_conn c (uc_step CRegister) t)))
      | _ => None
      end
  | UWrite i written =>
      match ut_xs t !! i with
      | Some (MkX message (XWrite c k)) => Ret <$> x_write i c k message written t
      | _ => None
      end
  | USelect i sel =>
      match ut_xs t !! i with
      | Some (MkX message (XSelect c k)) => Ret <$> x_select i c k message sel t
      | _ => None
      end
  | UUnregister i =>
      match ut_xs t !! i with
      | Some (MkX _ (XReturn c k r)) =>
          Some (Ret (set_pc i (XDone r) (on_conn c (uc_step (CFinish k)) t)))
      | _ => None
      end
  | URecv c read => Ret <$> loop_recv c read t
  | UDeliver c => Ret <$> loop_deliver c t
  | UClose => Some (UDP_Close t)
  end.

(** The states after a list of events, none of which panicked. *)
Inductive udp_run : list udp_event -> UDPState -> Prop :=
  | udp_run_nil : udp_run [] NewUDP
  | udp_run_snoc evs t ev t' :
      udp_run evs t -> udp_step ev t = Some (Ret t') -> udp_run (evs ++ [ev]) t'.

End transport.

(** ** Lemmas *)

(** *** A connection whose loop is delivering *)

Definition settle (u : udpConn) : dnsConnection :=
  match uc_loop u with
  | LDeliver k m => deliver k m (uc_conn u)
  | _ => uc_conn u
  end.

(** A delivery changes no id, ends no exchange, and keeps the first message. *)
Lemma deliver_lookup k m conn j :
  dc_made (deliver k m conn) !! j =
  (fun cb => if decide (j = k) then
     match cb_message cb with None => MkCb (cb_id cb) (Some m) (cb_over cb) | Some _ => cb end
   else cb) <$> dc_made conn !! j.
Proof.
  unfold deliver. simpl. destruct (decide (j = k)) as [->|Hne].
  - by rewrite list_lookup_alter_eq.
  - rewrite list_lookup_alter_ne by done. by destruct (dc_made conn !! j).
Qed.

Lemma settle_lookup u j cb :
  dc_made (uc_conn u) !! j = Some cb ->
  exists cb', dc_made (settle u) !! j = Some cb' /\ cb_id cb' = cb_id cb /\
    cb_over cb' = cb_over cb /\ (forall m, cb_message cb = Some m -> cb' = cb).
Proof.
  intros Hj. unfold settle. destruct (uc_loop u) as [n|k m|]; [eauto| |eauto].
  rewrite deliver_lookup, Hj. simpl. destruct (decide (j = k)) as [->|]; [|eauto].
  destruct (cb_message cb) eqn:E; eauto. eexists. split; [done|]. by split_and!.
Qed.

Lemma settle_length u : length (dc_made (settle u)) = length (dc_made (uc_conn u)).
Proof. unfold settle. destruct (uc_loop u); [done| |done]. simpl. by rewrite length_alter. Qed.

Lemma settle_fields u :
  dc_callbacks (settle u) = dc_callbacks (uc_conn u) /\ dc_err (settle u) = dc_err (uc_conn u).
Proof. unfold settle. by destruct (uc_loop u). Qed.

(** A delivery under way commutes with what the exchanges do. *)
Lemma settle_step ev u :
  (forall m, ev <> CRecv m) ->
  (forall k m, uc_loop u = LDeliver k m -> k < length (dc_made (uc_conn u))) ->
  settle (uc_step ev u) = conn_step ev (settle u).
Proof.
  intros Hev Hk. unfold settle, uc_step. simpl.
  destruct (uc_loop u) as [n|k m|]; [done| |done]. specialize (Hk k m eq_refl).
  destruct (uc_conn u) as [q cbs made er]. simpl in Hk.
  destruct ev as [|m'|j|e]; [| by destruct (Hev m') | |done].
  - unfold deliver, conn_step, conn_register. simpl. rewrite length_alter.
    by rewrite alter_app_l by done.
  - unfold deliver, conn_step, conn_finish. simpl.
    set (f := fun cb => match cb_message cb with None => _ | Some _ => cb end).
    destruct (decide (j = k)) as [->|Hne].
    + rewrite list_lookup_alter_eq. destruct (made !! k) as [cb|] eqn:Ek; simpl; [|done].
      assert (cb_id (f cb) = cb_id cb) as -> by (unfold f; by destruct (cb_message cb)).
      f_equal. rewrite !list_alter_alter_eq. apply list_alter_ext; [|done].
      intros x _. by destruct x as [? [] ?].
    + rewrite list_lookup_alter_ne by done. destruct (made !! j) as [cb|] eqn:Ej; [|done].
      simpl. f_equal. by apply list_alter_alter_ne.
Qed.

Section transport_lemmas.
Context `{ExLib} `{DnsLib} `{DnsWire}.

(** [c] read a datagram that decodes to [m]. *)
Definition received (evs : list udp_event) (c : nat) (m : Msg) : Prop :=
  exists bytes, In (URecv c (inl bytes)) evs /\
    msg_Unpack (datagram (maxUDPSize + 1) bytes) = inl m.

(** *** What the steps do *)

(** The steps that can be taken while [done] is nil and [udpSize] is as
    [NewUDP] sets it, one constructor for each way a step can go. *)
Inductive effect (t : UDPState) : udp_event -> UDPState -> Prop :=
  | E_call q :
      effect t (UCall q) (MkUDP (ut_udpSize t) (ut_done t) (ut_conn t) (ut_conns t)
                            (ut_xs t ++ [MkX q XCheck]))
  | E_check i q
      (Hi : ut_xs t !! i = Some (MkX q XCheck)) :
      effect t (UCheck i) (set_pc i XOpen t)
  | E_open_old i q dial c u
      (Hi : ut_xs t !! i = Some (MkX q XOpen))
      (Hu : ut_conns t !! c = Some u) :
      effect t (UOpen i dial) (set_pc i (XRegister c) t)
  | E_open_new i q
      (Hi : ut_xs t !! i = Some (MkX q XOpen)) :
      effect t (UOpen i None) (set_pc i (XRegister (length (ut_conns t)))
        (MkUDP (ut_udpSize t) (ut_done t) (Some (length (ut_conns t)))
           (ut_conns t ++ [MkUdpConn conn_init [] (LRead (maxUDPSize + 1))]) (ut_xs t)))
  | E_open_error i q e
      (Hi : ut_xs t !! i = Some (MkX q XOpen)) :
      effect t (UOpen i (Some e)) (set_pc i (XDone (None, true, Some e)) t)
  | E_register i q c u
      (Hi : ut_xs t !! i = Some (MkX q (XRegister c)))
      (Hu : ut_conns t !! c = Some u) :
      effect t (URegister i) (set_pc i (XWrite c (length (dc_made (uc_conn u))))
        (on_conn c (uc_step CRegister) t))
  | E_pack_error i q c k u cb e wr
      (Hi : ut_xs t !! i = Some (MkX q (XWrite c k)))
      (Hu : ut_conns t !! c = Some u)
      (Hk : dc_made (uc_conn u) !! k = Some cb)
      (Hp : msg_Pack (exMessage q (cb_id cb)) = inr e) :
      effect t (UWrite i wr) (set_pc i (XReturn c k (None, false, Some e)) t)
  | E_write_error i q c k u cb raw e
      (Hi : ut_xs t !! i = Some (MkX q (XWrite c k)))
      (Hu : ut_conns t !! c = Some u)
      (Hk : dc_made (uc_conn u) !! k = Some cb)
      (Hp : msg_Pack (exMessage q (cb_id cb)) = inl raw) :
      effect t (UWrite i (Some e))
        (set_pc i (XReturn c k (None, ex_IsMulti e [EMSGSIZE], Some e))
           (on_conn c (uc_step (CClose e)) t))
  | E_write i q c k u cb raw
      (Hi : ut_xs t !! i = Some (MkX q (XWrite c k)))
      (Hu : ut_conns t !! c = Some u)
      (Hk : dc_made (uc_conn u) !! k = Some cb)
      (Hp : msg_Pack (exMessage q (cb_id cb)) = inl raw) :
      effect t (UWrite i None) (set_pc i (XSelect c k) (on_conn c (uc_write raw) t))
  | E_select i q c k u cb m
      (Hi : ut_xs t !! i = Some (MkX q (XSelect c k)))
      (Hu : ut_conns t !! c = Some u)
      (Hk : dc_made (uc_conn u) !! k = Some cb)
      (Hm : cb_message cb = Some m) :
      effect t (USelect i SelCallback)
        (set_pc i (XReturn c k (Some (msg_with_Id (m_Id q) m), m_Truncated m, None)) t)
  | E_select_conn i q c k u e
      (Hi : ut_xs t !! i = Some (MkX q (XSelect c k)))
      (Hu : ut_conns t !! c = Some u)
      (He : dc_err (uc_conn u) = Some e) :
      effect t (USelect i SelConn) (set_pc i (XReturn c k (None, false, Some e)) t)
  | E_select_ctx i q c k u e
      (Hi : ut_xs t !! i = Some (MkX q (XSelect c k)))
      (Hu : ut_conns t !! c = Some u) :
      effect t (USelect i (SelCtx e)) (set_pc i (XReturn c k (None, false, Some e))
        (on_conn c (uc_step (CClose e)) t))
  | E_unregister i q c k r
      (Hi : ut_xs t !! i = Some (MkX q (XReturn c k r))) :
      effect t (UUnregister i) (set_pc i (XDone r) (on_conn c (uc_step (CFinish k)) t))
  | E_recv_error c u size rd e
      (Hu : ut_conns t !! c = Some u)
      (Hl : uc_loop u = LRead size) :
      effect t (URecv c rd) (on_conn c (fun u => uc_at LEnd (uc_step (CClose e) u)) t)
  | E_recv_none c u size bytes m
      (Hu : ut_conns t !! c = Some u)
      (Hl : uc_loop u = LRead size)
      (Hm : msg_Unpack (datagram size bytes) = inl m)
      (Hk : dc_callbacks (uc_conn u) !! m_Id m = None) :
      effect t (URecv c (inl bytes)) (on_conn c (uc_at (LRead (maxUDPSize + 1))) t)
  | E_recv c u size bytes m k
      (Hu : ut_conns t !! c = Some u)
      (Hl : uc_loop u = LRead size)
      (Hm : msg_Unpack (datagram size bytes) = inl m)
      (Hk : dc_callbacks (uc_conn u) !! m_Id m = Some k) :
      effect t (URecv c (inl bytes)) (on_conn c (uc_at (LDeliver k m)) t)
  | E_deliver c u k m
      (Hu : ut_conns t !! c = Some u)
      (Hl : uc_loop u = LDeliver k m) :
      effect t (UDeliver c)
        (on_conn c (fun u => MkUdpConn (deliver k m (uc_conn u)) (uc_sent u)
                               (LRead (maxUDPSize + 1))) t).

Lemma udp_open_effect t i q dial :
  ut_udpSize t = maxUDPSize -> ut_xs t !! i = Some (MkX q XOpen) ->
  effect t (UOpen i dial)
    (match UDP_open dial t with
     | (inl c, t) => set_pc i (XRegister c) t
     | (inr e, t) => set_pc i (XDone (exchange_result (m_Id q) (AOpenErr e))) t
     end).
Proof.
  intros Hs Hi. unfold UDP_open, loop_start.
  destruct (ut_conn t) as [c|] eqn:Ec.
  - destruct (ut_conns t !! c) as [[[qi cbs made [e|]] sent l]|] eqn:Eu;
      try (destruct dial; [by eapply E_open_error|rewrite Hs at 2; by eapply E_open_new]).
    by eapply E_open_old.
  - destruct dial; [by eapply E_open_error|]. rewrite Hs at 2. by eapply E_open_new.
Qed.

Lemma udp_write_effect t i q c k wr t' :
  ut_xs t !! i = Some (MkX q (XWrite c k)) -> x_write i c k q wr t = Some t' ->
  effect t (UWrite i wr) t'.
Proof.
  intros Hi. unfold x_write. destruct (ut_conns t !! c) as [u|] eqn:Eu; [|done]. simpl.
  destruct (dc_made (uc_conn u) !! k) as [cb|] eqn:Ek; [|done]. simpl.
  destruct (msg_Pack _) as [raw|e] eqn:Ep; intros [= <-]; [|by eapply E_pack_error].
  destruct wr; [by eapply E_write_error|by eapply E_write].
Qed.

Lemma udp_select_effect t i q c k sel t' :
  ut_done t = None ->
  ut_xs t !! i = Some (MkX q (XSelect c k)) -> x_select i c k q sel t = Some t' ->
  effect t (USelect i sel) t'.
Proof.
  intros Hd Hi. unfold x_select. destruct (ut_conns t !! c) as [u|] eqn:Eu; [|done]. simpl.
  destruct sel; simpl.
  - destruct (dc_made (uc_conn u) !! k) as [cb|] eqn:Ek; [|done]. simpl.
    destruct (cb_message cb) eqn:Em; intros [= <-]. by eapply E_select.
  - destruct (dc_err (uc_conn u)) eqn:Ee; intros [= <-]. by eapply E_select_conn.
  - by rewrite Hd.
  - intros [= <-]. by eapply E_select_ctx.
Qed.

Lemma udp_recv_effect t c rd t' :
  ut_udpSize t = maxUDPSize -> loop_recv c rd t = Some t' -> effect t (URecv c rd) t'.
Proof.
  intros Hs. unfold loop_recv, loop_start. rewrite Hs.
  destruct (ut_conns t !! c) as [u|] eqn:Eu; [|done]. simpl.
  destruct (uc_loop u) as [size| |] eqn:El; [|done|done]. intros [= <-].
  destruct rd as [bytes|e]; [|by eapply E_recv_error].
  destruct (msg_Unpack _) as [m|e] eqn:Em; [|by eapply E_recv_error].
  destruct (dc_callbacks _ !! _) eqn:Ek; [by eapply E_recv|by eapply E_recv_none].
Qed.

Lemma udp_step_effect ev t t' :
  ut_done t = None -> ut_udpSize t = maxUDPSize -> udp_step ev t = Some (Ret t') ->
  effect t ev t'.
Proof.
  intros Hd Hsz Hs. destruct ev as [q|i|i dial|i|i wr|i sel|i|c rd|c|]; simpl in Hs;
    try (destruct (ut_xs t !! i) as [[q []]|] eqn:Ei; try done).
  - simplify_eq. apply E_call.
  - unfold check_edns, renew_done in Hs. destruct (_ <$> _) as [size|]; simpl in Hs;
      [destruct (Z.ltb _ _); simpl in Hs; [by rewrite Hd in Hs|]|];
      simplify_eq; by eapply E_check.
  - simplify_eq. by eapply udp_open_effect.
  - destruct (ut_conns t !! c) as [u|] eqn:Eu; simplify_eq/=. by eapply E_register.
  - destruct (x_write _ _ _ _ _ _) eqn:Ex; simplify_eq/=. by eapply udp_write_effect.
  - destruct (x_select _ _ _ _ _ _) eqn:Ex; simplify_eq/=. by eapply udp_select_effect.
  - simplify_eq/=. by eapply E_unregister.
  - destruct (loop_recv _ _ _) eqn:Ex; simplify_eq/=. by apply udp_recv_effect.
  - unfold loop_deliver, loop_start in Hs. rewrite Hsz in Hs.
    destruct (ut_conns t !! c) as [u|] eqn:Eu; [|done]. simpl in Hs.
    destruct (uc_loop u) as [|k m|] eqn:El; simplify_eq/=. by eapply E_deliver.
  - unfold UDP_Close, renew_done in Hs. by rewrite Hd in Hs.
Qed.

Lemma udp_run_fields evs t :
  udp_run evs t -> ut_done t = None /\ ut_udpSize t = maxUDPSize.
Proof.
  induction 1 as [|evs t ev t' _ [IHd IHs] Hs]; [done|].
  apply udp_step_effect in Hs; [|done|done]. by destruct Hs.
Qed.

(** Induction over a run with the effects of its steps. *)
Lemma udp_run_ind' (P : list udp_event -> UDPState -> Prop) :
  P [] NewUDP ->
  (forall evs t ev t', udp_run evs t -> P evs t -> effect t ev t' -> P (evs ++ [ev]) t') ->
  forall evs t, udp_run evs t -> P evs t.
Proof.
  intros Hnil Hsnoc evs t. induction 1 as [|evs t ev t' Hr IH Hs]; [done|].
  destruct (udp_run_fields _ _ Hr). eapply Hsnoc; [done..|]. by apply udp_step_effect.
Qed.

End transport_lemmas.

(** *** The connections of a run are those of Udp *)

Section conns.
Context `{ExLib} `{DnsLib} `{DnsWire}.

Lemma on_conn_lookup c f t c' :
  ut_conns (on_conn c f t) !! c' = (if decide (c' = c) then f else id) <$> ut_conns t !! c'.
Proof.
  simpl. destruct (decide (c' = c)) as [->|Hne].
  - by rewrite list_lookup_alter_eq.
  - rewrite list_lookup_alter_ne by done. by destruct (ut_conns t !! c').
Qed.

(** The connection, with the delivery under way, has behaved as [log] says;
    the messages of the log were read from it; a loop that ended closed it. *)
Record conn_ok (evs : list udp_event) (c : nat) (u : udpConn) : Prop := {
  co_log : exists log, settle u = conn_run log conn_init /\
    forall m, In (CRecv m) log -> received evs c m;
  co_deliver : forall k m, uc_loop u = LDeliver k m -> k < length (dc_made (uc_conn u));
  co_read : forall size, uc_loop u = LRead size -> size = (maxUDPSize + 1)%Z;
  co_end : uc_loop u = LEnd -> is_Some (dc_err (uc_conn u));
}.

Definition conns_ok (evs : list udp_event) (t : UDPState) : Prop :=
  forall c u, ut_conns t !! c = Some u -> conn_ok evs c u.

Lemma received_snoc evs ev c m : received evs c m -> received (evs ++ [ev]) c m.
Proof. intros (bytes & Hin & Hm). exists bytes. rewrite in_app_iff. auto. Qed.

Lemma conn_ok_snoc evs ev c u : conn_ok evs c u -> conn_ok (evs ++ [ev]) c u.
Proof.
  intros [(log & Hlog & Hmsg) H2' H3' H4']. split; try done. exists log. split; [done|].
  intros m Hin. by apply received_snoc, Hmsg.
Qed.

Lemma conns_ok_on evs ev c f t :
  conns_ok evs t ->
  (forall u, ut_conns t !! c = Some u -> conn_ok evs c u -> conn_ok (evs ++ [ev]) c (f u)) ->
  conns_ok (evs ++ [ev]) (on_conn c f t).
Proof.
  intros Ht Hf c' u'. rewrite on_conn_lookup. destruct (ut_conns t !! c') as [u|] eqn:Eu; [|done].
  simpl. intros [= <-]. pose proof (Ht _ _ Eu) as Hu.
  destruct (decide (c' = c)) as [->|]; [by apply Hf|by apply conn_ok_snoc].
Qed.

Lemma step_made_length ev conn :
  length (dc_made conn) <= length (dc_made (conn_step ev conn)).
Proof.
  destruct ev as [|m|k|e]; simpl; [rewrite length_app; lia| | |done].
  - unfold conn_recv. destruct (dc_callbacks conn !! m_Id m); [|done]. simpl. by rewrite length_alter.
  - unfold conn_finish. destruct (dc_made conn !! k); [|done]. simpl. by rewrite length_alter.
Qed.

Lemma step_err ev conn : is_Some (dc_err conn) -> is_Some (dc_err (conn_step ev conn)).
Proof.
  intros He. destruct ev as [|m|k|e]; simpl; [done| | |].
  - unfold conn_recv. by destruct (dc_callbacks conn !! m_Id m).
  - unfold conn_finish. by destruct (dc_made conn !! k).
  - by destruct (dc_err conn).
Qed.

Lemma conn_ok_step evs c ev u :
  (forall m, ev <> CRecv m) -> conn_ok evs c u -> conn_ok evs c (uc_step ev u).
Proof.
  intros Hev [(log & Hlog & Hmsg) H2' H3' H4']. split.
  - exists (log ++ [ev]). rewrite conn_run_snoc, <- Hlog. split; [by apply settle_step|].
    intros m [Hin|[He|[]]]%in_app_iff; [by apply Hmsg|]. by destruct (Hev m).
  - intros k m Hk. eapply Nat.lt_le_trans; [by eapply H2'|apply step_made_length].
  - done.
  - intros He. apply step_err, H4', He.
Qed.

(** The loop may move when no delivery is under way. *)
Lemma conn_ok_at evs c u size loop :
  uc_loop u = LRead size -> loop = LRead (maxUDPSize + 1) \/ (loop = LEnd /\ is_Some (dc_err (uc_conn u))) ->
  conn_ok evs c u -> conn_ok evs c (uc_at loop u).
Proof.
  intros Hu Hl [Ha Hb Hc Hd]. unfold settle in Ha. rewrite Hu in Ha.
  destruct Hl as [->|[-> He]]; split; simpl; try done; by intros ? [= <-].
Qed.

Lemma conns_ok_run evs t : udp_run evs t -> conns_ok evs t.
Proof.
  revert evs t. apply udp_run_ind'; [done|]. intros evs t ev t' Hr IH Heff.
  assert (conns_ok (evs ++ [ev]) t) as IH' by (intros c u Hu; by apply conn_ok_snoc, IH).
  destruct Heff; try exact IH'; try (apply (conns_ok_on evs); [exact IH|intros u' Hu' Hok];
    try (apply conn_ok_snoc, conn_ok_step; [done|exact Hok])).
  - intros c u. simpl. intros [Hu|[Hc Hu]]%lookup_app_Some; [by apply IH'|].
    destruct (c - length (ut_conns t)) as [|n]; [|by destruct n]. simplify_eq/=. split; try done.
    + exists []. by split.
    + by intros size [= <-].
  - apply conn_ok_snoc. by destruct Hok; split.
  - apply conn_ok_snoc. simplify_eq. eapply conn_ok_at; [done| |by apply conn_ok_step].
    right. split; [done|]. simpl. by destruct (dc_err (uc_conn u)).
  - apply conn_ok_snoc. simplify_eq. eapply conn_ok_at; [done|by left|done].
  - simplify_eq. destruct Hok as [(log & Hlog & Hmsg) H2' H3' H4'].
    assert (uc_conn u = conn_run log conn_init) as Hc by (rewrite <- Hlog; unfold settle; by rewrite Hl).
    pose proof (conn_inv_run log) as Hinv. rewrite <- Hc in Hinv.
    destruct (cv_table _ _ Hinv _ _ Hk) as (cb & Hcb & _).
    split; try done.
    + exists (log ++ [CRecv m]). rewrite conn_run_snoc, <- Hc. split.
      * unfold settle. simpl. unfold conn_recv. by rewrite Hk.
      * intros m' [Hin|[[= <-]|[]]]%in_app_iff; [by apply received_snoc, Hmsg|].
        exists bytes. rewrite in_app_iff. simpl. rewrite (H3' _ Hl) in Hm. auto.
    + simpl. intros k' m' [= <- <-]. by eapply lookup_lt_Some.
  - apply conn_ok_snoc. simplify_eq. destruct Hok as [(log & Hlog & Hmsg) H2' H3' H4']. split; try done.
    + exists log. split; [|done]. rewrite <- Hlog. unfold settle. by rewrite Hl.
    + by intros size [= <-].
Qed.

End conns.

(** *** The exchanges and their callbacks *)

Section exchanges.
Context `{ExLib} `{DnsLib} `{DnsWire}.

(** The callback an exchange has registered, until its deferred function has
    run. *)
Definition x_slot (pc : xpc) : option (nat * nat) :=
  match pc with
  | XWrite c k | XSelect c k | XReturn c k _ => Some (c, k)
  | _ => None
  end.

Definition slot_of (t : UDPState) (i : nat) : option (nat * nat) :=
  x ← ut_xs t !! i; x_slot (x_pc x).

(** Whether the exchange of a callback is over. *)
Definition over_at (t : UDPState) (c k : nat) : option bool :=
  u ← ut_conns t !! c; cb_over <$> dc_made (uc_conn u) !! k.

Lemma set_pc_lookup i pc t j :
  ut_xs (set_pc i pc t) !! j =
  (if decide (j = i) then fun x => MkX (x_message x) pc else id) <$> ut_xs t !! j.
Proof.
  simpl. destruct (decide (j = i)) as [->|Hne].
  - by rewrite list_lookup_alter_eq.
  - rewrite list_lookup_alter_ne by done. by destruct (ut_xs t !! j).
Qed.

Lemma set_pc_slot i x pc t j :
  ut_xs t !! i = Some x ->
  slot_of (set_pc i pc t) j = if decide (j = i) then x_slot pc else slot_of t j.
Proof.
  intros Hi. unfold slot_of. rewrite set_pc_lookup. destruct (decide (j = i)) as [->|].
  - by rewrite Hi.
  - by destruct (ut_xs t !! j).
Qed.

Lemma on_conn_over c f t :
  (forall u k, cb_over <$> dc_made (uc_conn (f u)) !! k = cb_over <$> dc_made (uc_conn u) !! k) ->
  forall c' k, over_at (on_conn c f t) c' k = over_at t c' k.
Proof.
  intros Hf c' k. unfold over_at. rewrite on_conn_lookup. destruct (ut_conns t !! c') as [u|]; [|done].
  simpl. destruct (decide (c' = c)); [apply Hf|done].
Qed.

Lemma deliver_over j m conn k :
  cb_over <$> dc_made (deliver j m conn) !! k = cb_over <$> dc_made conn !! k.
Proof.
  rewrite deliver_lookup. destruct (dc_made conn !! k) as [cb|]; [|done]. simpl.
  destruct (decide _); [|done]. by destruct (cb_message cb).
Qed.

(** How a step moves the callbacks: one is made by its exchange, or given up
    by it, or none changes hands. *)
Inductive slot_move (t t' : UDPState) : Prop :=
  | slot_same
      (Ho : forall c k, over_at t' c k = over_at t c k) (Hs : forall j, slot_of t' j = slot_of t j)
  | slot_new i c n
      (Hn : over_at t c n = None) (Hi : slot_of t i = None)
      (Ho : forall c' k, over_at t' c' k =
         if decide (c' = c /\ k = n) then Some false else over_at t c' k)
      (Hs : forall j, slot_of t' j = if decide (j = i) then Some (c, n) else slot_of t j)
  | slot_end i c k
      (Hi : slot_of t i = Some (c, k))
      (Ho : forall c' k', over_at t' c' k' =
         if decide (c' = c /\ k' = k) then (fun _ => true) <$> over_at t c' k' else over_at t c' k')
      (Hs : forall j, slot_of t' j = if decide (j = i) then None else slot_of t j).

Lemma slot_pc i x pc t t' :
  ut_xs t !! i = Some x -> x_slot pc = x_slot (x_pc x) -> ut_xs t' = ut_xs t ->
  (forall c k, over_at t' c k = over_at t c k) -> slot_move t (set_pc i pc t').
Proof.
  intros Hi Hpc Hxs Ho. apply slot_same; [exact Ho|]. intros j.
  rewrite (set_pc_slot i x) by congruence. unfold slot_of. rewrite Hxs.
  destruct (decide (j = i)) as [->|]; [|done]. by rewrite Hi.
Qed.

Lemma register_over c u t :
  ut_conns t !! c = Some u -> forall c' k,
  over_at (on_conn c (uc_step CRegister) t) c' k =
  if decide (c' = c /\ k = length (dc_made (uc_conn u))) then Some false else over_at t c' k.
Proof.
  intros Hu c' k. unfold over_at. rewrite on_conn_lookup.
  destruct (decide (c' = c)) as [->|Hne]; [|rewrite decide_False by tauto; by destruct (ut_conns t !! c')].
  rewrite Hu. simpl. destruct (decide (c = c /\ k = length (dc_made (uc_conn u)))) as [[_ ->]|Hk].
  - by rewrite list_lookup_middle.
  - destruct (decide (k < length (dc_made (uc_conn u)))); [by rewrite lookup_app_l|].
    rewrite !lookup_ge_None_2; [done|lia|rewrite length_app; simpl; lia].
Qed.

Lemma finish_over c k t c' k' :
  over_at (on_conn c (uc_step (CFinish k)) t) c' k' =
  if decide (c' = c /\ k' = k) then (fun _ => true) <$> over_at t c' k' else over_at t c' k'.
Proof.
  unfold over_at. rewrite on_conn_lookup.
  destruct (decide (c' = c)) as [->|Hne]; [|rewrite decide_False by tauto; by destruct (ut_conns t !! c')].
  destruct (ut_conns t !! c) as [u|]; [|by destruct (decide _)].
  simpl. rewrite finish_mailboxes, list_lookup_imap.
  destruct (dc_made (uc_conn u) !! k') as [cb|]; [|by destruct (decide _)]. simpl.
  destruct (decide (k = k')) as [->|Hne]; [by rewrite decide_True|].
  rewrite decide_False; [done|]. intros [_ ->]. done.
Qed.

Lemma effect_slot_move t ev t' : effect t ev t' -> slot_move t t'.
Proof.
  destruct 1; try (by eapply slot_pc); try (eapply slot_pc; [done..|by apply on_conn_over]);
    try (apply slot_same; [by apply on_conn_over|done]).
  - apply slot_same; [done|]. intros j. unfold slot_of. simpl.
    destruct (decide (j < length (ut_xs t))); [by rewrite lookup_app_l|].
    rewrite (lookup_ge_None_2 (ut_xs t) j) by lia. rewrite lookup_app_r by lia.
    by destruct (j - length (ut_xs t)) as [|[|]].
  - eapply slot_pc; [done..|]. intros c k. unfold over_at. simpl.
    destruct (decide (c < length (ut_conns t))); [by rewrite lookup_app_l|].
    rewrite (lookup_ge_None_2 (ut_conns t) c) by lia. rewrite lookup_app_r by lia.
    by destruct (c - length (ut_conns t)) as [|[|]].
  - eapply slot_new.
    + unfold over_at. rewrite Hu. simpl. by rewrite lookup_ge_None_2.
    + unfold slot_of. by rewrite Hi.
    + by apply register_over.
    + intros j. by rewrite (set_pc_slot i (MkX q (XRegister c))).
  - eapply slot_end.
    + unfold slot_of. by rewrite Hi.
    + apply finish_over.
    + intros j. by rewrite (set_pc_slot i (MkX q (XReturn c k r))).
  - apply slot_same; [|done]. apply on_conn_over. intros u' k'. simpl. apply deliver_over.
Qed.

(** Every callback whose exchange is not over belongs to one exchange. *)
Definition slots_ok (t : UDPState) : Prop :=
  (forall i c k, slot_of t i = Some (c, k) -> over_at t c k = Some false) /\
  (forall c k, over_at t c k = Some false -> exists i, slot_of t i = Some (c, k)) /\
  (forall i j s, slot_of t i = Some s -> slot_of t j = Some s -> i = j).

Lemma slots_ok_move t t' : slots_ok t -> slot_move t t' -> slots_ok t'.
Proof.
  intros (Hown & Hopen & Hone) [Ho Hs|i c n Hn Hi Ho Hs|i c k Hi Ho Hs]; split_and!.
  - intros j c k. rewrite Ho, Hs. apply Hown.
  - intros c k. rewrite Ho. intros (j & Hj)%Hopen. exists j. by rewrite Hs.
  - intros j j' s. rewrite !Hs. apply Hone.
  - intros j c' k. rewrite Ho, Hs. destruct (decide (j = i)) as [->|].
    + intros [= <- <-]. by rewrite decide_True.
    + intros Hj%Hown. destruct (decide _); [done|exact Hj].
  - intros c' k. rewrite Ho. destruct (decide _) as [[-> ->]|].
    + intros _. exists i. by rewrite Hs, decide_True.
    + intros (j & Hj)%Hopen. exists j. rewrite Hs, decide_False; [done|]. congruence.
  - intros j j' s. rewrite !Hs. destruct (decide (j = i)), (decide (j' = i)); try congruence.
    + intros [= <-] Hj%Hown. congruence.
    + intros Hj [= <-]. apply Hown in Hj. congruence.
    + apply Hone.
  - intros j c' k'. rewrite Ho, Hs. destruct (decide (j = i)) as [->|Hne]; [done|]. intros Hj.
    rewrite decide_False; [by eapply Hown|]. intros [-> ->]. by apply Hne, (Hone _ _ _ Hj Hi).
  - intros c' k'. rewrite Ho. destruct (decide _) as [|Hne].
    + by destruct (over_at t c' k').
    + intros (j & Hj)%Hopen. exists j. rewrite Hs, decide_False; [done|]. intros ->. apply Hne.
      by simplify_eq.
  - intros j j' s. rewrite !Hs. destruct (decide (j = i)), (decide (j' = i)); try done. apply Hone.
Qed.

Lemma slots_ok_run evs t : udp_run evs t -> slots_ok t.
Proof.
  revert evs t. apply (udp_run_ind' (fun _ => slots_ok)).
  - split_and!; [done| |done]. intros c k. by destruct c.
  - intros evs t ev t' _ IH He%effect_slot_move. by eapply slots_ok_move.
Qed.

(** An entry of a table belongs to an exchange that has not ended. *)
Lemma table_owner evs t c u id k :
  udp_run evs t -> ut_conns t !! c = Some u -> dc_callbacks (uc_conn u) !! id = Some k ->
  exists i, slot_of t i = Some (c, k).
Proof.
  intros Hr Hu Hk. apply (slots_ok_run _ _ Hr). unfold over_at. rewrite Hu. simpl.
  destruct (co_log _ _ _ (conns_ok_run _ _ Hr _ _ Hu)) as (log & Hl & _).
  destruct (settle_fields u) as [Hcb _]. rewrite <- Hcb, Hl in Hk.
  destruct (cv_table _ _ (conn_inv_run log) _ _ Hk) as (cb & Hm & _).
  pose proof (table_waiting _ _ _ _ Hk Hm) as Ho. rewrite <- Hl in Hm.
  assert (k < length (dc_made (uc_conn u))) as Hlt
    by (rewrite <- settle_length; by eapply lookup_lt_Some).
  destruct (lookup_lt_is_Some_2 _ _ Hlt) as [cb' Hcb']. rewrite Hcb'. simpl.
  destruct (settle_lookup _ _ _ Hcb') as (cb'' & ? & _ & ? & _). congruence.
Qed.

End exchanges.

(** *** What the exchanges know *)

Section answers.
Context `{ExLib} `{DnsLib} `{DnsWire}.

(** The query was written to [c] under the id of callback [k]. *)
Definition query_sent (t : UDPState) (q : Msg) (c k : nat) : Prop :=
  exists u raw, ut_conns t !! c = Some u /\
    msg_Pack (exMessage q (u16 (Z.of_nat k + 1))) = inl raw /\ raw ∈ uc_sent u.

(** A result is an error, or a message received for the query, with its id. *)
Definition result_ok (evs : list udp_event) (t : UDPState) (q : Msg) (c k : nat)
    (r : option Msg * bool * option err) : Prop :=
  match r with
  | (_, _, Some e) => r.1.1 = None
  | (None, _, None) => False
  | (Some m', truncated, None) => query_sent t q c k /\ exists m, received evs c m /\
      m_Id m = u16 (Z.of_nat k + 1) /\ m' = msg_with_Id (m_Id q) m /\ truncated = m_Truncated m
  end.

Definition pc_ok (evs : list udp_event) (t : UDPState) (q : Msg) (pc : xpc) : Prop :=
  match pc with
  | XRegister c => is_Some (ut_conns t !! c)
  | XSelect c k => query_sent t q c k
  | XReturn c k r => result_ok evs t q c k r
  | XDone r => exists c k, result_ok evs t q c k r
  | _ => True
  end.

(** No step takes back a connection or what was written to it. *)
Lemma effect_sent t ev t' c u :
  effect t ev t' -> ut_conns t !! c = Some u ->
  exists u', ut_conns t' !! c = Some u' /\ uc_sent u ⊆ uc_sent u'.
Proof.
  intros He Hu. destruct He; try (by exists u);
    try (cbn [set_pc ut_conns]; rewrite on_conn_lookup, Hu; eexists; split; [done|];
         by destruct (decide _)).
  - exists u. split; [|done]. simpl. by apply lookup_app_l_Some.
  - cbn [set_pc ut_conns]. rewrite on_conn_lookup, Hu. eexists. split; [done|].
    destruct (decide _); [|done]. simpl. set_solver.
Qed.

Lemma query_sent_effect t ev t' q c k : effect t ev t' -> query_sent t q c k -> query_sent t' q c k.
Proof.
  intros He (u & raw & Hu & Hp & Hin). destruct (effect_sent _ _ _ _ _ He Hu) as (u' & ? & Hsub).
  exists u', raw. split_and!; [done..|]. by apply Hsub.
Qed.

Lemma pc_ok_effect evs t ev t' q pc :
  effect t ev t' -> pc_ok evs t q pc -> pc_ok (evs ++ [ev]) t' q pc.
Proof.
  intros He. assert (forall c k r, result_ok evs t q c k r -> result_ok (evs ++ [ev]) t' q c k r) as Hr.
  { intros c k [[[m'|] tr] [e|]]; simpl; try done. intros [Hq (m & Hm & ?)].
    split; [by eapply query_sent_effect|]. exists m. split; [by apply received_snoc|done]. }
  destruct pc; simpl; try done.
  - intros [u Hu]. destruct (effect_sent _ _ _ _ _ He Hu) as (? & -> & _). done.
  - intros Hq. by eapply query_sent_effect.
  - apply Hr.
  - intros (c & k & ?). eauto.
Qed.

(** The callbacks of a connection carry their ids, and messages it read. *)
Lemma callback_facts evs t c u k cb :
  udp_run evs t -> ut_conns t !! c = Some u -> dc_made (uc_conn u) !! k = Some cb ->
  cb_id cb = u16 (Z.of_nat k + 1) /\
  forall m, cb_message cb = Some m -> m_Id m = u16 (Z.of_nat k + 1) /\ received evs c m.
Proof.
  intros Hr Hu Hk. destruct (co_log _ _ _ (conns_ok_run _ _ Hr _ _ Hu)) as (log & Hl & Hlog).
  destruct (settle_lookup _ _ _ Hk) as (cb' & Hk' & Hid & _ & Hm'). rewrite Hl in Hk'.
  destruct (conn_inv_run log) as [_ _ Hids Hmsg _].
  assert (cb_id cb = u16 (Z.of_nat k + 1)) as Hi by (rewrite <- Hid; by apply Hids).
  split; [done|]. intros m Hm. rewrite (Hm' _ Hm) in Hk'. destruct (Hmsg _ _ _ Hk' Hm).
  split; [congruence|]. by apply Hlog.
Qed.

Definition xs_ok (evs : list udp_event) (t : UDPState) : Prop :=
  forall i x, ut_xs t !! i = Some x -> pc_ok evs t (x_message x) (x_pc x).

(** A step that moves one exchange. *)
Lemma xs_ok_set evs t ev t1 i pc :
  effect t ev (set_pc i pc t1) -> ut_xs t1 = ut_xs t -> xs_ok evs t ->
  (forall x, ut_xs t !! i = Some x -> pc_ok (evs ++ [ev]) (set_pc i pc t1) (x_message x) pc) ->
  xs_ok (evs ++ [ev]) (set_pc i pc t1).
Proof.
  intros He Hxs Hok Hi j x. rewrite set_pc_lookup, Hxs.
  destruct (ut_xs t !! j) as [y|] eqn:Ej; [|done]. simpl. intros [= <-].
  destruct (decide (j = i)) as [->|]; simpl; [exact (Hi y Ej)|]. eapply pc_ok_effect; [done|].
  exact (Hok j y Ej).
Qed.

Lemma xs_ok_same evs t ev t' : effect t ev t' -> ut_xs t' = ut_xs t -> xs_ok evs t -> xs_ok (evs ++ [ev]) t'.
Proof. intros He Hxs Hok i x. rewrite Hxs. intros Hi. eapply pc_ok_effect; [done|]. exact (Hok i x Hi). Qed.

Lemma xs_ok_run evs t : udp_run evs t -> xs_ok evs t.
Proof.
  revert evs t. apply udp_run_ind'; [done|]. intros evs t ev t' Hr IH Heff. pose proof Heff as Heff'.
  destruct Heff; try (by eapply xs_ok_same);
    try (eapply xs_ok_set; [done..|]; intros x Hx; try exact I;
         rewrite Hi in Hx; injection Hx as <-; simpl).
  - intros i x. simpl. intros [Hi|[_ Hx]]%lookup_app_Some;
      [eapply pc_ok_effect; [exact Heff'|exact (IH i x Hi)]|].
    destruct (i - length (ut_xs t)) as [|n]; [|by destruct n]. by simplify_eq/=.
  - by exists u.
  - rewrite list_lookup_middle by done. done.
  - by exists 0, 0.
  - done.
  - done.
  - destruct (callback_facts _ _ _ _ _ _ Hr Hu Hk) as [Hid _]. rewrite Hid in Hp.
    exists (uc_write raw u), raw. split; [|split; [done|set_solver]].
    simpl. by rewrite list_lookup_alter_eq, Hu.
  - destruct (callback_facts _ _ _ _ _ _ Hr Hu Hk) as [_ Hms]. destruct (Hms _ Hm).
    split; [|exists m; split; [by apply received_snoc|done]].
    exact (IH _ _ Hi).
  - done.
  - done.
  - exists c, k. apply (pc_ok_effect _ _ _ _ q (XReturn c k r) Heff'). exact (IH _ _ Hi).
Qed.

End answers.

(** ** Properties *)

Section properties.
Context `{ExLib} `{DnsLib} `{DnsWire}.

(** C1: The answer of an exchange.  However the goroutines of a transport
    interleave, an [Exchange] that returns either returns an error, or
    has written its query, under an id of its own, to a connection from which
    a datagram was then read that decodes to a message with this id; it
    returns this message with the id of the query, or asks over TCP when the
    message is truncated. *)
Theorem udp_exchange_answer evs t i q r tcp :
  udp_run evs t -> ut_xs t !! i = Some (MkX q (XDone r)) ->
  (exists e, after_exchange r tcp = (Ret (None, Some e), false)) \/
  exists c k u raw bytes m,
    ut_conns t !! c = Some u /\ msg_Pack (exMessage q (m_Id m)) = inl raw /\ raw ∈ uc_sent u /\
    In (URecv c (inl bytes)) evs /\ msg_Unpack (datagram (maxUDPSize + 1) bytes) = inl m /\
    m_Id m = u16 (Z.of_nat k + 1) /\
    after_exchange r tcp =
      if m_Truncated m then (Ret tcp, true)
      else (Ret (Some (msg_with_Id (m_Id q) m), None), false).
Proof.
  intros Hr Hi. destruct (xs_ok_run _ _ Hr _ _ Hi) as (c & k & Hres). simpl in Hres.
  destruct r as [[[m'|] tr] [e|]]; try done; [|by left; exists e].
  destruct Hres as [(u & raw & Hu & Hp & Hin) (m & (bytes & Hb & Hd) & Hid & -> & ->)].
  right. exists c, k, u, raw, bytes, m. rewrite Hid. split_and!; try done.
  destruct m as [? ? ? tc]. simpl. by destruct tc.
Qed.

(** C18: Callbacks are neither shared nor left behind.  In every reachable
    state a callback belongs to at most one exchange, the entries of a
    connection's table are those of exchanges that have not ended, and once
    all exchanges of the transport have ended every table is empty, whether
    they ended with an answer or in an error. *)
Theorem udp_no_leak evs t :
  udp_run evs t ->
  (forall i j s, slot_of t i = Some s -> slot_of t j = Some s -> i = j) /\
  (forall c u id k, ut_conns t !! c = Some u -> dc_callbacks (uc_conn u) !! id = Some k ->
     exists i, slot_of t i = Some (c, k)) /\
  ((forall x, In x (ut_xs t) -> exists r, x_pc x = XDone r) ->
     forall c u, ut_conns t !! c = Some u -> dc_callbacks (uc_conn u) = ∅).
Proof.
  intros Hr. split_and!.
  - apply (slots_ok_run _ _ Hr).
  - intros c u id k. by eapply table_owner.
  - intros Hx c u Hu. apply map_empty. intros id.
    destruct (dc_callbacks (uc_conn u) !! id) as [k|] eqn:Ek; [|done].
    destruct (table_owner _ _ _ _ _ _ Hr Hu Ek) as [i Hi]. unfold slot_of in Hi.
    destruct (ut_xs t !! i) as [x|] eqn:Ei; [|done].
    destruct (Hx x) as [r Hpc]; [by eapply list_elem_of_In, list_elem_of_lookup_2|].
    simpl in Hi. by rewrite Hpc in Hi.
Qed.

(** The variables of an exchange that is in progress refer to a connection
    and to a callback of it. *)
Lemma slot_lookup evs t i c k :
  udp_run evs t -> slot_of t i = Some (c, k) ->
  exists u cb, ut_conns t !! c = Some u /\ dc_made (uc_conn u) !! k = Some cb /\ cb_over cb = false.
Proof.
  intros Hr Hi. apply (proj1 (slots_ok_run _ _ Hr)) in Hi. unfold over_at in Hi.
  destruct (ut_conns t !! c) as [u|] eqn:Eu; [|done]. simpl in Hi.
  destruct (dc_made (uc_conn u) !! k) as [cb|] eqn:Ek; [|done]. simpl in Hi. injection Hi as Hi.
  by exists u, cb.
Qed.

(** The step is possible, and does not panic. *)
Definition can (t : UDPState) (ev : udp_event) : Prop := exists t', udp_step ev t = Some (Ret t').

(** An exchange is never stuck.  In every reachable state an exchange
    that has not ended can take its next step whatever the dial or the write
    does; one that waits in its [select] ends when its context does, and
    otherwise the receive loop of its connection can take a step, whatever
    it reads, or has ended, and then the [select] sees the closed
    connection. *)
Theorem udp_exchange_progress evs t i q pc :
  udp_run evs t -> ut_xs t !! i = Some (MkX q pc) ->
  match pc with
  | XCheck => is_Some (udp_step (UCheck i) t)
  | XOpen => forall dial, can t (UOpen i dial)
  | XRegister _ => can t (URegister i)
  | XWrite _ _ => forall written, can t (UWrite i written)
  | XSelect c _ =>
      (forall e, can t (USelect i (SelCtx e))) /\
      exists u, ut_conns t !! c = Some u /\
        match uc_loop u with
        | LRead _ => forall read, can t (URecv c read)
        | LDeliver _ _ => can t (UDeliver c)
        | LEnd => can t (USelect i SelConn)
        end
  | XReturn _ _ _ => can t (UUnregister i)
  | XDone _ => True
  end.
Proof.
  intros Hr Hi. unfold can. pose proof (xs_ok_run _ _ Hr _ _ Hi) as Hpc. simpl in Hpc.
  assert (slot_of t i = x_slot pc) as Hs by (unfold slot_of; by rewrite Hi).
  destruct pc as [| |c|c k|c k|c k r|r]; simpl udp_step; rewrite ?Hi; try (by eexists).
  - destruct Hpc as [u Hu]. rewrite Hu. by eexists.
  - intros wr. destruct (slot_lookup _ _ _ _ _ Hr Hs) as (u & cb & Hu & Hk & _).
    unfold x_write. rewrite Hu. simpl. rewrite Hk. by eexists.
  - destruct (slot_lookup _ _ _ _ _ Hr Hs) as (u & cb & Hu & Hk & _). split.
    + intros e. unfold x_select. rewrite Hu. by eexists.
    + exists u. split; [done|]. destruct (uc_loop u) as [size|j m|] eqn:El.
      * intros rd. unfold loop_recv. rewrite Hu. simpl. rewrite El. by eexists.
      * unfold loop_deliver. rewrite Hu. simpl. rewrite El. by eexists.
      * destruct (co_end _ _ _ (conns_ok_run _ _ Hr _ _ Hu) El) as [e He].
        unfold x_select. rewrite Hu. simpl. rewrite He. by eexists.
Qed.

(** Without a delivery under way the table finds every query that is not
    over, while no id was used twice. *)
Lemma loop_finds evs t c u k cb :
  udp_run evs t -> ut_conns t !! c = Some u ->
  (Z.of_nat (length (dc_made (uc_conn u))) <= 65536)%Z ->
  dc_made (uc_conn u) !! k = Some cb -> cb_over cb = false ->
  dc_callbacks (uc_conn u) !! u16 (Z.of_nat k + 1) = Some k.
Proof.
  intros Hr Hu Hn Hk Ho. destruct (callback_facts _ _ _ _ _ _ Hr Hu Hk) as [Hid _].
  destruct (co_log _ _ _ (conns_ok_run _ _ Hr _ _ Hu)) as (log & Hl & _).
  destruct (settle_lookup _ _ _ Hk) as (cb' & Hk' & Hid' & Ho' & _).
  destruct (settle_fields u) as [Hcb _]. rewrite <- settle_length, Hl in Hn.
  rewrite (cv_count _ _ (conn_inv_run log)) in Hn. rewrite <- Hcb, <- Hid, <- Hid'.
  rewrite Hl in *. apply (live_run log Hn); [done|congruence].
Qed.

Lemma on_conn_same c f t u :
  ut_conns t !! c = Some u -> ut_conns (on_conn c f t) !! c = Some (f u).
Proof. intros Hu. by rewrite on_conn_lookup, Hu, decide_True. Qed.

(** C17: Answers arrive.  As long as a connection has carried at most 65536
    queries, an exchange that waits for the answer to the [k]-th of them
    has it two steps after its connection reads a datagram with a message
    of its id: the loop delivers it, and the [select] returns it, or the
    message with this id that came before it. *)
Theorem udp_answer_arrives evs t i q c k u size bytes m :
  udp_run evs t -> ut_xs t !! i = Some (MkX q (XSelect c k)) ->
  ut_conns t !! c = Some u -> uc_loop u = LRead size ->
  (Z.of_nat (length (dc_made (uc_conn u))) <= 65536)%Z ->
  msg_Unpack (datagram size bytes) = inl m -> m_Id m = u16 (Z.of_nat k + 1) ->
  exists t1 t2 t3 first,
    udp_step (URecv c (inl bytes)) t = Some (Ret t1) /\
    udp_step (UDeliver c) t1 = Some (Ret t2) /\
    udp_step (USelect i SelCallback) t2 = Some (Ret t3) /\
    ut_xs t3 !! i = Some (MkX q (XReturn c k
      (Some (msg_with_Id (m_Id q) first), m_Truncated first, None))) /\
    m_Id first = m_Id m /\
    (cb_message <$> dc_made (uc_conn u) !! k = Some None -> first = m).
Proof.
  intros Hr Hi Hu Hl Hn Hm Hid.
  assert (slot_of t i = Some (c, k)) as Hs by (unfold slot_of; by rewrite Hi).
  destruct (slot_lookup _ _ _ _ _ Hr Hs) as (u' & cb & Hu' & Hk & Ho).
  rewrite Hu in Hu'. injection Hu' as <-.
  destruct (callback_facts _ _ _ _ _ _ Hr Hu Hk) as [_ Hfirst].
  pose proof (loop_finds _ _ _ _ _ _ Hr Hu Hn Hk Ho) as Ht. rewrite <- Hid in Ht.
  set (first := default m (cb_message cb)).
  pose proof (on_conn_same c (uc_at (LDeliver k m)) t u Hu) as Hu1.
  set (t1 := on_conn c (uc_at (LDeliver k m)) t) in *.
  pose proof (on_conn_same c (fun u => MkUdpConn (deliver k m (uc_conn u)) (uc_sent u)
    (loop_start t1)) t1 _ Hu1) as Hu2.
  set (t2 := on_conn c _ t1) in *. cbn [uc_at uc_conn uc_sent] in Hu2.
  assert (dc_made (deliver k m (uc_conn u)) !! k = Some (MkCb (cb_id cb) (Some first) (cb_over cb)))
    as Hk2.
  { rewrite deliver_lookup, Hk. simpl. rewrite decide_True by done. unfold first.
    destruct cb as [? [old|] ?]; done. }
  exists t1, t2, (set_pc i (XReturn c k
    (Some (msg_with_Id (m_Id q) first), m_Truncated first, None)) t2), first. split_and!.
  - cbn [udp_step]. unfold loop_recv. rewrite Hu. simpl. by rewrite Hl, Hm, Ht.
  - cbn [udp_step]. unfold loop_deliver. by rewrite Hu1.
  - cbn [udp_step]. change (ut_xs t2) with (ut_xs t). rewrite Hi. unfold x_select. rewrite Hu2.
    cbn [mbind option_bind uc_conn]. by rewrite Hk2.
  - rewrite set_pc_lookup, decide_True by done. change (ut_xs t2) with (ut_xs t). by rewrite Hi.
  - unfold first. destruct (cb_message cb) as [old|]; simpl; [|done].
    destruct (Hfirst old eq_refl). congruence.
  - rewrite Hk. simpl. intros [= Hnone]. unfold first. by rewrite Hnone.
Qed.

(** The channel [done] of a transport is never made: in every reachable
    state it is nil, so that [Close] panics, a query whose OPT record
    advertises more than the current UDP size panics, and no exchange is
    ever woken by the transport. *)
Theorem udp_close_panics evs t :
  udp_run evs t ->
  UDP_Close t = Panic "close of nil channel" /\
  (forall size, (ut_udpSize t < size < 2 ^ 16)%Z ->
     check_edns (Some size) t = Panic "close of nil channel") /\
  (forall size, (0 <= size <= ut_udpSize t)%Z -> (size < 2 ^ 16)%Z ->
     check_edns (Some size) t = Ret t) /\
  ut_udpSize t = maxUDPSize.
Proof.
  intros Hr. destruct (udp_run_fields _ _ Hr) as [Hd Hs].
  unfold UDP_Close, check_edns, renew_done. rewrite Hd, Hs. unfold maxUDPSize.
  split; [done|]. split; [|split; [|done]].
  - intros size Hsz. rewrite wraps_small by lia. simpl.
    destruct (Z.ltb_spec 1232 size); [done|lia].
  - intros size Hsz Hlt. rewrite wraps_small by lia.
    destruct (Z.ltb_spec 1232 size); [lia|done].
Qed.

End properties.

(** ** A run for the witnesses *)

Module UdpRunExample.

Definition udp_exec `{ExLib} `{DnsLib} `{DnsWire} (evs : list udp_event) : option UDPState :=
  fold_left (fun o ev =>
    t ← o; match udp_step ev t with Some (Ret t') => Some t' | _ => None end) evs (Some NewUDP).

(** A query with id 7, sent with id 1 and answered; the answers are
    datagrams of ten bytes. *)
Definition sent_query : Msg := msg_with_Id 7 msg_zero.
Definition asked : list udp_event :=
  [UCall sent_query; UCheck 0; UOpen 0 None; URegister 0; UWrite 0 None].
Definition answered : list udp_event :=
  asked ++ [URecv 0 (inl (WireExample.encoding 10)); UDeliver 0; USelect 0 SelCallback;
            UUnregister 0].

Definition conn_asked : dnsConnection := conn_register conn_init.
Definition waiting : UDPState :=
  MkUDP maxUDPSize None (Some 0)
    [MkUdpConn conn_asked [WireExample.encoding 10] (LRead 1233)]
    [MkX sent_query (XSelect 0 0)].

End UdpRunExample.

Import UdpRunExample.

Lemma udp_exec_run `{ExLib} `{DnsLib} `{DnsWire} evs t : udp_exec evs = Some t -> udp_run evs t.
Proof.
  revert t. induction evs as [|ev evs IH] using rev_ind; [intros t [= <-]; constructor|].
  intros t. unfold udp_exec. rewrite fold_left_app. simpl. fold (udp_exec evs).
  destruct (udp_exec evs) as [t0|]; [|done]. simpl.
  destruct (udp_step ev t0) as [[t'|]|] eqn:E; intros [= <-].
  econstructor; [by apply IH|exact E].
Qed.

Lemma asked_run : udp_run asked waiting.
Proof. apply udp_exec_run. reflexivity. Qed.

Definition after_answer : UDPState := default NewUDP (udp_exec answered).

Lemma answered_run : udp_run answered after_answer.
Proof. apply udp_exec_run. reflexivity. Qed.

Lemma udp_exchange_answer_witness :
  ut_xs after_answer !! 0 = Some (MkX sent_query (XDone (Some sent_query, false, None))) /\
  ((exists e, after_exchange (Some sent_query, false, None) (None, None) = (Ret (None, Some e), false)) \/
   exists c k u raw bytes m,
    ut_conns after_answer !! c = Some u /\ msg_Pack (exMessage sent_query (m_Id m)) = inl raw /\
    raw ∈ uc_sent u /\ In (URecv c (inl bytes)) answered /\
    msg_Unpack (datagram (maxUDPSize + 1) bytes) = inl m /\
    m_Id m = u16 (Z.of_nat k + 1) /\
    after_exchange (Some sent_query, false, None) (None, None) =
      if m_Truncated m then (Ret (None, None), true)
      else (Ret (Some (msg_with_Id (m_Id sent_query) m), None), false)).
Proof.
  split; [vm_compute; reflexivity|].
  apply (udp_exchange_answer answered after_answer 0 sent_query _ (None, None) answered_run).
  vm_compute. reflexivity.
Defined.

Lemma udp_no_leak_witness :
  exists u, ut_conns after_answer !! 0 = Some u /\ dc_callbacks (uc_conn u) = ∅.
Proof.
  eexists. split; [vm_compute; reflexivity|].
  apply (proj2 (proj2 (udp_no_leak answered after_answer answered_run))) with (c := 0);
    [|vm_compute; reflexivity].
  intros x Hx. vm_compute in Hx. destruct Hx as [<-|[]]. by eexists.
Defined.

Lemma udp_exchange_progress_witness :
  can waiting (USelect 0 (SelCtx (EStd "context.Canceled"))) /\
  exists u, ut_conns waiting !! 0 = Some u /\ uc_loop u = LRead 1233.
Proof.
  destruct (udp_exchange_progress asked waiting 0 sent_query (XSelect 0 0) asked_run eq_refl)
    as [Hctx (u & Hu & _)].
  split; [exact (Hctx _)|]. exists u. split; [exact Hu|]. by injection Hu as <-.
Defined.

Lemma udp_answer_arrives_witness :
  exists t1 t2 t3,
    udp_step (URecv 0 (inl (WireExample.encoding 10))) waiting = Some (Ret t1) /\
    udp_step (UDeliver 0) t1 = Some (Ret t2) /\
    udp_step (USelect 0 SelCallback) t2 = Some (Ret t3).
Proof.
  destruct (udp_answer_arrives asked waiting 0 sent_query 0 0
    (MkUdpConn conn_asked [WireExample.encoding 10] (LRead 1233)) 1233
    (WireExample.encoding 10) WireExample.m1 asked_run eq_refl eq_refl eq_refl)
    as (t1 & t2 & t3 & _ & ? & ? & ? & _);
    [vm_compute; discriminate|reflexivity|reflexivity|]. by exists t1, t2, t3.
Defined.

Lemma udp_close_panics_witness :
  UDP_Close waiting = Panic "close of nil channel".
Proof. exact (proj1 (udp_close_panics asked waiting asked_run)). Defined.
