(* ===== verification/Local.v ===== *)
(** * The system resolver as a transport: [resolve/transport/local.go]

    [LocalTransport] answers from the hosts file, and otherwise asks the
    servers of [resolv.conf] for the names of the search list, one after the
    other or all at once.  The exchanges with a server are operations of the
    network; the set of [maplib] and [dns.Id] are outside the repository. *)

From S2P Require Import Prelude GoStd Netip Netip6 Meta Dns Addrs Cache Lines Hosts ResolvConf Resolve Tcp Udp UdpTransport.

(** [maplib.Set[string]] *)
Class SetLib := {
  MSet : Type;
  NewSet : MSet;
  NewSetFromSlice : list string -> MSet;
  set_Contains : MSet -> string -> bool;
  set_ContainAll : MSet -> list string -> bool;
  set_len : MSet -> nat;
}.

Class SetLaws `{SetLib} : Prop := {
  NewSet_Contains : forall x, set_Contains NewSet x = false;
  FromSlice_Contains : forall l x, set_Contains (NewSetFromSlice l) x = bool_decide (x ∈ l);
  ContainAll_Contains : forall s l, set_ContainAll s l = forallb (set_Contains s) l;
  set_len_keys : forall s, exists keys, NoDup keys /\ length keys = set_len s /\
    forall x, set_Contains s x = bool_decide (x ∈ keys);
}.

(** ** [UDPTransport] and [LocalTransport] *)

(** A UDP transport as the local transport keeps it: its server and its
    fields; the transport for TCP it holds has the same server. *)
Record UDPTransport := MkUDPTransport { udp_server : Socksaddr; udp_state : UDPState }.

Definition NewUDPTransport (server : Socksaddr) : UDPTransport :=
  MkUDPTransport (with_port server) NewUDP.

Section local_data.
Context `{SetLib}.

Record LocalTransport := MkLocal {
  lt_host : option File;
  lt_transports : option (gmap string UDPTransport);
  lt_servers : option MSet;
}.

(** [NewLocalTransport]: the absent options are those of the system. *)
Definition NewLocalTransport (options : option (option File)) : LocalTransport :=
  match options with
  | None => MkLocal (Some NewFileDefault) None None
  | Some host => MkLocal host None None
  end.

(** ** The transports of the servers *)

(** Closing and deleting the transports whose key is chosen; the keys are
    walked in the order of the map. *)
Fixpoint close_keys (p : string -> bool) (keys : list (string * UDPTransport))
    (m : gmap string UDPTransport) : exec (gmap string UDPTransport) :=
  match keys with
  | [] => Ret m
  | (addr, tr) :: keys =>
      if p addr then
        match UDP_Close (udp_state tr) with
        | Ret _ => close_keys p keys (delete addr m)
        | Panic why => Panic why
        end
      else close_keys p keys m
  end.

Definition updateTransports (servers : list string) (t : LocalTransport) : exec LocalTransport :=
  let transports := default ∅ (lt_transports t) in
  let unchanged :=
    match lt_servers t with
    | Some s => (set_len s =? length servers)%nat && set_ContainAll s servers
    | None => false
    end in
  if unchanged then Ret (MkLocal (lt_host t) (Some transports) (lt_servers t))
  else
    let '(s, p) :=
      match servers with
      | [] => (NewSet, fun _ => true)
      | _ => let s := NewSetFromSlice servers in (s, fun addr => negb (set_Contains s addr))
      end in
    match close_keys p (map_to_list transports) transports with
    | Ret m => Ret (MkLocal (lt_host t) (Some m) (Some s))
    | Panic why => Panic why
    end.

Context `{ExLib}.

Definition not_configured (addressStr : string) : err :=
  ex_New [XStr "dns server not configured, may resolve file changed: "; XStr addressStr].

(** The two sections of [pullTransport], under the lock for reading and
    under the lock for writing; the first is final when it gives a result. *)
Definition pull_read (server : Socksaddr) (t : LocalTransport) : option (gores (option UDPTransport)) :=
  let addressStr := Socksaddr_AddrString server in
  if negb (match lt_servers t with Some s => set_Contains s addressStr | None => false end)
  then Some (None, Some (not_configured addressStr))
  else
    match default ∅ (lt_transports t) !! addressStr with
    | Some tr => Some (Some tr, None)
    | None => None
    end.

Definition pull_write (server : Socksaddr) (t : LocalTransport)
    : gores (option UDPTransport) * LocalTransport :=
  let addressStr := Socksaddr_AddrString server in
  if negb (match lt_servers t with Some s => set_Contains s addressStr | None => false end)
  then ((None, Some (not_configured addressStr)), t)
  else
    match default ∅ (lt_transports t) !! addressStr with
    | Some tr => ((Some tr, None), t)
    | None =>
        let tr := NewUDPTransport server in
        ((Some tr, None),
         MkLocal (lt_host t) (Some (<[addressStr := tr]> (default ∅ (lt_transports t))))
           (lt_servers t))
    end.

Definition pullTransport (server : Socksaddr) (t : LocalTransport)
    : gores (option UDPTransport) * LocalTransport :=
  match pull_read server t with
  | Some r => (r, t)
  | None => pull_write server t
  end.

End local_data.

(** ** The exchanges *)

Definition DefaultResolverReadTimeout : Z := (5 * Second)%Z.
Definition DefaultResolverTTL : Z := 600%Z.
Definition MaxDNSUDPSize : Z := 1232%Z.

(** What the exchanges see and change: [resolvConf], the transport and the
    network. *)
Record local_world `{SetLib} (W : Type) := MkLW {
  lw_rc : resolverConfig;
  lw_local : LocalTransport;
  lw_net : W;
}.
Arguments MkLW {_ _} _ _ _.
Arguments lw_rc {_ _} _.
Arguments lw_local {_ _} _.
Arguments lw_net {_ _} _.

(** The configuration that is stored. *)
Definition lw_conf `{SetLib} {W} (w : local_world W) : dnsConfig := rc_conf (lw_rc w).

Definition rc_with_conf (c : dnsConfig) (rc : resolverConfig) : resolverConfig :=
  MkRC (rc_inited rc) (rc_sema rc) (rc_lastChecked rc) c.

Section exchange.
Context `{SetLib} `{DnsLib} `{ExLib} {W : Type}.

(** The network: an exchange over UDP as far as its outcome goes, one over
    TCP, both with the server, the time they are given and the query; the
    result of [dns.Id]; what the hosts file looks like. *)
Variable udp : Socksaddr -> Z -> Msg -> ST W attempt.
Variable tcp : Socksaddr -> Z -> Msg -> ST W (exec (gores (option Msg))).
Variable dns_Id : ST W Z.

(** [exchangeOne] *)
Definition query (messageID : Z) (question : Question) (ad : bool) : Msg :=
  dns_SetEdns0 maxUDPSize false
    (MkMsg messageID false false false true false ad 0 true [question] [] [] []).

Definition exchangeOne (transport : option UDPTransport) (messageID : Z) (question : Question)
    (timeout : Z) (useTCP ad : bool) : ST W (exec (gores (option Msg))) :=
  let timeout := if Z.eqb timeout 0 then DefaultResolverReadTimeout else timeout in
  match transport with
  | None => ex_ret (None, Some (ex_New [XStr "missing transport"]))
  | Some transport =>
      let exMessage := query messageID question ad in
      if useTCP then tcp (udp_server transport) timeout exMessage
      else
        a ← udp (udp_server transport) timeout exMessage;
        let retry :=
          let! (response, e) := tcp (udp_server transport) timeout exMessage in
          match e with
          | Some _ => ex_ret (None, ex_Cause e "exchange tcp")
          | None => ex_ret (response, None)
          end in
        match exchange_result messageID a with
        | (_, false, Some e) => ex_ret (None, ex_Cause (Some e) "exchange udp")
        | (_, true, _) => retry
        | (None, false, None) => ex_panic "nil response"
        | (Some response, false, None) =>
            if m_Truncated response then retry else ex_ret (Some response, None)
        end
  end.

Local Abbreviation LW := (local_world W).

Definition lift_net {A} (m : ST W A) : ST LW A :=
  fun w => let '(a, n) := m (lw_net w) in (a, MkLW (lw_rc w) (lw_local w) n).

Definition lw_serverOffset : ST LW Z :=
  fun w => let '(o, c) := serverOffset (lw_conf w) in
           (o, MkLW (rc_with_conf c (lw_rc w)) (lw_local w) (lw_net w)).

(** [getSystemDNSConfig] *)
Definition getSystemDNSConfig (uev : update_env) : ST LW dnsConfig :=
  fun w => let rc := tryUpdate uev (lw_rc w) in (rc_conf rc, MkLW rc (lw_local w) (lw_net w)).

Definition lw_updateTransports (servers : list string) : ST LW (exec unit) :=
  fun w => match updateTransports servers (lw_local w) with
           | Ret t => (Ret tt, MkLW (lw_rc w) t (lw_net w))
           | Panic why => (Panic why, w)
           end.

Definition lw_pullTransport (server : Socksaddr) : ST LW (gores (option UDPTransport)) :=
  fun w => let '(r, t) := pullTransport server (lw_local w) in
           (r, MkLW (lw_rc w) t (lw_net w)).

(** The two loops of [tryOneName]: [js] are the values [j] goes through, for
    all the attempts. *)
Fixpoint try_servers (config : dnsConfig) (fqdn : string) (serverOffset messageId : Z)
    (question : Question) (js : list nat) (lastErr : option err)
    : ST LW (exec (gores (option Msg))) :=
  match js with
  | [] => ex_ret (None, ex_Cause lastErr fqdn)
  | j :: js =>
      let sLen := Z.of_nat (length (cf_servers config)) in
      let i := (u32 (serverOffset + Z.of_nat j) mod sLen)%Z in
      let server := default "" (cf_servers config !! Z.to_nat i) in
      let question := MkQuestion (dns_Fqdn fqdn) (q_Qtype question) (q_Qclass question) in
      let addr := FromParseSocksaddr server in
      let addr := MkSocks (sa_Fqdn addr) (sa_Addr addr) 53 in
      '(transport, e) ← lw_pullTransport addr;
      match e with
      | Some _ => ex_ret (None, ex_Cause e "pull transport")
      | None =>
          let! (response, e) := lift_net (exchangeOne transport messageId question
                   (cf_timeout config) (cf_useTCP config) (cf_trustAD config)) in
          match e with
          | Some _ => try_servers config fqdn serverOffset messageId question js e
          | None => ex_ret (response, None)
          end
      end
  end.

Definition tryOneName (config : dnsConfig) (fqdn : string) (message : Msg) (question : Question)
    : ST LW (exec (gores (option Msg))) :=
  offset ← lw_serverOffset;
  let! _ := lw_updateTransports (cf_servers config) in
  messageId ← (if Z.eqb (m_Id message) 0 then lift_net dns_Id else mret (m_Id message));
  try_servers config fqdn offset messageId question
    (concat (repeat (seq 0 (length (cf_servers config))) (Z.to_nat (cf_attempts config)))) None.

Fixpoint single_loop (config : dnsConfig) (message : Msg) (question : Question)
    (names : list string) (lastErr : option err) : ST LW (exec (gores (option Msg))) :=
  match names with
  | [] => ex_ret (None, lastErr)
  | fqdn :: names =>
      let! (response, e) := tryOneName config fqdn message question in
      match e with
      | Some _ => single_loop config message question names e
      | None => ex_ret (response, None)
      end
  end.

Definition exchangeSingleRequest (config : dnsConfig) (message : Msg) (question : Question)
    (domain : string) : ST LW (exec (gores (option Msg))) :=
  single_loop config message question (nameList config domain) None.

(** [exchangeParallel]: a racer for each name.  An event is the context that
    ends, or the racer that is next to finish; without one the call waits,
    and returns nothing. *)
Inductive parallel_event :=
  | PCtx (e : err)
  | PRacer (k : nat).

Section loop.
Context {N V : Type} (racer : N -> ST V (exec (gores (option Msg)))).

Fixpoint parallel_loop (names : list N) (evs : list parallel_event) (errors : list (option err))
    : ST V (option (exec (gores (option Msg)))) :=
  match evs with
  | [] => mret None
  | PCtx e :: _ => mret (Some (Ret (None, Some e)))
  | PRacer k :: evs =>
      match names !! k with
      | None => parallel_loop names evs errors
      | Some fqdn =>
          r ← racer fqdn;
          match r with
          | Panic why => mret (Some (Panic why))
          | Ret (response, None) => mret (Some (Ret (response, None)))
          | Ret (_, Some e) =>
              let errors := errors ++ [Some e] in
              if (length errors =? length names)%nat
              then mret (Some (Ret (None, ex_Errors errors)))
              else parallel_loop names evs errors
          end
      end
  end.
End loop.

Definition exchangeParallel (evs : list parallel_event) (config : dnsConfig) (message : Msg)
    (question : Question) (domain : string) : ST LW (option (exec (gores (option Msg)))) :=
  parallel_loop (fun fqdn => tryOneName config fqdn message question) (nameList config domain) evs [].

(** The addresses of the hosts file, for a question that asks for some. *)
Definition lookup_host (ev : host_env) (domain : string) (isA : bool) : ST LW (list Addr) := fun w =>
  match lt_host (lw_local w) with
  | Some host =>
      if isA then
        let '(address, host) := File_Lookup ev domain host in
        (address, MkLW (lw_rc w)
           (MkLocal (Some host) (lt_transports (lw_local w)) (lt_servers (lw_local w))) (lw_net w))
      else ([], w)
  | None => ([], w)
  end.

(** [LocalTransport.Exchange]; [ev] is what the hosts file looks like, [uev]
    the file of the configuration. *)
Definition Local_Exchange (ev : host_env) (uev : update_env) (evs : list parallel_event) (message : Msg)
    : ST LW (option (exec (gores (option Msg)))) :=
  match m_Question message with
  | [] => mret (Some (Ret (None, Some (ex_New [XStr "bad message: no question found"]))))
  | question :: _ =>
      let domain := FqdnToDomain (q_Name question) in
      let isA := (Z.eqb (q_Qtype question) TypeA || Z.eqb (q_Qtype question) TypeAAAA)%bool in
      address ← lookup_host ev domain isA;
      match address with
      | _ :: _ =>
          mret (Some (Ret (Some (FixedResponse (m_Id message) question address DefaultResolverTTL), None)))
      | [] =>
          systemConfig ← getSystemDNSConfig uev;
          if (cf_singleRequest systemConfig || negb isA)%bool
          then Some <$> exchangeSingleRequest systemConfig message question domain
          else exchangeParallel evs systemConfig message question domain
      end
  end.

End exchange.

(** ** Lemmas *)

(** *** The text of an address *)

Lemma Count_app s t c : Count (s +++ t) c = Count s c + Count t c.
Proof. induction s as [|x s IH]; simpl; [done|]. rewrite IH. by destruct (Ascii.eqb x c). Qed.

Lemma Count_none s c : IndexByte s c = None -> Count s c = 0.
Proof.
  induction s as [|x s IH]; simpl; [done|]. destruct (Ascii.eqb x c); [done|].
  destruct (IndexByte s c); [done|]. auto.
Qed.

Definition plain_char (c : ascii) : bool := negb (Ascii.eqb c ":") && negb (Ascii.eqb c "[").

Lemma Count_plain s : sforall plain_char s = true -> Count s ":" = 0.
Proof.
  intros Hs. apply Count_none, IndexByte_none_sforall. eapply sforall_impl; [|exact Hs].
  intros c Hc. by apply andb_true_iff in Hc as [? _].
Qed.

Lemma digit_char_plain d : (0 <= d < 16)%Z -> plain_char (digit_char d) = true.
Proof.
  intros Hd.
  assert (forallb (fun n => plain_char (digit_char (Z.of_nat n))) (seq 0 16) = true) as Hall by done.
  rewrite forallb_forall in Hall. specialize (Hall (Z.to_nat d)).
  rewrite Z2Nat.id in Hall by lia. apply Hall, in_seq. lia.
Qed.

Lemma hex_go_plain fuel n acc :
  sforall plain_char acc = true -> sforall plain_char (Addr_hex_go fuel n acc) = true.
Proof.
  revert n acc. induction fuel as [|fuel IH]; intros n acc Hacc; simpl; [done|].
  assert (sforall plain_char (String (digit_char (n mod 16)) acc) = true) as Hc.
  { change (plain_char (digit_char (n mod 16)) && sforall plain_char acc = true)%bool.
    rewrite Hacc, digit_char_plain; [done|]. apply Z.mod_pos_bound. lia. }
  destruct (_ <? _)%Z; auto.
Qed.

Lemma ParseAddr_valid s a : ParseAddr s = Some a -> Addr_IsValid a = true.
Proof.
  unfold ParseAddr. generalize s at 1. intros input. induction s as [|c s IH]; simpl; [done|].
  destruct (Ascii.eqb c ".").
  { unfold Addr_parseIPv4. destruct (Addr_parseIPv4Fields input); [|done]. simpl. by intros [= <-]. }
  destruct (Ascii.eqb c ":").
  { assert (forall zone r, Addr_ipv6_finish zone r = Some a -> Addr_IsValid a = true) as Hf.
    { intros zone [[ip e] t]. unfold Addr_ipv6_finish. split_ifs; try done; destruct e; try done;
        by intros [= <-]. }
    assert (forall zone (m : option (list Z * option nat * string)),
      (m ≫= fun r => Addr_ipv6_finish zone r) = Some a -> Addr_IsValid a = true) as Hm.
    { intros zone [r|]; [apply Hf|done]. }
    unfold Addr_parseIPv6. destruct (match IndexByte input "%" with None => _ | _ => _ end)
      as [[t zone]|]; [|done]. rewrite some_bind. cbv beta iota.
    repeat match goal with
    | |- (match ?x with _ => _ end) = _ -> _ => destruct x; try (apply Hm)
    | |- (if ?x then _ else _) = _ -> _ => destruct x; try (apply Hm)
    end; by intros [= <-]. }
  destruct (Ascii.eqb c "%"); [done|exact IH].
Qed.

(** Starts with something else than a bracket. *)
Definition no_bracket (s : string) : Prop :=
  exists c t, s = String c t /\ Ascii.eqb c "[" = false.

Lemma no_bracket_app s t : no_bracket s -> no_bracket (s +++ t).
Proof. intros (c & u & -> & Hc). by exists c, (u +++ t). Qed.

Lemma colon_join_text gs t :
  Count (Addr_colon_join gs) ":" = length gs - 1 /\ no_bracket (Addr_colon_join gs +++ ":" +++ t).
Proof.
  unfold Addr_colon_join.
  assert (forall g, sforall plain_char (Addr_hex16 g) = true) as Hx.
  { intros g. by apply hex_go_plain. }
  destruct gs as [|g gs]; cbn [List.map length]; [split; [done|by exists ":"%char, t]|].
  assert (forall acc, Count (fold_left (fun acc x => acc +++ ":" +++ x) (List.map Addr_hex16 gs) acc) ":" =
    Count acc ":" + length gs /\
    exists u, fold_left (fun acc x => acc +++ ":" +++ x) (List.map Addr_hex16 gs) acc = acc +++ u) as Hfold.
  { clear g. induction gs as [|g gs IH]; intros acc; cbn [fold_left List.map length].
    - split; [lia|]. exists "". by rewrite sapp_nil_r.
    - destruct (IH (acc +++ ":" +++ Addr_hex16 g)) as [-> [u ->]].
      rewrite Count_app. cbn [Count String.append Ascii.eqb Bool.eqb]. simpl (Count (":" +++ _) _).
      rewrite (Count_plain _ (Hx g)). split; [lia|].
      exists ((":" +++ Addr_hex16 g) +++ u). by rewrite !sapp_assoc. }
  destruct (Hfold (Addr_hex16 g)) as [-> [u ->]]. rewrite (Count_plain _ (Hx g)).
  split; [lia|]. pose proof (Hx g) as Hg. destruct (Addr_hex16 g) as [|c s] eqn:Eg.
  - exfalso. revert Eg. unfold Addr_hex16. simpl.
    destruct (_ <? _)%Z; [done|]. destruct (_ <? _)%Z; [done|]. destruct (_ <? _)%Z; [done|].
    by destruct (_ <? _)%Z.
  - unfold sforall in Hg. simpl in Hg. apply andb_true_iff in Hg as [Hc _].
    apply andb_true_iff in Hc as [_ Hc]. apply negb_true_iff in Hc.
    by exists c, ((s +++ u) +++ ":" +++ t).
Qed.

(** The text of an IPv6 address has at least two colons. *)
Lemma ToString6_text ip zone :
  2 <= Count (Addr_ToString (Addr6 ip zone)) ":" /\ no_bracket (Addr_ToString (Addr6 ip zone)).
Proof.
  assert (forall body, 2 <= Count body ":" -> no_bracket body ->
    2 <= Count (match zone with "" => body | _ => body +++ "%" +++ zone end) ":" /\
    no_bracket (match zone with "" => body | _ => body +++ "%" +++ zone end)) as Hz.
  { intros body H1 H2. destruct zone; [done|]. rewrite Count_app.
    split; [lia|by apply no_bracket_app]. }
  unfold Addr_ToString. destruct (Addr_Is4In6 (Addr6 ip zone)).
  { apply Hz; [rewrite Count_app; change (Count "::ffff:" ":") with 3; lia|]. by eexists _, _. }
  unfold Addr_string6. destruct (Addr_longest_run 0 (Addr_groups ip) (255, 255)) as [zs ze].
  destruct (ze - zs =? 0).
  - assert (length (Addr_groups ip) = 8) as Hl by (unfold Addr_groups; by rewrite length_map).
    destruct (colon_join_text (Addr_groups ip) "") as [Hc _]. rewrite Hl in Hc.
    apply Hz; [rewrite Hc; simpl; lia|].
    destruct (colon_join_text (Addr_groups ip) "") as [_ (c & t & Ht & Hb)].
    destruct (Addr_colon_join (Addr_groups ip)) as [|c' t']; [done|].
    simpl in Ht. simplify_eq. by exists c, t'.
  - apply Hz.
    + rewrite Count_app. simpl. lia.
    + apply (proj2 (colon_join_text (take zs (Addr_groups ip)) (":" +++ Addr_colon_join (drop ze (Addr_groups ip))))).
Qed.

(** A server whose address has no brackets: the zone of an address may have
    some, which [ParseAddr] accepts in a [nameserver] line. *)
Definition plain_server (s : string) : Prop :=
  exists ip a, ParseAddr ip = Some a /\ IndexByte ip "[" = None /\ IndexByte ip "]" = None /\
    s = JoinHostPort ip "53".

(** A file whose [nameserver] lines have no bracket, or no file. *)
Definition plain_line (line : string) : Prop :=
  forall f1 f, Fields line = "nameserver" :: f1 :: f ->
    IndexByte f1 "[" = None /\ IndexByte f1 "]" = None.

Definition plain_file (file : file_view) : Prop :=
  match file with
  | inl (content, inl _) => forall line, In line (file_lines content) -> plain_line line
  | _ => True
  end.

Section plain.
Context `{DnsLaws}.

Lemma conf_option_servers c s : cf_servers (conf_option c s) = cf_servers c.
Proof. unfold conf_option. by repeat case_match. Qed.

Lemma conf_options_servers f c : cf_servers (fold_left conf_option f c) = cf_servers c.
Proof.
  revert c. induction f as [|s f IH]; intros c; simpl; [done|]. by rewrite IH, conf_option_servers.
Qed.

Lemma conf_line_plain c line :
  plain_line line -> Forall plain_server (cf_servers c) -> Forall plain_server (cf_servers (conf_line c line)).
Proof.
  unfold plain_line, conf_line. intros Hp Hc. destruct (is_comment line); [done|].
  destruct (Fields line) as [|f0 f]; [done|]. destruct (String.eqb_spec f0 "nameserver") as [->|_].
  - destruct f as [|f1 f]; [done|]. destruct (_ <? _)%nat; [|done].
    destruct (ParseAddr f1) as [a|] eqn:Ea; [|done]. destruct (Hp _ _ eq_refl) as [H1 H2]. simpl.
    apply Forall_app. split; [done|]. constructor; [by exists f1, a|constructor].
  - destruct (String.eqb f0 "domain"); [by destruct f|]. destruct (String.eqb f0 "search"); [done|].
    destruct (String.eqb f0 "options"); [by rewrite conf_options_servers|].
    by destruct (String.eqb f0 "lookup").
Qed.

Lemma conf_lines_plain lines c :
  (forall line, In line lines -> plain_line line) ->
  Forall plain_server (cf_servers c) -> Forall plain_server (cf_servers (fold_left conf_line lines c)).
Proof.
  revert c. induction lines as [|line lines IH]; intros c Hl Hc; simpl; [done|].
  apply IH; [by intros; apply Hl; right|]. apply conf_line_plain; [|done]. apply Hl. by left.
Qed.

Lemma defaultNS_plain : Forall plain_server defaultNS.
Proof.
  repeat constructor; [exists "127.0.0.1", (Addr4 2130706433)|exists "::1", (Addr6 1 "")];
    (split; [by vm_compute|]); done.
Qed.

(** The servers of such a file. *)
Lemma read_plain file hostname :
  plain_file file -> Forall plain_server (cf_servers (dnsReadConfig file hostname)).
Proof.
  destruct file as [[content [mtime|e]]|e]; simpl; intros Hf; try apply defaultNS_plain.
  pose proof (conf_lines_plain _ (set_file None mtime conf_init) Hf (Forall_nil_2 _)) as Hp.
  revert Hp. generalize (fold_left conf_line (file_lines content) (set_file None mtime conf_init)).
  intros c Hp. unfold conf_defaults.
  destruct (cf_servers c) eqn:E; [|by destruct (cf_search c); simpl; rewrite E].
  simpl. destruct (cf_search c); simpl; apply defaultNS_plain.
Qed.
End plain.

(** The names a transport is looked up under are never those of the set. *)
Lemma server_text s :
  plain_server s -> Count s ":" = 1 \/ exists t, s = String "[" t.
Proof.
  intros (ip & a & _ & H1 & H2 & ->). unfold JoinHostPort.
  destruct (IndexByte ip ":") eqn:E; [right; by eexists|left].
  rewrite Count_app, (Count_none ip) by done. done.
Qed.

Lemma FromParse_server s :
  plain_server s -> exists a, Addr_IsValid a = true /\ FromParseSocksaddr s = MkSocks "" a 53.
Proof.
  intros (ip & a & Ha & H1 & H2 & ->). unfold FromParseSocksaddr, FromParseSocksaddrHostPortStr.
  assert (SplitHostPort (JoinHostPort ip "53") = Some (ip, "53")) as ->.
  { unfold JoinHostPort. destruct (IndexByte ip ":") eqn:E.
    - by apply SplitHostPort_brackets.
    - by apply SplitHostPort_join. }
  rewrite UnwrapIPv6Address_id, Ha by done. exists a. split; [|done].
  by apply ParseAddr_valid in Ha.
Qed.

Lemma AddrString_not_server s s' :
  plain_server s -> plain_server s' ->
  Socksaddr_AddrString (FromParseSocksaddr s) <> s'.
Proof.
  intros Hs Hs'. destruct (FromParse_server s Hs) as (a & Hv & ->).
  unfold Socksaddr_AddrString. simpl. rewrite Hv. intros He.
  apply server_text in Hs'. destruct a as [|ip|ip zone]; [done| |].
  - simpl in He. rewrite <- He in Hs'. destruct Hs' as [Hc|[t Ht]].
    + rewrite (Count_none (Addr_string4 ip)) in Hc by (by apply string4_IndexByte). done.
    + pose proof (string4_IndexByte ip "[" eq_refl eq_refl) as Hb. by rewrite Ht in Hb.
  - destruct (ToString6_text ip zone) as [Hc (c & t & Ht & Hb)]. rewrite He in *.
    destruct Hs' as [Hc'|[t' Ht']]; [lia|]. by simplify_eq.
Qed.

(** *** Pulling a transport *)

Section never.
Context `{SetLaws} `{DnsLib} `{ExLaws}.

(** No transport was made so far, and the servers of the set have no
    brackets in their addresses. *)
Definition local_inv (t : LocalTransport) : Prop :=
  default ∅ (lt_transports t) = ∅ /\
  (forall s x, lt_servers t = Some s -> set_Contains s x = true -> plain_server x).

(** A configuration as [dnsReadConfig] reads it from a file that has no
    bracket in the zone of a server ([read_conf_ok]). *)
Definition conf_ok (c : dnsConfig) : Prop :=
  Forall plain_server (cf_servers c) /\ cf_servers c <> [] /\ (1 <= cf_attempts c)%Z.

(** What [dnsReadConfig] reads is as [conf_ok] says, when no server of the
    file has a bracket. *)
Lemma read_conf_ok `{!DnsLaws} file hostname :
  plain_file file -> conf_ok (dnsReadConfig file hostname).
Proof.
  intros Hf. split; [by apply read_plain|].
  destruct (dnsReadConfig_inv file hostname) as [Hinv Hne].
  split; [done|apply (ci_attempts _ Hinv)].
Qed.

Lemma updateTransports_inv servers t :
  Forall plain_server servers -> local_inv t ->
  exists t', updateTransports servers t = Ret t' /\ local_inv t' /\ lt_host t' = lt_host t.
Proof.
  intros Hs [Ht Hc]. unfold updateTransports. rewrite Ht, map_to_list_empty.
  destruct (match lt_servers t with Some s => _ | None => false end).
  { eexists. split; [done|]. done. }
  destruct servers as [|s servers]; simpl; (eexists; split; [done|]; split; [|done]); split; try done;
    simpl; intros ms x [= <-].
  - by rewrite NewSet_Contains.
  - rewrite FromSlice_Contains. intros Hx. bool_hyps. by eapply Forall_forall in Hs.
Qed.

Lemma pull_fails s t :
  plain_server s -> local_inv t ->
  let addr := FromParseSocksaddr s in
  exists e, pullTransport (MkSocks (sa_Fqdn addr) (sa_Addr addr) 53) t = ((None, Some e), t).
Proof.
  intros Hs [Ht Hc]. simpl. unfold pullTransport, pull_read.
  set (text := Socksaddr_AddrString _).
  assert (text = Socksaddr_AddrString (FromParseSocksaddr s)) as Htext by done.
  assert (match lt_servers t with Some s => set_Contains s text | None => false end = false) as ->.
  { destruct (lt_servers t) as [ms|]; [|done].
    destruct (set_Contains ms text) eqn:E; [|done].
    exfalso. apply (AddrString_not_server s text); [done| |by rewrite Htext].
    by eapply Hc. }
  by eexists.
Qed.

Context {W : Type} (dns_Id : ST W Z).
Local Abbreviation udpT := (Socksaddr -> Z -> Msg -> ST W attempt).
Local Abbreviation tcpT := (Socksaddr -> Z -> Msg -> ST W (exec (gores (option Msg)))).

(** The two configurations differ in the rotation only: what does not look
    at it holds of the second when it holds of the first. *)
Definition stable_conf (K : dnsConfig -> Prop) : Prop := forall v c, K c -> K (set_soffset v c).
Definition rotated (c c' : dnsConfig) : Prop := forall K, stable_conf K -> K c -> K c'.

Lemma rotated_trans c1 c2 c3 : rotated c1 c2 -> rotated c2 c3 -> rotated c1 c3.
Proof. intros H12 H23 K HK Hc. by apply H23, H12. Qed.

Lemma rotated_refl c : rotated c c.
Proof. by intros K. Qed.

Lemma stable_conf_ok : stable_conf conf_ok.
Proof. by intros v c. Qed.

#[local] Hint Resolve rotated_refl : core.

(** A computation over two networks gives the same for both. *)
Definition offline {A} (f : udpT -> tcpT -> ST (local_world W) A) (w : local_world W)
    (P : A -> Prop) : Prop :=
  exists a w', (forall udp tcp, f udp tcp w = (a, w')) /\ P a /\
    local_inv (lw_local w') /\ rotated (lw_conf w) (lw_conf w') /\
    lt_host (lw_local w') = lt_host (lw_local w).

Definition fails (r : exec (gores (option Msg))) : Prop := exists e, r = Ret (None, Some e).

Lemma tryOneName_fails config fqdn message question w :
  conf_ok config -> local_inv (lw_local w) ->
  offline (fun udp tcp => tryOneName udp tcp dns_Id config fqdn message question) w fails.
Proof.
  intros (Hs & Hne & Ha) Hw. unfold offline, tryOneName.
  set (w1 := (lw_serverOffset w).2).
  assert (local_inv (lw_local w1) /\ rotated (lw_conf w) (lw_conf w1) /\
    lt_host (lw_local w1) = lt_host (lw_local w)) as (Hw1 & Hc1 & Hh1).
  { subst w1. unfold lw_serverOffset, serverOffset.
    destruct (cf_rotate (lw_conf w)); [|done]. split_and!; [done| |done].
    intros K HK Hc. by apply HK. }
  destruct (updateTransports_inv (cf_servers config) (lw_local w1) Hs Hw1) as (t' & Hu & Ht' & Hht).
  rewrite Hh1 in Hht.
  set (w2 := MkLW (lw_rc w1) t' (lw_net w1)).
  set (w3 := ((if Z.eqb (m_Id message) 0 then lift_net dns_Id else mret (m_Id message)) w2).2).
  assert (local_inv (lw_local w3) /\ rotated (lw_conf w) (lw_conf w3) /\
    lt_host (lw_local w3) = lt_host (lw_local w)) as (Hw3 & Hc3 & Hh3).
  { subst w3. destruct (Z.eqb (m_Id message) 0); [|done]. unfold lift_net. by destruct (dns_Id _). }
  destruct (cf_servers config) as [|s0 rest] eqn:Es; [done|]. rewrite <- Es in *.
  assert (exists js, concat (repeat (seq 0 (length (cf_servers config))) (Z.to_nat (cf_attempts config)))
    = 0 :: js) as [js Hjs].
  { rewrite Es. destruct (Z.to_nat (cf_attempts config)) as [|n] eqn:En; [lia|]. by eexists. }
  set (offset := (lw_serverOffset w).1).
  set (server := default "" (cf_servers config !! Z.to_nat (u32 (offset + Z.of_nat 0) mod
    Z.of_nat (length (cf_servers config))))).
  assert (plain_server server) as Hserver.
  { rewrite Forall_forall in Hs. apply Hs. subst server.
    assert (Z.to_nat (u32 (offset + Z.of_nat 0) mod Z.of_nat (length (cf_servers config))) <
      length (cf_servers config)) as Hlt.
    { assert (0 < Z.of_nat (length (cf_servers config)))%Z as Hp by (rewrite Es; simpl; lia).
      pose proof (Z.mod_pos_bound (u32 (offset + Z.of_nat 0)) _ Hp). lia. }
    apply lookup_lt_is_Some_2 in Hlt as [x Hx]. rewrite Hx. by eapply list_elem_of_lookup_2. }
  destruct (pull_fails server (lw_local w3) Hserver Hw3) as [e He].
  destruct (ex_Cause_some e "pull transport") as [e' He'].
  exists (Ret (None, Some e')), w3. split; [|split; [by eexists|done]]. intros udp tcp.
  rewrite ST_bind_run. unfold ex_bind at 1, lw_updateTransports. fold w1. rewrite Hu. fold w2.
  rewrite ST_bind_run. fold w3. rewrite Hjs. cbn [try_servers]. fold offset server.
  rewrite ST_bind_run. unfold lw_pullTransport. rewrite He. cbn [fst snd].
  unfold ex_ret. rewrite He'. by destruct w3.
Qed.

Lemma single_loop_fails config message question names lastErr w :
  conf_ok config -> local_inv (lw_local w) ->
  offline (fun udp tcp => single_loop udp tcp dns_Id config message question names lastErr) w
    (fun r => exists e, r = Ret (None, e) /\ (e = None -> names = [] /\ lastErr = None)).
Proof.
  intros Hc. revert lastErr w. induction names as [|fqdn names IH]; intros lastErr w Hw.
  { by exists (Ret (None, lastErr)), w; split; [|split; [by eexists|]]. }
  destruct (tryOneName_fails config fqdn message question w Hc Hw)
    as (r & w1 & Hr & [e ->] & Hw1 & Hc1 & Hh1).
  destruct (IH (Some e) w1 Hw1) as (r & w2 & Hr2 & He & Hw2 & Hc2 & Hh2). rewrite Hh1 in Hh2.
  exists r, w2. split; [|split_and!; eauto using rotated_trans].
  2: { destruct He as (e' & -> & He). exists e'. split; [done|]. intros ->. by destruct He. }
  intros udp tcp. cbn [single_loop]. unfold ex_bind.
  rewrite Hr. apply Hr2.
Qed.

Lemma parallel_loop_fails config message question names evs errors w :
  conf_ok config -> local_inv (lw_local w) ->
  offline (fun udp tcp => parallel_loop
      (fun fqdn => tryOneName udp tcp dns_Id config fqdn message question) names evs errors) w
    (fun r => (r = None /\ ~ exists evs0 e, evs = evs0 ++ [PCtx e]) \/
       exists e, r = Some (Ret (None, Some e))).
Proof.
  intros Hc. revert errors w. induction evs as [|ev evs IH]; intros errors w Hw.
  { exists None, w. split; [done|]. split; [|done]. left. split; [done|].
    by intros ([|? ?] & ? & ?). }
  destruct ev as [e|k]; cbn [parallel_loop].
  { exists (Some (Ret (None, Some e))), w. split; [done|]. split; [right; by eexists|done]. }
  assert (forall r : option (exec (gores (option Msg))),
    ((r = None /\ ~ exists evs0 e, evs = evs0 ++ [PCtx e]) \/
     exists e, r = Some (Ret (None, Some e))) ->
    (r = None /\ ~ exists evs0 e, PRacer k :: evs = evs0 ++ [PCtx e]) \/
    exists e, r = Some (Ret (None, Some e))) as Hlast.
  { intros r [[-> Hn]|Hr]; [left|by right]. split; [done|]. intros ([|ev0 evs0] & e & He); [done|].
    apply Hn. exists evs0, e. by injection He. }
  destruct (names !! k) as [fqdn|].
  2: { destruct (IH errors w Hw) as (r & w' & Hr & HP & Hrest). exists r, w'. auto. }
  destruct (tryOneName_fails config fqdn message question w Hc Hw)
    as (r & w1 & Hr & [e ->] & Hw1 & Hc1 & Hh1).
  destruct (length (errors ++ [Some e]) =? length names) eqn:El.
  - exists (Some (Ret (None, ex_Errors (errors ++ [Some e])))), w1.
    split; [|split; [right|done]].
    + intros udp tcp. rewrite ST_bind_run, Hr. cbn [fst snd]. by rewrite El.
    + destruct (ex_Errors_is_Some (errors ++ [Some e])) as [e' He'].
      { exists e. rewrite elem_of_app. right. by apply list_elem_of_singleton. }
      exists e'. by rewrite He'.
  - destruct (IH (errors ++ [Some e]) w1 Hw1) as (r & w2 & Hr2 & He & Hw2 & Hc2 & Hh2).
    rewrite Hh1 in Hh2. exists r, w2. split; [|split_and!; eauto using rotated_trans]. intros udp tcp. rewrite ST_bind_run, Hr.
    cbn [fst snd]. rewrite El. apply Hr2.
Qed.

End never.

(** *** The parallel exchange *)

Section parallel.
Context `{ExLib} {V : Type} (racer : string -> ST V (exec (gores (option Msg)))).
Context (res : string -> gores (option Msg)) (names : list string).
Hypothesis racer_res : forall fqdn w, (racer fqdn w).1 = Ret (res fqdn).

Definition racer_result (k : nat) : gores (option Msg) := res (default "" (names !! k)).

(** The next racer that finishes. *)
Lemma parallel_step k evs errors w :
  k < length names ->
  exists w', parallel_loop racer names (PRacer k :: evs) errors w =
    match racer_result k with
    | (response, None) => (Some (Ret (response, None)), w')
    | (_, Some e) =>
        if (length (errors ++ [Some e]) =? length names)
        then (Some (Ret (None, ex_Errors (errors ++ [Some e]))), w')
        else parallel_loop racer names evs (errors ++ [Some e]) w'
    end.
Proof.
  intros Hk. destruct (lookup_lt_is_Some_2 _ _ Hk) as [fqdn Hn]. exists (racer fqdn w).2.
  unfold racer_result. rewrite Hn. cbn [parallel_loop]. rewrite Hn, ST_bind_run, racer_res. simpl.
  destruct (res fqdn) as [response [e|]]; [|done]. by destruct (_ =? _).
Qed.

(** Racers that fail, as long as they are not all of them. *)
Lemma parallel_failures ks evs errors w :
  Forall (fun k => k < length names) ks -> Forall (fun k => is_Some (racer_result k).2) ks ->
  length errors + length ks < length names \/ ks = [] ->
  exists w', parallel_loop racer names ((PRacer <$> ks) ++ evs) errors w =
    parallel_loop racer names evs (errors ++ ((fun k => (racer_result k).2) <$> ks)) w'.
Proof.
  revert errors w. induction ks as [|k ks IH]; intros errors w Hk Hf Hl.
  { exists w. simpl. by rewrite app_nil_r. }
  inversion_clear Hk as [|? ? Hk0 Hk1]. inversion_clear Hf as [|? ? [e He] Hf1].
  simpl in Hl. destruct Hl as [Hl|]; [|done].
  destruct (parallel_step k ((PRacer <$> ks) ++ evs) errors w Hk0) as [w1 Hw1].
  destruct (IH (errors ++ [Some e]) w1 Hk1 Hf1) as [w' Hw'].
  { left. rewrite length_app. simpl. lia. }
  exists w'. rewrite !fmap_cons. simpl app. rewrite Hw1.
  destruct (racer_result k) as [response e0]. simpl in He |- *. subst e0.
  destruct (Nat.eqb_spec (length (errors ++ [Some e])) (length names)) as [E|_];
    [rewrite length_app in E; simpl in E; lia|].
  by rewrite Hw', <- app_assoc.
Qed.

Lemma distinct_racers ks :
  NoDup ks -> Forall (fun k => k < length names) ks -> length ks <= length names.
Proof.
  intros Hnd Hks. rewrite <- (length_seq (length names) 0). apply submseteq_length, NoDup_submseteq; [done|].
  intros k Hk. rewrite Forall_forall in Hks. apply elem_of_seq. specialize (Hks k Hk). lia.
Qed.

Lemma parallel_success ks1 k ks2 response w :
  Forall (fun k => k < length names) (ks1 ++ k :: ks2) -> NoDup (ks1 ++ k :: ks2) ->
  Forall (fun k => is_Some (racer_result k).2) ks1 -> racer_result k = (response, None) ->
  (parallel_loop racer names (PRacer <$> (ks1 ++ k :: ks2)) [] w).1 = Some (Ret (response, None)).
Proof.
  intros Hks Hnd Hf Hr. pose proof (distinct_racers _ Hnd Hks) as Hlen.
  apply Forall_app in Hks as [Hk1 Hk2]. inversion_clear Hk2 as [|? ? Hk0 _].
  rewrite length_app in Hlen. simpl in Hlen. rewrite fmap_app, fmap_cons.
  destruct (parallel_failures ks1 (PRacer k :: (PRacer <$> ks2)) [] w Hk1 Hf) as [w' Hw'];
    [left; simpl; lia|]. rewrite Hw'.
  destruct (parallel_step k (PRacer <$> ks2) ([] ++ ((fun k => (racer_result k).2) <$> ks1)) w' Hk0)
    as [w2 Hw2]. by rewrite Hw2, Hr.
Qed.

Lemma parallel_all_failed ks w :
  Forall (fun k => k < length names) ks -> length ks = length names -> names <> [] ->
  Forall (fun k => is_Some (racer_result k).2) ks ->
  (parallel_loop racer names (PRacer <$> ks) [] w).1 =
    Some (Ret (None, ex_Errors ((fun k => (racer_result k).2) <$> ks))).
Proof.
  intros Hks Hl Hne Hf. induction ks as [|k ks1 _] using rev_ind; [by destruct names|].
  rewrite length_app in Hl. simpl in Hl.
  apply Forall_app in Hks as [Hk1 Hk2]. inversion_clear Hk2 as [|? ? Hk0 _].
  apply Forall_app in Hf as [Hf1 Hf2]. inversion_clear Hf2 as [|? ? [e He] _].
  rewrite !fmap_app.
  destruct (parallel_failures ks1 (PRacer <$> [k]) [] w Hk1 Hf1) as [w' ->]; [left; simpl; lia|].
  destruct (parallel_step k [] ([] ++ ((fun k => (racer_result k).2) <$> ks1)) w' Hk0) as [w2 Hw2].
  change (PRacer <$> [k]) with [PRacer k]. rewrite Hw2. simpl. destruct (racer_result k) as [response e0].
  simpl in He |- *. subst e0.
  rewrite length_app, length_fmap. simpl. by rewrite Hl, Nat.eqb_refl.
Qed.
End parallel.

(** ** Properties *)

(** What an exchange comes to, with the servers a file gives. *)
Section local_exchange.
Context `{SetLaws} `{DnsLib} `{ExLaws} {W : Type} (dns_Id : ST W Z).

Definition host_answer (ev : host_env) (message m : Msg) (w : local_world W) : Prop :=
  exists question host, head (m_Question message) = Some question /\
    lt_host (lw_local w) = Some host /\
    m = FixedResponse (m_Id message) question
          (File_Lookup ev (FqdnToDomain (q_Name question)) host).1 DefaultResolverTTL.

(** The configuration an exchange uses, and whether it asks for one name
    after the other. *)
Definition current_conf (uev : update_env) (w : local_world W) : dnsConfig :=
  rc_conf (tryUpdate uev (lw_rc w)).

Definition single_path (uev : update_env) (w : local_world W) (question : Question) : bool :=
  cf_singleRequest (current_conf uev w) ||
  negb (Z.eqb (q_Qtype question) TypeA || Z.eqb (q_Qtype question) TypeAAAA).

(** The host file after an exchange. *)
Definition host_step (ev : host_env) (t t' : LocalTransport) : Prop :=
  lt_host t' = lt_host t \/
  exists name host, lt_host t = Some host /\ lt_host t' = Some (File_Lookup ev name host).2.

(** What holds of every configuration that is read from the file, holds of
    the one in use. *)
Definition rc_ok (K : dnsConfig -> Prop) (rc : resolverConfig) : Prop :=
  rc_inited rc = true -> K (rc_conf rc).

Lemma tryUpdate_ok (K : dnsConfig -> Prop) uev rc :
  rc_ok K rc -> K (ue_read uev) -> K (rc_conf (tryUpdate uev rc)).
Proof.
  intros Hrc Hu. unfold tryUpdate.
  assert (K (rc_conf (if rc_inited rc then rc else rc_init uev rc))) as Hc
    by (unfold rc_ok in Hrc; destruct (rc_inited rc); auto).
  set (rc1 := if rc_inited rc then rc else rc_init uev rc) in *.
  destruct (cf_noReload (rc_conf rc1)); [done|]. destruct (rc_sema rc1); [done|]. cbv zeta.
  destruct (Z.ltb _ _); [done|]. by destruct (Z.eqb _ _).
Qed.

(** Looking at the hosts file. *)
Lemma lookup_host_spec ev domain isA (w : local_world W) :
  let '(address, w') := lookup_host ev domain isA w in
  (local_inv (lw_local w) -> local_inv (lw_local w')) /\ lw_rc w' = lw_rc w /\
  host_step ev (lw_local w) (lw_local w') /\
  (address <> [] -> exists host, lt_host (lw_local w) = Some host /\
     address = (File_Lookup ev domain host).1).
Proof.
  unfold lookup_host, host_step. destruct (lt_host (lw_local w)) as [host|] eqn:Eh; [|by split_and!; auto].
  destruct isA; [|by split_and!; auto]. destruct (File_Lookup ev domain host) as [address h] eqn:E.
  split; [done|]. split; [done|]. split.
  - right. exists domain, host. by rewrite E.
  - intros _. exists host. by rewrite E.
Qed.

(** The rest of an exchange, with the configuration of the moment, when the
    hosts file has no address. *)
Lemma exchange_names_offline evs message question (w : local_world W) :
  conf_ok (lw_conf w) -> local_inv (lw_local w) ->
  forall single : bool,
  offline (fun udp tcp =>
      if single
      then Some <$> exchangeSingleRequest udp tcp dns_Id (lw_conf w) message question
             (FqdnToDomain (q_Name question))
      else exchangeParallel udp tcp dns_Id evs (lw_conf w) message question
             (FqdnToDomain (q_Name question))) w
    (fun r =>
      match r with
      | None => ~ exists evs0 e, evs = evs0 ++ [PCtx e]
      | Some (Ret (None, e)) => e = None ->
          single = true /\ nameList (lw_conf w) (FqdnToDomain (q_Name question)) = []
      | Some (Ret (Some m, e)) => False
      | Some (Panic _) => False
      end).
Proof.
  intros Hc Hw single. destruct single.
  - destruct (single_loop_fails dns_Id (lw_conf w) message question
      (nameList (lw_conf w) (FqdnToDomain (q_Name question))) None w Hc Hw)
      as (r & w' & Hr & [e [-> Hnil]] & Hrest).
    exists (Some (Ret (None, e))), w'. split; [|split; [|exact Hrest]].
    + intros udp tcp. unfold fmap, ST_fmap, exchangeSingleRequest. by rewrite Hr.
    + intros He. split; [done|]. by destruct (Hnil He).
  - destruct (parallel_loop_fails dns_Id (lw_conf w) message question
      (nameList (lw_conf w) (FqdnToDomain (q_Name question))) evs [] w Hc Hw)
      as (r & w' & Hr & He & Hrest).
    exists r, w'. split; [exact Hr|]. split; [|exact Hrest]. by destruct He as [[-> ?]|[e ->]].
Qed.

Lemma Local_Exchange_offline (K : dnsConfig -> Prop) ev uev evs message (w : local_world W) :
  stable_conf K -> (forall c, K c -> conf_ok c) ->
  local_inv (lw_local w) -> rc_ok K (lw_rc w) -> K (ue_read uev) ->
  exists r w',
    (forall udp tcp, Local_Exchange udp tcp dns_Id ev uev evs message w = (r, w')) /\
    local_inv (lw_local w') /\ rc_ok K (lw_rc w') /\ host_step ev (lw_local w) (lw_local w') /\
    match r with
    | None => ~ exists evs0 e, evs = evs0 ++ [PCtx e]
    | Some (Ret (None, e)) => e = None -> exists question qs,
        m_Question message = question :: qs /\ single_path uev w question = true /\
        nameList (current_conf uev w) (FqdnToDomain (q_Name question)) = []
    | Some (Ret (Some m, e)) => e = None /\ host_answer ev message m w
    | Some (Panic _) => False
    end.
Proof.
  intros HK HKok Hw Hrc Hu. unfold Local_Exchange.
  destruct (m_Question message) as [|question qs] eqn:Eq.
  { eexists _, w. split_and!; try done. by left. }
  set (isA := (Z.eqb (q_Qtype question) TypeA || Z.eqb (q_Qtype question) TypeAAAA)%bool).
  pose proof (lookup_host_spec ev (FqdnToDomain (q_Name question)) isA w) as Hl.
  destruct (lookup_host ev _ isA w) as [address w0] eqn:El. destruct Hl as (Hw0 & Hc0 & Hs0 & Ha).
  specialize (Hw0 Hw). destruct address as [|x l].
  - set (w1 := (getSystemDNSConfig uev w0).2).
    assert (lw_conf w1 = current_conf uev w) as Hcc by (unfold current_conf; by rewrite <- Hc0).
    assert (K (lw_conf w1)) as HKc by (rewrite Hcc; exact (tryUpdate_ok K uev _ Hrc Hu)).
    destruct (exchange_names_offline evs message question w1 (HKok _ HKc) Hw0
      (cf_singleRequest (lw_conf w1) || negb isA)) as (r & w2 & Hr & Hres & Hw2 & Hrot & Hh2).
    exists r, w2. split; [|split; [done|split; [|split]]].
    + intros udp tcp. rewrite ST_bind_run, El. cbn [fst snd]. rewrite ST_bind_run.
      change ((getSystemDNSConfig uev w0).1) with (lw_conf w1). fold w1. cbn [fst snd]. apply Hr.
    + intros _. by apply (Hrot K).
    + unfold host_step in *. by rewrite Hh2.
    + destruct r as [[[[m|] e]|]|]; try done. intros He. destruct (Hres He) as [Hb Hn].
      exists question, qs. unfold single_path. by rewrite <- Hcc.
  - destruct (Ha ltac:(done)) as (host & Hh & Hx).
    eexists _, w0. split; [|split; [done|split; [by rewrite Hc0|split; [done|]]]].
    + intros udp tcp. rewrite ST_bind_run, El. reflexivity.
    + cbv iota beta. split; [done|]. exists question, host. rewrite Eq. split; [done|].
      split; [done|]. by rewrite <- Hx.
Qed.

End local_exchange.

(** The local transport never asks a server.  The set of its servers
    holds texts with a port, a transport is looked up under the text of the
    address alone: with servers whose addresses have no brackets, and whatever the file is
    when it is read again, an exchange ends the same way whatever the network
    would answer, and it has no other answer than one of the hosts file; the
    exchanges after it are in the same case. *)
Theorem local_never_queries `{SetLaws} `{DnsLib} `{ExLaws} {W} (dns_Id : ST W Z)
    ev uev evs message (w : local_world W) :
  local_inv (lw_local w) -> rc_ok conf_ok (lw_rc w) -> conf_ok (ue_read uev) ->
  exists r w',
    (forall udp tcp, Local_Exchange udp tcp dns_Id ev uev evs message w = (r, w')) /\
    local_inv (lw_local w') /\ rc_ok conf_ok (lw_rc w') /\
    match r with
    | None | Some (Ret (None, _)) => True
    | Some (Ret (Some m, _)) =>
        exists question host, head (m_Question message) = Some question /\
          lt_host (lw_local w) = Some host /\
          m = FixedResponse (m_Id message) question
                (File_Lookup ev (FqdnToDomain (q_Name question)) host).1 DefaultResolverTTL
    | Some (Panic _) => False
    end.
Proof.
  intros Hw Hc Hu.
  destruct (Local_Exchange_offline dns_Id conf_ok ev uev evs message w stable_conf_ok
    (fun c H => H) Hw Hc Hu)
    as (r & w' & Hr & Hw' & Hc' & _ & Hres).
  exists r, w'. split; [done|]. split; [done|]. split; [done|].
  destruct r as [[[[m|] e]|why]|]; try done. by destruct Hres.
Qed.

(** A set of the witnesses. *)
Module GSet.
#[global] Instance gset_lib : SetLib | 100 := {
  MSet := gset string;
  NewSet := ∅;
  NewSetFromSlice l := list_to_set l;
  set_Contains s x := bool_decide (x ∈ s);
  set_ContainAll s l := forallb (fun x => bool_decide (x ∈ s)) l;
  set_len s := size s;
}.

#[global] Instance gset_laws : @SetLaws gset_lib | 100.
Proof.
  split; simpl.
  - intros x. by apply bool_decide_eq_false, not_elem_of_empty.
  - intros l x. apply bool_decide_ext. apply elem_of_list_to_set.
  - done.
  - intros s. exists (elements s). split; [apply NoDup_elements|]. split; [done|].
    intros x. apply bool_decide_ext. symmetry. apply elem_of_elements.
Qed.
End GSet.

Module LocalExample.
Import DnsSimple ExTree GSet.

Definition conf : dnsConfig := set_servers ["127.0.0.1:53"; "[::1]:53"] conf_init.
Definition question : Question := MkQuestion "example.org." TypeA ClassINET.
Definition message : Msg := MkMsg 7 false false false true false false 0 false [question] [] [] [].
Definition world : local_world nat := MkLW (MkRC false false 0 conf_init) (NewLocalTransport (Some None)) 0.
Definition env : host_env := MkHostEnv 0 None None.
Definition uenv : update_env := MkUpdateEnv 0 None conf.
End LocalExample.

(** A file with a bracket in the zone of a server: [JoinHostPort] and the
    text of the address give the same, and the transport is found. *)
Module BracketExample.
Import DnsSimple ExTree GSet.

Definition file : file_view := inl ("nameserver fe80::1%]" +++ String newline "", inl 1%Z).
Definition conf : dnsConfig := dnsReadConfig file ("host", None).
Definition server : Socksaddr := FromParseSocksaddr "[fe80::1%]]:53".

Lemma conf_servers : cf_servers conf = ["[fe80::1%]]:53"].
Proof. by vm_compute. Qed.

Lemma server_AddrString : Socksaddr_AddrString server = "[fe80::1%]]:53".
Proof. by vm_compute. Qed.

(** Whether a transport is there for the server. *)
Definition served : bool :=
  match updateTransports (cf_servers conf) (NewLocalTransport None) with
  | Ret t => match pullTransport server t with ((Some _, None), _) => true | _ => false end
  | Panic _ => false
  end.

Lemma server_pulled : served = true.
Proof. vm_compute. reflexivity. Qed.

(** A file with the usual lines has no bracket. *)
Lemma plain_example : plain_file (inl ("nameserver ::1" +++ String newline "", inl 1%Z)).
Proof. intros line [<-|[]] f1 f. vm_compute. intros [= <- _]. done. Qed.
End BracketExample.

Lemma local_never_queries_witness :
  let world := LocalExample.world in
  exists r w',
    (forall udp tcp, Local_Exchange (W := nat) udp tcp (fun n => (5%Z, n)) LocalExample.env
       LocalExample.uenv [PRacer 0] LocalExample.message world = (r, w')) /\
    r = Some (Ret (None, ex_Errors [ex_Cause (Some (not_configured "127.0.0.1")) "pull transport"])).
Proof.
  cbv zeta.
  assert (Forall plain_server (cf_servers LocalExample.conf)) as Hs.
  { repeat constructor; [exists "127.0.0.1", (Addr4 2130706433)|exists "::1", (Addr6 1 "")];
      (split; [by vm_compute|]); done. }
  destruct (local_never_queries (fun n : nat => (5%Z, n)) LocalExample.env
    LocalExample.uenv [PRacer 0] LocalExample.message LocalExample.world) as (r & w' & Hr & _).
  - split; [done|]. by intros s x [= ].
  - done.
  - split; [exact Hs|]. split; [done|vm_compute; discriminate].
  - exists r, w'. split; [exact Hr|].
    pose proof (Hr (fun _ _ _ n => (ATransportDone, n)) (fun _ _ _ n => (Panic "", n))) as He.
    apply (f_equal fst) in He. simpl in He. rewrite <- He. by vm_compute.
Defined.

(** The parallel exchange.  If each racer has a result of its own, then
    whatever the order in which they finish, the call returns the response
    of the first one without an error, and when all have failed it returns
    their errors joined; when the name list is empty it waits for the
    context to end. *)
Theorem parallel_loop_spec `{ExLib} {V} (racer : string -> ST V (exec (gores (option Msg))))
    (res : string -> gores (option Msg)) names ks w :
  (forall fqdn w, (racer fqdn w).1 = Ret (res fqdn)) ->
  NoDup ks -> Forall (fun k => k < length names) ks ->
  let run := fun evs => (parallel_loop racer names evs [] w).1 in
  let result := racer_result res names in
  (forall ks1 k ks2 response, ks = ks1 ++ k :: ks2 ->
     Forall (fun k => is_Some (result k).2) ks1 -> result k = (response, None) ->
     run (PRacer <$> ks) = Some (Ret (response, None))) /\
  (length ks = length names -> names <> [] -> Forall (fun k => is_Some (result k).2) ks ->
     run (PRacer <$> ks) = Some (Ret (None, ex_Errors ((fun k => (result k).2) <$> ks)))) /\
  (forall e, Forall (fun k => is_Some (result k).2) ks ->
     length ks < length names \/ names = [] ->
     run (PRacer <$> ks) = None /\
     run ((PRacer <$> ks) ++ [PCtx e]) = Some (Ret (None, Some e))).
Proof.
  intros Hres Hnd Hks run result. split; [|split].
  - intros ks1 k ks2 response -> Hf Hr. by eapply parallel_success.
  - intros Hl Hne Hf. by apply parallel_all_failed.
  - intros e Hf Hl. assert (length (@nil (option err)) + length ks < length names \/ ks = []) as Hl'.
    { destruct Hl as [Hl| ->]; [by left|right]. inversion Hks; [done|]. simpl in *. lia. }
    split; subst run; cbv beta.
    + destruct (parallel_failures _ _ _ Hres ks [] [] w Hks Hf Hl') as [w' Hw].
      rewrite app_nil_r in Hw. by rewrite Hw.
    + by destruct (parallel_failures _ _ _ Hres ks [PCtx e] [] w Hks Hf Hl') as [w' ->].
Qed.

Lemma parallel_loop_spec_witness :
  let racer := fun fqdn : string => fun n : nat =>
    (Ret (if String.eqb fqdn "b." then (Some msg_zero, None) else (None, Some EMSGSIZE)), S n) in
  (parallel_loop (H1 := ExTree.ex_tree) racer ["a."; "b."; "c."] [PRacer 2; PRacer 1; PRacer 0] [] 0).1
    = Some (Ret (Some msg_zero, None)).
Proof.
  refine (proj1 (parallel_loop_spec (H := ExTree.ex_tree) _
    (fun fqdn => if String.eqb fqdn "b." then (Some msg_zero, None) else (None, Some EMSGSIZE))
    ["a."; "b."; "c."] [2; 1; 0] 0 _ _ _) [2] 1 [0] (Some msg_zero) _ _ _).
  - reflexivity.
  - by apply (bool_decide_unpack _).
  - repeat constructor; simpl; lia.
  - reflexivity.
  - repeat constructor. by eexists.
  - reflexivity.
Defined.
