(* ===== verification/Parallel.v ===== *)
(** * The racers of a parallel exchange: [exchangeParallel]

    [LocalTransport.exchangeParallel] of [resolve/transport/local.go] starts
    one goroutine for each name and takes their results from a channel.  Here
    the goroutines, the loop, its deferred functions and the context are
    stepped, in any order; [parallel_loop] of Local, which looks at one
    finished racer after the other, is shown to give the same result. *)

From S2P Require Import Prelude GoStd Netip Meta Dns Addrs Lines ResolvConf Tcp Udp UdpTransport Local.

(** ** State *)

(** A racer: in [tryOneName], in its [select] with a result, at its end. *)
Inductive racer_pc :=
  | PRun
  | PSend (r : gores (option Msg))
  | PEnd.

(** The loop: receiving, with the errors so far, or on its way out with its
    result, before [queryCancel] and before [close(returned)], or out. *)
Inductive loop_pc :=
  | LLoop (errors : list (option err))
  | LCancel (r : gores (option Msg))
  | LClose (r : gores (option Msg))
  | LOut (r : gores (option Msg)).

(** [pl_got] are the racers whose results the loop has received, in this
    order; [pl_ctx] is the error of the context when it has ended. *)
Record parallel_state := MkPL {
  pl_racers : list racer_pc;
  pl_loop : loop_pc;
  pl_ctx : option err;
  pl_got : list nat;
}.

(** What [returned] and [queryCtx] are. *)
Definition pl_returned (s : parallel_state) : bool :=
  match pl_loop s with LOut _ => true | _ => false end.
Definition pl_cancelled (s : parallel_state) : bool :=
  match pl_loop s, pl_ctx s with LClose _, _ | LOut _, _ | _, Some _ => true | _, None => false end.

(** ** The steps *)

Inductive pl_event :=
  | EFinish (k : nat)          (* tryOneName returns *)
  | EResult (k : nat)          (* the loop receives the result of racer [k] *)
  | EQuit (k : nat)            (* racer [k] sees [returned] *)
  | ECtxEnds (e : err)
  | ECtxDone                   (* the loop sees the end of the context *)
  | EDefer.                    (* the next deferred function *)

Section parallel.
Context `{ExLib}.
(** The names, or whatever tells the queries apart, and what [tryOneName]
    returns for each. *)
Context {N : Type}.
Variable names : list N.
Variable try : N -> gores (option Msg).

Definition pl_start : parallel_state := MkPL (List.map (fun _ => PRun) names) (LLoop []) None [].

(** The loop with a result. *)
Definition on_racer_result (r : gores (option Msg)) (errors : list (option err)) : loop_pc :=
  match r with
  | (response, None) => LCancel (response, None)
  | (_, Some e) =>
      let errors := errors ++ [Some e] in
      if (length errors =? length names)%nat then LCancel (None, ex_Errors errors) else LLoop errors
  end.

Definition pl_step (ev : pl_event) (s : parallel_state) : option parallel_state :=
  match ev with
  | EFinish k =>
      match pl_racers s !! k, names !! k with
      | Some PRun, Some fqdn =>
          Some (MkPL (<[k := PSend (try fqdn)]> (pl_racers s)) (pl_loop s) (pl_ctx s) (pl_got s))
      | _, _ => None
      end
  | EResult k =>
      match pl_racers s !! k, pl_loop s with
      | Some (PSend r), LLoop errors =>
          Some (MkPL (<[k := PEnd]> (pl_racers s)) (on_racer_result r errors) (pl_ctx s) (pl_got s ++ [k]))
      | _, _ => None
      end
  | EQuit k =>
      match pl_racers s !! k with
      | Some (PSend _) =>
          if pl_returned s
          then Some (MkPL (<[k := PEnd]> (pl_racers s)) (pl_loop s) (pl_ctx s) (pl_got s))
          else None
      | _ => None
      end
  | ECtxEnds e =>
      match pl_ctx s with
      | None => Some (MkPL (pl_racers s) (pl_loop s) (Some e) (pl_got s))
      | Some _ => None
      end
  | ECtxDone =>
      match pl_loop s, pl_ctx s with
      | LLoop _, Some e => Some (MkPL (pl_racers s) (LCancel (None, Some e)) (pl_ctx s) (pl_got s))
      | _, _ => None
      end
  | EDefer =>
      match pl_loop s with
      | LCancel r => Some (MkPL (pl_racers s) (LClose r) (pl_ctx s) (pl_got s))
      | LClose r => Some (MkPL (pl_racers s) (LOut r) (pl_ctx s) (pl_got s))
      | _ => None
      end
  end.

Inductive pl_run : nat -> parallel_state -> Prop :=
  | pl_run_start : pl_run 0 pl_start
  | pl_run_step n s ev s' : pl_run n s -> pl_step ev s = Some s' -> pl_run (S n) s'.

(** ** Lemmas *)

(** The loop of Local, over the results themselves. *)
Definition run_loop (evs : list parallel_event) (errors : list (option err))
    : option (exec (gores (option Msg))) :=
  (parallel_loop (V := unit) (fun fqdn => mret (Ret (try fqdn))) names evs errors tt).1.

Lemma run_loop_racer k fqdn evs errors :
  names !! k = Some fqdn ->
  run_loop (PRacer k :: evs) errors =
  match on_racer_result (try fqdn) errors with
  | LLoop errors' => run_loop evs errors'
  | LCancel r | LClose r | LOut r => Some (Ret r)
  end.
Proof.
  intros Hk. unfold run_loop at 1. simpl. rewrite Hk, ST_bind_run. cbn [mret ST_ret fst snd].
  unfold on_racer_result. destruct (try fqdn) as [response [e|]]; [|done].
  cbv zeta. by destruct (Nat.eqb (length (errors ++ [Some e])) (length names)).
Qed.

Definition racer_progress (pc : racer_pc) : nat := match pc with PRun => 0 | PSend _ => 1 | PEnd => 2 end.
Definition loop_progress (pc : loop_pc) : nat :=
  match pc with LLoop _ => 0 | LCancel _ => 1 | LClose _ => 2 | LOut _ => 3 end.
Definition racers_progress (l : list racer_pc) : nat := sum_list (racer_progress <$> l).

Lemma racers_progress_cons pc l : racers_progress (pc :: l) = racer_progress pc + racers_progress l.
Proof. done. Qed.

Lemma racers_progress_insert l k pc pc' :
  l !! k = Some pc ->
  racers_progress (<[k := pc']> l) + racer_progress pc = racers_progress l + racer_progress pc'.
Proof.
  revert k. induction l as [|x l IH]; intros [|k] Hk; simplify_eq/=; rewrite !racers_progress_cons; [lia|].
  specialize (IH k Hk). lia.
Qed.

Lemma racers_progress_bound l : racers_progress l <= 2 * length l.
Proof.
  induction l as [|pc l IH]; [done|]. rewrite racers_progress_cons. destruct pc; simpl in *; lia.
Qed.

(** The result the loop is on its way out with. *)
Definition loop_result (pc : loop_pc) : option (gores (option Msg)) :=
  match pc with LLoop _ => None | LCancel r | LClose r | LOut r => Some r end.

(** Every result was received once; the loop is where the loop of Local is
    after the racers it has received from. *)
Record pl_ok (n : nat) (s : parallel_state) : Prop := {
  po_length : length (pl_racers s) = length names;
  po_got : NoDup (pl_got s);
  po_ended : forall k, k ∈ pl_got s -> pl_racers s !! k = Some PEnd;
  po_end : forall k, pl_racers s !! k = Some PEnd -> k ∈ pl_got s \/ pl_returned s = true;
  po_send : forall k r, pl_racers s !! k = Some (PSend r) ->
    exists fqdn, names !! k = Some fqdn /\ r = try fqdn;
  po_loop :
    match pl_loop s with
    | LLoop errors => length errors = length (pl_got s) /\
        (length errors < length names \/ names = []) /\
        forall evs, run_loop ((PRacer <$> pl_got s) ++ evs) [] = run_loop evs errors
    | LCancel r | LClose r | LOut r =>
        run_loop (PRacer <$> pl_got s) [] = Some (Ret r) \/
        exists e, pl_ctx s = Some e /\ run_loop ((PRacer <$> pl_got s) ++ [PCtx e]) [] = Some (Ret r)
    end;
  po_steps : n <= racers_progress (pl_racers s) + loop_progress (pl_loop s) +
    match pl_ctx s with Some _ => 1 | None => 0 end;
}.

Lemma pl_ok_start : pl_ok 0 pl_start.
Proof.
  split; simpl; try done.
  - by rewrite List.length_map.
  - constructor.
  - by intros k ?%elem_of_nil.
  - intros k Hk. apply list_lookup_fmap_Some in Hk. by destruct Hk as (? & ? & ?).
  - intros k r Hk. apply list_lookup_fmap_Some in Hk. by destruct Hk as (? & ? & ?).
  - split; [done|]. split; [|done]. destruct names; [by right|left; simpl; lia].
  - lia.
Qed.

(** A racer that moves to a state other than the end. *)
Lemma pl_ok_finish n s k fqdn :
  pl_ok n s -> pl_racers s !! k = Some PRun -> names !! k = Some fqdn ->
  pl_ok (S n) (MkPL (<[k := PSend (try fqdn)]> (pl_racers s)) (pl_loop s) (pl_ctx s) (pl_got s)).
Proof.
  intros [H1 H2 H3 H4 H5 H6 H7] Hk Hn. split; simpl; try done.
  - by rewrite length_insert.
  - intros j Hj. rewrite list_lookup_insert_ne; [by apply H3|]. intros ->.
    specialize (H3 _ Hj). congruence.
  - intros j. rewrite list_lookup_insert_Some. intros [(_ & ? & _)|[_ Hj]]; [done|by apply H4].
  - intros j r. rewrite list_lookup_insert_Some.
    intros [(-> & [= <-] & _)|[_ Hj]]; [by exists fqdn|by apply H5].
  - pose proof (racers_progress_insert _ _ _ (PSend (try fqdn)) Hk). simpl in *. lia.
Qed.

Lemma on_racer_result_cases r errors :
  (exists e, on_racer_result r errors = LLoop (errors ++ [e]) /\
     length (errors ++ [e]) <> length names) \/
  exists r', on_racer_result r errors = LCancel r'.
Proof.
  unfold on_racer_result. destruct r as [response [e|]]; [|by right; eexists]. cbv zeta.
  destruct (Nat.eqb_spec (length (errors ++ [Some e])) (length names)); [by right; eexists|].
  left. by exists (Some e).
Qed.

Lemma run_loop_got got k fqdn evs errors :
  names !! k = Some fqdn ->
  (forall evs, run_loop ((PRacer <$> got) ++ evs) [] = run_loop evs errors) ->
  run_loop ((PRacer <$> got ++ [k]) ++ evs) [] =
  match on_racer_result (try fqdn) errors with
  | LLoop errors' => run_loop evs errors'
  | LCancel r | LClose r | LOut r => Some (Ret r)
  end.
Proof.
  intros Hn Hl. rewrite fmap_app, <- app_assoc. rewrite Hl. by apply run_loop_racer.
Qed.

Lemma pl_ok_result n s k r errors :
  pl_ok n s -> pl_racers s !! k = Some (PSend r) -> pl_loop s = LLoop errors ->
  pl_ok (S n) (MkPL (<[k := PEnd]> (pl_racers s)) (on_racer_result r errors) (pl_ctx s) (pl_got s ++ [k])).
Proof.
  intros [H1 H2 H3 H4 H5 H6 H7] Hk Hl. destruct (H5 _ _ Hk) as (fqdn & Hn & ->).
  rewrite Hl in H6, H7. destruct H6 as (He & Hlt & Hrun).
  pose proof (fun evs => run_loop_got _ _ _ evs _ Hn Hrun) as Hrun'.
  pose proof (racers_progress_insert _ _ _ PEnd Hk) as Hp. simpl in Hp, H7.
  assert (k ∉ pl_got s) as Hfresh by (intros Hin; specialize (H3 _ Hin); congruence).
  split; simpl.
  - by rewrite length_insert.
  - apply NoDup_app. split; [done|]. split; [|apply NoDup_singleton].
    by intros x Hx ->%list_elem_of_singleton.
  - intros j [Hj| ->%list_elem_of_singleton]%elem_of_app.
    + rewrite list_lookup_insert_ne; [by apply H3|]. by intros ->.
    + apply list_lookup_insert_eq. by eapply lookup_lt_Some.
  - intros j. rewrite elem_of_app, list_elem_of_singleton, list_lookup_insert_Some.
    intros [(-> & _)|[_ Hj]]; [auto|]. destruct (H4 _ Hj) as [?|Hret]; [auto|].
    unfold pl_returned in Hret. by rewrite Hl in Hret.
  - intros j r. rewrite list_lookup_insert_Some. intros [(_ & ? & _)|[_ Hj]]; [done|by apply H5].
  - destruct (on_racer_result_cases (try fqdn) errors) as [(e & Ec & Hne)|[r' Ec]];
      rewrite Ec in Hrun' |- *.
    + rewrite !length_app in *. simpl in *. split; [lia|]. split; [|exact Hrun'].
      destruct Hlt as [?|Hnil]; [left; lia|by rewrite Hnil in Hn].
    + left. specialize (Hrun' []). by rewrite app_nil_r in Hrun'.
  - destruct (on_racer_result_cases (try fqdn) errors) as [(e & -> & _)|[r' ->]]; simpl; lia.
Qed.

(** A racer that gives up, when the loop has returned. *)
Lemma pl_ok_quit n s k r :
  pl_ok n s -> pl_racers s !! k = Some (PSend r) -> pl_returned s = true ->
  pl_ok (S n) (MkPL (<[k := PEnd]> (pl_racers s)) (pl_loop s) (pl_ctx s) (pl_got s)).
Proof.
  intros [H1 H2 H3 H4 H5 H6 H7] Hk Hret. split; simpl; try done.
  - by rewrite length_insert.
  - intros j Hj. rewrite list_lookup_insert_ne; [by apply H3|]. intros ->.
    specialize (H3 _ Hj). congruence.
  - intros j _. by right.
  - intros j r'. rewrite list_lookup_insert_Some. intros [(_ & ? & _)|[_ Hj]]; [done|by apply H5].
  - pose proof (racers_progress_insert _ _ _ PEnd Hk). simpl in *. lia.
Qed.

(** The steps of the loop and the context leave the racers alone. *)
Lemma pl_ok_loop n s loop ctx :
  pl_ok n s -> (pl_returned s = true -> loop = pl_loop s) ->
  match loop with
  | LLoop errors => pl_loop s = LLoop errors
  | LCancel r | LClose r | LOut r =>
      run_loop (PRacer <$> pl_got s) [] = Some (Ret r) \/
      exists e, ctx = Some e /\ run_loop ((PRacer <$> pl_got s) ++ [PCtx e]) [] = Some (Ret r)
  end ->
  S (loop_progress (pl_loop s) + match pl_ctx s with Some _ => 1 | None => 0 end) <=
    loop_progress loop + match ctx with Some _ => 1 | None => 0 end ->
  pl_ok (S n) (MkPL (pl_racers s) loop ctx (pl_got s)).
Proof.
  intros [H1 H2 H3 H4 H5 H6 H7] Hret Hloop Hstep. split; simpl; try done.
  - intros k Hk. destruct (H4 _ Hk) as [?|Hr]; [by left|right]. unfold pl_returned in *. simpl.
    by rewrite (Hret Hr).
  - destruct loop; try done. by rewrite Hloop in H6.
  - lia.
Qed.

Lemma pl_ok_run n s : pl_run n s -> pl_ok n s.
Proof.
  induction 1 as [|n s ev s' _ IH Hs]; [apply pl_ok_start|].
  pose proof (po_loop _ _ IH) as Hloop.
  destruct ev as [k|k|k|e| |]; simpl in Hs.
  - destruct (pl_racers s !! k) as [[]|] eqn:Ek; try done. destruct (names !! k) eqn:En; [|done].
    simplify_eq. by apply pl_ok_finish.
  - destruct (pl_racers s !! k) as [[]|] eqn:Ek; try done. destruct (pl_loop s) eqn:El; try done.
    simplify_eq. by apply pl_ok_result.
  - destruct (pl_racers s !! k) as [[]|] eqn:Ek; try done.
    destruct (pl_returned s) eqn:Er; [|done]. simplify_eq. by eapply pl_ok_quit.
  - destruct (pl_ctx s) eqn:Ec; [done|]. simplify_eq. apply pl_ok_loop; [done|done| |rewrite Ec; lia].
    destruct (pl_loop s) as [errors|r|r|r]; [done|..]; (destruct Hloop as [?|(e' & ? & _)]; [by left|done]).
  - destruct (pl_loop s) as [errors|r|r|r] eqn:El; try done. destruct (pl_ctx s) as [e|] eqn:Ec; [|done].
    simplify_eq. apply pl_ok_loop; [done| | |rewrite El, Ec; simpl; lia].
    + unfold pl_returned. by rewrite El.
    + right. exists e. split; [done|]. destruct Hloop as (_ & _ & ->). done.
  - destruct (pl_loop s) as [errors|r|r|r] eqn:El; simplify_eq; apply pl_ok_loop; try done;
      try (unfold pl_returned; by rewrite El); rewrite El; simpl; lia.
Qed.

(** All racers have ended, or one of them has not. *)
Lemma racers_ended_dec (l : list racer_pc) :
  Forall (fun pc => pc = PEnd) l \/ exists k pc, l !! k = Some pc /\ pc <> PEnd.
Proof.
  induction l as [|pc l [IH|(k & pc' & Hk & Hne)]]; [by left| |right; by exists (S k), pc'].
  destruct pc; [right; exists 0; by eexists..|left; by constructor].
Qed.

(** When all racers have ended and the loop still receives, there was none. *)
Lemma pl_all_ended n s errors :
  pl_ok n s -> pl_loop s = LLoop errors -> Forall (fun pc => pc = PEnd) (pl_racers s) ->
  names = [] /\ errors = [].
Proof.
  intros [H1 H2 H3 H4 H5 H6 H7] Hl Hend. rewrite Hl in H6. destruct H6 as (He & Hlt & _).
  assert (length names <= length (pl_got s)) as Hn.
  { replace (length names) with (length (seq 0 (length names))) by apply length_seq.
    apply submseteq_length, NoDup_submseteq; [apply NoDup_seq|]. intros k [_ Hk]%elem_of_seq.
    rewrite <- H1 in Hk. destruct (lookup_lt_is_Some_2 _ _ Hk) as [pc Hpc].
    pose proof (Forall_lookup_1 _ _ _ _ Hend Hpc) as ->.
    destruct (H4 _ Hpc) as [?|Hr]; [done|]. unfold pl_returned in Hr. by rewrite Hl in Hr. }
  destruct Hlt as [?|Hnil]; [lia|]. split; [done|]. apply nil_length_inv. rewrite He.
  destruct (pl_got s) as [|k got]; [done|]. specialize (H3 k ltac:(left)).
  apply lookup_lt_Some in H3. rewrite H1, Hnil in H3. simpl in H3. lia.
Qed.

(** ** Properties *)

(** The parallel exchange is the sequential loop.  However the racers,
    the loop and the context interleave, the result is the one [parallel_loop]
    gives when it looks at some racers one after the other, none of them
    twice, and then, if the racers alone do not decide, at the end of the
    context. *)
Theorem parallel_refines_loop n s r :
  pl_run n s -> loop_result (pl_loop s) = Some r ->
  NoDup (pl_got s) /\ Forall (fun k => k < length names) (pl_got s) /\
  exists evs,
    (parallel_loop (V := unit) (fun fqdn => mret (Ret (try fqdn))) names evs [] tt).1 = Some (Ret r) /\
    (evs = PRacer <$> pl_got s \/
     exists e, pl_ctx s = Some e /\ evs = (PRacer <$> pl_got s) ++ [PCtx e]).
Proof.
  intros Hr%pl_ok_run Hl. destruct Hr as [H1 H2 H3 H4 H5 H6 H7]. split; [done|]. split.
  { apply Forall_forall. intros k Hk. rewrite <- H1. by eapply lookup_lt_Some, H3. }
  assert (run_loop (PRacer <$> pl_got s) [] = Some (Ret r) \/
    exists e, pl_ctx s = Some e /\ run_loop ((PRacer <$> pl_got s) ++ [PCtx e]) [] = Some (Ret r))
    as [Hrun|(e & He & Hrun)].
  { destruct (pl_loop s); simpl in Hl; [done|..]; by simplify_eq. }
  - eexists. split; [exact Hrun|by left].
  - eexists. split; [exact Hrun|]. right. by exists e.
Qed.

(** No racer is left behind.  A parallel exchange takes at most two
    steps for each name and four more, and in every state it reaches it has
    returned and all racers have ended, or something can happen: a query
    returns, a result is received, a racer sees that the exchange has
    returned, the loop sees the end of the context or runs a deferred
    function.  The one exception is the exchange without names, which waits
    for its context. *)
Theorem parallel_no_leak n s :
  pl_run n s ->
  n <= 2 * length names + 4 /\
  (((exists r, pl_loop s = LOut r) /\ Forall (fun pc => pc = PEnd) (pl_racers s)) \/
   (exists ev, (forall e, ev <> ECtxEnds e) /\ is_Some (pl_step ev s)) \/
   (names = [] /\ pl_loop s = LLoop [] /\ pl_ctx s = None)).
Proof.
  intros Hr%pl_ok_run. pose proof Hr as [H1 H2 H3 H4 H5 H6 H7]. split.
  { pose proof (racers_progress_bound (pl_racers s)). rewrite H1 in *.
    destruct (pl_loop s), (pl_ctx s); simpl in *; lia. }
  destruct (racers_ended_dec (pl_racers s)) as [Hend|(k & pc & Hk & Hne)].
  - destruct (pl_loop s) as [errors|r|r|r] eqn:El.
    + destruct (pl_all_ended _ _ _ Hr El Hend) as [Hn ->].
      destruct (pl_ctx s) as [e|] eqn:Ec; [right; left|by right; right].
      exists ECtxDone. simpl. rewrite El, Ec. split; [done|by eexists].
    + right. left. exists EDefer. simpl. rewrite El. split; [done|by eexists].
    + right. left. exists EDefer. simpl. rewrite El. split; [done|by eexists].
    + left. split; [by eexists|done].
  - right. left. destruct pc as [|r|]; [| |done].
    + exists (EFinish k). split; [done|]. simpl. rewrite Hk.
      destruct (lookup_lt_is_Some_2 names k) as [fqdn ->]; [|by eexists].
      rewrite <- H1. by eapply lookup_lt_Some.
    + destruct (pl_loop s) as [errors|r'|r'|r'] eqn:El.
      * exists (EResult k). split; [done|]. simpl. rewrite Hk, El. by eexists.
      * exists EDefer. split; [done|]. simpl. rewrite El. by eexists.
      * exists EDefer. split; [done|]. simpl. rewrite El. by eexists.
      * exists (EQuit k). split; [done|]. simpl. rewrite Hk. unfold pl_returned. rewrite El. by eexists.
Qed.
End parallel.

(** ** A run for the witnesses *)

Module ParallelExample.

Definition names : list string := ["a."; "b."].
Definition try (fqdn : string) : gores (option Msg) :=
  if String.eqb fqdn "b." then (Some msg_zero, None) else (None, Some EMSGSIZE).

Fixpoint pl_events `{ExLib} (evs : list pl_event) (s : parallel_state) : option parallel_state :=
  match evs with
  | [] => Some s
  | ev :: evs => s ← pl_step names try ev s; pl_events evs s
  end.

Lemma pl_events_run `{ExLib} evs n s s' :
  pl_run names try n s -> pl_events evs s = Some s' -> pl_run names try (length evs + n) s'.
Proof.
  revert n s. induction evs as [|ev evs IH]; intros n s Hr; [by intros [= <-]|].
  simpl. destruct (pl_step names try ev s) as [s1|] eqn:E; [|done]. simpl. intros Hs.
  replace (S (length evs + n)) with (length evs + S n) by lia.
  eapply IH; [|exact Hs]. by econstructor.
Qed.

(** The second name answers first; the racer of the first quits. *)
Definition events : list pl_event := [EFinish 1; EFinish 0; EResult 1; EDefer; EDefer; EQuit 0].
Definition ended : parallel_state := MkPL [PEnd; PEnd] (LOut (Some msg_zero, None)) None [1].

Lemma exchange_ended : pl_run (H := ExTree.ex_tree) names try 6 ended.
Proof.
  apply (pl_events_run (H := ExTree.ex_tree) events 0 (pl_start names)); [constructor|reflexivity].
Qed.

End ParallelExample.

Lemma parallel_refines_loop_witness :
  NoDup (pl_got ParallelExample.ended) /\
  exists evs, (parallel_loop (H1 := ExTree.ex_tree) (V := unit)
      (fun fqdn => mret (Ret (ParallelExample.try fqdn))) ParallelExample.names evs [] tt).1 =
    Some (Ret (Some msg_zero, None)).
Proof.
  destruct (parallel_refines_loop (H := ExTree.ex_tree) _ _ 6 ParallelExample.ended
    (Some msg_zero, None) ParallelExample.exchange_ended eq_refl) as (Hnd & _ & evs & Hr & _).
  split; [exact Hnd|]. exists evs. exact Hr.
Defined.

Lemma parallel_no_leak_witness :
  6 <= 2 * length ParallelExample.names + 4 /\
  (((exists r, pl_loop ParallelExample.ended = LOut r) /\
      Forall (fun pc => pc = PEnd) (pl_racers ParallelExample.ended)) \/
   (exists ev, (forall e, ev <> ECtxEnds e) /\
      is_Some (pl_step (H := ExTree.ex_tree) ParallelExample.names ParallelExample.try ev
        ParallelExample.ended)) \/
   (ParallelExample.names = [] /\ pl_loop ParallelExample.ended = LLoop [] /\
      pl_ctx ParallelExample.ended = None)).
Proof. exact (parallel_no_leak (H := ExTree.ex_tree) _ _ 6 _ ParallelExample.exchange_ended). Defined.
