(* ===== verification/LocalRun.v ===== *)
(** * The transports of the system resolver, shared

    [tryOneName] of [resolve/transport/local.go] as calls that run at the
    same time on one [LocalTransport], as the racers of [exchangeParallel]
    and the exchanges of different callers do.  Configurations and UDP
    transports are objects in a store, known by their index: the calls share
    them, [transports] maps the text of an address to one of them, and each
    of them goes through the steps of UdpTransport, and every exchange over
    TCP through those of TcpRun.  The sections of [pullTransport],
    [updateTransports] and [serverOffset] are one step each. *)

From S2P Require Import Prelude GoStd Netip Meta Dns Addrs Lines ResolvConf Tcp TcpRun Udp UdpTransport Local.

(** ** State *)

(** The variables of the loops: [serverOffset], [messageId], the values of
    [j] to come (for all attempts), and [lastErr]. *)
Record loop_vars := MkLV { lv_offset : Z; lv_id : Z; lv_js : list nat; lv_err : option err }.

(** Where a call is: before [serverOffset], before [updateTransports], at the
    head of the loops, between the two sections of [pullTransport], about to
    send the query over the transport it got, waiting for exchange [i] of
    that transport, or for exchange [x] over TCP (after one over UDP, or
    instead of it), or at its end. *)
Inductive name_pc :=
  | NOffset
  | NUpdate (offset : Z)
  | NLoop (v : loop_vars)
  | NPull (v : loop_vars) (j : nat)
  | NSend (v : loop_vars) (j p : nat)
  | NUdp (v : loop_vars) (j p i : nat)
  | NTcp (v : loop_vars) (j p x : nat) (retry : bool)
  | NDone (r : gores (option Msg)).

(** A call of [tryOneName]; [nm_conf] is its configuration, by index, and
    [nm_question] the first question of the message. *)
Record name_call := MkNC {
  nm_conf : nat;
  nm_fqdn : string;
  nm_message : Msg;
  nm_question : Question;
  nm_pc : name_pc;
}.

(** A call of [transport.tcp.Exchange]: the server, the query, and where the
    exchange and its watcher are. *)
Record tcp_call := MkTX { tx_server : Socksaddr; tx_message : Msg; tx_state : tcp_state }.

Section local_run.
Context `{SetLib} `{DnsLib} `{ExLib} `{DnsWire}.

Record local_run_state := MkLS {
  ls_confs : list dnsConfig;
  ls_store : list UDPTransport;
  ls_transports : option (gmap string nat);
  ls_servers : option MSet;
  ls_tcps : list tcp_call;
  ls_calls : list name_call;
}.

Definition local_start : local_run_state := MkLS [] [] None None [] [].

Definition set_npc (k : nat) (pc : name_pc) (s : local_run_state) : local_run_state :=
  MkLS (ls_confs s) (ls_store s) (ls_transports s) (ls_servers s) (ls_tcps s)
    (alter (fun c => MkNC (nm_conf c) (nm_fqdn c) (nm_message c) (nm_question c) pc) k (ls_calls s)).

Definition on_store (p : nat) (t : UDPState) (s : local_run_state) : local_run_state :=
  MkLS (ls_confs s) (alter (fun tr => MkUDPTransport (udp_server tr) t) p (ls_store s))
    (ls_transports s) (ls_servers s) (ls_tcps s) (ls_calls s).

(** ** The sections under the lock *)

Definition ls_contains (text : string) (s : local_run_state) : bool :=
  match ls_servers s with Some ms => set_Contains ms text | None => false end.

(** [pullTransport] under the lock for reading; final when it gives a
    result. *)
Definition ls_pull_read (server : Socksaddr) (s : local_run_state) : option (gores (option nat)) :=
  let addressStr := Socksaddr_AddrString server in
  if negb (ls_contains addressStr s) then Some (None, Some (not_configured addressStr))
  else
    match default ∅ (ls_transports s) !! addressStr with
    | Some p => Some (Some p, None)
    | None => None
    end.

(** And under the lock for writing: it looks again, and makes a transport. *)
Definition ls_pull_write (server : Socksaddr) (s : local_run_state)
    : gores (option nat) * local_run_state :=
  let addressStr := Socksaddr_AddrString server in
  if negb (ls_contains addressStr s) then ((None, Some (not_configured addressStr)), s)
  else
    match default ∅ (ls_transports s) !! addressStr with
    | Some p => ((Some p, None), s)
    | None =>
        let p := length (ls_store s) in
        ((Some p, None),
         MkLS (ls_confs s) (ls_store s ++ [NewUDPTransport server])
           (Some (<[addressStr := p]> (default ∅ (ls_transports s)))) (ls_servers s)
           (ls_tcps s) (ls_calls s))
    end.

(** Closing and deleting the transports whose key is chosen. *)
Fixpoint ls_close_keys (chosen : string -> bool) (keys : list (string * nat))
    (m : gmap string nat) (store : list UDPTransport) : exec (gmap string nat * list UDPTransport) :=
  match keys with
  | [] => Ret (m, store)
  | (addr, p) :: keys =>
      if chosen addr then
        match store !! p with
        | Some tr =>
            match UDP_Close (udp_state tr) with
            | Ret t => ls_close_keys chosen keys (delete addr m)
                         (<[p := MkUDPTransport (udp_server tr) t]> store)
            | Panic why => Panic why
            end
        | None => Panic "nil transport"
        end
      else ls_close_keys chosen keys m store
  end.

Definition ls_update (servers : list string) (s : local_run_state) : exec local_run_state :=
  let transports := default ∅ (ls_transports s) in
  let unchanged :=
    match ls_servers s with
    | Some ms => (set_len ms =? length servers)%nat && set_ContainAll ms servers
    | None => false
    end in
  if unchanged then
    Ret (MkLS (ls_confs s) (ls_store s) (Some transports) (ls_servers s) (ls_tcps s) (ls_calls s))
  else
    let '(ms, chosen) :=
      match servers with
      | [] => (NewSet, fun _ => true)
      | _ => let ms := NewSetFromSlice servers in (ms, fun addr => negb (set_Contains ms addr))
      end in
    match ls_close_keys chosen (map_to_list transports) transports (ls_store s) with
    | Ret (m, store) => Ret (MkLS (ls_confs s) store (Some m) (Some ms) (ls_tcps s) (ls_calls s))
    | Panic why => Panic why
    end.

(** ** The steps of a call *)

(** The server of a round, and the address the code makes of it. *)
Definition server_at (config : dnsConfig) (offset : Z) (j : nat) : string :=
  let sLen := Z.of_nat (length (cf_servers config)) in
  default "" (cf_servers config !! Z.to_nat (u32 (offset + Z.of_nat j) mod sLen)%Z).

Definition server_addr (server : string) : Socksaddr :=
  let addr := FromParseSocksaddr server in MkSocks (sa_Fqdn addr) (sa_Addr addr) 53.

Definition with_err (e : option err) (v : loop_vars) : loop_vars :=
  MkLV (lv_offset v) (lv_id v) (lv_js v) e.

(** What [pullTransport] returned. *)
Definition after_pull (v : loop_vars) (j : nat) (r : gores (option nat)) : name_pc :=
  match r with
  | (_, Some e) => NDone (None, ex_Cause (Some e) "pull transport")
  | (Some p, None) => NSend v j p
  | (None, None) => NLoop (with_err (Some (ex_New [XStr "missing transport"])) v)
  end.

(** What [transport.exchange] returned, in [exchangeOne]: the way on, which is
    [None] when the query is to be asked over TCP. *)
Definition after_udp (v : loop_vars) (r : option Msg * bool * option err) : exec (option name_pc) :=
  match r with
  | (_, false, Some e) => Ret (Some (NLoop (with_err (ex_Cause (Some e) "exchange udp") v)))
  | (_, true, _) => Ret None
  | (None, false, None) => Panic "nil response"
  | (Some response, false, None) =>
      Ret (if m_Truncated response then None else Some (NDone (Some response, None)))
  end.

(** What the exchange over TCP returned. *)
Definition after_tcp (v : loop_vars) (retry : bool) (r : gores (option Msg)) : name_pc :=
  match r with
  | (_, Some e) => NLoop (with_err (if retry then ex_Cause (Some e) "exchange tcp" else Some e) v)
  | (response, None) => NDone (response, None)
  end.

(** The query of a call. *)
Definition name_query (config : dnsConfig) (c : name_call) (v : loop_vars) : Msg :=
  query (lv_id v)
    (MkQuestion (dns_Fqdn (nm_fqdn c)) (q_Qtype (nm_question c)) (q_Qclass (nm_question c)))
    (cf_trustAD config).

Inductive local_event :=
  | EvConf (config : dnsConfig)          (* a configuration is read *)
  | EvCall (conf : nat) (fqdn : string) (message : Msg) (question : Question)
  | EvStep (k : nat)                     (* the next step of call [k] *)
  | EvId (k : nat) (id : Z)              (* updateTransports; [id] is dns.Id() *)
  | EvTcp (x : nat) (ev : tcp_event)     (* a step of an exchange over TCP *)
  | EvUdp (p : nat) (ev : udp_event).    (* a step of the goroutines of a transport *)

(** The steps of a transport that are not those of this component. *)
Definition own_udp (ev : udp_event) : bool :=
  match ev with UCall _ | UClose => false | _ => true end.

(** Call [k] asks over TCP. *)
Definition start_tcp (config : dnsConfig) (k : nat) (c : name_call) (v : loop_vars) (j p : nat)
    (retry : bool) (s : local_run_state) : option local_run_state :=
  tr ← ls_store s !! p;
  let tx := MkTX (udp_server tr) (name_query config c v) tcp_start in
  Some (set_npc k (NTcp v j p (length (ls_tcps s)) retry)
    (MkLS (ls_confs s) (ls_store s) (ls_transports s) (ls_servers s) (ls_tcps s ++ [tx]) (ls_calls s))).

(** The step of a call that needs no event of its own. *)
Definition name_step (config : dnsConfig) (k : nat) (c : name_call) (s : local_run_state)
    : option (exec local_run_state) :=
  match nm_pc c with
  | NOffset =>
      let '(offset, config') := serverOffset config in
      Some (Ret (set_npc k (NUpdate offset)
        (MkLS (<[nm_conf c := config']> (ls_confs s)) (ls_store s) (ls_transports s)
           (ls_servers s) (ls_tcps s) (ls_calls s))))
  | NLoop v =>
      Some (Ret match lv_js v with
                | [] => set_npc k (NDone (None, ex_Cause (lv_err v) (nm_fqdn c))) s
                | j :: js =>
                    let v := MkLV (lv_offset v) (lv_id v) js (lv_err v) in
                    match ls_pull_read (server_addr (server_at config (lv_offset v) j)) s with
                    | Some r => set_npc k (after_pull v j r) s
                    | None => set_npc k (NPull v j) s
                    end
                end)
  | NPull v j =>
      let '(r, s) := ls_pull_write (server_addr (server_at config (lv_offset v) j)) s in
      Some (Ret (set_npc k (after_pull v j r) s))
  | NSend v j p =>
      if cf_useTCP config then Ret <$> start_tcp config k c v j p false s
      else
        tr ← ls_store s !! p;
        match udp_step (UCall (name_query config c v)) (udp_state tr) with
        | Some (Ret t) => Some (Ret (set_npc k (NUdp v j p (length (ut_xs (udp_state tr)))) (on_store p t s)))
        | Some (Panic why) => Some (Panic why)
        | None => None
        end
  | NUdp v j p i =>
      tr ← ls_store s !! p;
      match ut_xs (udp_state tr) !! i with
      | Some (MkX _ (XDone r)) =>
          match after_udp v r with
          | Ret (Some pc) => Some (Ret (set_npc k pc s))
          | Ret None => Ret <$> start_tcp config k c v j p true s
          | Panic why => Some (Panic why)
          end
      | _ => None
      end
  | NTcp v j p x retry =>
      tx ← ls_tcps s !! x;
      match ts_pc (tx_state tx) with
      | TDone r => Some (Ret (set_npc k (after_tcp v retry r) s))
      | _ => None
      end
  | _ => None
  end.

Definition local_step (ev : local_event) (s : local_run_state) : option (exec local_run_state) :=
  match ev with
  | EvConf config =>
      Some (Ret (MkLS (ls_confs s ++ [config]) (ls_store s) (ls_transports s) (ls_servers s)
        (ls_tcps s) (ls_calls s)))
  | EvCall conf fqdn message question =>
      _ ← ls_confs s !! conf;
      Some (Ret (MkLS (ls_confs s) (ls_store s) (ls_transports s) (ls_servers s) (ls_tcps s)
        (ls_calls s ++ [MkNC conf fqdn message question NOffset])))
  | EvStep k =>
      c ← ls_calls s !! k;
      config ← ls_confs s !! nm_conf c;
      name_step config k c s
  | EvId k id =>
      c ← ls_calls s !! k;
      config ← ls_confs s !! nm_conf c;
      match nm_pc c with
      | NUpdate offset =>
          let messageId := if Z.eqb (m_Id (nm_message c)) 0 then id else m_Id (nm_message c) in
          let js := concat (repeat (seq 0 (length (cf_servers config))) (Z.to_nat (cf_attempts config))) in
          Some match ls_update (cf_servers config) s with
               | Ret s => Ret (set_npc k (NLoop (MkLV offset messageId js None)) s)
               | Panic why => Panic why
               end
      | _ => None
      end
  | EvTcp x ev =>
      tx ← ls_tcps s !! x;
      ts ← tcp_step (tx_message tx) ev (tx_state tx);
      Some (Ret (MkLS (ls_confs s) (ls_store s) (ls_transports s) (ls_servers s)
        (<[x := MkTX (tx_server tx) (tx_message tx) ts]> (ls_tcps s)) (ls_calls s)))
  | EvUdp p ev =>
      tr ← ls_store s !! p;
      if own_udp ev then
        match udp_step ev (udp_state tr) with
        | Some (Ret t) => Some (Ret (on_store p t s))
        | Some (Panic why) => Some (Panic why)
        | None => None
        end
      else None
  end.

(** The states after a list of events, none of which panicked. *)
Inductive local_run : list local_event -> local_run_state -> Prop :=
  | local_run_nil : local_run [] local_start
  | local_run_snoc evs s ev s' :
      local_run evs s -> local_step ev s = Some (Ret s') -> local_run (evs ++ [ev]) s'.

End local_run.

(** ** Lemmas *)

(** *** The transports *)

Section store.
Context `{SetLib} `{DnsLib} `{ExLib} `{DnsWire}.

Lemma on_store_lookup p t s q :
  ls_store (on_store p t s) !! q =
  (if decide (q = p) then fun tr => MkUDPTransport (udp_server tr) t else id) <$> ls_store s !! q.
Proof.
  simpl. destruct (decide (q = p)) as [->|Hne].
  - by rewrite list_lookup_alter_eq.
  - rewrite list_lookup_alter_ne by done. by destruct (ls_store s !! q).
Qed.

Lemma set_npc_lookup k pc s j :
  ls_calls (set_npc k pc s) !! j =
  (if decide (j = k) then fun c => MkNC (nm_conf c) (nm_fqdn c) (nm_message c) (nm_question c) pc
   else id) <$> ls_calls s !! j.
Proof.
  simpl. destruct (decide (j = k)) as [->|Hne].
  - by rewrite list_lookup_alter_eq.
  - rewrite list_lookup_alter_ne by done. by destruct (ls_calls s !! j).
Qed.

(** The transports by the text of their address. *)
Definition ls_map (s : local_run_state) : gmap string nat := default ∅ (ls_transports s).

Definition addr_text (tr : UDPTransport) : string := Socksaddr_AddrString (udp_server tr).

(** Every transport has taken the steps of a run of its own; the datagrams
    of that run are events of the whole. *)
Definition own_run (evs : list local_event) (p : nat) (t : UDPState) : Prop :=
  exists log, udp_run log t /\
    forall c bytes, In (URecv c (inl bytes)) log -> In (EvUdp p (URecv c (inl bytes))) evs.

(** The map and the transports that were made correspond. *)
Record store_ok (evs : list local_event) (s : local_run_state) : Prop := {
  so_run : forall p tr, ls_store s !! p = Some tr -> own_run evs p (udp_state tr);
  so_port : forall p tr, ls_store s !! p = Some tr -> sa_Port (udp_server tr) = 53%Z;
  so_key : forall p tr, ls_store s !! p = Some tr -> ls_map s !! addr_text tr = Some p;
  so_map : forall text p, ls_map s !! text = Some p ->
    exists tr, ls_store s !! p = Some tr /\ addr_text tr = text;
}.

(** What a step does to the transports: nothing, or it makes one for an
    address that has none, or one of them takes a step. *)
Inductive store_move (ev : local_event) (s s' : local_run_state) : Prop :=
  | move_same
      (Hs : ls_store s' = ls_store s) (Hm : ls_map s' = ls_map s)
  | move_new server
      (Hp : sa_Port server = 53%Z) (Hn : ls_map s !! Socksaddr_AddrString server = None)
      (Hs : ls_store s' = ls_store s ++ [MkUDPTransport server NewUDP])
      (Hm : ls_map s' = <[Socksaddr_AddrString server := length (ls_store s)]> (ls_map s))
  | move_step p tr uev t
      (Hp : ls_store s !! p = Some tr) (Hu : udp_step uev (udp_state tr) = Some (Ret t))
      (He : forall c bytes, uev = URecv c (inl bytes) -> ev = EvUdp p uev)
      (Hs : ls_store s' = ls_store (on_store p t s)) (Hm : ls_map s' = ls_map s).

Lemma own_run_snoc evs ev p t : own_run evs p t -> own_run (evs ++ [ev]) p t.
Proof.
  intros (log & Hr & Hl). exists log. split; [done|]. intros c bytes Hin. apply in_app_iff. auto.
Qed.

Lemma own_run_step evs ev p t uev t' :
  own_run evs p t -> udp_step uev t = Some (Ret t') ->
  (forall c bytes, uev = URecv c (inl bytes) -> ev = EvUdp p uev) ->
  own_run (evs ++ [ev]) p t'.
Proof.
  intros (log & Hr & Hl) Hs He. exists (log ++ [uev]). split; [by econstructor|].
  intros c bytes [Hin|[Heq|[]]]%in_app_iff; apply in_app_iff; [auto|]. right. left.
  rewrite <- Heq. by eapply He.
Qed.

Lemma store_ok_new evs ev s s' server :
  store_ok evs s -> sa_Port server = 53%Z -> ls_map s !! Socksaddr_AddrString server = None ->
  ls_store s' = ls_store s ++ [MkUDPTransport server NewUDP] ->
  ls_map s' = <[Socksaddr_AddrString server := length (ls_store s)]> (ls_map s) ->
  store_ok (evs ++ [ev]) s'.
Proof.
  intros [Hrun Hport Hkey Hmap] Hp Hn Hs Hm.
  assert (forall q tr, ls_store s' !! q = Some tr -> ls_store s !! q = Some tr \/
    (q = length (ls_store s) /\ tr = MkUDPTransport server NewUDP)) as Hq.
  { intros q tr. rewrite Hs. intros [Hq|[Hle Hq]]%lookup_app_Some; [by left|right].
    pose proof (lookup_lt_Some _ _ _ Hq) as Hlt. simpl in Hlt.
    assert (q - length (ls_store s) = 0) as Hz by lia. rewrite Hz in Hq.
    injection Hq as <-. split; [lia|done]. }
  split.
  - intros q tr [Hin|[-> ->]]%Hq; [by eapply own_run_snoc, Hrun|]. exists []. split; [constructor|done].
  - intros q tr [Hin|[-> ->]]%Hq; [by eapply Hport|done].
  - intros q tr [Hin|[-> ->]]%Hq; rewrite Hm; [|by rewrite lookup_insert_eq].
    apply Hkey in Hin. rewrite lookup_insert_ne; [done|]. intros Heq. rewrite Heq in Hn. congruence.
  - intros text q. rewrite Hs, Hm, lookup_insert_Some. intros [[<- <-]|[Hne Hin]].
    + eexists. split; [by apply list_lookup_middle|done].
    + destruct (Hmap _ _ Hin) as (tr & Htr & <-). exists tr. split; [by apply lookup_app_l_Some|done].
Qed.

Lemma store_ok_move evs s ev s' : store_ok evs s -> store_move ev s s' -> store_ok (evs ++ [ev]) s'.
Proof.
  intros Hok [Hs Hm|server Hp Hn Hs Hm|p tr uev t Hp Hu He Hs Hm]; [|by eapply store_ok_new|];
    destruct Hok as [Hrun Hport Hkey Hmap].
  - split; intros q; rewrite Hs, ?Hm; eauto using own_run_snoc.
  - assert (forall q tr', ls_store s' !! q = Some tr' -> exists tr0, ls_store s !! q = Some tr0 /\
      udp_server tr' = udp_server tr0) as Hq.
    { intros q tr'. rewrite Hs, on_store_lookup. destruct (ls_store s !! q); intros [= <-].
      eexists. split; [done|]. by destruct (decide (q = p)). }
    split.
    + intros q tr'. rewrite Hs, on_store_lookup. destruct (decide (q = p)) as [->|].
      * rewrite Hp. intros [= <-]. by eapply own_run_step; [by eapply Hrun| |].
      * destruct (ls_store s !! q) eqn:Eq; intros [= <-]. by eapply own_run_snoc, Hrun.
    + intros q tr' (tr0 & Hq0 & ->)%Hq. by eapply Hport.
    + intros q tr' (tr0 & Hq0 & Heq)%Hq. unfold addr_text. rewrite Heq, Hm. by eapply Hkey.
    + intros text q. rewrite Hs, Hm. intros (tr' & Htr & <-)%Hmap. rewrite on_store_lookup, Htr.
      eexists. split; [done|]. by destruct (decide (q = p)).
Qed.

(** *** Closing *)

(** A transport that is closed panics, so that an update that returns has
    closed none. *)
Lemma own_run_close evs p t : own_run evs p t -> UDP_Close t = Panic "close of nil channel".
Proof.
  intros (log & Hr & _). unfold UDP_Close, renew_done. by destruct (udp_run_fields _ _ Hr) as [-> _].
Qed.

Lemma close_keys_panics evs s chosen keys m :
  store_ok evs s -> (forall text p, (text, p) ∈ keys -> ls_map s !! text = Some p) ->
  ls_close_keys chosen keys m (ls_store s) =
    if existsb (fun kp => chosen kp.1) keys then Panic "close of nil channel"
    else Ret (m, ls_store s).
Proof.
  intros Hok. revert m. induction keys as [|[text p] keys IH]; intros m Hk; [done|]. simpl.
  destruct (chosen text); simpl.
  - destruct (so_map _ _ Hok text p) as (tr & Htr & _); [apply Hk; left|]. rewrite Htr.
    by rewrite (own_run_close _ _ _ (so_run _ _ Hok _ _ Htr)).
  - apply IH. intros text' p' Hin. apply Hk. by right.
Qed.

(** The servers are those of the set: the update has nothing to do. *)
Definition unchanged (servers : list string) (s : local_run_state) : bool :=
  match ls_servers s with
  | Some ms => (set_len ms =? length servers)%nat && set_ContainAll ms servers
  | None => false
  end.

Definition new_set (servers : list string) : MSet :=
  match servers with [] => NewSet | _ => NewSetFromSlice servers end.

(** Some transport is of a server that is configured no more. *)
Definition drops_transport (servers : list string) (s : local_run_state) : bool :=
  existsb (fun kp => match servers with [] => true | _ => negb (set_Contains (new_set servers) kp.1) end)
    (map_to_list (ls_map s)).

Lemma ls_update_cases evs servers s :
  store_ok evs s ->
  ls_update servers s =
    if unchanged servers s
    then Ret (MkLS (ls_confs s) (ls_store s) (Some (ls_map s)) (ls_servers s) (ls_tcps s) (ls_calls s))
    else if drops_transport servers s then Panic "close of nil channel"
    else Ret (MkLS (ls_confs s) (ls_store s) (Some (ls_map s)) (Some (new_set servers))
           (ls_tcps s) (ls_calls s)).
Proof.
  intros Hok. unfold ls_update. fold (unchanged servers s) (ls_map s).
  destruct (unchanged servers s); [done|].
  assert (forall text p, (text, p) ∈ map_to_list (ls_map s) -> ls_map s !! text = Some p) as Hk
    by (intros text p; apply elem_of_map_to_list).
  unfold drops_transport. destruct servers as [|server servers];
    rewrite (close_keys_panics evs s) by done; by destruct (existsb _ _).
Qed.

Lemma ls_update_ret evs servers s s' :
  store_ok evs s -> ls_update servers s = Ret s' ->
  ls_confs s' = ls_confs s /\ ls_store s' = ls_store s /\ ls_map s' = ls_map s /\
  ls_calls s' = ls_calls s /\ ls_tcps s' = ls_tcps s /\
  (ls_servers s' = ls_servers s \/ ls_servers s' = Some (new_set servers)).
Proof.
  intros Hok. rewrite (ls_update_cases evs) by done.
  split_ifs; intros [= <-]; split_and!; auto.
Qed.

Lemma ls_pull_write_cases server s :
  let '(r, s') := ls_pull_write server s in
  let text := Socksaddr_AddrString server in
  if negb (ls_contains text s) then r = (None, Some (not_configured text)) /\ s' = s
  else match ls_map s !! text with
       | Some p => r = (Some p, None) /\ s' = s
       | None => r = (Some (length (ls_store s)), None) /\
           s' = MkLS (ls_confs s) (ls_store s ++ [NewUDPTransport server])
                  (Some (<[text := length (ls_store s)]> (ls_map s))) (ls_servers s) (ls_tcps s) (ls_calls s)
       end.
Proof.
  unfold ls_pull_write. fold (ls_map s). destruct (negb _); [done|].
  by destruct (ls_map s !! _).
Qed.

End store.

(** *** What no step takes back *)

Section calls.
Context `{SetLib} `{DnsLib} `{ExLib} `{DnsWire}.

(** A transport after some steps: the queries of its exchanges are the same,
    and what was written to a connection stays written. *)
Definition tr_le (tr tr' : UDPTransport) : Prop :=
  udp_server tr' = udp_server tr /\
  (forall i x, ut_xs (udp_state tr) !! i = Some x ->
     exists x', ut_xs (udp_state tr') !! i = Some x' /\ x_message x' = x_message x) /\
  (forall c u, ut_conns (udp_state tr) !! c = Some u ->
     exists u', ut_conns (udp_state tr') !! c = Some u' /\ uc_sent u ⊆ uc_sent u').

Lemma tr_le_refl tr : tr_le tr tr.
Proof. split_and!; eauto. Qed.

Lemma set_pc_message i pc t j x :
  ut_xs t !! j = Some x -> exists x', ut_xs (set_pc i pc t) !! j = Some x' /\ x_message x' = x_message x.
Proof. intros Hj. rewrite set_pc_lookup, Hj. eexists. split; [done|]. by destruct (decide _). Qed.

Lemma effect_message t ev t' i x :
  effect t ev t' -> ut_xs t !! i = Some x ->
  exists x', ut_xs t' !! i = Some x' /\ x_message x' = x_message x.
Proof.
  intros He Hi. destruct He; try (by apply set_pc_message); try (by exists x).
  exists x. split; [by apply lookup_app_l_Some|done].
Qed.

Lemma tr_le_step evs p tr uev t :
  own_run evs p (udp_state tr) -> udp_step uev (udp_state tr) = Some (Ret t) ->
  tr_le tr (MkUDPTransport (udp_server tr) t).
Proof.
  intros (log & Hr & _) Hs. destruct (udp_run_fields _ _ Hr) as [Hd Hz].
  pose proof (udp_step_effect _ _ _ Hd Hz Hs) as He. split_and!; [done| |]; simpl.
  - intros i x. by apply (effect_message _ _ _ _ _ He).
  - intros c u. by apply (effect_sent _ _ _ _ _ He).
Qed.

(** The exchanges over TCP have taken the steps of runs of their own. *)
Definition tcps_ok (evs : list local_event) (s : local_run_state) : Prop :=
  forall x tx, ls_tcps s !! x = Some tx -> exists log, tcp_run (tx_message tx) log (tx_state tx) /\
    forall ev, In ev log -> In (EvTcp x ev) evs.

(** What a step does to them: nothing, or it makes one, or one takes a step. *)
Inductive tcps_move (ev : local_event) (s s' : local_run_state) : Prop :=
  | tcps_same (Ht : ls_tcps s' = ls_tcps s)
  | tcps_new server q (Ht : ls_tcps s' = ls_tcps s ++ [MkTX server q tcp_start])
  | tcps_step x tx tev ts
      (Hx : ls_tcps s !! x = Some tx) (Hs : tcp_step (tx_message tx) tev (tx_state tx) = Some ts)
      (He : ev = EvTcp x tev)
      (Ht : ls_tcps s' = <[x := MkTX (tx_server tx) (tx_message tx) ts]> (ls_tcps s)).

Lemma tcps_ok_move evs ev s s' : tcps_ok evs s -> tcps_move ev s s' -> tcps_ok (evs ++ [ev]) s'.
Proof.
  intros Hok Hmove.
  assert (tcps_ok (evs ++ [ev]) s) as Hok'.
  { intros x tx Hx. destruct (Hok x tx Hx) as (log & Hr & Hl). exists log. split; [done|].
    intros tev Hin. apply in_app_iff. auto. }
  destruct Hmove as [Ht|server q Ht|x tx tev ts Hx Hs -> Ht]; intros y ty; rewrite Ht; [apply Hok'| |].
  - intros [Hy|[_ Hy]]%lookup_app_Some; [by apply Hok'|].
    apply list_elem_of_lookup_2, list_elem_of_singleton in Hy as ->. exists []. split; [constructor|done].
  - destruct (decide (y = x)) as [->|Hne]; [|rewrite list_lookup_insert_ne by done; apply Hok'].
    rewrite list_lookup_insert_eq by (by eapply lookup_lt_Some). intros [= <-].
    destruct (Hok x tx Hx) as (log & Hr & Hl). exists (log ++ [tev]). split; [by econstructor|].
    intros tev' [Hin|[<-|[]]]%in_app_iff; apply in_app_iff; simpl; auto.
Qed.

(** The configurations change in the rotation only, transports are kept, and
    so are the exchanges over TCP. *)
Record grows (s s' : local_run_state) : Prop := {
  gr_conf : forall n config, ls_confs s !! n = Some config ->
    exists v, ls_confs s' !! n = Some (set_soffset v config);
  gr_store : forall p tr, ls_store s !! p = Some tr ->
    exists tr', ls_store s' !! p = Some tr' /\ tr_le tr tr';
  gr_tcps : forall x tx, ls_tcps s !! x = Some tx ->
    exists tx', ls_tcps s' !! x = Some tx' /\ tx_server tx' = tx_server tx /\
      tx_message tx' = tx_message tx;
}.

Lemma tcps_move_grows ev s s' : tcps_move ev s s' -> forall x tx, ls_tcps s !! x = Some tx ->
  exists tx', ls_tcps s' !! x = Some tx' /\ tx_server tx' = tx_server tx /\ tx_message tx' = tx_message tx.
Proof.
  intros [Ht|server q Ht|y ty tev ts Hy Hs _ Ht] x tx Hx; rewrite Ht.
  - by exists tx.
  - exists tx. split; [by apply lookup_app_l_Some|done].
  - destruct (decide (x = y)) as [->|Hne]; [|rewrite list_lookup_insert_ne by done; by exists tx].
    rewrite Hy in Hx. injection Hx as <-. eexists.
    split; [apply list_lookup_insert_eq; by eapply lookup_lt_Some|done].
Qed.

Lemma store_move_grows evs ev s s' :
  store_ok evs s -> store_move ev s s' ->
  forall p tr, ls_store s !! p = Some tr -> exists tr', ls_store s' !! p = Some tr' /\ tr_le tr tr'.
Proof.
  intros Hok Hmove p tr Hp.
  destruct Hmove as [Hs Hm|server Hq Hn Hs Hm|q tr0 uev t Hq Hu He Hs Hm]; rewrite Hs.
  - exists tr. split; [done|apply tr_le_refl].
  - exists tr. split; [by apply lookup_app_l_Some|apply tr_le_refl].
  - rewrite on_store_lookup, Hp. eexists. split; [done|]. destruct (decide (p = q)) as [->|];
      [|apply tr_le_refl]. rewrite Hq in Hp. injection Hp as <-.
    eapply tr_le_step; [by eapply so_run|done].
Qed.

(** *** What a call knows *)

(** The id of the query is that of the message, or one of [dns.Id]. *)
Definition id_ok (evs : list local_event) (k : nat) (c : name_call) (v : loop_vars) : Prop :=
  lv_id v = m_Id (nm_message c) \/ (m_Id (nm_message c) = 0%Z /\ In (EvId k (lv_id v)) evs).

(** Transport [p] is of the server of the round. *)
Definition round_of (s : local_run_state) (config : dnsConfig) (v : loop_vars) (j p : nat) : Prop :=
  cf_servers config <> [] /\
  exists tr, ls_store s !! p = Some tr /\
    addr_text tr = Socksaddr_AddrString (server_addr (server_at config (lv_offset v) j)).

(** [m] was decoded from the stream of a connection that an exchange over TCP
    with the server of transport [p] wrote the query to. *)
Definition tcp_answer (evs : list local_event) (s : local_run_state) (q : Msg) (p : nat) (m : Msg) : Prop :=
  exists tr x tx bytes stream, ls_store s !! p = Some tr /\ ls_tcps s !! x = Some tx /\
    tx_server tx = udp_server tr /\ tx_message tx = q /\ message_bytes q = inl bytes /\
    In (EvTcp x (TWritten None)) evs /\ In (EvTcp x (TAnswer (inl stream))) evs /\
    (readMessage stream).1 = inl m.

(** [m] was decoded from a datagram of a connection of transport [p] that
    the query was written to, and has the id it was written under. *)
Definition udp_answer (evs : list local_event) (s : local_run_state) (q : Msg) (p : nat) (m : Msg) : Prop :=
  exists tr cn u raw bytes m0, ls_store s !! p = Some tr /\ ut_conns (udp_state tr) !! cn = Some u /\
    msg_Pack (exMessage q (m_Id m0)) = inl raw /\ raw ∈ uc_sent u /\
    In (EvUdp p (URecv cn (inl bytes))) evs /\
    msg_Unpack (datagram (maxUDPSize + 1) bytes) = inl m0 /\
    m_Truncated m0 = false /\ m = msg_with_Id (m_Id q) m0.

Definition answered_by (evs : list local_event) (s : local_run_state) (k : nat) (c : name_call)
    (config : dnsConfig) (m : Msg) : Prop :=
  exists v j p, id_ok evs k c v /\ round_of s config v j p /\
    (tcp_answer evs s (name_query config c v) p m \/
     (cf_useTCP config = false /\ udp_answer evs s (name_query config c v) p m)).

Definition npc_ok (evs : list local_event) (s : local_run_state) (k : nat) (c : name_call)
    (config : dnsConfig) (pc : name_pc) : Prop :=
  match pc with
  | NOffset | NUpdate _ => True
  | NLoop v => id_ok evs k c v /\ (lv_js v <> [] -> cf_servers config <> [])
  | NPull v j => id_ok evs k c v /\ cf_servers config <> []
  | NSend v j p => id_ok evs k c v /\ round_of s config v j p
  | NUdp v j p i => id_ok evs k c v /\ round_of s config v j p /\ cf_useTCP config = false /\
      exists tr x, ls_store s !! p = Some tr /\ ut_xs (udp_state tr) !! i = Some x /\
        x_message x = name_query config c v
  | NTcp v j p x _ => id_ok evs k c v /\ round_of s config v j p /\
      exists tr tx, ls_store s !! p = Some tr /\ ls_tcps s !! x = Some tx /\
        tx_server tx = udp_server tr /\ tx_message tx = name_query config c v
  | NDone (Some m, None) => answered_by evs s k c config m
  | NDone _ => True
  end.

Lemma id_ok_snoc evs ev k c v : id_ok evs k c v -> id_ok (evs ++ [ev]) k c v.
Proof. intros [?|[? Hin]]; [by left|]. right. split; [done|]. apply in_app_iff. auto. Qed.

Lemma round_of_grows s s' config v j p v' :
  grows s s' -> round_of s config v j p -> round_of s' (set_soffset v' config) v j p.
Proof.
  intros Hg (Hne & tr & Hp & Ht). split; [done|].
  destruct (gr_store _ _ Hg _ _ Hp) as (tr' & Hp' & Hs & _). exists tr'. split; [done|].
  unfold addr_text. by rewrite Hs.
Qed.

Lemma tcp_answer_grows evs ev s s' q p m :
  grows s s' -> tcp_answer evs s q p m -> tcp_answer (evs ++ [ev]) s' q p m.
Proof.
  intros Hg (tr & x & tx & bytes & stream & Hp & Hx & Hs & Hq & Hb & Hw & Ha & Hm).
  destruct (gr_store _ _ Hg _ _ Hp) as (tr' & Hp' & Htr & _).
  destruct (gr_tcps _ _ Hg _ _ Hx) as (tx' & Hx' & Hs' & Hq').
  exists tr', x, tx', bytes, stream. rewrite !in_app_iff, Htr, Hs', Hq'. by split_and!; auto.
Qed.

Lemma udp_answer_grows evs ev s s' q p m :
  grows s s' -> udp_answer evs s q p m -> udp_answer (evs ++ [ev]) s' q p m.
Proof.
  intros Hg (tr & cn & u & raw & bytes & m0 & Hp & Hu & Hraw & Hin & Hev & Hm).
  destruct (gr_store _ _ Hg _ _ Hp) as (tr' & Hp' & _ & _ & Hconn).
  destruct (Hconn _ _ Hu) as (u' & Hu' & Hsub). exists tr', cn, u', raw, bytes, m0.
  apply Hsub in Hin. split_and!; try done; try apply Hm. apply in_app_iff. auto.
Qed.

Lemma npc_ok_grows evs ev s s' k c config pc v :
  grows s s' -> npc_ok evs s k c config pc -> npc_ok (evs ++ [ev]) s' k c (set_soffset v config) pc.
Proof.
  intros Hg. pose proof (round_of_grows s s' config) as Hround. destruct pc; simpl; try done.
  - intros [? ?]. split; [by apply id_ok_snoc|done].
  - intros [? ?]. split; [by apply id_ok_snoc|done].
  - intros [? ?]. split; [by apply id_ok_snoc|by apply Hround].
  - intros (? & ? & ? & tr & x & Hp & Hi & Hx). split_and!; [by apply id_ok_snoc|by apply Hround|done|].
    destruct (gr_store _ _ Hg _ _ Hp) as (tr' & Hp' & _ & Hxs & _).
    destruct (Hxs _ _ Hi) as (x' & Hi' & Hx'). exists tr', x'. split_and!; [done..|]. rewrite Hx'. exact Hx.
  - intros (? & ? & tr & tx & Hp & Hx & Hs & Hq). split_and!; [by apply id_ok_snoc|by apply Hround|].
    destruct (gr_store _ _ Hg _ _ Hp) as (tr' & Hp' & Htr & _).
    destruct (gr_tcps _ _ Hg _ _ Hx) as (tx' & Hx' & Hs' & Hq').
    exists tr', tx'. rewrite Htr, Hs', Hq'. by split_and!.
  - destruct r as [[m|] [e|]]; try done. intros (w & j & p & Hid & Hr & Ha).
    exists w, j, p. split_and!; [by apply id_ok_snoc|by apply Hround|].
    destruct Ha as [Ha|[Hu Ha]]; [left; by eapply tcp_answer_grows|right].
    split; [done|]. by eapply udp_answer_grows.
Qed.

(** *** The steps *)

Definition calls_ok (evs : list local_event) (s : local_run_state) : Prop :=
  forall k c, ls_calls s !! k = Some c ->
    exists config, ls_confs s !! nm_conf c = Some config /\ npc_ok evs s k c config (nm_pc c).

Definition step_ok (evs : list local_event) (ev : local_event) (s s' : local_run_state) : Prop :=
  store_move ev s s' /\ tcps_move ev s s' /\ calls_ok (evs ++ [ev]) s'.

Lemma set_soffset_self config : set_soffset (cf_soffset config) config = config.
Proof. by destruct config. Qed.

Lemma conf_self s n config : ls_confs s !! n = Some config ->
  exists v, ls_confs s !! n = Some (set_soffset v config).
Proof. intros Hn. exists (cf_soffset config). by rewrite set_soffset_self. Qed.

Lemma store_move_npc ev s s1 k pc : store_move ev s s1 -> store_move ev s (set_npc k pc s1).
Proof.
  intros [Hs Hm|server Hp Hn Hs Hm|p tr uev t Hp Hu He Hs Hm];
    [by apply move_same|by eapply move_new|by eapply move_step].
Qed.

Lemma tcps_move_npc ev s s1 k pc : tcps_move ev s s1 -> tcps_move ev s (set_npc k pc s1).
Proof. intros [Ht|server q Ht|x tx tev ts Hx Hs He Ht]; [by apply tcps_same|by eapply tcps_new|by eapply tcps_step]. Qed.

Lemma calls_ok_set evs ev s s1 k c pc :
  calls_ok evs s -> grows s s1 -> ls_calls s1 = ls_calls s -> ls_calls s !! k = Some c ->
  (forall config, ls_confs s1 !! nm_conf c = Some config -> npc_ok (evs ++ [ev]) s1 k c config pc) ->
  calls_ok (evs ++ [ev]) (set_npc k pc s1).
Proof.
  intros Hok Hg Hc Hk Hpc j c'. rewrite set_npc_lookup, Hc.
  destruct (ls_calls s !! j) as [c0|] eqn:Ej; [|done]. simpl. intros [= <-].
  destruct (Hok _ _ Ej) as (config & Hconf & Hnpc). destruct (gr_conf _ _ Hg _ _ Hconf) as [v Hv].
  destruct (decide (j = k)) as [->|]; exists (set_soffset v config); (split; [done|]).
  - rewrite Hk in Ej. injection Ej as <-. exact (Hpc _ Hv).
  - exact (npc_ok_grows _ ev _ _ _ _ _ _ v Hg Hnpc).
Qed.

(** A step that moves call [k] only, and leaves the configurations alone. *)
Lemma step_advance evs ev s s1 k c config pc :
  store_ok evs s -> calls_ok evs s -> ls_calls s !! k = Some c ->
  ls_confs s !! nm_conf c = Some config -> store_move ev s s1 -> tcps_move ev s s1 ->
  ls_calls s1 = ls_calls s -> ls_confs s1 = ls_confs s ->
  (grows s s1 -> npc_ok (evs ++ [ev]) s1 k c config pc) ->
  step_ok evs ev s (set_npc k pc s1).
Proof.
  intros Hst Hok Hk Hconf Hmove Htcp Hc Hf Hpc. split; [by apply store_move_npc|].
  split; [by apply tcps_move_npc|].
  assert (grows s s1) as Hg.
  { split; [|by eapply store_move_grows|by eapply tcps_move_grows].
    intros n cf. rewrite Hf. apply conf_self. }
  eapply calls_ok_set; [exact Hok|exact Hg|exact Hc|exact Hk|].
  intros config'. rewrite Hf, Hconf. intros [= <-]. auto.
Qed.

Lemma step_quiet evs ev s s1 :
  store_ok evs s -> calls_ok evs s -> store_move ev s s1 -> tcps_move ev s s1 ->
  (forall n config, ls_confs s !! n = Some config -> ls_confs s1 !! n = Some config) ->
  ls_calls s1 = ls_calls s -> step_ok evs ev s s1.
Proof.
  intros Hst Hok Hmove Htcp Hf Hc. split; [done|]. split; [done|]. intros k c. rewrite Hc. intros Hk.
  destruct (Hok _ _ Hk) as (config & Hconf & Hnpc).
  assert (grows s s1) as Hg.
  { split; [|by eapply store_move_grows|by eapply tcps_move_grows].
    intros n cf Hn. by apply conf_self, Hf. }
  exists config. split; [by apply Hf|].
  rewrite <- (set_soffset_self config). by eapply npc_ok_grows.
Qed.

(** What [pullTransport], [transport.exchange] and the exchange over TCP lead
    to. *)
Lemma after_pull_ok evs s k c config v j r :
  id_ok evs k c v -> cf_servers config <> [] ->
  (forall p, r = (Some p, None) -> round_of s config v j p) ->
  npc_ok evs s k c config (after_pull v j r).
Proof.
  intros Hid Hne Hr. destruct r as [[p|] [e|]]; simpl; try done. by split; [|apply Hr].
Qed.

Lemma after_udp_ok evs s k c config v j p i tr q r pc :
  npc_ok evs s k c config (NUdp v j p i) -> store_ok evs s ->
  ls_store s !! p = Some tr -> ut_xs (udp_state tr) !! i = Some (MkX q (XDone r)) ->
  after_udp v r = Ret (Some pc) -> npc_ok evs s k c config pc.
Proof.
  intros (Hid & Hround & Hu & tr' & x & Hp & Hi & Hx) Hst Hp' Hi'.
  rewrite Hp in Hp'. injection Hp' as ->. rewrite Hi in Hi'. injection Hi' as ->. simpl in Hx. subst q.
  pose proof Hround as [Hne _]. destruct (so_run _ _ Hst _ _ Hp) as (log & Hr & Hlog).
  destruct (xs_ok_run _ _ Hr _ _ Hi) as (cn & kk & Hres). simpl in Hres.
  destruct r as [[[m|] [|]] [e|]]; simpl; try done; try (by intros [= <-]).
  destruct Hres as [(u & raw & Hcn & Hp2 & Hin) (m0 & (bytes & Hb & Hd) & Hid0 & -> & Htr)].
  assert (m_Truncated (msg_with_Id (m_Id (name_query config c v)) m0) = m_Truncated m0) as ->
    by (by destruct m0). rewrite <- Htr. simpl. intros [= <-].
  exists v, j, p. split_and!; [done..|]. right. split; [done|].
  exists tr, cn, u, raw, bytes, m0. rewrite Hid0. auto 10.
Qed.

Lemma after_tcp_ok evs s k c config v j p r retry :
  id_ok evs k c v -> round_of s config v j p ->
  (forall m, r = (Some m, None) -> tcp_answer evs s (name_query config c v) p m) ->
  npc_ok evs s k c config (after_tcp v retry r).
Proof.
  intros Hid Hround Ha. pose proof Hround as [Hne _]. destruct r as [[m|] [e|]]; simpl; try done.
  exists v, j, p. auto.
Qed.

Lemma concat_repeat_nil {A} n : concat (repeat (@nil A) n) = [].
Proof. by induction n. Qed.

(** The step of a call. *)
Lemma pull_read_round evs s config v j p :
  store_ok evs s -> cf_servers config <> [] ->
  ls_map s !! Socksaddr_AddrString (server_addr (server_at config (lv_offset v) j)) = Some p ->
  round_of s config v j p.
Proof.
  intros Hst Hne Hp. split; [done|]. destruct (so_map _ _ Hst _ _ Hp) as (tr & ? & ?). by exists tr.
Qed.

(** A step of call [k] from where it is. *)
Definition stepping (evs : list local_event) (s : local_run_state) (k : nat) (c : name_call)
    (config : dnsConfig) : Prop :=
  store_ok evs s /\ calls_ok evs s /\ ls_calls s !! k = Some c /\ ls_confs s !! nm_conf c = Some config.

Lemma stepping_pc evs s k c config : stepping evs s k c config -> npc_ok evs s k c config (nm_pc c).
Proof.
  intros (_ & Hok & Hk & Hconf). destruct (Hok _ _ Hk) as (config' & Hconf' & Hpc). congruence.
Qed.

Lemma advance_here evs ev s k c config pc :
  stepping evs s k c config -> npc_ok (evs ++ [ev]) s k c config pc -> step_ok evs ev s (set_npc k pc s).
Proof.
  intros (Hst & Hok & Hk & Hconf) Hpc. eapply step_advance; [done..|by apply move_same|by apply tcps_same|done|done|done].
Qed.

Lemma npc_ok_snoc evs ev s k c config pc :
  store_ok evs s -> npc_ok evs s k c config pc -> npc_ok (evs ++ [ev]) s k c config pc.
Proof.
  intros Hst Hpc. rewrite <- (set_soffset_self config). eapply npc_ok_grows; [|exact Hpc].
  split; [intros n cf; apply conf_self| |by intros x tx; exists tx].
  intros p tr Hp. exists tr. split; [done|apply tr_le_refl].
Qed.

Lemma loop_step_ok evs s k c config v s' :
  stepping evs s k c config -> nm_pc c = NLoop v ->
  name_step config k c s = Some (Ret s') -> step_ok evs (EvStep k) s s'.
Proof.
  intros Hs Hpc. pose proof (stepping_pc _ _ _ _ _ Hs) as Hn. pose proof Hs as (Hst & _).
  unfold name_step. rewrite Hpc in *. destruct Hn as [Hid Hne]. intros [= <-].
  destruct (lv_js v) as [|j js].
  { by apply (advance_here _ _ _ _ _ _ _ Hs). }
  specialize (Hne ltac:(done)). unfold ls_pull_read. fold (ls_map s).
  destruct (negb _); [by apply (advance_here _ _ _ _ _ _ _ Hs)|].
  destruct (ls_map s !! _) as [p|] eqn:Ep; apply (advance_here _ _ _ _ _ _ _ Hs), npc_ok_snoc;
    [done| |done|done].
  split; [done|]. by eapply pull_read_round.
Qed.

Lemma pull_step_ok evs s k c config v j s' :
  stepping evs s k c config -> nm_pc c = NPull v j ->
  name_step config k c s = Some (Ret s') -> step_ok evs (EvStep k) s s'.
Proof.
  intros Hs Hpc. pose proof (stepping_pc _ _ _ _ _ Hs) as Hn. pose proof Hs as (Hst & Hok & Hk & Hconf).
  unfold name_step. rewrite Hpc in *. destruct Hn as [Hid Hne].
  set (server := server_addr _). pose proof (ls_pull_write_cases server s) as Hcases.
  pose proof (id_ok_snoc _ (EvStep k) _ _ _ Hid) as Hid'.
  destruct (ls_pull_write server s) as [r s1]. cbv zeta in Hcases. intros [= <-].
  destruct (negb _); [|destruct (ls_map s !! _) as [p|] eqn:Ep]; destruct Hcases as [-> ->].
  - by apply (advance_here _ _ _ _ _ _ _ Hs).
  - apply (advance_here _ _ _ _ _ _ _ Hs), npc_ok_snoc; [done|]. apply after_pull_ok; [done..|].
    intros p' [= <-]. eapply pull_read_round; [done..|exact Ep].
  - eapply step_advance; [done..|by eapply (move_new _ _ _ server)|by apply tcps_same|done|done|]. intros _.
    apply after_pull_ok; [done..|]. intros p [= <-]. split; [done|].
    eexists. split; [by apply list_lookup_middle|done].
Qed.

Lemma start_tcp_ok evs s k c config v j p retry s' :
  stepping evs s k c config -> id_ok evs k c v -> round_of s config v j p ->
  start_tcp config k c v j p retry s = Some s' -> step_ok evs (EvStep k) s s'.
Proof.
  intros (Hst & Hok & Hk & Hconf) Hid Hround. unfold start_tcp.
  destruct (ls_store s !! p) as [tr|] eqn:Ep; [|done]. intros [= <-].
  eapply step_advance; [done..|by apply move_same|by eapply tcps_new|done|done|]. intros Hg.
  split; [by apply id_ok_snoc|]. split.
  - rewrite <- (set_soffset_self config). by eapply round_of_grows.
  - exists tr. eexists. split; [exact Ep|]. split; [by apply list_lookup_middle|done].
Qed.

Lemma send_step_ok evs s k c config v j p s' :
  stepping evs s k c config -> nm_pc c = NSend v j p ->
  name_step config k c s = Some (Ret s') -> step_ok evs (EvStep k) s s'.
Proof.
  intros Hs Hpc. pose proof (stepping_pc _ _ _ _ _ Hs) as Hn. pose proof Hs as (Hst & Hok & Hk & Hconf).
  unfold name_step. rewrite Hpc in *. pose proof Hn as [Hid Hround].
  destruct (cf_useTCP config) eqn:Etcp.
  { destruct (start_tcp _ _ _ _ _ _ _ _) as [s1|] eqn:Et; intros [= <-].
    by eapply (start_tcp_ok _ _ _ _ _ _ _ _ _ _ Hs). }
  destruct (ls_store s !! p) as [tr|] eqn:Ep; [|done]. cbn [mbind option_bind udp_step].
  intros [= <-]. set (t := MkUDP _ _ _ _ _).
  assert (store_move (EvStep k) s (on_store p t s)) as Hmove by (by apply (move_step _ _ _ p tr (UCall (name_query config c v)) t)).
  eapply step_advance; [done..|exact Hmove|by apply tcps_same|done|done|]. intros Hg.
  split_and!; [by apply id_ok_snoc| |done|].
  - rewrite <- (set_soffset_self config). by eapply round_of_grows.
  - eexists _, _. rewrite on_store_lookup, Ep, decide_True by done. split_and!; [done| |].
    + simpl. by apply list_lookup_middle.
    + done.
Qed.

Lemma udp_done_step_ok evs s k c config v j p i s' :
  stepping evs s k c config -> nm_pc c = NUdp v j p i ->
  name_step config k c s = Some (Ret s') -> step_ok evs (EvStep k) s s'.
Proof.
  intros Hs Hpc. pose proof (stepping_pc _ _ _ _ _ Hs) as Hn. pose proof Hs as (Hst & _).
  unfold name_step. rewrite Hpc in *. destruct (ls_store s !! p) as [tr|] eqn:Ep; [|done].
  cbn [mbind option_bind]. destruct (ut_xs (udp_state tr) !! i) as [[q [| | | | | |r]]|] eqn:Ei; try done.
  destruct (after_udp v r) as [[pc|]|] eqn:Ea; [intros [= <-]| |done].
  2: { destruct Hn as (Hid & Hround & _). destruct (start_tcp _ _ _ _ _ _ _ _) as [s1|] eqn:Et; intros [= <-].
       by eapply (start_tcp_ok _ _ _ _ _ _ _ _ _ _ Hs). }
  apply (advance_here _ _ _ _ _ _ _ Hs), npc_ok_snoc; [done|]. by eapply after_udp_ok.
Qed.

Lemma serverOffset_rotation config offset config' :
  serverOffset config = (offset, config') -> exists v, config' = set_soffset v config.
Proof.
  unfold serverOffset. destruct (cf_rotate config); intros [= <- <-]; [by eexists|].
  exists (cf_soffset config). by rewrite set_soffset_self.
Qed.

Lemma offset_step_ok evs s k c config s' :
  stepping evs s k c config -> nm_pc c = NOffset ->
  name_step config k c s = Some (Ret s') -> step_ok evs (EvStep k) s s'.
Proof.
  intros (Hst & Hok & Hk & Hconf) Hpc. unfold name_step. rewrite Hpc.
  destruct (serverOffset config) as [offset config'] eqn:Eo. intros [= <-].
  destruct (serverOffset_rotation config offset config' Eo) as [v ->].
  split; [by apply store_move_npc, move_same|]. split; [by apply tcps_move_npc, tcps_same|].
  eapply calls_ok_set; [exact Hok| |done|exact Hk|done].
  split; [| |by intros x tx; exists tx].
  - intros n cf Hn. simpl. destruct (decide (n = nm_conf c)) as [->|Hne].
    + rewrite Hconf in Hn. injection Hn as <-. exists v.
      apply list_lookup_insert_eq. by eapply lookup_lt_Some.
    + rewrite list_lookup_insert_ne by done. by apply conf_self.
  - intros p tr Hp. exists tr. split; [done|apply tr_le_refl].
Qed.

(** A query that was written over TCP could be encoded. *)
Lemma tcp_written message log ts :
  tcp_run message log ts ->
  (ts_pc ts = TWrite -> exists bytes, message_bytes message = inl bytes) /\
  (forall e, In (TWritten e) log -> exists bytes, message_bytes message = inl bytes).
Proof.
  induction 1 as [|log ts ev ts' _ [IHw IHl] Hs]; [by split|].
  assert (forall e, ev = TWritten e -> exists bytes, message_bytes message = inl bytes) as Hev.
  { intros e ->. simpl in Hs. destruct (ts_pc ts); try done. by apply IHw. }
  split.
  - intros Hpc. destruct (message_bytes message) as [bytes|er] eqn:Hb; [by eexists|].
    destruct ev; simpl in Hs; repeat (case_match; simplify_eq/=); try (by destruct IHw);
      unfold after_dial in Hpc; rewrite ?Hb in Hpc; simplify_eq/=; by destruct IHw.
  - intros e [Hin|[Heq|[]]]%in_app_iff; [by eapply IHl|by eapply Hev].
Qed.

Lemma tcp_done_step_ok evs s k c config v j p x retry s' :
  tcps_ok evs s -> stepping evs s k c config -> nm_pc c = NTcp v j p x retry ->
  name_step config k c s = Some (Ret s') -> step_ok evs (EvStep k) s s'.
Proof.
  intros Htcps Hs Hpc. pose proof (stepping_pc _ _ _ _ _ Hs) as Hn. pose proof Hs as (Hst & _).
  unfold name_step. rewrite Hpc in *. destruct Hn as (Hid & Hround & tr & tx & Hp & Hx & Hserver & Hq).
  rewrite Hx. cbn [mbind option_bind]. destruct (ts_pc (tx_state tx)) as [| | |r|r|r] eqn:Et; try done.
  intros [= <-]. apply (advance_here _ _ _ _ _ _ _ Hs), npc_ok_snoc; [done|].
  apply (after_tcp_ok _ _ _ _ _ _ j p); [done..|]. intros m ->.
  destruct (Htcps x tx Hx) as (log & Hr & Hlog). pose proof (to_result _ _ _ (tcp_ok_run _ _ _ Hr)) as Hres.
  rewrite Et in Hres. destruct Hres as [(e & [= ] & _)|(read & Hw & Ha & Heq)].
  destruct (proj2 (tcp_written _ _ _ Hr) _ Hw) as [bytes Hb]. rewrite Hq in Hb.
  destruct read as [stream|e]; [|done]. cbn [answer_of] in Heq.
  destruct ((readMessage stream).1) as [m'|e] eqn:Em; [|done]. injection Heq as <-.
  exists tr, x, tx, bytes, stream. split_and!; auto.
Qed.

Lemma name_step_ok evs s k c config s' :
  tcps_ok evs s -> stepping evs s k c config -> name_step config k c s = Some (Ret s') -> step_ok evs (EvStep k) s s'.
Proof.
  intros Ht Hs Hn. pose proof Hn as Hn'. unfold name_step in Hn'. destruct (nm_pc c) eqn:Epc; try done;
    eauto using offset_step_ok, loop_step_ok, pull_step_ok, send_step_ok, udp_done_step_ok,
      tcp_done_step_ok.
Qed.

Lemma id_step_ok evs s k c config id s' :
  stepping evs s k c config -> local_step (EvId k id) s = Some (Ret s') -> step_ok evs (EvId k id) s s'.
Proof.
  intros Hs. pose proof Hs as (Hst & Hok & Hk & Hconf). cbn [local_step]. rewrite Hk. cbn [mbind option_bind].
  rewrite Hconf. cbn [mbind option_bind]. destruct (nm_pc c) eqn:Epc; try done.
  destruct (ls_update (cf_servers config) s) as [s1|] eqn:Eu; intros [= <-].
  destruct (ls_update_ret _ _ _ _ Hst Eu) as (Hf & Hs1 & Hm & Hc & Ht & _).
  eapply step_advance; [done..|by apply move_same|by apply tcps_same|done|done|]. intros _. split.
  - unfold id_ok. simpl. destruct (Z.eqb_spec (m_Id (nm_message c)) 0) as [Hz|]; [right|by left].
    split; [done|]. apply in_app_iff. right. by left.
  - simpl. intros Hjs Hn. rewrite Hn in Hjs. cbn [length seq] in Hjs. by rewrite concat_repeat_nil in Hjs.
Qed.

Lemma local_step_ok evs s ev s' :
  store_ok evs s -> tcps_ok evs s -> calls_ok evs s ->
  local_step ev s = Some (Ret s') -> step_ok evs ev s s'.
Proof.
  intros Hst Htcps Hok Hs.
  destruct ev as [config|n fqdn message question|k|k id|x tev|p uev]; cbn [local_step] in Hs.
  - injection Hs as <-. apply step_quiet; [done..|by apply move_same|by apply tcps_same| |done].
    intros n cf Hn. by apply lookup_app_l_Some.
  - destruct (ls_confs s !! n) as [config|] eqn:En; simplify_eq/=.
    split; [by apply move_same|]. split; [by apply tcps_same|].
    intros k c [Hk|[_ Hk]]%lookup_app_Some.
    + destruct (Hok _ _ Hk) as (cf & Hcf & Hpc). exists cf. split; [done|].
      eapply (npc_ok_snoc _ _ s); [done|exact Hpc].
    + apply list_elem_of_lookup_2, list_elem_of_singleton in Hk as ->. by exists config.
  - destruct (ls_calls s !! k) as [c|] eqn:Ek; [|done]. cbn [mbind option_bind] in Hs.
    destruct (ls_confs s !! nm_conf c) as [config|] eqn:En; [|done]. by eapply name_step_ok.
  - destruct (ls_calls s !! k) as [c|] eqn:Ek; [|done]. destruct (Hok _ _ Ek) as (config & Hconf & _).
    eapply (id_step_ok _ _ _ c config); [done|]. cbn [local_step]. by rewrite Ek.
  - destruct (ls_tcps s !! x) as [tx|] eqn:Ex; [|done]. cbn [mbind option_bind] in Hs.
    destruct (tcp_step (tx_message tx) tev (tx_state tx)) as [ts|] eqn:Et; simplify_eq/=.
    apply step_quiet; [done..|by apply move_same|by eapply tcps_step|done|done].
  - destruct (ls_store s !! p) as [tr|] eqn:Ep; [|done]. cbn [mbind option_bind] in Hs.
    destruct (own_udp uev) eqn:Eo; [|done].
    destruct (udp_step uev (udp_state tr)) as [[t|]|] eqn:Eu; simplify_eq.
    apply step_quiet; [done..| |by apply tcps_same|done|done].
    eapply move_step; [done..| |done|done]. by intros c b ->.
Qed.

Lemma local_run_ok evs s : local_run evs s -> store_ok evs s /\ tcps_ok evs s /\ calls_ok evs s.
Proof.
  induction 1 as [|evs s ev s' Hr (Hst & Htcps & Hok) Hs].
  - split_and!; [by split|done..].
  - destruct (local_step_ok _ _ _ _ Hst Htcps Hok Hs) as (Hmove & Htcp & Hok').
    split_and!; [by eapply store_ok_move|by eapply tcps_ok_move|done].
Qed.

End calls.
