(* ===== verification/LocalCalls.v ===== *)
(** * What the concurrent calls of the local transport come to

    Over the steps of LocalRun: with the servers of a file no transport is
    made, the number of steps of a call is bounded and it is never stuck, the
    set of servers and the map of transports belong together, the sections
    under the lock are those of Local, and an answer was read from the server
    its query was written to. *)

From S2P Require Import Prelude GoStd Netip Meta Dns Addrs Lines ResolvConf Tcp TcpRun Udp UdpTransport Local LocalRun.

(** ** Lemmas *)

(** *** With the servers of a file *)

Section offline.
Context `{SetLaws} `{DnsLib} `{ExLaws} `{DnsWire}.

(** Where the calls are when no transport can be made. *)
Definition pc_offline (pc : name_pc) : Prop :=
  match pc with
  | NOffset | NUpdate _ | NDone (None, Some _) => True
  | NLoop v => lv_js v <> []
  | _ => False
  end.

Record offline_ok (s : local_run_state) : Prop := {
  of_store : ls_store s = [];
  of_map : ls_map s = ∅;
  of_servers : forall ms x, ls_servers s = Some ms -> set_Contains ms x = true -> plain_server x;
  of_confs : Forall conf_ok (ls_confs s);
  of_tcps : ls_tcps s = [];
  of_calls : forall k c, ls_calls s !! k = Some c -> pc_offline (nm_pc c);
}.

Definition conf_event_ok (ev : local_event) : Prop :=
  match ev with EvConf config => conf_ok config | _ => True end.

Lemma offline_conf s n config : offline_ok s -> ls_confs s !! n = Some config -> conf_ok config.
Proof. intros Hok Hn. exact (Forall_lookup_1 _ _ _ _ (of_confs _ Hok) Hn). Qed.

Lemma offline_npc s k pc : offline_ok s -> pc_offline pc -> offline_ok (set_npc k pc s).
Proof.
  intros [Hs Hm Hv Hf Ht Hc] Hpc. split; try done. intros j c. rewrite set_npc_lookup.
  destruct (ls_calls s !! j) as [c0|] eqn:Ej; intros [= <-]. destruct (decide (j = k)); [done|].
  by eapply Hc.
Qed.

(** The servers of a configuration are never found under the names they are
    looked up with. *)
Lemma offline_pull s config offset j :
  offline_ok s -> conf_ok config ->
  exists e, ls_pull_read (server_addr (server_at config offset j)) s = Some (None, Some e).
Proof.
  intros Hok (Hs & Hne & _). unfold ls_pull_read. set (text := Socksaddr_AddrString _).
  assert (plain_server (server_at config offset j)) as Hp.
  { unfold server_at. destruct (cf_servers config !! _) as [x|] eqn:E.
    - exact (Forall_lookup_1 _ _ _ _ Hs E).
    - apply lookup_ge_None_1 in E. pose proof (Z.mod_pos_bound (u32 (offset + Z.of_nat j))
        (Z.of_nat (length (cf_servers config)))). destruct (cf_servers config); [done|]. simpl in *. lia. }
  assert (ls_contains text s = false) as ->; [|by eexists].
  unfold ls_contains. destruct (ls_servers s) as [ms|] eqn:Es; [|done].
  destruct (set_Contains ms text) eqn:E; [|done].
  by destruct (AddrString_not_server _ _ Hp (of_servers _ Hok _ _ Es E)).
Qed.

Lemma offline_update s config :
  offline_ok s -> conf_ok config ->
  exists s', ls_update (cf_servers config) s = Ret s' /\ offline_ok s'.
Proof.
  intros Hok (Hs & _). destruct Hok as [Hst Hm Hv Hf Ht Hc]. unfold ls_update. fold (ls_map s).
  rewrite Hm, map_to_list_empty. destruct (match ls_servers s with Some ms => _ | None => false end).
  { eexists. split; [done|]. by split. }
  destruct (cf_servers config) as [|x servers]; (eexists; split; [done|]); split; try done;
    simpl; intros ms y [= <-].
  - by rewrite NewSet_Contains.
  - rewrite FromSlice_Contains. intros Hy. bool_hyps. by eapply Forall_forall in Hs.
Qed.

Lemma rounds_nonempty config :
  conf_ok config ->
  concat (repeat (seq 0 (length (cf_servers config))) (Z.to_nat (cf_attempts config))) <> [].
Proof.
  intros (_ & Hne & Ha). destruct (cf_servers config); [done|].
  by destruct (Z.to_nat (cf_attempts config)) eqn:E; [lia|].
Qed.

Lemma offline_name_step s k c config :
  offline_ok s -> ls_calls s !! k = Some c -> conf_ok config ->
  match name_step config k c s with
  | Some (Ret s') => offline_ok s' /\ exists pc s1, s' = set_npc k pc s1 /\ ls_calls s1 = ls_calls s /\
      match nm_pc c with NOffset => exists o, pc = NUpdate o | _ => exists e, pc = NDone (None, Some e) end
  | Some (Panic _) => False
  | None => match nm_pc c with NOffset | NLoop _ => False | _ => True end
  end.
Proof.
  intros Hok Hk Hc. pose proof (of_calls _ Hok _ _ Hk) as Hpc. unfold name_step.
  destruct (nm_pc c) as [| |v| | | | |] eqn:Epc; try done.
  - destruct (serverOffset config) as [offset config'] eqn:Eo. split; [|by eauto 10].
    apply offline_npc; [|done]. destruct Hok as [Hs Hm Hv Hf Ht Hca]. split; try done.
    apply Forall_insert; [done|]. unfold serverOffset in Eo.
    destruct (cf_rotate config); injection Eo as <- <-; [by apply stable_conf_ok|done].
  - simpl in Hpc. destruct (lv_js v) as [|j js]; [done|]. cbn [lv_offset].
    destruct (offline_pull s config (lv_offset v) j Hok Hc) as [e ->].
    destruct (ex_Cause_some e "pull transport") as [e' He]. simpl. rewrite He.
    split; [by apply offline_npc|by eauto 10].
Qed.

Lemma offline_step s ev :
  offline_ok s -> conf_event_ok ev ->
  match local_step ev s with Some (Ret s') => offline_ok s' | Some (Panic _) => False | None => True end.
Proof.
  intros Hok Hev. pose proof Hok as [Hs Hm Hv Hf Ht Hc].
  destruct ev as [config|n fqdn message question|k|k id|x tev|p uev]; cbn [local_step].
  - split; try done. apply Forall_app. by split; [|constructor].
  - destruct (ls_confs s !! n); [|done]. split; try done.
    intros k c [Hk|[_ Hk]]%lookup_app_Some; [by eapply Hc|].
    by apply list_elem_of_lookup_2, list_elem_of_singleton in Hk as ->.
  - destruct (ls_calls s !! k) as [c|] eqn:Ek; [|done]. simpl.
    destruct (ls_confs s !! nm_conf c) as [config|] eqn:En; [|done]. simpl.
    pose proof (offline_name_step s k c config Hok Ek (offline_conf _ _ _ Hok En)) as Hn.
    destruct (name_step config k c s) as [[s'|]|]; [apply Hn|done..].
  - destruct (ls_calls s !! k) as [c|] eqn:Ek; [|done]. simpl.
    destruct (ls_confs s !! nm_conf c) as [config|] eqn:En; [|done]. simpl.
    destruct (nm_pc c); try done. pose proof (offline_conf _ _ _ Hok En) as Hconf.
    destruct (offline_update s config Hok Hconf) as (s' & -> & Hok').
    apply offline_npc; [done|]. by apply rounds_nonempty.
  - by rewrite Ht.
  - by rewrite Hs.
Qed.

Lemma offline_run evs s : local_run evs s -> Forall conf_event_ok evs -> offline_ok s.
Proof.
  induction 1 as [|evs s ev s' Hr IH Hs].
  - intros _. by split.
  - intros [Hevs Hev]%Forall_app. inversion_clear Hev as [|? ? Hev' _].
    pose proof (offline_step s ev (IH Hevs) Hev') as Hstep. by rewrite Hs in Hstep.
Qed.

(** How many steps a call has left. *)
Definition steps_left (pc : name_pc) : nat :=
  match pc with NOffset => 3 | NUpdate _ => 2 | NDone _ => 0 | _ => 1 end.

Lemma offline_progress evs s k c :
  local_run evs s -> offline_ok s -> ls_calls s !! k = Some c ->
  forall n, steps_left (nm_pc c) = S n ->
  exists ev s' c', local_step ev s = Some (Ret s') /\ conf_event_ok ev /\
    ls_calls s' !! k = Some c' /\ steps_left (nm_pc c') = n.
Proof.
  intros Hr Hok Hk n Hn. destruct (local_run_ok _ _ Hr) as (_ & _ & Hcalls).
  destruct (Hcalls _ _ Hk) as (config & Hconf & _). pose proof (offline_conf _ _ _ Hok Hconf) as Hc.
  pose proof (of_calls _ Hok _ _ Hk) as Hpc.
  pose proof (offline_name_step s k c config Hok Hk Hc) as Hstep.
  destruct (nm_pc c) as [|offset|v| | | | |r] eqn:Epc; try done.
  1,3: exists (EvStep k); cbn [local_step]; rewrite Hk; simpl; rewrite Hconf; simpl;
    destruct (name_step config k c s) as [[s'|]|]; [|done..];
    destruct Hstep as (_ & pc & s1 & -> & Hs1 & Hpc'); eexists _, _; (split; [done|]); (split; [done|]);
    rewrite set_npc_lookup, Hs1, Hk, decide_True by done; (split; [done|]);
    destruct Hpc' as [? ->]; simpl in *; lia.
  destruct (offline_update s config Hok Hc) as (s1 & Hu & _).
  exists (EvId k 0); cbn [local_step]; rewrite Hk; simpl; rewrite Hconf; simpl. rewrite Epc, Hu.
  eexists _, _; (split; [done|]); (split; [done|]).
  destruct (local_run_ok _ _ Hr) as (Hst & _). destruct (ls_update_ret _ _ _ _ Hst Hu) as (_ & _ & _ & Hs1 & _ & _).
  rewrite set_npc_lookup, Hs1, Hk, decide_True by done. split; [done|]. simpl in *. lia.
Qed.

Lemma offline_ends evs s k c n :
  local_run evs s -> Forall conf_event_ok evs -> ls_calls s !! k = Some c -> steps_left (nm_pc c) = n ->
  exists evs' s' c' e, length evs' = n /\ local_run (evs ++ evs') s' /\
    ls_calls s' !! k = Some c' /\ nm_pc c' = NDone (None, Some e).
Proof.
  revert evs s c. induction n as [|n IH]; intros evs s c Hr Hevs Hk Hn;
    pose proof (offline_run _ _ Hr Hevs) as Hok; pose proof (of_calls _ Hok _ _ Hk) as Hpc.
  - exists [], s, c. rewrite app_nil_r. destruct (nm_pc c) as [| | | | | | |[[m|] [e|]]]; try done. by exists e.
  - destruct (offline_progress _ _ _ _ Hr Hok Hk) with (n := n) as (ev & s1 & c1 & Hs & Hev & Hk1 & Hn1);
      [done|].
    destruct (IH (evs ++ [ev]) s1 c1) as (evs' & s' & c' & e & Hl & Hr' & Hk' & Hd); [by econstructor| |done..|].
    { apply Forall_app. by split; [|constructor]. }
    exists (ev :: evs'), s', c', e. rewrite <- app_assoc in Hr'. simpl. auto.
Qed.

End offline.

(** *** How far a call has to go *)

Section bound.
Context `{SetLib} `{DnsLib} `{ExLib} `{DnsWire}.

(** The rounds of the loops, and the steps left when there are [R]. *)
Definition rounds (config : dnsConfig) : nat :=
  length (cf_servers config) * Z.to_nat (cf_attempts config).

Definition npc_cost (R : nat) (pc : name_pc) : nat :=
  match pc with
  | NOffset => 3 + 5 * R
  | NUpdate _ => 2 + 5 * R
  | NLoop v => 1 + 5 * length (lv_js v)
  | NPull v _ => 5 + 5 * length (lv_js v)
  | NSend v _ _ => 4 + 5 * length (lv_js v)
  | NUdp v _ _ _ => 3 + 5 * length (lv_js v)
  | NTcp v _ _ _ _ => 2 + 5 * length (lv_js v)
  | NDone _ => 0
  end.

(** Whether an event is a step of call [k]. *)
Definition steps_of (k : nat) (ev : local_event) : nat :=
  match ev with EvStep k' | EvId k' _ => if decide (k' = k) then 1 else 0 | _ => 0 end.

Lemma length_rounds {A} (l : list A) n : length (concat (repeat l n)) = length l * n.
Proof. induction n as [|n IH]; simpl; [lia|]. rewrite length_app, IH. lia. Qed.

Lemma after_pull_cost R v j r : npc_cost R (after_pull v j r) <= 4 + 5 * length (lv_js v).
Proof. destruct r as [[p|] [e|]]; simpl; lia. Qed.

Lemma after_udp_cost R v r pc : after_udp v r = Ret (Some pc) -> npc_cost R pc <= 1 + 5 * length (lv_js v).
Proof.
  destruct r as [[[m|] [|]] [e|]]; simpl; try done; try (intros [= <-]; simpl; lia).
  destruct (m_Truncated m); intros [= <-]. simpl. lia.
Qed.

Lemma after_tcp_cost R v retry r : npc_cost R (after_tcp v retry r) <= 1 + 5 * length (lv_js v).
Proof. destruct r as [m [e|]]; simpl; lia. Qed.

(** What a step of call [k] leaves, for the steps that are left. *)
Definition advances (R : nat) (k : nat) (c : name_call) (s s' : local_run_state) : Prop :=
  exists pc s1, s' = set_npc k pc s1 /\ ls_calls s1 = ls_calls s /\
    (forall n cf, ls_confs s !! n = Some cf -> exists v, ls_confs s1 !! n = Some (set_soffset v cf)) /\
    length (ls_confs s1) = length (ls_confs s) /\
    S (npc_cost R pc) <= npc_cost R (nm_pc c).

Lemma advances_same R k c s s1 pc :
  ls_calls s1 = ls_calls s -> ls_confs s1 = ls_confs s -> S (npc_cost R pc) <= npc_cost R (nm_pc c) ->
  advances R k c s (set_npc k pc s1).
Proof.
  intros Hc Hf Hn. exists pc, s1. split_and!; try done; [|by rewrite Hf]. intros n cf. rewrite Hf. apply conf_self.
Qed.

Lemma start_tcp_advances R config k c v j p retry s s' :
  3 + 5 * length (lv_js v) <= npc_cost R (nm_pc c) ->
  start_tcp config k c v j p retry s = Some s' -> advances R k c s s'.
Proof.
  intros Hn. unfold start_tcp. destruct (ls_store s !! p); [|done]. intros [= <-].
  apply advances_same; [done..|]. simpl. lia.
Qed.

Lemma name_step_advances R evs config k c s s' :
  stepping evs s k c config -> name_step config k c s = Some (Ret s') -> advances R k c s s'.
Proof.
  intros (_ & _ & _ & Hconf). unfold name_step.
  destruct (nm_pc c) as [| |v|v j|v j p|v j p i|v j p x retry|] eqn:Epc; try done.
  - destruct (serverOffset config) as [offset config'] eqn:Eo. intros [= <-].
    eexists _, _. split; [done|]. split; [done|]. rewrite Epc.
    split; [|split; [apply length_insert|simpl; lia]]. intros n cf Hn. simpl. destruct (serverOffset_rotation config offset config' Eo) as [v ->].
    destruct (decide (n = nm_conf c)) as [->|Hne].
    + rewrite Hconf in Hn. injection Hn as <-. exists v. apply list_lookup_insert_eq. by eapply lookup_lt_Some.
    + rewrite list_lookup_insert_ne by done. by apply conf_self.
  - intros [= <-]. destruct (lv_js v) as [|j js] eqn:Ej.
    { apply advances_same; [done..|]. rewrite Epc. simpl. lia. }
    destruct (ls_pull_read _ s) as [r|]; (apply advances_same; [done..|]); rewrite Epc; cbn [npc_cost];
      rewrite Ej; [|simpl; lia].
    pose proof (after_pull_cost R (MkLV (lv_offset v) (lv_id v) js (lv_err v)) j r). simpl in *. lia.
  - pose proof (ls_pull_write_cases (server_addr (server_at config (lv_offset v) j)) s) as Hcases.
    destruct (ls_pull_write _ s) as [r s1]. cbv zeta in Hcases. intros [= <-].
    pose proof (after_pull_cost R v j r).
    assert (ls_calls s1 = ls_calls s /\ ls_confs s1 = ls_confs s) as [Hc Hf].
    { destruct (negb _); [|destruct (ls_map s !! _)]; by destruct Hcases as [_ ->]. }
    apply advances_same; [done..|]. rewrite Epc. simpl. lia.
  - destruct (cf_useTCP config).
    { destruct (start_tcp _ _ _ _ _ _ _ _) as [s1|] eqn:Et; intros [= <-].
      eapply start_tcp_advances; [|exact Et]. rewrite Epc. simpl. lia. }
    destruct (ls_store s !! p) as [tr|]; [|done]. intros [= <-].
    apply advances_same; [done..|]. rewrite Epc. simpl. lia.
  - destruct (ls_store s !! p) as [tr|]; [|done]. cbn [mbind option_bind].
    destruct (ut_xs (udp_state tr) !! i) as [[q [| | | | | |r]]|]; try done.
    destruct (after_udp v r) as [[pc|]|] eqn:Ea; [intros [= <-]| |done].
    + pose proof (after_udp_cost R _ _ _ Ea). apply advances_same; [done..|]. rewrite Epc. simpl. lia.
    + destruct (start_tcp _ _ _ _ _ _ _ _) as [s1|] eqn:Et; intros [= <-].
      eapply start_tcp_advances; [|exact Et]. rewrite Epc. simpl. lia.
  - destruct (ls_tcps s !! x) as [tx|]; [|done]. cbn [mbind option_bind].
    destruct (ts_pc (tx_state tx)) as [| | |r|r|r]; try done. intros [= <-].
    pose proof (after_tcp_cost R v retry r). apply advances_same; [done..|]. rewrite Epc. simpl. lia.
Qed.

Lemma id_step_advances evs config k c id s s' :
  stepping evs s k c config -> local_step (EvId k id) s = Some (Ret s') ->
  advances (rounds config) k c s s'.
Proof.
  intros (Hst & Hok & Hk & Hconf). cbn [local_step]. rewrite Hk. cbn [mbind option_bind].
  rewrite Hconf. cbn [mbind option_bind]. destruct (nm_pc c) as [|offset| | | | | |] eqn:Epc; try done.
  destruct (ls_update (cf_servers config) s) as [s1|] eqn:Eu; intros [= <-].
  destruct (ls_update_ret _ _ _ _ Hst Eu) as (Hf & _ & _ & Hc & _).
  apply advances_same; [done..|]. rewrite Epc. cbn [npc_cost lv_js].
  rewrite length_rounds, length_seq. unfold rounds. lia.
Qed.

(** The steps a call has taken and has left are at most those of a call of
    its configuration. *)
Definition bounded (evs : list local_event) (s : local_run_state) : Prop :=
  (forall k, length (ls_calls s) <= k -> sum_list_with (steps_of k) evs = 0) /\
  (forall k c config, ls_calls s !! k = Some c -> ls_confs s !! nm_conf c = Some config ->
     sum_list_with (steps_of k) evs + npc_cost (rounds config) (nm_pc c) <= 3 + 5 * rounds config).

Lemma bounded_advances evs ev s s' k c config :
  bounded evs s -> stepping evs s k c config -> advances (rounds config) k c s s' ->
  (forall j, steps_of j ev = if decide (k = j) then 1 else 0) -> bounded (evs ++ [ev]) s'.
Proof.
  intros [Hnew Hb] (_ & Hok & Hk & Hconf) (pc & s1 & -> & Hc & Hf & _ & Hn) Hev. split.
  - intros j. unfold set_npc. cbn [ls_calls]. rewrite length_alter, Hc. intros Hj.
    rewrite sum_list_with_app, (Hnew j Hj). simpl. rewrite Hev, decide_False; [done|].
    intros ->. apply lookup_lt_Some in Hk. lia.
  - intros j c' config'. rewrite set_npc_lookup, Hc. destruct (ls_calls s !! j) as [c0|] eqn:Ej; intros [= <-].
    assert (nm_conf ((if decide (j = k) then fun c => MkNC (nm_conf c) (nm_fqdn c) (nm_message c)
      (nm_question c) pc else id) c0) = nm_conf c0) as -> by (by destruct (decide (j = k))).
    destruct (Hok _ _ Ej) as (config0 & Hconf0 & _). destruct (Hf _ _ Hconf0) as [v Hv].
    change (ls_confs (set_npc k pc s1)) with (ls_confs s1). rewrite Hv. intros [= <-].
    change (rounds (set_soffset v config0)) with (rounds config0).
    specialize (Hb _ _ _ Ej Hconf0). rewrite sum_list_with_app. simpl. rewrite Hev.
    destruct (decide (j = k)) as [->|Hne]; [|rewrite decide_False by done; simpl; lia].
    rewrite decide_True by done. rewrite Hk in Ej. injection Ej as <-.
    rewrite Hconf in Hconf0. injection Hconf0 as <-. simpl. lia.
Qed.

(** An event that is no step of a call and keeps them. *)
Lemma bounded_quiet evs ev s s' :
  bounded evs s -> calls_ok evs s -> (forall j, steps_of j ev = 0) -> ls_calls s' = ls_calls s ->
  (forall n cf, ls_confs s !! n = Some cf -> ls_confs s' !! n = Some cf) -> bounded (evs ++ [ev]) s'.
Proof.
  intros [Hnew Hb] Hok Hev Hc Hf. split; [intros j|intros j c config]; rewrite Hc, sum_list_with_app; simpl;
    rewrite Hev.
  - intros Hj%Hnew. lia.
  - intros Hj Hconf. destruct (Hok _ _ Hj) as (config0 & Hconf0 & _).
    pose proof (Hf _ _ Hconf0) as Hconf1. rewrite Hconf in Hconf1. injection Hconf1 as <-.
    pose proof (Hb _ _ _ Hj Hconf0). lia.
Qed.

Lemma bounded_call evs conf fqdn message question s :
  bounded evs s ->
  bounded (evs ++ [EvCall conf fqdn message question])
    (MkLS (ls_confs s) (ls_store s) (ls_transports s) (ls_servers s) (ls_tcps s)
       (ls_calls s ++ [MkNC conf fqdn message question NOffset])).
Proof.
  intros [Hnew Hb]. split.
  - intros j. cbn [ls_calls]. rewrite length_app. simpl. intros Hj.
    rewrite sum_list_with_app. simpl. rewrite Hnew; lia.
  - intros j c config. rewrite sum_list_with_app. simpl.
    intros [Hj|[Hge Hj]]%lookup_app_Some Hconf; [pose proof (Hb _ _ _ Hj Hconf); lia|].
    apply list_elem_of_lookup_2, list_elem_of_singleton in Hj as ->. rewrite Hnew by done. simpl. lia.
Qed.

(** What a step is to the calls. *)
Inductive calls_change (evs : list local_event) (ev : local_event) (s s' : local_run_state) : Prop :=
  | change_none
      (Hev : forall j, steps_of j ev = 0) (Hc : ls_calls s' = ls_calls s)
      (Hf : ls_confs s' = ls_confs s \/
            exists config, ev = EvConf config /\ ls_confs s' = ls_confs s ++ [config])
  | change_new conf fqdn message question
      (Hev : ev = EvCall conf fqdn message question)
      (Hs : s' = MkLS (ls_confs s) (ls_store s) (ls_transports s) (ls_servers s) (ls_tcps s)
                   (ls_calls s ++ [MkNC conf fqdn message question NOffset]))
  | change_step k c config
      (Hk : stepping evs s k c config) (Ha : advances (rounds config) k c s s')
      (Hev : forall j, steps_of j ev = if decide (k = j) then 1 else 0).

Lemma local_step_change evs s ev s' :
  local_run evs s -> local_step ev s = Some (Ret s') -> calls_change evs ev s s'.
Proof.
  intros Hr Hs. destruct (local_run_ok _ _ Hr) as (Hst & Htcps & Hok).
  assert (forall k c config, ls_calls s !! k = Some c -> ls_confs s !! nm_conf c = Some config ->
    stepping evs s k c config) as Hstep by (intros k c config Hk Hc; exact (conj Hst (conj Hok (conj Hk Hc)))).
  destruct ev as [config|n fqdn message question|k|k id|x tev|p uev]; cbn [local_step] in Hs.
  - injection Hs as <-. apply change_none; try done. right. by exists config.
  - destruct (ls_confs s !! n); simplify_eq/=. by eapply change_new.
  - destruct (ls_calls s !! k) as [c|] eqn:Ek; [|done]. cbn [mbind option_bind] in Hs.
    destruct (ls_confs s !! nm_conf c) as [config|] eqn:En; [|done].
    pose proof (Hstep _ _ _ Ek En) as Hk. eapply change_step; [exact Hk|by eapply name_step_advances|done].
  - destruct (ls_calls s !! k) as [c|] eqn:Ek; [|done]. destruct (Hok _ _ Ek) as (config & En & _).
    pose proof (Hstep _ _ _ Ek En) as Hk. eapply change_step; [exact Hk| |done].
    eapply id_step_advances; [exact Hk|]. cbn [local_step]. rewrite Ek. exact Hs.
  - destruct (ls_tcps s !! x) as [tx|]; [|done]. cbn [mbind option_bind] in Hs.
    destruct (tcp_step _ _ _); [|done]. injection Hs as <-. apply change_none; try done. by left.
  - destruct (ls_store s !! p) as [tr|]; [|done]. cbn [mbind option_bind] in Hs.
    destruct (own_udp uev); [|done]. destruct (udp_step uev _) as [[t|]|]; [|done..].
    injection Hs as <-. apply change_none; try done. by left.
Qed.

Lemma bounded_run evs s : local_run evs s -> bounded evs s.
Proof.
  induction 1 as [|evs s ev s' Hr IH Hs]; [by split|].
  destruct (local_run_ok _ _ Hr) as (_ & _ & Hok).
  destruct (local_step_change _ _ _ _ Hr Hs) as [Hev Hc Hf|conf fqdn message question -> ->|k c config Hk Ha Hev].
  - apply bounded_quiet with (s := s); try done. intros n cf. destruct Hf as [->|(config & _ & ->)]; [done|].
    apply lookup_app_l_Some.
  - by apply bounded_call.
  - by eapply bounded_advances.
Qed.

(** A call keeps what it was made with, and its result; a configuration is
    never changed but for its offset. *)
Lemma local_step_keeps evs s ev s' :
  local_run evs s -> local_step ev s = Some (Ret s') ->
  (forall n c, ls_calls s !! n = Some c -> exists pc,
     ls_calls s' !! n = Some (MkNC (nm_conf c) (nm_fqdn c) (nm_message c) (nm_question c) pc) /\
     forall r, nm_pc c = NDone r -> pc = NDone r) /\
  (forall i cf, ls_confs s !! i = Some cf -> exists v, ls_confs s' !! i = Some (set_soffset v cf)).
Proof.
  intros Hr Hs. assert (forall c, MkNC (nm_conf c) (nm_fqdn c) (nm_message c) (nm_question c) (nm_pc c) = c) as Heta
    by (by intros []).
  destruct (local_step_change _ _ _ _ Hr Hs) as
    [Hev Hc Hf|conf fqdn message question -> ->|k c config (_ & _ & Hk & _) (pc & s1 & -> & Hc & Hf & _ & Hn) Hev].
  - split; [|intros i cf Hi; apply conf_self; destruct Hf as [->|(config & _ & ->)]; [done|by apply lookup_app_l_Some]].
    intros n c Hn. exists (nm_pc c). by rewrite Hc, Heta.
  - split; [|intros i cf Hi; by apply conf_self].
    intros n c Hn. exists (nm_pc c). rewrite Heta. split; [by apply lookup_app_l_Some|done].
  - split; [|exact Hf].
    intros n c' Hn'. rewrite set_npc_lookup, Hc, Hn'. destruct (decide (n = k)) as [->|].
    + rewrite Hk in Hn'. injection Hn' as <-. exists pc. split; [done|]. intros r Hpc. rewrite Hpc in Hn.
      simpl in Hn. lia.
    + exists (nm_pc c'). split; [|done]. simpl. by rewrite Heta.
Qed.

(** What holds of the configurations that are read, whatever their offset. *)
Lemma local_run_confs (K : dnsConfig -> Prop) evs s :
  (forall v config, K config -> K (set_soffset v config)) -> local_run evs s ->
  (forall config, In (EvConf config) evs -> K config) -> Forall K (ls_confs s).
Proof.
  intros HK. induction 1 as [|evs s ev s' Hr IH Hs]; [constructor|]. intros Hev.
  assert (Forall K (ls_confs s)) as Hok by (apply IH; intros config Hin; apply Hev, in_app_iff; auto).
  destruct (local_step_change _ _ _ _ Hr Hs) as [_ _ [->|(config & -> & ->)]|conf fqdn message question -> ->|k c config _ (pc & s1 & -> & _ & Hf & Hl & _) _];
    try done.
  - apply Forall_app. split; [done|]. constructor; [|constructor]. apply Hev, in_app_iff. right. by left.
  - apply Forall_lookup_2. intros n cf Hn. cbn [set_npc ls_confs] in Hn.
    destruct (lookup_lt_is_Some_2 (ls_confs s) n) as [cf0 Hn0]; [rewrite <- Hl; by eapply lookup_lt_Some|].
    destruct (Hf _ _ Hn0) as [v Hv]. rewrite Hn in Hv. injection Hv as ->. apply HK.
    by eapply Forall_lookup_1.
Qed.

(** *** Waiting for an exchange *)

(** The size the queries advertise is the one of the transport. *)
Lemma query_check `{!DnsLaws} evs id question ad p t :
  own_run evs p t -> check_edns (opt_UDPSize <$> dns_IsEdns0 (query id question ad)) t = Ret t.
Proof.
  intros (log & Hr & _). destruct (udp_run_fields _ _ Hr) as [_ Hsize].
  destruct (dns_IsEdns0 (query id question ad)) as [r|] eqn:Er; [|done].
  apply IsEdns0_some in Er as [Hin Hopt]. unfold query in Hin.
  match type of Hin with context [dns_SetEdns0 ?a ?b ?m] =>
    destruct (SetEdns0_spec a b m) as (opt & Hq & _ & _ & Hsz & _); rewrite Hq in Hin end.
  simpl in Hin. destruct Hin as [<-|[]]. cbn [fmap option_fmap option_map]. rewrite Hsz.
  unfold check_edns. by rewrite Hsize.
Qed.

Lemma udp_event_goes s p uev tr t :
  ls_store s !! p = Some tr -> own_udp uev = true -> udp_step uev (udp_state tr) = Some (Ret t) ->
  exists s', local_step (EvUdp p uev) s = Some (Ret s').
Proof. intros Hp Ho Hs. cbn [local_step]. rewrite Hp. cbn [mbind option_bind]. rewrite Ho, Hs. by eexists. Qed.

Lemma udp_wait_goes `{!DnsLaws} evs s k c config v j p i tr x :
  store_ok evs s -> ls_calls s !! k = Some c -> ls_confs s !! nm_conf c = Some config ->
  nm_pc c = NUdp v j p i -> ls_store s !! p = Some tr -> ut_xs (udp_state tr) !! i = Some x ->
  x_message x = name_query config c v ->
  let go ev := exists s', local_step ev s = Some (Ret s') in
  match x_pc x with
  | XCheck => go (EvUdp p (UCheck i))
  | XOpen => forall dial, go (EvUdp p (UOpen i dial))
  | XRegister _ => go (EvUdp p (URegister i))
  | XWrite _ _ => forall written, go (EvUdp p (UWrite i written))
  | XSelect _ _ => forall e, go (EvUdp p (USelect i (SelCtx e)))
  | XReturn _ _ _ => go (EvUdp p (UUnregister i))
  | XDone _ => go (EvStep k)
  end.
Proof.
  intros Hst Hk Hconf Hpc Hp Hi Hx go. pose proof (so_run _ _ Hst _ _ Hp) as Hown.
  pose proof Hown as (log & Hr & _). destruct x as [q pc]. simpl in Hx. subst q.
  pose proof (xs_ok_run _ _ Hr _ _ Hi) as Hx. simpl in Hx.
  assert (slot_of (udp_state tr) i = x_slot pc) as Hs by (unfold slot_of; by rewrite Hi).
  assert (forall uev, own_udp uev = true -> (exists t, udp_step uev (udp_state tr) = Some (Ret t)) ->
    go (EvUdp p uev)) as Hgo by (intros uev Ho [t Ht]; by eapply udp_event_goes).
  destruct pc as [| |cn|cn kk|cn kk|cn kk r|r]; cbn [x_pc]; intros; try (apply Hgo; [done|]); cbn [udp_step];
    rewrite ?Hi; try (by eexists).
  - unfold name_query. erewrite query_check by exact Hown. by eexists.
  - destruct Hx as [u Hu]. rewrite Hu. by eexists.
  - destruct (slot_lookup _ _ _ _ _ Hr Hs) as (u & cb & Hu & Hcb & _). unfold x_write. rewrite Hu. simpl.
    rewrite Hcb. by eexists.
  - destruct (slot_lookup _ _ _ _ _ Hr Hs) as (u & cb & Hu & Hcb & _). unfold x_select. rewrite Hu. by eexists.
  - unfold go. cbn [local_step]. rewrite Hk. cbn [mbind option_bind]. rewrite Hconf. cbn [mbind option_bind].
    unfold name_step. rewrite Hpc, Hp. cbn [mbind option_bind]. rewrite Hi. destruct Hx as (cn & kk & Hres).
    unfold start_tcp. rewrite Hp. destruct r as [[[m|] [|]] [e|]]; simpl in Hres; try done; try by eexists.
    simpl. destruct (m_Truncated m); by eexists.
Qed.

Lemma tcp_wait_goes s k c config v j p x retry tr tx :
  ls_calls s !! k = Some c -> ls_confs s !! nm_conf c = Some config ->
  nm_pc c = NTcp v j p x retry -> ls_store s !! p = Some tr -> ls_tcps s !! x = Some tx ->
  let go ev := exists s', local_step ev s = Some (Ret s') in
  match ts_pc (tx_state tx) with
  | TDial => forall e, go (EvTcp x (TDialed e))
  | TWrite => forall e, go (EvTcp x (TWritten e))
  | TRead => forall read, go (EvTcp x (TAnswer read))
  | TClose _ => go (EvTcp x TCloses)
  | TCancel _ => go (EvTcp x TCancels)
  | TDone _ => go (EvStep k)
  end.
Proof.
  intros Hk Hconf Hpc Hp Hx go.
  assert (forall tev, is_Some (tcp_step (tx_message tx) tev (tx_state tx)) -> go (EvTcp x tev)) as Hgo.
  { intros tev [ts Hts]. unfold go. cbn [local_step]. rewrite Hx. cbn [mbind option_bind]. rewrite Hts.
    by eexists. }
  destruct (ts_pc (tx_state tx)) as [| | |r|r|r] eqn:Et; intros; try (apply Hgo; cbn [tcp_step]; rewrite Et;
    by eexists).
  unfold go. cbn [local_step]. rewrite Hk. cbn [mbind option_bind]. rewrite Hconf. cbn [mbind option_bind].
  unfold name_step. rewrite Hpc, Hx. cbn [mbind option_bind]. rewrite Et. by eexists.
Qed.

End bound.

(** *** The set of servers *)

Section servers.
Context `{SetLaws} `{DnsLib} `{ExLib} `{DnsWire}.

Lemma new_set_Contains servers x : set_Contains (new_set servers) x = bool_decide (x ∈ servers).
Proof.
  unfold new_set. destruct servers as [|y servers]; [|apply FromSlice_Contains].
  rewrite NewSet_Contains. symmetry. apply bool_decide_eq_false, not_elem_of_nil.
Qed.

Lemma drops_transport_true servers s :
  drops_transport servers s = true <-> exists text p, ls_map s !! text = Some p /\ text ∉ servers.
Proof.
  assert (forall text, match servers with [] => true | _ => negb (set_Contains (new_set servers) text) end
    = bool_decide (text ∉ servers)) as Hc.
  { intros text. destruct servers as [|y servers]; [by rewrite bool_decide_eq_true_2 by set_solver|].
    rewrite new_set_Contains. by rewrite bool_decide_not. }
  unfold drops_transport. rewrite existsb_exists. split.
  - intros ([text p] & Hin & Ht). rewrite Hc in Ht. apply bool_decide_eq_true in Ht.
    exists text, p. split; [|done]. by apply elem_of_map_to_list, list_elem_of_In.
  - intros (text & p & Hm & Ht). exists (text, p).
    split; [by apply list_elem_of_In, elem_of_map_to_list|]. rewrite Hc. by apply bool_decide_eq_true.
Qed.

Lemma unchanged_Contains servers s x :
  NoDup servers -> unchanged servers s = true -> ls_contains x s = bool_decide (x ∈ servers).
Proof.
  unfold unchanged, ls_contains. destruct (ls_servers s) as [ms|]; [|done]. intros Hnd Hu.
  apply andb_true_iff in Hu as [Hl Ha]. apply Nat.eqb_eq in Hl.
  rewrite ContainAll_Contains, forallb_forall in Ha.
  destruct (set_len_keys ms) as (keys & Hk & Hlen & Hkeys). rewrite Hkeys. apply bool_decide_ext.
  assert (servers ⊆+ keys) as Hsub.
  { apply NoDup_submseteq; [done|]. intros y Hy%list_elem_of_In%Ha. rewrite Hkeys in Hy. by bool_hyps. }
  assert (servers ≡ₚ keys) as Hp by (apply submseteq_length_Permutation; [done|lia]).
  by rewrite Hp.
Qed.

(** A transport is of a server of the set. *)
Definition keys_contained (s : local_run_state) : Prop :=
  forall text p, ls_map s !! text = Some p -> ls_contains text s = true.

Lemma update_keys_contained evs servers s s' :
  store_ok evs s -> keys_contained s -> ls_update servers s = Ret s' -> keys_contained s'.
Proof.
  intros Hst Hk. rewrite (ls_update_cases evs) by done. destruct (unchanged servers s).
  { intros [= <-]. exact Hk. }
  destruct (drops_transport servers s) eqn:Ed; intros [= <-]. intros text p Hp.
  unfold ls_contains. simpl. rewrite new_set_Contains. apply bool_decide_eq_true.
  destruct (decide (text ∈ servers)) as [|Hnin]; [done|].
  assert (drops_transport servers s = true) by (apply drops_transport_true; eauto). congruence.
Qed.

Lemma start_tcp_keys config k c v j p retry s s' :
  keys_contained s -> Ret <$> start_tcp config k c v j p retry s = Some (Ret s') -> keys_contained s'.
Proof. intros Hk. unfold start_tcp. destruct (ls_store s !! p); [|done]. by intros [= <-]. Qed.

Lemma name_step_keys config k c s s' :
  keys_contained s -> name_step config k c s = Some (Ret s') -> keys_contained s'.
Proof.
  intros Hk. unfold name_step. destruct (nm_pc c) as [| |v|v j|v j p|v j p i|v j p x retry|]; try done.
  - destruct (serverOffset config). by intros [= <-].
  - intros [= <-]. destruct (lv_js v); [done|]. by destruct (ls_pull_read _ s).
  - set (server := server_addr _). pose proof (ls_pull_write_cases server s) as Hcases.
    destruct (ls_pull_write server s) as [r s1]. cbv zeta in Hcases. intros [= <-].
    destruct (ls_contains (Socksaddr_AddrString server) s) eqn:Ec; simpl in Hcases; [|by destruct Hcases as [_ ->]].
    destruct (ls_map s !! _); destruct Hcases as [_ ->]; [done|]. intros text p.
    change (ls_map (set_npc _ _ _)) with (<[Socksaddr_AddrString server := length (ls_store s)]> (ls_map s)).
    intros [[<- <-]|[_ Hp]]%lookup_insert_Some; [exact Ec|exact (Hk _ _ Hp)].
  - destruct (cf_useTCP config); [apply start_tcp_keys, Hk|]. destruct (ls_store s !! p); [|done]. by intros [= <-].
  - destruct (ls_store s !! p) as [tr|]; [|done]. cbn [mbind option_bind].
    destruct (ut_xs (udp_state tr) !! i) as [[? []]|]; try done.
    destruct (after_udp _ _) as [[pc|]|]; [by intros [= <-]|by apply start_tcp_keys|done].
  - destruct (ls_tcps s !! x) as [tx|]; [|done]. cbn [mbind option_bind].
    destruct (ts_pc (tx_state tx)); by intros [= <-].
Qed.

Lemma keys_contained_run evs s : local_run evs s -> keys_contained s.
Proof.
  induction 1 as [|evs s ev s' Hr IH Hs]; [by intros text p|].
  destruct (local_run_ok _ _ Hr) as (Hst & _).
  destruct ev as [config|n fqdn message question|k|k id|x tev|p uev]; cbn [local_step] in Hs.
  - by injection Hs as <-.
  - destruct (ls_confs s !! n); [|done]. by injection Hs as <-.
  - destruct (ls_calls s !! k) as [c|]; [|done]. cbn [mbind option_bind] in Hs.
    destruct (ls_confs s !! nm_conf c); [|done]. by eapply name_step_keys.
  - destruct (ls_calls s !! k) as [c|]; [|done]. cbn [mbind option_bind] in Hs.
    destruct (ls_confs s !! nm_conf c) as [config|]; [|done]. cbn [mbind option_bind] in Hs.
    destruct (nm_pc c); try done. destruct (ls_update (cf_servers config) s) as [s1|] eqn:Eu; [|done].
    injection Hs as <-. exact (update_keys_contained _ _ _ _ Hst IH Eu).
  - destruct (ls_tcps s !! x) as [tx|]; [|done]. cbn [mbind option_bind] in Hs.
    destruct (tcp_step _ _ _); [|done]. by injection Hs as <-.
  - destruct (ls_store s !! p) as [tr|]; [|done]. cbn [mbind option_bind] in Hs.
    destruct (own_udp uev); [|done]. destruct (udp_step uev _) as [[t|]|]; [|done..]. by injection Hs as <-.
Qed.

(** *** The sections are those of Local *)

(** A transport as Local keeps it: without its goroutines. *)
Definition at_rest (tr : UDPTransport) : UDPTransport := MkUDPTransport (udp_server tr) NewUDP.

(** The state of Local, which has the transports by value, at this state. *)
Definition local_at (s : local_run_state) (t : LocalTransport) : Prop :=
  lt_servers t = ls_servers s /\
  forall text, default ∅ (lt_transports t) !! text = p ← ls_map s !! text; at_rest <$> ls_store s !! p.

Lemma local_at_pull evs s t server :
  store_ok evs s -> local_at s t ->
  let '(r, s') := match ls_pull_read server s with
                  | Some r => (r, s)
                  | None => ls_pull_write server s
                  end in
  exists t', pullTransport server t = ((p ← r.1; at_rest <$> ls_store s' !! p, r.2), t') /\ local_at s' t'.
Proof.
  intros Hst [Hset Hmap]. unfold ls_pull_read, pullTransport, pull_read. fold (ls_map s).
  set (text := Socksaddr_AddrString server). rewrite Hset, Hmap.
  fold (ls_contains text s). destruct (negb (ls_contains text s)) eqn:Ec; [by exists t|].
  destruct (ls_map s !! text) as [p|] eqn:Ep; simpl.
  { destruct (so_map _ _ Hst _ _ Ep) as (tr & Htr & _). rewrite Htr. by exists t. }
  unfold ls_pull_write, pull_write. fold (ls_map s) text. rewrite Hset, Hmap.
  fold (ls_contains text s). rewrite Ec, Ep.
  cbn [fst snd ls_store mbind option_bind]. rewrite list_lookup_middle by done.
  eexists. split; [done|]. split; [done|]. intros text'.
  unfold ls_map. cbn [lt_transports ls_transports ls_store from_option id]. fold (ls_map s).
  destruct (decide (text' = text)) as [->|Hne].
  - rewrite !lookup_insert_eq. simpl. by rewrite list_lookup_middle.
  - rewrite !lookup_insert_ne by done. rewrite Hmap. destruct (ls_map s !! text') as [q|] eqn:Eq; [|done].
    destruct (so_map _ _ Hst _ _ Eq) as (tr & Htr & _). simpl.
    rewrite Htr, (lookup_app_l_Some _ _ _ _ Htr). done.
Qed.

Lemma at_rest_close_keys chosen keys m :
  (forall text tr, (text, tr) ∈ keys -> udp_state tr = NewUDP) ->
  close_keys chosen keys m =
    if existsb (fun kp => chosen kp.1) keys then Panic "close of nil channel" else Ret m.
Proof.
  intros Hk. induction keys as [|[text tr] keys IH]; [done|]. simpl.
  destruct (chosen text); simpl; [by rewrite (Hk text tr) by left|].
  apply IH. intros text' tr' Hin. apply (Hk text'). by right.
Qed.

Lemma local_at_drops evs s t servers :
  store_ok evs s -> local_at s t ->
  existsb (fun kp => match servers with [] => true | _ => negb (set_Contains (new_set servers) kp.1) end)
    (map_to_list (default ∅ (lt_transports t))) = drops_transport servers s.
Proof.
  intros Hst [_ Hmap]. apply eq_true_iff_eq. unfold drops_transport. rewrite !existsb_exists.
  split; intros ([text v] & Hin & Ht); apply list_elem_of_In, elem_of_map_to_list in Hin.
  - rewrite Hmap in Hin. destruct (ls_map s !! text) as [p|] eqn:Ep; [|done].
    exists (text, p). split; [|done]. by apply list_elem_of_In, elem_of_map_to_list.
  - destruct (so_map _ _ Hst _ _ Hin) as (tr & Htr & _). exists (text, at_rest tr). split; [|done].
    apply list_elem_of_In, elem_of_map_to_list. rewrite Hmap, Hin. simpl. by rewrite Htr.
Qed.

Lemma local_at_update evs s t servers :
  store_ok evs s -> local_at s t ->
  match ls_update servers s with
  | Ret s' => exists t', updateTransports servers t = Ret t' /\ local_at s' t'
  | Panic why => updateTransports servers t = Panic why
  end.
Proof.
  intros Hst Hat. pose proof Hat as [Hset Hmap]. rewrite (ls_update_cases evs) by done.
  unfold updateTransports. rewrite Hset. fold (unchanged servers s).
  destruct (unchanged servers s); [by eexists; split; [done|]|].
  assert (forall text tr, (text, tr) ∈ map_to_list (default ∅ (lt_transports t)) -> udp_state tr = NewUDP)
    as Hrest.
  { intros text tr Hin. apply elem_of_map_to_list in Hin. rewrite Hmap in Hin.
    destruct (ls_map s !! text) as [p|]; [|done]. simpl in Hin. by destruct (ls_store s !! p); simplify_eq/=. }
  pose proof (local_at_drops evs s t servers Hst Hat) as Hd.
  destruct servers as [|x servers]; rewrite at_rest_close_keys by done; cbn [new_set] in Hd;
    rewrite Hd; destruct (drops_transport _ s); try done; (eexists; split; [done|]; by split).
Qed.

End servers.

(** ** Properties *)

(** Message [m], as the answer of call [k], came from the transport of a
    server of its configuration: it was decoded from what a connection gave
    that an exchange over TCP with this server had written the query to, or
    from an untruncated datagram of a connection of that transport on which
    the query was written under the id the datagram has; and then it comes
    under the id of the query. *)
Definition served `{SetLib} `{DnsLib} `{DnsWire} (evs : list local_event) (s : local_run_state)
    (k : nat) (c : name_call) (m : Msg) : Prop :=
  exists config v j p tr,
    ls_confs s !! nm_conf c = Some config /\ cf_servers config <> [] /\
    ls_store s !! p = Some tr /\ sa_Port (udp_server tr) = 53%Z /\
    Socksaddr_AddrString (udp_server tr) =
      Socksaddr_AddrString (server_addr (server_at config (lv_offset v) j)) /\
    (lv_id v = m_Id (nm_message c) \/ (m_Id (nm_message c) = 0%Z /\ In (EvId k (lv_id v)) evs)) /\
    ((exists x tx bytes stream, ls_tcps s !! x = Some tx /\ tx_server tx = udp_server tr /\
        message_bytes (name_query config c v) = inl bytes /\ In (EvTcp x (TWritten None)) evs /\
        In (EvTcp x (TAnswer (inl stream))) evs /\ (readMessage stream).1 = inl m) \/
     (cf_useTCP config = false /\
      exists cn u raw bytes m0,
        ut_conns (udp_state tr) !! cn = Some u /\
        msg_Pack (exMessage (name_query config c v) (m_Id m0)) = inl raw /\ raw ∈ uc_sent u /\
        In (EvUdp p (URecv cn (inl bytes))) evs /\
        msg_Unpack (datagram (maxUDPSize + 1) bytes) = inl m0 /\
        m_Truncated m0 = false /\ m = msg_with_Id (lv_id v) m0)).

(** Call [k] has ended, or can take its next step, or waits for its exchange
    over UDP or TCP, which can take its own. *)
Definition call_goes_on `{SetLib} `{DnsLib} `{ExLib} `{DnsWire} (s : local_run_state) (k : nat)
    (c : name_call) : Prop :=
  let go ev := exists s', local_step ev s = Some (Ret s') in
  match nm_pc c with
  | NDone _ => True
  | NUpdate _ => forall id, is_Some (local_step (EvId k id) s)
  | NUdp _ _ p i => exists tr x, ls_store s !! p = Some tr /\ ut_xs (udp_state tr) !! i = Some x /\
      match x_pc x with
      | XCheck => go (EvUdp p (UCheck i))
      | XOpen => forall dial, go (EvUdp p (UOpen i dial))
      | XRegister _ => go (EvUdp p (URegister i))
      | XWrite _ _ => forall written, go (EvUdp p (UWrite i written))
      | XSelect _ _ => forall e, go (EvUdp p (USelect i (SelCtx e)))
      | XReturn _ _ _ => go (EvUdp p (UUnregister i))
      | XDone _ => go (EvStep k)
      end
  | NTcp _ _ _ x _ => exists tx, ls_tcps s !! x = Some tx /\
      match ts_pc (tx_state tx) with
      | TDial => forall e, go (EvTcp x (TDialed e))
      | TWrite => forall e, go (EvTcp x (TWritten e))
      | TRead => forall read, go (EvTcp x (TAnswer read))
      | TClose _ => go (EvTcp x TCloses)
      | TCancel _ => go (EvTcp x TCancels)
      | TDone _ => go (EvStep k)
      end
  | _ => go (EvStep k)
  end.

Section answers.
Context `{SetLaws} `{DnsLib} `{ExLib} `{DnsWire}.

Lemma call_served `{!DnsLaws} evs s k c m :
  local_run evs s -> ls_calls s !! k = Some c -> nm_pc c = NDone (Some m, None) -> served evs s k c m.
Proof.
  intros Hr Hk Hpc. destruct (local_run_ok _ _ Hr) as (Hst & _ & Hok).
  destruct (Hok _ _ Hk) as (config & Hconf & Hnpc). rewrite Hpc in Hnpc.
  destruct Hnpc as (v & j & p & Hid & (Hne & tr & Hp & Ht) & Ha).
  exists config, v, j, p, tr. split_and!; try done; [by eapply so_port|].
  destruct Ha as [(tr' & x & tx & bytes & stream & Hp' & Hx & Hs & _ & Hb & Ha)
    |[Hu (tr' & cn & u & raw & bytes & m0 & Hp' & Ha)]]; [left|right].
  { rewrite Hp in Hp'. injection Hp' as <-. by exists x, tx, bytes, stream. }
  rewrite Hp in Hp'. injection Hp' as <-. split; [done|]. exists cn, u, raw, bytes, m0.
  assert (m_Id (name_query config c v) = lv_id v) as <-; [|done].
  unfold name_query, query.
  match goal with |- context [dns_SetEdns0 ?a ?b ?c] => by destruct (SetEdns0_spec a b c) as (opt & -> & _) end.
Qed.

Lemma call_continues `{!DnsLaws} evs s k c :
  local_run evs s -> ls_calls s !! k = Some c -> call_goes_on s k c.
Proof.
  intros Hr Hk. unfold call_goes_on. set (go := fun ev => exists s', local_step ev s = Some (Ret s')).
  destruct (local_run_ok _ _ Hr) as (Hst & Htcps & Hok).
  destruct (Hok _ _ Hk) as (config & Hconf & Hpc).
  assert (forall r, name_step config k c s = Some (Ret r) -> go (EvStep k)) as Hgo.
  { intros r Hn. exists r. cbn [local_step]. rewrite Hk. cbn [mbind option_bind]. by rewrite Hconf. }
  destruct (nm_pc c) as [|offset|v|v j|v j p|v j p i|v j p x retry|r] eqn:Epc; try done.
  - destruct (serverOffset config) as [o cf] eqn:Eo. eapply Hgo. unfold name_step. by rewrite Epc, Eo.
  - intros id. cbn [local_step]. rewrite Hk. cbn [mbind option_bind]. rewrite Hconf.
    cbn [mbind option_bind]. rewrite Epc. by eexists.
  - eapply Hgo. unfold name_step. by rewrite Epc.
  - destruct (ls_pull_write (server_addr (server_at config (lv_offset v) j)) s) as [r s1] eqn:Ew.
    eapply Hgo. unfold name_step. by rewrite Epc, Ew.
  - destruct Hpc as (_ & _ & tr & Hp & _). unfold name_step in Hgo. rewrite Epc, Hp in Hgo.
    destruct (cf_useTCP config); [|by eapply Hgo]. unfold start_tcp in Hgo. rewrite Hp in Hgo. by eapply Hgo.
  - destruct Hpc as (_ & _ & _ & tr & x & Hp & Hi & Hx). exists tr, x. split; [done|]. split; [done|].
    by eapply udp_wait_goes.
  - destruct Hpc as (_ & _ & tr & tx & Hp & Hx & _). exists tx. split; [done|].
    by eapply tcp_wait_goes.
Qed.

End answers.

Section properties.
Context `{SetLaws} `{DnsLib} `{ExLib} `{DnsWire}.

(** C20: One transport for each server.  However the calls interleave, the
    map leads from the text of an address to the transport made for it, and
    every transport that was made is still there, on port 53: two of them
    are never of one address, the two looks of [pullTransport] see to it;
    what a text leads to stays the same, and it is the text of a server of
    the set. *)
Theorem one_transport_per_server evs s :
  local_run evs s ->
  (forall p tr, ls_store s !! p = Some tr ->
     default ∅ (ls_transports s) !! Socksaddr_AddrString (udp_server tr) = Some p /\
     sa_Port (udp_server tr) = 53%Z) /\
  (forall text p, default ∅ (ls_transports s) !! text = Some p ->
     ls_contains text s = true /\
     exists tr, ls_store s !! p = Some tr /\ Socksaddr_AddrString (udp_server tr) = text) /\
  (forall p q tr tr', ls_store s !! p = Some tr -> ls_store s !! q = Some tr' ->
     Socksaddr_AddrString (udp_server tr) = Socksaddr_AddrString (udp_server tr') -> p = q) /\
  (forall ev s' text p, local_step ev s = Some (Ret s') ->
     default ∅ (ls_transports s) !! text = Some p -> default ∅ (ls_transports s') !! text = Some p).
Proof.
  intros Hr. destruct (local_run_ok _ _ Hr) as (Hst & Htcps & Hok). destruct Hst as [Hrun Hport Hkey Hmap].
  split_and!.
  - intros p tr Hp. split; [exact (Hkey _ _ Hp)|exact (Hport _ _ Hp)].
  - intros text p Hp. split; [exact (keys_contained_run _ _ Hr _ _ Hp)|exact (Hmap _ _ Hp)].
  - intros p q tr tr' Hp Hq Heq. apply Hkey in Hp, Hq. unfold addr_text in *. rewrite Heq in Hp. congruence.
  - intros ev s' text p Hs Hp. destruct (local_step_ok evs s ev s') as [Hmove _]; [by split|done..|].
    fold (ls_map s) in Hp. fold (ls_map s').
    destruct Hmove as [_ ->|server _ Hn _ ->|? ? ? ? _ _ _ _ ->]; [done| |done].
    rewrite lookup_insert_ne; [done|]. congruence.
Qed.

(** The answer of a call.  A call of [tryOneName] that returns a message
    has it from the transport of a server of its configuration: it was
    decoded from what a connection gave that an exchange over TCP with this
    server had written the call's query to, or from an untruncated datagram
    of a connection of that transport on which the query was written under
    the id the datagram has, and then it comes under the id of the query,
    which is that of the caller's message unless this one is zero.  The other
    calls, which share the transports and their connections, have no part in
    it. *)
Theorem local_answer `{!DnsLaws} evs s k c m :
  local_run evs s -> ls_calls s !! k = Some c -> nm_pc c = NDone (Some m, None) ->
  exists config v j p tr,
    ls_confs s !! nm_conf c = Some config /\ cf_servers config <> [] /\
    ls_store s !! p = Some tr /\ sa_Port (udp_server tr) = 53%Z /\
    Socksaddr_AddrString (udp_server tr) =
      Socksaddr_AddrString (server_addr (server_at config (lv_offset v) j)) /\
    (lv_id v = m_Id (nm_message c) \/ (m_Id (nm_message c) = 0%Z /\ In (EvId k (lv_id v)) evs)) /\
    ((exists x tx bytes stream, ls_tcps s !! x = Some tx /\ tx_server tx = udp_server tr /\
        message_bytes (name_query config c v) = inl bytes /\ In (EvTcp x (TWritten None)) evs /\
        In (EvTcp x (TAnswer (inl stream))) evs /\ (readMessage stream).1 = inl m) \/
     (cf_useTCP config = false /\
      exists cn u raw bytes m0,
        ut_conns (udp_state tr) !! cn = Some u /\
        msg_Pack (exMessage (name_query config c v) (m_Id m0)) = inl raw /\ raw ∈ uc_sent u /\
        In (EvUdp p (URecv cn (inl bytes))) evs /\
        msg_Unpack (datagram (maxUDPSize + 1) bytes) = inl m0 /\
        m_Truncated m0 = false /\ m = msg_with_Id (lv_id v) m0)).
Proof. apply call_served. Qed.

(** C38: A reload.  For a list of distinct servers, the update succeeds when
    every transport that was made is of a server of the list; then it keeps
    the transports and the set is that of the list.  When some transport is
    of a server that is gone, closing it panics. *)
Theorem reload_servers evs s servers :
  local_run evs s -> NoDup servers ->
  ((forall p tr, ls_store s !! p = Some tr -> Socksaddr_AddrString (udp_server tr) ∈ servers) ->
   exists s', ls_update servers s = Ret s' /\
     ls_confs s' = ls_confs s /\ ls_store s' = ls_store s /\ ls_calls s' = ls_calls s /\
     default ∅ (ls_transports s') = default ∅ (ls_transports s) /\
     forall x, ls_contains x s' = bool_decide (x ∈ servers)) /\
  ((exists p tr, ls_store s !! p = Some tr /\ Socksaddr_AddrString (udp_server tr) ∉ servers) ->
   ls_update servers s = Panic "close of nil channel").
Proof.
  intros Hr Hnd. destruct (local_run_ok _ _ Hr) as (Hst & _). rewrite (ls_update_cases evs) by done.
  split.
  - intros Hall. assert (drops_transport servers s = false) as ->.
    { apply not_true_iff_false. rewrite drops_transport_true. intros (text & p & Hm & Hnin).
      destruct (so_map _ _ Hst _ _ Hm) as (tr & Hp & <-). by apply Hnin, (Hall p). }
    destruct (unchanged servers s) eqn:Eu; (eexists; split; [done|]); split_and!; try done; intros x.
    + change (ls_contains x s = bool_decide (x ∈ servers)). by apply unchanged_Contains.
    + apply new_set_Contains.
  - intros (p & tr & Hp & Hnin). pose proof (so_key _ _ Hst _ _ Hp) as Hm.
    assert (drops_transport servers s = true) as -> by (apply drops_transport_true; eauto).
    destruct (unchanged servers s) eqn:Eu; [|done]. exfalso. apply Hnin.
    pose proof (keys_contained_run _ _ Hr _ _ Hm) as Hc.
    rewrite (unchanged_Contains servers s) in Hc by done. by apply bool_decide_eq_true in Hc.
Qed.

(** A call is never stuck and never goes on for ever.  It takes at most
    three steps and five for each attempt with each server; and while it has
    not ended it can take its next step, or waits for its exchange over UDP
    or TCP, which can take its own, without a panic, whatever the dial, the
    write and the read give, and in the [select] when its context ends. *)
Theorem local_run_progress `{!DnsLaws} evs s k c :
  local_run evs s -> ls_calls s !! k = Some c ->
  let go ev := exists s', local_step ev s = Some (Ret s') in
  (exists config, ls_confs s !! nm_conf c = Some config /\
     sum_list_with (steps_of k) evs <=
       3 + 5 * (length (cf_servers config) * Z.to_nat (cf_attempts config))) /\
  match nm_pc c with
  | NDone _ => True
  | NUpdate _ => forall id, is_Some (local_step (EvId k id) s)
  | NUdp _ _ p i => exists tr x, ls_store s !! p = Some tr /\ ut_xs (udp_state tr) !! i = Some x /\
      match x_pc x with
      | XCheck => go (EvUdp p (UCheck i))
      | XOpen => forall dial, go (EvUdp p (UOpen i dial))
      | XRegister _ => go (EvUdp p (URegister i))
      | XWrite _ _ => forall written, go (EvUdp p (UWrite i written))
      | XSelect _ _ => forall e, go (EvUdp p (USelect i (SelCtx e)))
      | XReturn _ _ _ => go (EvUdp p (UUnregister i))
      | XDone _ => go (EvStep k)
      end
  | NTcp _ _ _ x _ => exists tx, ls_tcps s !! x = Some tx /\
      match ts_pc (tx_state tx) with
      | TDial => forall e, go (EvTcp x (TDialed e))
      | TWrite => forall e, go (EvTcp x (TWritten e))
      | TRead => forall read, go (EvTcp x (TAnswer read))
      | TClose _ => go (EvTcp x TCloses)
      | TCancel _ => go (EvTcp x TCancels)
      | TDone _ => go (EvStep k)
      end
  | _ => go (EvStep k)
  end.
Proof.
  intros Hr Hk go. split; [|by eapply call_continues]. destruct (local_run_ok _ _ Hr) as (_ & _ & Hok).
  destruct (Hok _ _ Hk) as (config & Hconf & _). exists config. split; [done|].
  pose proof (proj2 (bounded_run _ _ Hr) _ _ _ Hk Hconf). unfold rounds in *. lia.
Qed.

(** The two models of the transports agree.  The sections of
    [pullTransport] and [updateTransports] on shared transports do what Local
    does with transports by value: the results and the panics are the same,
    and the states correspond again. *)
Theorem sections_refine_local evs s t :
  local_run evs s -> lt_servers t = ls_servers s ->
  (forall text, default ∅ (lt_transports t) !! text =
     p ← default ∅ (ls_transports s) !! text; at_rest <$> ls_store s !! p) ->
  (forall server,
     let '(r, s') := match ls_pull_read server s with
                     | Some r => (r, s)
                     | None => ls_pull_write server s
                     end in
     exists t', pullTransport server t = ((p ← r.1; at_rest <$> ls_store s' !! p, r.2), t') /\
       local_at s' t') /\
  (forall servers,
     match ls_update servers s with
     | Ret s' => exists t', updateTransports servers t = Ret t' /\ local_at s' t'
     | Panic why => updateTransports servers t = Panic why
     end).
Proof.
  intros Hr Hset Hmap. destruct (local_run_ok _ _ Hr) as (Hst & _). split.
  - intros server. by apply (local_at_pull evs).
  - intros servers. by apply (local_at_update evs).
Qed.

End properties.

(** With servers whose addresses have no brackets, no call ever gets
    a transport: a server is "host:53" and a transport is looked up under the
    host.  However many calls run, no transport is made, no query is sent, no
    step panics, and every call is at most three steps of its own away from
    the error it ends with. *)
Theorem local_run_offline `{SetLaws} `{DnsLib} `{ExLaws} `{DnsWire} evs s :
  local_run evs s ->
  Forall (fun ev => match ev with EvConf config => conf_ok config | _ => True end) evs ->
  ls_store s = [] /\
  (forall ev, match ev with EvConf config => conf_ok config | _ => True end ->
     forall why, local_step ev s <> Some (Panic why)) /\
  forall k c, ls_calls s !! k = Some c ->
    match nm_pc c with
    | NSend _ _ _ | NUdp _ _ _ _ | NTcp _ _ _ _ _ => False
    | NDone r => exists e, r = (None, Some e)
    | _ => True
    end /\
    exists evs' s' c' e, length evs' <= 3 /\ local_run (evs ++ evs') s' /\
      ls_calls s' !! k = Some c' /\ nm_pc c' = NDone (None, Some e).
Proof.
  intros Hr Hevs. pose proof (offline_run _ _ Hr Hevs) as Hok. split_and!; [apply Hok| |].
  - intros ev Hev why Hp. pose proof (offline_step s ev Hok Hev) as Hs. by rewrite Hp in Hs.
  - intros k c Hk. pose proof (of_calls _ Hok _ _ Hk) as Hpc. split.
    + destruct (nm_pc c) as [| | | | | | |[[m|] [e|]]]; try done. by exists e.
    + destruct (offline_ends _ _ _ _ _ Hr Hevs Hk eq_refl) as (evs' & s' & c' & e & Hl & ?).
      exists evs', s', c', e. split; [|done]. rewrite Hl. destruct (nm_pc c); simpl; lia.
Qed.

(** ** A run for the witnesses *)

Module LocalRunExample.
Import DnsSimple ExTree GSet.

(** A wire that carries the id of a message. *)
Definition id_wire : DnsWire := {|
  msg_Len m := 1%Z;
  msg_Pack m := inl [m_Id m];
  msg_fits _ _ := true;
  buf_NewSize n := repeat 0%Z (Z.to_nat n);
  msg_Unpack raw := match raw with [i] => inl (msg_with_Id i msg_zero) | _ => inr (ENew "unknown") end;
|}.

#[local] Existing Instance id_wire | 0.

Definition local_exec (evs : list local_event) : option local_run_state :=
  fold_left (fun o ev =>
    s ← o; match local_step ev s with Some (Ret s') => Some s' | _ => None end) evs (Some local_start).

(** A configuration with servers that are found under their names. *)
Definition conf : dnsConfig := set_servers ["127.0.0.1"] LocalExample.conf.
Definition message0 : Msg := msg_with_Id 0 LocalExample.message.

(** Two calls pull the transport of the server: both miss it, the second
    makes it and the first finds it when it looks again. *)
Definition pulled : list local_event :=
  [EvConf conf; EvCall 0 "a." LocalExample.message LocalExample.question;
   EvCall 0 "b." message0 LocalExample.question;
   EvStep 0; EvStep 1; EvId 0 5; EvId 1 9; EvStep 0; EvStep 1; EvStep 1; EvStep 0].

(** They ask over one connection, and the second is answered first. *)
Definition answered : list local_event :=
  pulled ++ [EvStep 0; EvStep 1] ++
  (EvUdp 0 <$> [UCheck 0; UOpen 0 None; URegister 0; UWrite 0 None;
                UCheck 1; UOpen 1 None; URegister 1; UWrite 1 None;
                URecv 0 (inl [2]); UDeliver 0; USelect 1 SelCallback; UUnregister 1;
                URecv 0 (inl [1]); UDeliver 0; USelect 0 SelCallback; UUnregister 0])%Z ++
  [EvStep 1; EvStep 0].

Definition after (evs : list local_event) : local_run_state := default local_start (local_exec evs).

Lemma local_exec_run evs s : local_exec evs = Some s -> local_run evs s.
Proof.
  revert s. induction evs as [|ev evs IH] using rev_ind; [intros s [= <-]; constructor|].
  intros s. unfold local_exec. rewrite fold_left_app. simpl. fold (local_exec evs).
  destruct (local_exec evs) as [s0|]; [|done]. simpl.
  destruct (local_step ev s0) as [[s'|]|] eqn:E; intros [= <-].
  econstructor; [by apply IH|exact E].
Qed.

Lemma after_run evs : (if local_exec evs then true else false) = true -> local_run evs (after evs).
Proof.
  intros Hs. apply local_exec_run. unfold after. by destruct (local_exec evs).
Qed.

Lemma local_pulled_run : local_run pulled (after pulled).
Proof. apply after_run. vm_compute. reflexivity. Qed.

Lemma local_answered_run : local_run answered (after answered).
Proof. apply after_run. vm_compute. reflexivity. Qed.
End LocalRunExample.

Import DnsSimple ExTree GSet LocalRunExample.
#[local] Existing Instance id_wire | 0.

Lemma pulled_store_check :
  match ls_store (after pulled) with
  | [tr] => String.eqb (Socksaddr_AddrString (udp_server tr)) "127.0.0.1"
  | _ => false
  end = true.
Proof. vm_compute. reflexivity. Qed.

Lemma pulled_store :
  exists tr, ls_store (after pulled) = [tr] /\
    Socksaddr_AddrString (udp_server tr) = "127.0.0.1".
Proof.
  pose proof pulled_store_check as Hs. generalize dependent (ls_store (after pulled)).
  intros [|tr [|]]; try done. intros Ht%String.eqb_eq. by exists tr.
Qed.

Lemma one_transport_per_server_witness :
  let s := after pulled in
  exists tr, ls_store s = [tr] /\ sa_Port (udp_server tr) = 53%Z /\
    default ∅ (ls_transports s) !! "127.0.0.1" = Some 0.
Proof.
  cbv zeta. destruct pulled_store as (tr & Hs & Ht).
  destruct (proj1 (one_transport_per_server pulled (after pulled) local_pulled_run) 0 tr) as [Hm Hp];
    [by rewrite Hs|].
  exists tr. rewrite Ht in Hm. exact (conj Hs (conj Hp Hm)).
Defined.

Lemma pulled_first_check :
  match ls_calls (after pulled) !! 0 with
  | Some (MkNC _ _ _ _ (NSend _ 0 0)) => true
  | _ => false
  end = true.
Proof. vm_compute. reflexivity. Qed.

Lemma pulled_first : exists c v, ls_calls (after pulled) !! 0 = Some c /\ nm_pc c = NSend v 0 0.
Proof.
  pose proof pulled_first_check as Hs. generalize dependent (ls_calls (after pulled) !! 0).
  intros [[n fqdn message question [| | | |v [|] [|]| | |]]|]; try done. intros _. by eexists _, v.
Qed.

Lemma answered_second :
  match ls_calls (after answered) !! 1 with
  | Some (MkNC 0 _ _ _ (NDone (Some m, None))) => Z.eqb (m_Id m) 9
  | _ => false
  end = true.
Proof. vm_compute. reflexivity. Qed.

Lemma answered_second_call :
  exists c m, ls_calls (after answered) !! 1 = Some c /\ nm_pc c = NDone (Some m, None) /\
    nm_conf c = 0 /\ m_Id m = 9%Z.
Proof.
  pose proof answered_second as Hs. generalize dependent (ls_calls (after answered) !! 1).
  intros [[[|n] fqdn message question [| | | | | | |[[m|] [e|]]]]|]; try done.
  intros Hm%Z.eqb_eq. eexists _, m. split; [reflexivity|done].
Qed.

Lemma local_answer_witness :
  let s := after answered in
  exists c m config v j p tr,
    ls_calls s !! 1 = Some c /\ nm_pc c = NDone (Some m, None) /\ m_Id m = 9%Z /\
    ls_confs s !! 0 = Some config /\ ls_store s !! p = Some tr /\
    Socksaddr_AddrString (udp_server tr) =
      Socksaddr_AddrString (server_addr (server_at config (lv_offset v) j)).
Proof.
  cbv zeta. destruct answered_second_call as (c & m & Hc & Hpc & Hn & Hm).
  destruct (local_answer answered (after answered) 1 c m local_answered_run Hc Hpc)
    as (config & v & j & p & tr & Hconf & _ & Hp & _ & Ha & _). rewrite Hn in Hconf.
  exists c, m, config, v, j, p, tr. exact (conj Hc (conj Hpc (conj Hm (conj Hconf (conj Hp Ha))))).
Defined.

Lemma reload_servers_witness :
  ls_update ["[::1]"] (after pulled) = Panic "close of nil channel" /\
  exists s', ls_update ["127.0.0.1"; "[::1]"] (after pulled) = Ret s' /\ ls_contains "[::1]" s' = true.
Proof.
  destruct pulled_store as (tr & Hs & Ht). split.
  - apply (proj2 (reload_servers pulled (after pulled) ["[::1]"] local_pulled_run (NoDup_singleton _))).
    exists 0, tr. rewrite Hs, Ht. split; [done|]. by apply (bool_decide_unpack _).
  - destruct (proj1 (reload_servers pulled (after pulled) ["127.0.0.1"; "[::1]"] local_pulled_run
      ltac:(by apply (bool_decide_unpack _)))) as (s' & Hu & _ & _ & _ & _ & Hc).
    + intros p tr' Hp. rewrite Hs in Hp. apply list_elem_of_lookup_2, list_elem_of_singleton in Hp as ->.
      rewrite Ht. by left.
    + exists s'. split; [exact Hu|]. by rewrite Hc.
Defined.

Lemma local_run_progress_witness :
  exists s', local_step (EvStep 0) (after pulled) = Some (Ret s').
Proof.
  destruct pulled_first as (c & v & Hc & Hpc).
  pose proof (proj2 (local_run_progress pulled (after pulled) 0 c local_pulled_run Hc)) as Hgo.
  rewrite Hpc in Hgo. exact Hgo.
Defined.

Lemma pulled_reload :
  match ls_update ["[::1]"] (after pulled) with
  | Panic why => String.eqb why "close of nil channel"
  | Ret _ => false
  end = true.
Proof. vm_compute. reflexivity. Qed.

Lemma sections_refine_local_witness :
  let s := after pulled in
  let t := MkLocal None
    (Some (omap (fun p => at_rest <$> ls_store s !! p) (default ∅ (ls_transports s)))) (ls_servers s) in
  exists why, updateTransports ["[::1]"] t = Panic why.
Proof.
  cbv zeta. set (s := after pulled). set (t := MkLocal _ _ _).
  pose proof (proj2 (sections_refine_local pulled s t local_pulled_run eq_refl
    (fun text => lookup_omap _ _ _)) ["[::1]"]) as Hu.
  pose proof pulled_reload as Hp. fold s in Hp.
  destruct (ls_update ["[::1]"] s) as [s'|why]; [discriminate|]. exists why. exact Hu.
Defined.

(** A call with the servers of a file, after its first step. *)
Definition offline_events : list local_event :=
  [EvConf LocalExample.conf; EvCall 0 "a." LocalExample.message LocalExample.question; EvStep 0].

Lemma local_offline_run : local_run offline_events (after offline_events).
Proof. apply after_run. vm_compute. reflexivity. Qed.

Lemma local_run_offline_witness :
  ls_store (after offline_events) = [] /\
  exists evs' s' c' e, length evs' <= 3 /\ local_run (offline_events ++ evs') s' /\
    ls_calls s' !! 0 = Some c' /\ nm_pc c' = NDone (None, Some e).
Proof.
  assert (Forall plain_server (cf_servers LocalExample.conf)) as Hs.
  { repeat constructor; [exists "127.0.0.1", (Addr4 2130706433)|exists "::1", (Addr6 1 "")];
      (split; [by vm_compute|]); done. }
  destruct (local_run_offline offline_events (after offline_events) local_offline_run) as (Hst & _ & Hc).
  { constructor; [split; [exact Hs|by split]|by repeat constructor]. }
  split; [exact Hst|].
  destruct (ls_calls (after offline_events) !! 0) as [c|] eqn:Ec; [|vm_compute in Ec; discriminate].
  exact (proj2 (Hc 0 c Ec)).
Defined.
