(* ===== verification/ExchangeRun.v ===== *)
(** * Exchanges of the local transport, at once

    [LocalTransport.Exchange] of [resolve/transport/local.go], run by many
    callers on one transport: the hosts file they share, the names of a query
    one after the other or raced by goroutines, and every [tryOneName] a call
    of LocalRun, whose transports and connections all exchanges share.  A
    parallel exchange takes the steps of Parallel, a racer finishing when its
    call has ended.  When a context ends is up to the events. *)

From S2P Require Import Prelude GoStd Netip Meta Dns Addrs Resolve Lines ResolvConf Hosts Tcp TcpRun Udp UdpTransport Local Parallel LocalRun LocalCalls.

(** ** State *)

(** Where an exchange is: before [getSystemDNSConfig]; in the loop of
    [exchangeSingleRequest], with the names to come, the call it waits for,
    and [lastErr]; in [exchangeParallel], with the calls of its racers; or at
    its end. *)
Inductive lx_pc :=
  | LxConf
  | LxSingle (names : list string) (call : option nat) (lastErr : option err)
  | LxParallel (calls : list nat) (p : parallel_state)
  | LxDone (r : gores (option Msg)).

(** An exchange: its message, the addresses of the hosts file, its
    configuration by index, the calls of [tryOneName] it has made, by name. *)
Record lx_call := MkLX {
  lx_message : Msg;
  lx_address : list Addr;
  lx_conf : nat;
  lx_calls : list (string * nat);
  lx_at : lx_pc;
}.

Section exchange_run.
Context `{SetLib} `{DnsLib} `{ExLib} `{DnsWire}.

Record exchange_state := MkER {
  er_host : option File;
  er_local : local_run_state;
  er_xs : list lx_call;
}.

Definition set_lx (x : nat) (f : lx_call -> lx_call) (s : exchange_state) : exchange_state :=
  MkER (er_host s) (er_local s) (alter f x (er_xs s)).

Definition set_at (pc : lx_pc) (c : lx_call) : lx_call :=
  MkLX (lx_message c) (lx_address c) (lx_conf c) (lx_calls c) pc.

(** ** The pieces of an exchange *)

Definition asks_address (question : Question) : bool :=
  (Z.eqb (q_Qtype question) TypeA || Z.eqb (q_Qtype question) TypeAAAA)%bool.

(** [Exchange] up to [getSystemDNSConfig]. *)
Definition lx_start (ev : host_env) (message : Msg) (host : option File) : lx_call * option File :=
  match m_Question message with
  | [] => (MkLX message [] 0 [] (LxDone (None, Some (ex_New [XStr "bad message: no question found"]))), host)
  | question :: _ =>
      let '(address, host) :=
        match host with
        | Some f =>
            if asks_address question then
              let '(address, f) := File_Lookup ev (FqdnToDomain (q_Name question)) f in (address, Some f)
            else ([], host)
        | None => ([], None)
        end in
      let pc :=
        match address with
        | _ :: _ =>
            LxDone (Some (FixedResponse (m_Id message) question address DefaultResolverTTL), None)
        | [] => LxConf
        end in
      (MkLX message address 0 [] pc, host)
  end.

(** A call of [tryOneName] begins, as the next one of the run. *)
Definition new_call (conf : nat) (message : Msg) (question : Question) (l : local_run_state)
    (fqdn : string) : local_run_state :=
  MkLS (ls_confs l) (ls_store l) (ls_transports l) (ls_servers l) (ls_tcps l)
    (ls_calls l ++ [MkNC conf fqdn message question NOffset]).

(** What a call of [tryOneName] has returned. *)
Definition call_result (l : local_run_state) (n : nat) : option (gores (option Msg)) :=
  c ← ls_calls l !! n;
  match nm_pc c with NDone r => Some r | _ => None end.

(** With the configuration that [getSystemDNSConfig] returned, the one read
    last: the names are asked in order, or a racer is started for each. *)
Definition lx_begin (x : nat) (c : lx_call) (question : Question) (s : exchange_state)
    : option exchange_state :=
  let l := er_local s in
  config ← last (ls_confs l);
  let conf := length (ls_confs l) - 1 in
  let names := nameList config (FqdnToDomain (q_Name question)) in
  if (cf_singleRequest config || negb (asks_address question))%bool then
    Some (set_lx x (fun c => MkLX (lx_message c) (lx_address c) conf [] (LxSingle names None None)) s)
  else
    let ns := seq (length (ls_calls l)) (length names) in
    let l' := fold_left (new_call conf (lx_message c) question) names l in
    Some (MkER (er_host s) l'
      (alter (fun c => MkLX (lx_message c) (lx_address c) conf (zip names ns)
                         (LxParallel ns (pl_start ns))) x (er_xs s))).

(** The loop of [exchangeSingleRequest]: the next name, or what the call for
    the last one returned. *)
Definition lx_next (x : nat) (c : lx_call) (question : Question) (names : list string)
    (call : option nat) (lastErr : option err) (s : exchange_state) : option exchange_state :=
  match call with
  | None =>
      Some match names with
           | [] => set_lx x (set_at (LxDone (None, lastErr))) s
           | fqdn :: names =>
               let n := length (ls_calls (er_local s)) in
               MkER (er_host s) (new_call (lx_conf c) (lx_message c) question (er_local s) fqdn)
                 (alter (fun c => MkLX (lx_message c) (lx_address c) (lx_conf c)
                            (lx_calls c ++ [(fqdn, n)]) (LxSingle names (Some n) lastErr)) x (er_xs s))
           end
  | Some n =>
      r ← call_result (er_local s) n;
      Some (set_lx x (set_at match r with
                             | (_, Some e) => LxSingle names None (Some e)
                             | (response, None) => LxDone (response, None)
                             end) s)
  end.

(** A step of [exchangeParallel]: a racer finishes when its call has ended. *)
Definition lx_race (x : nat) (calls : list nat) (p : parallel_state) (ev : pl_event) (s : exchange_state)
    : option exchange_state :=
  let try n := default (None, None) (call_result (er_local s) n) in
  _ ← match ev with
      | EFinish k => n ← calls !! k; call_result (er_local s) n
      | _ => Some (None, None)
      end;
  p' ← pl_step calls try ev p;
  Some (set_lx x (set_at (LxParallel calls p')) s).

(** ** The steps *)

Inductive exchange_event :=
  | XvExchange (ev : host_env) (message : Msg)
  | XvStep (x : nat)
  | XvRace (x : nat) (ev : pl_event)
  | XvLocal (ev : local_event).   (* a configuration is read; a step of tryOneName *)

Definition exchange_step (ev : exchange_event) (s : exchange_state) : option (exec exchange_state) :=
  match ev with
  | XvExchange ev message =>
      let '(c, host) := lx_start ev message (er_host s) in
      Some (Ret (MkER host (er_local s) (er_xs s ++ [c])))
  | XvStep x =>
      c ← er_xs s !! x;
      question ← head (m_Question (lx_message c));
      match lx_at c with
      | LxConf => Ret <$> lx_begin x c question s
      | LxSingle names call lastErr => Ret <$> lx_next x c question names call lastErr s
      | _ => None
      end
  | XvRace x ev =>
      c ← er_xs s !! x;
      match lx_at c with
      | LxParallel calls p => Ret <$> lx_race x calls p ev s
      | _ => None
      end
  | XvLocal ev =>
      match ev with
      | EvCall _ _ _ _ => None
      | _ =>
          match local_step ev (er_local s) with
          | Some (Ret l) => Some (Ret (MkER (er_host s) l (er_xs s)))
          | Some (Panic why) => Some (Panic why)
          | None => None
          end
      end
  end.

(** What an exchange has returned. *)
Definition lx_result (c : lx_call) : option (gores (option Msg)) :=
  match lx_at c with
  | LxDone r => Some r
  | LxParallel _ p => match pl_loop p with LOut r => Some r | _ => None end
  | _ => None
  end.

Definition exchange_start (host : option File) : exchange_state := MkER host local_start [].

(** The states after a list of events, none of which panicked. *)
Inductive exchange_run (host : option File) : list exchange_event -> exchange_state -> Prop :=
  | exchange_run_nil : exchange_run host [] (exchange_start host)
  | exchange_run_snoc evs s ev s' :
      exchange_run host evs s -> exchange_step ev s = Some (Ret s') ->
      exchange_run host (evs ++ [ev]) s'.

End exchange_run.

(** ** Lemmas *)

(** *** The calls of an exchange *)

Section invariant.
Context `{SetLaws} `{DnsLib} `{ExLib} `{DnsWire}.
Implicit Types (l : local_run_state) (s : exchange_state) (c : lx_call).

(** What is kept of the calls and the configurations. *)
Definition local_le l l' : Prop :=
  (forall n nc, ls_calls l !! n = Some nc -> exists pc,
     ls_calls l' !! n = Some (MkNC (nm_conf nc) (nm_fqdn nc) (nm_message nc) (nm_question nc) pc) /\
     forall r, nm_pc nc = NDone r -> pc = NDone r) /\
  (forall i cf, ls_confs l !! i = Some cf -> exists v, ls_confs l' !! i = Some (set_soffset v cf)).

Lemma local_le_refl l l' : ls_calls l' = ls_calls l -> ls_confs l' = ls_confs l -> local_le l l'.
Proof.
  intros Hc Hf. split.
  - intros n [conf fqdn message question pc] Hn. exists pc. by rewrite Hc, Hn.
  - intros i cf. rewrite Hf. apply conf_self.
Qed.

Lemma local_le_trans l1 l2 l3 : local_le l1 l2 -> local_le l2 l3 -> local_le l1 l3.
Proof.
  intros [Hc1 Hf1] [Hc2 Hf2]. split.
  - intros n c Hn. destruct (Hc1 _ _ Hn) as (pc1 & Hn1 & Hd1). destruct (Hc2 _ _ Hn1) as (pc2 & Hn2 & Hd2).
    exists pc2. split; [exact Hn2|]. intros r Hr. apply Hd2. simpl. by apply Hd1.
  - intros i cf Hi. destruct (Hf1 _ _ Hi) as [v1 Hi1]. destruct (Hf2 _ _ Hi1) as [v2 Hi2].
    exists v2. exact Hi2.
Qed.

(** Call [n] asks for this name, for exchange [c]. *)
Definition asks_for l c (question : Question) (fqdn : string) (n : nat) : Prop :=
  exists pc, ls_calls l !! n = Some (MkNC (lx_conf c) fqdn (lx_message c) question pc).

Lemma asks_for_le l l' c c' question fqdn n :
  local_le l l' -> lx_conf c' = lx_conf c -> lx_message c' = lx_message c ->
  asks_for l c question fqdn n -> asks_for l' c' question fqdn n.
Proof.
  intros [Hc _] Hf Hm [pc Hn]. destruct (Hc _ _ Hn) as (pc' & Hn' & _). exists pc'. by rewrite Hf, Hm.
Qed.

Lemma call_result_le l l' n r : local_le l l' -> call_result l n = Some r -> call_result l' n = Some r.
Proof.
  intros [Hc _]. unfold call_result. destruct (ls_calls l !! n) as [c|] eqn:En; [|done].
  cbn [mbind option_bind]. destruct (Hc _ _ En) as (pc & -> & Hd). cbn [mbind option_bind nm_pc].
  destruct (nm_pc c) as [| | | | | | |r']; try done. by rewrite (Hd r').
Qed.

(** These calls ended with errors. *)
Definition failed l (calls : list (string * nat)) (errs : list err) : Prop :=
  Forall2 (fun fn e => exists m, call_result l fn.2 = Some (m, Some e)) calls errs.

Lemma failed_le l l' calls errs : local_le l l' -> failed l calls errs -> failed l' calls errs.
Proof.
  intros Hle Hf. eapply Forall2_impl; [exact Hf|]. intros fn e [m Hm]. exists m. by eapply call_result_le.
Qed.

Lemma failed_snoc l calls errs fqdn n m e :
  failed l calls errs -> call_result l n = Some (m, Some e) -> failed l (calls ++ [(fqdn, n)]) (errs ++ [e]).
Proof. intros Hf Hn. apply Forall2_app; [done|]. constructor; [by exists m|constructor]. Qed.

(** *** What an exchange knows *)

Definition domain_names (config : dnsConfig) (question : Question) : list string :=
  nameList config (FqdnToDomain (q_Name question)).

Definition one_by_one (config : dnsConfig) (question : Question) : bool :=
  (cf_singleRequest config || negb (asks_address question))%bool.

(** The configuration, the calls and the names to come of an exchange that
    asks. *)
Record asked l c (question : Question) (config : dnsConfig) (later : list string) : Prop := {
  as_conf : ls_confs l !! lx_conf c = Some config;
  as_address : lx_address c = [];
  as_names : domain_names config question = (lx_calls c).*1 ++ later;
  as_calls : forall fqdn n, (fqdn, n) ∈ lx_calls c -> asks_for l c question fqdn n;
}.

(** A loop that has asked for these names, before the next one. *)
Definition single_ok l c question (names : list string) (call : option nat) (lastErr : option err) : Prop :=
  exists config errs, asked l c question config names /\ one_by_one config question = true /\
    lastErr = last errs /\
    match call with
    | None => failed l (lx_calls c) errs
    | Some n => exists before fqdn, lx_calls c = before ++ [(fqdn, n)] /\ failed l before errs
    end.

(** What the loop ends with: the first success, or the last error. *)
Definition single_done l c question (r : gores (option Msg)) : Prop :=
  exists config later errs, asked l c question config later /\ one_by_one config question = true /\
    ((later = [] /\ failed l (lx_calls c) errs /\ r = (None, last errs)) \/
     exists before fqdn n m, lx_calls c = before ++ [(fqdn, n)] /\ failed l before errs /\
       call_result l n = Some (m, None) /\ r = (m, None)).

(** What the racers find is what their calls return. *)
Definition agrees l (try : nat -> gores (option Msg)) : Prop :=
  forall n r, call_result l n = Some r -> try n = r.

Definition parallel_ok l c question (calls : list nat) (p : parallel_state) (k : nat) : Prop :=
  exists config, asked l c question config [] /\ one_by_one config question = false /\
    (lx_calls c).*2 = calls /\ NoDup calls /\
    (forall i pc, pl_racers p !! i = Some pc -> pc <> PRun ->
       exists n, calls !! i = Some n /\ is_Some (call_result l n)) /\
    forall try, agrees l try -> pl_run calls try k p.

Definition hosts_answer c question (r : gores (option Msg)) : Prop :=
  lx_address c <> [] /\ asks_address question = true /\
  r = (Some (FixedResponse (m_Id (lx_message c)) question (lx_address c) DefaultResolverTTL), None).

(** An exchange that has taken [n] steps. *)
Definition lx_ok l (n : nat) c : Prop :=
  match m_Question (lx_message c) with
  | [] => n = 0 /\ exists e, lx_at c = LxDone (None, Some e)
  | question :: _ =>
      match lx_at c with
      | LxConf => n = 0 /\ lx_address c = []
      | LxSingle names call lastErr =>
          n = match call with None => S (2 * length (lx_calls c)) | Some _ => 2 * length (lx_calls c) end /\
          single_ok l c question names call lastErr
      | LxParallel calls p => exists k, n = S k /\ parallel_ok l c question calls p k
      | LxDone r => n <= 2 * length (lx_calls c) + 2 /\ (hosts_answer c question r \/ single_done l c question r)
      end
  end.

(** *** What stays *)

Lemma asked_le l l' c question config later :
  local_le l l' -> asked l c question config later ->
  exists config', asked l' c question config' later /\ one_by_one config' question = one_by_one config question.
Proof.
  intros Hle [Hf Ha Hn Hc]. destruct (proj2 Hle _ _ Hf) as [v Hv]. exists (set_soffset v config).
  split; [|done]. split; [done|done|exact Hn|]. intros fqdn n Hin. eapply asks_for_le; eauto.
Qed.

Lemma agrees_le l l' try : local_le l l' -> agrees l' try -> agrees l try.
Proof. intros Hle Ht n r Hn. apply Ht. by eapply call_result_le. Qed.

Lemma lx_ok_le l l' n c : local_le l l' -> lx_ok l n c -> lx_ok l' n c.
Proof.
  intros Hle. unfold lx_ok. destruct (m_Question (lx_message c)) as [|question qs]; [done|].
  destruct (lx_at c) as [|names call lastErr|calls p|r]; [done| | |].
  - intros [-> (config & errs & Ha & Ho & He & Hcall)]. split; [done|].
    destruct (asked_le _ _ _ _ _ _ Hle Ha) as (config' & Ha' & Ho'). exists config', errs.
    rewrite Ho'. split_and!; try done. destruct call.
    + destruct Hcall as (before & fqdn & Hb & Hf). exists before, fqdn. split; [done|]. by eapply failed_le.
    + by eapply failed_le.
  - intros (k & -> & config & Ha & Ho & Hc & Hnd & Hfin & Hrun). exists k. split; [done|].
    destruct (asked_le _ _ _ _ _ _ Hle Ha) as (config' & Ha' & Ho'). exists config'. rewrite Ho'.
    split_and!; try done.
    + intros i pc Hi Hpc. destruct (Hfin _ _ Hi Hpc) as (m & Hm & r & Hr). exists m. split; [done|].
      exists r. by eapply call_result_le.
    + intros try Ht. apply Hrun. by eapply agrees_le.
  - intros [Hn [Hh|(config & later & errs & Ha & Ho & Hr)]]; (split; [done|]); [by left|right].
    destruct (asked_le _ _ _ _ _ _ Hle Ha) as (config' & Ha' & Ho'). exists config', later, errs.
    rewrite Ho'. split_and!; try done. destruct Hr as [(Hl & Hf & Hr)|(before & fqdn & m & x & Hb & Hf & Hx & Hr)].
    + left. split_and!; try done. by eapply failed_le.
    + right. exists before, fqdn, m, x. split_and!; try done; [by eapply failed_le|by eapply call_result_le].
Qed.

(** *** The run of the calls *)

(** The calls are those of a run of their own, whose events are those of the
    whole and the calls of the exchanges. *)
Definition local_log (evs : list exchange_event) (log : list local_event) : Prop :=
  forall ev, In ev log -> (exists conf fqdn m q, ev = EvCall conf fqdn m q) \/ In (XvLocal ev) evs.

Lemma new_call_run log l conf message question fqdn :
  local_run log l -> is_Some (ls_confs l !! conf) ->
  local_run (log ++ [EvCall conf fqdn message question]) (new_call conf message question l fqdn).
Proof.
  intros Hr [cf Hconf]. econstructor; [exact Hr|]. cbn [local_step]. by rewrite Hconf.
Qed.

Lemma new_call_le l conf message question fqdn : local_le l (new_call conf message question l fqdn).
Proof.
  split.
  - intros n [nconf nfqdn nm nq pc] Hn. exists pc. split; [by apply lookup_app_l_Some|done].
  - intros i cf Hi. exact (conf_self l i cf Hi).
Qed.

Lemma new_calls_run evs log l conf message question names :
  local_run log l -> local_log evs log -> is_Some (ls_confs l !! conf) ->
  exists log', local_run log' (fold_left (new_call conf message question) names l) /\ local_log evs log'.
Proof.
  intros Hr Hlog Hconf. revert log l Hr Hlog Hconf.
  induction names as [|fqdn names IH]; intros log l Hr Hlog Hconf; simpl; [by exists log|].
  eapply IH; [by apply new_call_run| |done].
  intros ev [Hin|[<-|[]]]%in_app_iff; [by apply Hlog|]. left. eauto 10.
Qed.

(** The calls that are made at once. *)
Lemma new_calls_spec l conf message question names :
  let l' := fold_left (new_call conf message question) names l in
  local_le l l' /\ ls_confs l' = ls_confs l /\
  forall i fqdn, names !! i = Some fqdn ->
    ls_calls l' !! (length (ls_calls l) + i) = Some (MkNC conf fqdn message question NOffset).
Proof.
  cbv zeta. enough (ls_confs (fold_left (new_call conf message question) names l) = ls_confs l /\
    ls_calls (fold_left (new_call conf message question) names l) =
    ls_calls l ++ ((fun fqdn => MkNC conf fqdn message question NOffset) <$> names)) as [Hf Hc].
  { rewrite Hf, Hc. split_and!; [|done|].
    - split; [|rewrite Hf; intros i cf; apply conf_self].
      intros n [nconf nfqdn nm nq pc] Hn. exists pc. rewrite Hc. split; [by apply lookup_app_l_Some|done].
    - intros i fqdn Hi. rewrite lookup_app_r by lia. rewrite Nat.add_comm, Nat.add_sub, list_lookup_fmap.
      by rewrite Hi. }
  revert l. induction names as [|fqdn names IH]; intros l; simpl; [by rewrite app_nil_r|].
  destruct (IH (new_call conf message question l fqdn)) as [-> ->]. split; [done|].
  cbn [new_call ls_calls]. by rewrite <- app_assoc.
Qed.
End invariant.

(** *** The steps *)

Section steps.
Context `{SetLaws} `{DnsLib} `{ExLib} `{DnsWire}.
Implicit Types (l : local_run_state) (s : exchange_state) (c : lx_call).

(** Whether an event is a step of exchange [x]. *)
Definition lx_steps (x : nat) (ev : exchange_event) : nat :=
  match ev with
  | XvStep y | XvRace y _ => if decide (x = y) then 1 else 0
  | _ => 0
  end.

Record er_ok (evs : list exchange_event) s : Prop := {
  eo_local : exists log, local_run log (er_local s) /\ local_log evs log;
  eo_xs : forall x c, er_xs s !! x = Some c -> lx_ok (er_local s) (sum_list_with (lx_steps x) evs) c;
  eo_new : forall x, length (er_xs s) <= x -> sum_list_with (lx_steps x) evs = 0;
}.

Lemma local_log_snoc evs ev log : local_log evs log -> local_log (evs ++ [ev]) log.
Proof. intros Hl e He. destruct (Hl e He); [by left|right]. apply in_app_iff. auto. Qed.

(** A step of exchange [x]. *)
Lemma er_ok_step evs ev s x c host l' f :
  er_ok evs s -> er_xs s !! x = Some c -> (forall y, lx_steps y ev = if decide (y = x) then 1 else 0) ->
  local_le (er_local s) l' -> (exists log, local_run log l' /\ local_log evs log) ->
  lx_ok l' (S (sum_list_with (lx_steps x) evs)) (f c) ->
  er_ok (evs ++ [ev]) (MkER host l' (alter f x (er_xs s))).
Proof.
  intros Hok Hx Hev Hle (log & Hr & Hlog) Hlx. split; cbn [er_local er_xs].
  - exists log. split; [done|]. by apply local_log_snoc.
  - intros y c'. rewrite sum_list_with_app. simpl. rewrite Hev. destruct (decide (y = x)) as [->|Hne].
    + rewrite list_lookup_alter_eq, Hx. intros [= <-].
      replace (sum_list_with (lx_steps x) evs + (1 + 0)) with (S (sum_list_with (lx_steps x) evs)) by lia. done.
    + rewrite list_lookup_alter_ne by done. intros Hy. rewrite !Nat.add_0_r.
      eapply lx_ok_le; [exact Hle|]. by apply (eo_xs _ _ Hok).
  - intros y. rewrite length_alter, sum_list_with_app. simpl. intros Hy. rewrite (eo_new _ _ Hok y Hy), Hev.
    rewrite decide_False; [done|]. intros ->. apply lookup_lt_Some in Hx. lia.
Qed.

Lemma lx_start_ok ev message host l : lx_ok l 0 (lx_start ev message host).1.
Proof.
  unfold lx_start, lx_ok. destruct (m_Question message) as [|question qs] eqn:Hq.
  { cbn [fst lx_message]. rewrite Hq. split; [done|by eexists]. }
  assert (forall address, (address <> [] -> asks_address question = true) ->
    lx_ok l 0 (MkLX message address 0 [] match address with
      | _ :: _ => LxDone (Some (FixedResponse (m_Id message) question address DefaultResolverTTL), None)
      | [] => LxConf end)) as Hstart.
  { intros address Ha. unfold lx_ok. cbn [lx_message lx_at]. rewrite Hq. destruct address as [|a address]; [done|].
    split; [simpl; lia|]. left. split; [done|]. split; [by apply Ha|done]. }
  unfold lx_ok in Hstart. destruct host as [f|]; [|by apply (Hstart [])].
  destruct (asks_address question) eqn:Hasks; [|by apply (Hstart [])].
  destruct (File_Lookup ev _ f) as [address f']. by apply (Hstart address).
Qed.

Lemma begin_step_ok evs s x c question qs s' :
  er_ok evs s -> er_xs s !! x = Some c -> m_Question (lx_message c) = question :: qs -> lx_at c = LxConf ->
  lx_begin x c question s = Some s' -> er_ok (evs ++ [XvStep x]) s'.
Proof.
  intros Hok Hx Hq Hat. pose proof (eo_xs _ _ Hok _ _ Hx) as Hlx. unfold lx_ok in Hlx. rewrite Hq, Hat in Hlx.
  destruct Hlx as [Hn Ha]. destruct (eo_local _ _ Hok) as (log & Hr & Hlog).
  unfold lx_begin. destruct (last (ls_confs (er_local s))) as [config|] eqn:El; [|done].
  cbn [mbind option_bind]. rewrite last_lookup in El.
  replace (pred (length (ls_confs (er_local s)))) with (length (ls_confs (er_local s)) - 1) in El by lia.
  fold (one_by_one config question). fold (domain_names config question).
  destruct (one_by_one config question) eqn:Eo; intros [= <-].
  - eapply er_ok_step; [exact Hok|exact Hx|done|by apply local_le_refl|by exists log|].
    unfold lx_ok. cbn [lx_message lx_at]. rewrite Hq. split; [simpl; lia|]. exists config, [].
    split_and!; [|done|done|constructor]. split; cbn [lx_conf lx_address lx_calls]; [done|done|done|].
    intros fqdn n Hin. by apply elem_of_nil in Hin.
  - destruct (new_calls_spec (er_local s) (length (ls_confs (er_local s)) - 1) (lx_message c) question
      (domain_names config question)) as (Hle & Hf & Hcalls).
    eapply er_ok_step; [exact Hok|exact Hx|done|exact Hle|by eapply new_calls_run|].
    unfold lx_ok. cbn [lx_message lx_at]. rewrite Hq. exists 0. split; [lia|]. exists config.
    set (ns := seq _ _). assert (length ns = length (domain_names config question)) as Hlen by apply length_seq.
    split_and!; [|done| |apply NoDup_seq| |intros try _; constructor].
    + split; cbn [lx_conf lx_address lx_calls]; [by rewrite Hf|done| |].
      * rewrite app_nil_r, fst_zip; [done|lia].
      * intros fqdn n [i Hi]%list_elem_of_lookup_1. apply lookup_zip_Some in Hi as [Hi Hn'].
        apply lookup_seq in Hn' as [-> _]. exists NOffset. cbn [lx_conf lx_message]. by apply Hcalls.
    + cbn [lx_calls]. apply snd_zip. lia.
    + intros i pc Hi. apply list_lookup_fmap_Some in Hi as (? & -> & _). by intros [].
Qed.

Lemma asked_call l c question config fqdn names l' pc :
  asked l c question config (fqdn :: names) -> local_le l l' -> ls_confs l' = ls_confs l ->
  ls_calls l' !! length (ls_calls l) = Some (MkNC (lx_conf c) fqdn (lx_message c) question NOffset) ->
  asked l' (MkLX (lx_message c) (lx_address c) (lx_conf c) (lx_calls c ++ [(fqdn, length (ls_calls l))]) pc)
    question config names.
Proof.
  intros [Hf Ha Hn Hc] Hle Hconf Hnew. split; cbn [lx_conf lx_address lx_calls]; [by rewrite Hconf|done| |].
  - rewrite fmap_app, <- app_assoc. exact Hn.
  - intros fqdn' n [Hin|Hin%list_elem_of_singleton]%elem_of_app.
    + eapply asks_for_le; [exact Hle|done..|]. by apply Hc.
    + injection Hin as -> ->. by exists NOffset.
Qed.

Lemma next_step_ok evs s x c question qs names call lastErr s' :
  er_ok evs s -> er_xs s !! x = Some c -> m_Question (lx_message c) = question :: qs ->
  lx_at c = LxSingle names call lastErr ->
  lx_next x c question names call lastErr s = Some s' -> er_ok (evs ++ [XvStep x]) s'.
Proof.
  intros Hok Hx Hq Hat. pose proof (eo_xs _ _ Hok _ _ Hx) as Hlx. unfold lx_ok in Hlx. rewrite Hq, Hat in Hlx.
  destruct Hlx as [Hn (config & errs & Ha & Ho & He & Hcall)]. destruct (eo_local _ _ Hok) as (log & Hr & Hlog).
  assert (forall pc later, asked (er_local s) c question config later ->
    asked (er_local s) (set_at pc c) question config later) as Hset.
  { intros pc later [? ? ? ?]. by split. }
  unfold lx_next. destruct call as [n|].
  - destruct (call_result (er_local s) n) as [r|] eqn:Er; [|done]. cbn [mbind option_bind]. intros [= <-].
    destruct Hcall as (before & fqdn & Hb & Hf).
    eapply er_ok_step; [exact Hok|exact Hx|done|by apply local_le_refl|by exists log|].
    unfold lx_ok. cbn [set_at lx_message lx_at]. rewrite Hq. destruct r as [m [e|]].
    + split; [cbn [set_at lx_calls]; lia|]. exists config, (errs ++ [e]). split_and!; [by apply Hset|done|by rewrite last_snoc|].
      cbn [set_at lx_calls]. rewrite Hb. by eapply failed_snoc.
    + split; [cbn [set_at lx_calls]; lia|]. right. exists config, names, errs. split_and!; [by apply Hset|done|].
      right. by exists before, fqdn, n, m.
  - destruct names as [|fqdn names]; intros [= <-].
    + eapply er_ok_step; [exact Hok|exact Hx|done|by apply local_le_refl|by exists log|].
      unfold lx_ok. cbn [set_at lx_message lx_at]. rewrite Hq. split; [cbn [set_at lx_calls]; lia|].
      right. exists config, [], errs. split_and!; [by apply Hset|done|]. left. by rewrite He.
    + pose proof (new_call_le (er_local s) (lx_conf c) (lx_message c) question fqdn) as Hle.
      eapply er_ok_step; [exact Hok|exact Hx|done|exact Hle| |].
      { exists (log ++ [EvCall (lx_conf c) fqdn (lx_message c) question]). split.
        - apply new_call_run; [done|]. destruct Ha as [-> _ _ _]. by eexists.
        - intros ev [Hin|[<-|[]]]%in_app_iff; [by apply Hlog|]. left. eauto 10. }
      unfold lx_ok. cbn [lx_message lx_at lx_calls]. rewrite Hq. rewrite length_app. split; [simpl; lia|].
      exists config, errs. split_and!; [|done|done|].
      * eapply asked_call; [exact Ha|exact Hle|done|]. cbn [new_call ls_calls]. by apply list_lookup_middle.
      * exists (lx_calls c), fqdn. split; [done|]. by eapply failed_le.
Qed.

Lemma pl_step_agrees l (calls : list nat) try ev p p' :
  agrees l try ->
  (forall k, ev = EFinish k -> exists n, calls !! k = Some n /\ is_Some (call_result l n)) ->
  pl_step calls (fun n => default (None, None) (call_result l n)) ev p = Some p' ->
  pl_step calls try ev p = Some p'.
Proof.
  intros Ht Hev. destruct ev as [k|k|k|e| |]; try done. cbn [pl_step].
  destruct (Hev k eq_refl) as (n & Hn & r & Hr). rewrite Hn, Hr. cbn [from_option]. unfold id.
  by rewrite (Ht _ _ Hr).
Qed.

(** A racer leaves its call when this has ended. *)
Lemma pl_step_racers {N} (calls : list N) try ev p p' i pc :
  pl_step calls try ev p = Some p' -> pl_racers p' !! i = Some pc -> pc <> PRun ->
  ev = EFinish i \/ exists pc', pl_racers p !! i = Some pc' /\ pc' <> PRun.
Proof.
  assert (forall k pc0 pc1, pl_racers p !! k = Some pc0 -> pc0 <> PRun ->
    <[k := pc1]> (pl_racers p) !! i = Some pc -> pc <> PRun -> exists pc', pl_racers p !! i = Some pc' /\ pc' <> PRun) as Hins.
  { intros k pc0 pc1 Hk Hne [(<- & _ & _)|[_ Hi]]%list_lookup_insert_Some Hpc; eauto. }
  destruct ev as [k|k|k|e| |]; cbn [pl_step].
  - destruct (pl_racers p !! k) as [[]|] eqn:Ek; try done. destruct (calls !! k); [|done]. intros [= <-].
    cbn [pl_racers]. intros [(<- & _ & _)|[_ Hi]]%list_lookup_insert_Some Hpc; [by left|right]. eauto.
  - destruct (pl_racers p !! k) as [[|r|]|] eqn:Ek; try done. destruct (pl_loop p); try done. intros [= <-].
    cbn [pl_racers]. intros Hi Hpc. right. by eapply Hins.
  - destruct (pl_racers p !! k) as [[|r|]|] eqn:Ek; try done. destruct (pl_returned p); [|done]. intros [= <-].
    cbn [pl_racers]. intros Hi Hpc. right. by eapply Hins.
  - destruct (pl_ctx p); [done|]. intros [= <-]. cbn [pl_racers]. eauto.
  - destruct (pl_loop p), (pl_ctx p); try done. intros [= <-]. cbn [pl_racers]. eauto.
  - destruct (pl_loop p); try done; intros [= <-]; cbn [pl_racers]; eauto.
Qed.

Lemma race_step_ok evs s x c question qs calls p ev s' :
  er_ok evs s -> er_xs s !! x = Some c -> m_Question (lx_message c) = question :: qs ->
  lx_at c = LxParallel calls p -> lx_race x calls p ev s = Some s' -> er_ok (evs ++ [XvRace x ev]) s'.
Proof.
  intros Hok Hx Hq Hat. pose proof (eo_xs _ _ Hok _ _ Hx) as Hlx. unfold lx_ok in Hlx. rewrite Hq, Hat in Hlx.
  destruct Hlx as (k & Hn & config & Ha & Ho & Hc & Hnd & Hfin & Hrun). destruct (eo_local _ _ Hok) as (log & Hr & Hlog).
  unfold lx_race. destruct (match ev with EFinish _ => _ | _ => _ end) as [u|] eqn:Eg; [|done].
  cbn [mbind option_bind]. destruct (pl_step calls _ ev p) as [p'|] eqn:Ep; [|done].
  cbn [mbind option_bind]. intros [= <-].
  eapply er_ok_step; [exact Hok|exact Hx|done|by apply local_le_refl|by exists log|].
  unfold lx_ok. cbn [set_at lx_message lx_at]. rewrite Hq. exists (S k). split; [lia|]. exists config.
  assert (forall j, ev = EFinish j -> exists n, calls !! j = Some n /\ is_Some (call_result (er_local s) n)) as Hdone.
  { intros j ->. destruct (calls !! j) as [n|]; [|done]. cbn [mbind option_bind] in Eg. by exists n. }
  split_and!; try done; [by destruct Ha; split| |].
  - intros i pc Hi Hpc. destruct (pl_step_racers _ _ _ _ _ _ _ Ep Hi Hpc) as [->|(pc' & Hi' & Hpc')]; [by apply Hdone|].
    by eapply Hfin.
  - intros try Ht. econstructor; [by apply Hrun|]. by eapply pl_step_agrees.
Qed.

Lemma local_event_ok evs s ev l :
  er_ok evs s -> local_step ev (er_local s) = Some (Ret l) ->
  er_ok (evs ++ [XvLocal ev]) (MkER (er_host s) l (er_xs s)).
Proof.
  intros Hok Hs. destruct (eo_local _ _ Hok) as (log & Hr & Hlog).
  assert (forall x, sum_list_with (lx_steps x) (evs ++ [XvLocal ev]) = sum_list_with (lx_steps x) evs) as Hn
    by (intros x; rewrite sum_list_with_app; simpl; lia).
  split; cbn [er_local er_xs].
  - exists (log ++ [ev]). split; [by econstructor|]. intros e [Hin|[<-|[]]]%in_app_iff.
    + destruct (Hlog e Hin); [by left|right]. apply in_app_iff. auto.
    + right. apply in_app_iff. simpl. auto.
  - intros x c Hx. rewrite Hn. eapply lx_ok_le; [|by apply (eo_xs _ _ Hok)].
    exact (local_step_keeps _ _ _ _ Hr Hs).
  - intros x Hx. rewrite Hn. by apply (eo_new _ _ Hok).
Qed.

Lemma exchange_run_ok host evs s : exchange_run host evs s -> er_ok evs s.
Proof.
  induction 1 as [|evs s ev s' _ Hok Hs].
  { split; [exists []; split; [constructor|by intros e []]|done|done]. }
  destruct ev as [hev message|x|x ev|ev]; cbn [exchange_step] in Hs.
  - pose proof (lx_start_ok hev message (er_host s) (er_local s)) as Hstart.
    destruct (lx_start hev message (er_host s)) as [c f]. injection Hs as <-.
    assert (forall x, sum_list_with (lx_steps x) (evs ++ [XvExchange hev message]) = sum_list_with (lx_steps x) evs) as Hn
      by (intros x; rewrite sum_list_with_app; simpl; lia).
    split; cbn [er_local er_xs].
    + destruct (eo_local _ _ Hok) as (log & Hr & Hlog). exists log. split; [done|by apply local_log_snoc].
    + intros x c'. rewrite Hn. intros [Hx|[Hge Hx]]%lookup_app_Some; [by apply (eo_xs _ _ Hok)|].
      apply list_lookup_singleton_Some in Hx as [_ <-]. by rewrite (eo_new _ _ Hok).
    + intros x. rewrite Hn, length_app. intros Hx. apply (eo_new _ _ Hok). lia.
  - destruct (er_xs s !! x) as [c|] eqn:Ex; [|done]. cbn [mbind option_bind] in Hs.
    destruct (m_Question (lx_message c)) as [|question qs] eqn:Hq; [done|]. cbn [head mbind option_bind] in Hs.
    destruct (lx_at c) as [|names call lastErr|calls p|r] eqn:Eat; try done.
    + destruct (lx_begin x c question s) as [s1|] eqn:Eb; [|done]. injection Hs as <-. by eapply begin_step_ok.
    + destruct (lx_next x c question names call lastErr s) as [s1|] eqn:Eb; [|done]. injection Hs as <-.
      by eapply next_step_ok.
  - destruct (er_xs s !! x) as [c|] eqn:Ex; [|done]. cbn [mbind option_bind] in Hs.
    destruct (lx_at c) as [|names call lastErr|calls p|r] eqn:Eat; try done.
    destruct (lx_race x calls p ev s) as [s1|] eqn:Er; [|done]. injection Hs as <-.
    destruct (m_Question (lx_message c)) as [|question qs] eqn:Hq; [|by eapply race_step_ok].
    pose proof (eo_xs _ _ Hok _ _ Ex) as Hlx. unfold lx_ok in Hlx. rewrite Hq, Eat in Hlx. by destruct Hlx as [_ [? ?]].
  - assert (exists l, local_step ev (er_local s) = Some (Ret l) /\ s' = MkER (er_host s) l (er_xs s)) as (l & Hl & ->).
    { destruct ev; try done; destruct (local_step _ _) as [[l|why]|] eqn:El; try done; injection Hs as <-; by exists l. }
    by apply local_event_ok.
Qed.
End steps.

(** *** Answers *)

Section answers.
Context `{SetLaws} `{DnsLib} `{ExLib} `{DnsWire}.
Implicit Types (l : local_run_state) (s : exchange_state) (c : lx_call).

(** The events of the calls. *)
Definition local_events (evs : list exchange_event) : list local_event :=
  omap (fun ev => match ev with XvLocal ev => Some ev | _ => None end) evs.

Lemma local_events_in evs ev : In ev (local_events evs) <-> In (XvLocal ev) evs.
Proof.
  rewrite <- !list_elem_of_In. unfold local_events. rewrite list_elem_of_omap. split.
  - intros (xev & Hin & Heq). destruct xev; try done. by injection Heq as ->.
  - intros Hin. by exists (XvLocal ev).
Qed.

(** The calls of the exchanges are no answers. *)
Lemma served_log evs log l k nc m : local_log evs log -> served log l k nc m -> served (local_events evs) l k nc m.
Proof.
  intros Hlog. assert (forall ev, (forall conf fqdn m q, ev <> EvCall conf fqdn m q) -> In ev log -> In ev (local_events evs)) as Hin.
  { intros ev Hne Hev. apply local_events_in. destruct (Hlog _ Hev) as [(conf & fqdn & m' & q & Heq)|]; [|done].
    by destruct (Hne conf fqdn m' q). }
  intros (config & v & j & p & tr & Hconf & Hne & Htr & Hport & Haddr & Hid & Ha).
  exists config, v, j, p, tr. split_and!; try done.
  - destruct Hid as [|[? ?]]; [by left|right]. split; [done|]. by apply Hin.
  - destruct Ha as [(x & tx & bytes & stream & ? & ? & ? & Hw & Hr & ?)|(Hu & cn & u & raw & bytes & m0 & ? & ? & ? & Hr & ?)];
      [left; exists x, tx, bytes, stream; split_and!; try done; by apply Hin|].
    right. split; [done|]. exists cn, u, raw, bytes, m0. split_and!; try tauto. by apply Hin.
Qed.

Lemma call_result_done l n r :
  call_result l n = Some r -> exists nc, ls_calls l !! n = Some nc /\ nm_pc nc = NDone r.
Proof.
  unfold call_result. destruct (ls_calls l !! n) as [nc|]; [|done]. cbn [mbind option_bind]. exists nc.
  split; [done|]. by destruct (nm_pc nc); simplify_eq.
Qed.

(** A success of the sequential loop is that of a racer. *)
Lemma parallel_loop_success {N} (names : list N) (try : N -> gores (option Msg)) evs errors m :
  (parallel_loop (V := unit) (fun n => mret (Ret (try n))) names evs errors tt).1 = Some (Ret (m, None)) ->
  m <> None -> exists k n, In (PRacer k) evs /\ names !! k = Some n /\ try n = (m, None).
Proof.
  intros Hrun Hm. revert errors Hrun. induction evs as [|[e|k] evs IH]; intros errors; simpl; [done|..].
  - intros [=].
  - destruct (names !! k) as [n|] eqn:En; [|intros Hrun; destruct (IH _ Hrun) as (k' & n & Hin & ?); eauto].
    rewrite ST_bind_run. cbn [mret ST_ret fst snd]. destruct (try n) as [m' [e|]] eqn:Et.
    + cbv zeta. destruct (_ =? _)%nat.
      * intros [= <- _]. done.
      * intros Hrun. destruct (IH _ Hrun) as (k' & n' & Hin & ?). exists k', n'. split; [by right|done].
    + intros [= ->]. exists k, n. split; [by left|done].
Qed.

(** What a parallel exchange has come to. *)
Lemma parallel_result l c question calls p k r :
  parallel_ok l c question calls p k -> loop_result (pl_loop p) = Some r ->
  NoDup (pl_got p) /\
  (forall i, i ∈ pl_got p -> exists n, calls !! i = Some n /\ is_Some (call_result l n)) /\
  exists pevs,
    (parallel_loop (V := unit) (fun n => mret (Ret (default (None, None) (call_result l n)))) calls pevs [] tt).1
      = Some (Ret r) /\
    (pevs = PRacer <$> pl_got p \/ exists e, pl_ctx p = Some e /\ pevs = (PRacer <$> pl_got p) ++ [PCtx e]).
Proof.
  intros (config & _ & _ & _ & _ & Hfin & Hrun) Hr.
  assert (agrees l (fun n => default (None, None) (call_result l n))) as Hag by (by intros n r' ->).
  specialize (Hrun _ Hag). destruct (parallel_refines_loop _ _ _ _ _ Hrun Hr) as (Hnd & _ & Hpevs).
  split_and!; [done| |done]. intros i Hi.
  exact (Hfin _ _ (po_ended _ _ _ _ (pl_ok_run _ _ _ _ Hrun) _ Hi) ltac:(done)).
Qed.

(** C6: What an exchange returns.  However the exchanges, racers and calls
    of [tryOneName] interleave, an exchange that has returned has the answer
    of the hosts file, for a question for addresses; or it has a
    configuration and asked for names of it, each by a call of its own for
    its message: one after the other, up to the first success, or to the end
    with the last error; or all at once, and then its result is the one of
    the sequential loop of Local over the results its racers' calls have
    ended with, in the order of receipt and none twice, and then the end of
    the context. *)
Theorem exchange_outcome host evs s x c question qs r :
  exchange_run host evs s -> er_xs s !! x = Some c -> m_Question (lx_message c) = question :: qs ->
  lx_result c = Some r ->
  let l := er_local s in
  let result n := default (None, None) (call_result l n) in
  hosts_answer c question r \/
  exists config later, asked l c question config later /\
    if one_by_one config question then
      exists before errs, failed l before errs /\
        ((later = [] /\ lx_calls c = before /\ r = (None, last errs)) \/
         exists fqdn n m, lx_calls c = before ++ [(fqdn, n)] /\ call_result l n = Some r /\ r = (m, None))
    else
      later = [] /\ NoDup (lx_calls c).*2 /\
      exists got pevs,
        NoDup got /\ (forall i, i ∈ got -> exists n, (lx_calls c).*2 !! i = Some n /\ is_Some (call_result l n)) /\
        (parallel_loop (V := unit) (fun n => mret (Ret (result n))) (lx_calls c).*2 pevs [] tt).1 = Some (Ret r) /\
        (pevs = PRacer <$> got \/ exists e, pevs = (PRacer <$> got) ++ [PCtx e]).
Proof.
  intros Hr Hx Hq Hres l result. pose proof (eo_xs _ _ (exchange_run_ok _ _ _ Hr) _ _ Hx) as Hlx.
  unfold lx_ok in Hlx. rewrite Hq in Hlx. unfold lx_result in Hres.
  destruct (lx_at c) as [|names call lastErr|calls p|r']; try done.
  - destruct (pl_loop p) as [| | |r'] eqn:Ep; simplify_eq. destruct Hlx as (k & _ & Hpar). right.
    destruct (parallel_result _ _ _ _ _ _ r Hpar) as (Hnd & Hgot & pevs & Hrun & Hpevs); [by rewrite Ep|].
    destruct Hpar as (config & Ha & Ho & <- & Hcalls & _). exists config, []. rewrite Ho.
    split; [done|]. split; [done|]. split; [done|]. exists (pl_got p), pevs. split_and!; try done.
    destruct Hpevs as [|(e & _ & ?)]; [by left|right; by exists e].
  - simplify_eq. destruct Hlx as [_ [Hh|(config & later & errs & Ha & Ho & Hend)]]; [by left|right].
    exists config, later. rewrite Ho. split; [done|].
    destruct Hend as [(Hl & Hf & Hrr)|(before & fqdn & n & m & Hb & Hf & Hn & Hrr)].
    + exists (lx_calls c), errs. split; [done|]. left. by split_and!.
    + exists before, errs. split; [done|]. right. exists fqdn, n, m. rewrite Hrr. by split_and!.
Qed.

(** The call that gave an exchange its message. *)
Lemma exchange_message host evs s x c question qs m :
  exchange_run host evs s -> er_xs s !! x = Some c -> m_Question (lx_message c) = question :: qs ->
  lx_result c = Some (Some m, None) ->
  hosts_answer c question (Some m, None) \/
  exists config later fqdn n, asked (er_local s) c question config later /\ (fqdn, n) ∈ lx_calls c /\
    call_result (er_local s) n = Some (Some m, None).
Proof.
  intros Hr Hx Hq Hres. pose proof (eo_xs _ _ (exchange_run_ok _ _ _ Hr) _ _ Hx) as Hlx.
  unfold lx_ok in Hlx. rewrite Hq in Hlx. unfold lx_result in Hres.
  destruct (lx_at c) as [|names call lastErr|calls p|r']; try done.
  - destruct (pl_loop p) as [| | |r'] eqn:Ep; simplify_eq. destruct Hlx as (k & _ & Hpar). right.
    destruct (parallel_result _ _ _ _ _ _ (Some m, None) Hpar) as (_ & Hgot & pevs & Hrun & Hpevs); [by rewrite Ep|].
    destruct (parallel_loop_success _ _ _ _ _ Hrun) as (i & n & Hi & Hn & Hm); [done|].
    destruct Hpar as (config & Ha & _ & Hcalls & _). 
    assert (exists fqdn, (fqdn, n) ∈ lx_calls c) as [fqdn Hfn].
    { rewrite <- Hcalls, list_lookup_fmap in Hn. destruct (lx_calls c !! i) as [[fqdn n']|] eqn:Ei; [|done].
      injection Hn as ->. exists fqdn. by eapply list_elem_of_lookup_2. }
    exists config, [], fqdn, n. split_and!; try done.
    assert (i ∈ pl_got p) as Hgi.
    { destruct Hpevs as [->|(e & _ & ->)]; rewrite <- list_elem_of_In in Hi.
      - apply list_elem_of_fmap in Hi as (j & [= ->] & Hj). done.
      - apply elem_of_app in Hi as [(j & [= ->] & Hj)%list_elem_of_fmap|Hi%list_elem_of_singleton]; done. }
    destruct (Hgot _ Hgi) as (n' & Hn' & r & Hr'). rewrite Hn in Hn'. injection Hn' as <-.
    rewrite Hr' in Hm. simpl in Hm. by rewrite Hr', Hm.
  - simplify_eq. destruct Hlx as [_ [Hh|(config & later & errs & Ha & Ho & Hend)]]; [by left|right].
    destruct Hend as [(_ & _ & [=])|(before & fqdn & n & m' & Hb & _ & Hn & [= ->])].
    exists config, later, fqdn, n. split_and!; try done. rewrite Hb. apply elem_of_app. right. by left.
Qed.

(** C4: Where an answer comes from.  An exchange that has returned a message
    has it from the hosts file, or from a call of [tryOneName] for one of the
    names of its question and its message, which has it from a server of its
    configuration: read over TCP or in an untruncated datagram from the
    server the query was written to.  The other exchanges, which share
    transports, connections and offsets, have no part in it. *)
Theorem exchange_answer `{!DnsLaws} host evs s x c question qs m :
  exchange_run host evs s -> er_xs s !! x = Some c -> m_Question (lx_message c) = question :: qs ->
  lx_result c = Some (Some m, None) ->
  (lx_address c <> [] /\ asks_address question = true /\
   m = FixedResponse (m_Id (lx_message c)) question (lx_address c) DefaultResolverTTL) \/
  exists config fqdn n nc,
    ls_confs (er_local s) !! lx_conf c = Some config /\
    fqdn ∈ nameList config (FqdnToDomain (q_Name question)) /\ (fqdn, n) ∈ lx_calls c /\
    ls_calls (er_local s) !! n = Some nc /\ nm_conf nc = lx_conf c /\ nm_fqdn nc = fqdn /\
    nm_message nc = lx_message c /\ nm_question nc = question /\
    served (local_events evs) (er_local s) n nc m.
Proof.
  intros Hr Hx Hq Hres.
  destruct (exchange_message _ _ _ _ _ _ _ _ Hr Hx Hq Hres)
    as [(Ha & Hask & [= ->])|(config & later & fqdn & n & [Hf _ Hn Hc] & Hfn & Hcall)]; [by left|right].
  destruct (call_result_done _ _ _ Hcall) as (nc & Hnc & Hpc).
  destruct (Hc _ _ Hfn) as [pc Hpc']. rewrite Hnc in Hpc'. injection Hpc' as ->.
  destruct (eo_local _ _ (exchange_run_ok _ _ _ Hr)) as (log & Hrun & Hlog).
  exists config, fqdn, n. eexists. split_and!; try done.
  - fold (domain_names config question). rewrite Hn. apply elem_of_app. left.
    apply list_elem_of_fmap. by exists (fqdn, n).
  - eapply served_log; [exact Hlog|]. by eapply call_served.
Qed.
End answers.

(** ** Going on *)

Section progress.
Context `{SetLaws} `{DnsLib} `{ExLib} `{DnsWire}.
Implicit Types (l : local_run_state) (s : exchange_state) (c : lx_call).

Definition xenabled s (ev : exchange_event) : Prop := is_Some (exchange_step ev s).

(** A call of [tryOneName] that has not ended and goes on. *)
Definition call_under_way l (n : nat) : Prop :=
  exists nc, ls_calls l !! n = Some nc /\ (forall r, nm_pc nc <> NDone r) /\ call_goes_on l n nc.

Lemma call_ended_or_goes `{!DnsLaws} evs s c question fqdn n :
  er_ok evs s -> asks_for (er_local s) c question fqdn n ->
  is_Some (call_result (er_local s) n) \/ call_under_way (er_local s) n.
Proof.
  intros Hok [pc Hn]. destruct (eo_local _ _ Hok) as (log & Hr & _).
  pose proof (call_continues _ _ _ _ Hr Hn) as Hgo. unfold call_result. rewrite Hn. cbn [mbind option_bind nm_pc].
  destruct pc; try (left; by eexists); right; eexists; (split; [exact Hn|]); by split.
Qed.

Definition lx_steps_bound (c : lx_call) : nat := 2 * length (lx_calls c) + 5.

Lemma lx_ok_steps l n c : lx_ok l n c -> n <= lx_steps_bound c.
Proof.
  unfold lx_ok, lx_steps_bound. destruct (m_Question (lx_message c)); [lia|].
  destruct (lx_at c) as [|names call lastErr|calls p|r]; [lia| | |lia].
  - intros [-> _]. destruct call; lia.
  - intros (k & -> & config & _ & _ & <- & _ & _ & Hrun).
    assert (agrees l (fun n => default (None, None) (call_result l n))) as Hag by (by intros m r' ->).
    pose proof (proj1 (parallel_no_leak _ _ _ _ (Hrun _ Hag))) as Hb. rewrite length_fmap in Hb. lia.
Qed.

(** Where an exchange can be, and what can happen then. *)
Definition exchange_next s (x : nat) c : Prop :=
  match lx_at c with
  | LxDone _ => True
  | LxConf => ls_confs (er_local s) = [] \/ xenabled s (XvStep x)
  | LxSingle _ None _ => xenabled s (XvStep x)
  | LxSingle _ (Some n) _ => xenabled s (XvStep x) \/ call_under_way (er_local s) n
  | LxParallel calls p =>
      (is_Some (lx_result c) /\ Forall (fun pc => pc = PEnd) (pl_racers p)) \/
      (exists ev, (forall e, ev <> ECtxEnds e) /\ xenabled s (XvRace x ev)) \/
      (exists n, n ∈ calls /\ call_under_way (er_local s) n) \/
      (calls = [] /\ pl_loop p = LLoop [] /\ pl_ctx p = None)
  end.

Lemma exchange_next_possible `{!DnsLaws} evs s x c :
  er_ok evs s -> er_xs s !! x = Some c -> exchange_next s x c.
Proof.
  intros Hok Hx. pose proof (eo_xs _ _ Hok _ _ Hx) as Hlx. unfold lx_ok in Hlx. unfold exchange_next.
  destruct (m_Question (lx_message c)) as [|question qs] eqn:Hq.
  { destruct Hlx as (_ & e & ->). done. }
  assert (forall s', match lx_at c with
      | LxConf => lx_begin x c question s = Some s'
      | LxSingle names call lastErr => lx_next x c question names call lastErr s = Some s'
      | _ => False end -> xenabled s (XvStep x)) as Hstep.
  { intros s' Hs'. unfold xenabled. cbn [exchange_step]. rewrite Hx. cbn [mbind option_bind]. rewrite Hq.
    cbn [head mbind option_bind]. destruct (lx_at c); try done; rewrite Hs'; by eexists. }
  destruct (lx_at c) as [|names call lastErr|calls p|r] eqn:Eat; [| | |done].
  - destruct (last (ls_confs (er_local s))) as [config|] eqn:El; [|left; by apply last_None in El].
    right. unfold lx_begin in Hstep. rewrite El in Hstep. cbn [mbind option_bind] in Hstep.
    destruct (_ || _)%bool; by eapply Hstep.
  - destruct Hlx as (_ & config & errs & Ha & _ & _ & Hcall). destruct call as [n|].
    + destruct Hcall as (before & fqdn & Hb & _).
      destruct (call_ended_or_goes evs s c question fqdn n Hok) as [[r Hres]|]; [| |by right].
      { apply (as_calls _ _ _ _ _ Ha). rewrite Hb. apply elem_of_app. right. by left. }
      left. unfold lx_next in Hstep. rewrite Hres in Hstep. cbn [mbind option_bind] in Hstep. by eapply Hstep.
    + unfold lx_next in Hstep. destruct names; by eapply Hstep.
  - destruct Hlx as (k & _ & config & Ha & _ & Hcalls & _ & _ & Hrun).
    assert (agrees (er_local s) (fun n => default (None, None) (call_result (er_local s) n))) as Hag by (by intros m r' ->).
    specialize (Hrun _ Hag). destruct (proj2 (parallel_no_leak _ _ _ _ Hrun)) as [[[r Hl] Hend]|[(ev & Hne & [p' Hp])|?]].
    + left. split; [|done]. unfold lx_result. rewrite Eat, Hl. by eexists.
    + assert (match ev with EFinish k => n ← calls !! k; call_result (er_local s) n | _ => Some (None, None) end <> None ->
        xenabled s (XvRace x ev)) as Hgo.
      { intros Hg. unfold xenabled. cbn [exchange_step]. rewrite Hx. cbn [mbind option_bind]. rewrite Eat.
        unfold lx_race. destruct (match ev with EFinish _ => _ | _ => _ end) as [u|]; [|done]. cbn [mbind option_bind].
        rewrite Hp. by eexists. }
      destruct ev as [i|i|i|e| |]; try (right; left; eexists; split; [exact Hne|]; by apply Hgo).
      cbn [pl_step] in Hp. destruct (calls !! i) as [n|] eqn:Ei; [|by destruct (pl_racers p !! i) as [[]|]].
      assert (n ∈ calls) as Hin by (by eapply list_elem_of_lookup_2).
      rewrite <- Hcalls in Hin. apply list_elem_of_fmap in Hin as ([fqdn n'] & -> & Hfn).
      destruct (call_ended_or_goes evs s c question fqdn n' Hok) as [[r Hres]|Hun].
      { by apply (as_calls _ _ _ _ _ Ha). }
      * right. left. exists (EFinish i). split; [done|]. apply Hgo. cbn [mbind option_bind snd]. by rewrite Hres.
      * right. right. left. exists n'. split; [by eapply list_elem_of_lookup_2|done].
    + by right; right; right.
Qed.

(** C21: No exchange is left behind.  An exchange takes at most two steps for
    each call it makes and five more.  In every state it has returned, and
    then its racers have ended or can go on; or it can take its next step, or
    its loop or one of its racers can, or a call of [tryOneName] it waits for
    has not ended and can go on, whatever the network gives.  Only before a
    configuration was read, and as a parallel exchange without names before
    its context ends, it waits. *)
Theorem exchange_progress `{!DnsLaws} host evs s x c :
  exchange_run host evs s -> er_xs s !! x = Some c ->
  sum_list_with (lx_steps x) evs <= 2 * length (lx_calls c) + 5 /\
  match lx_at c with
  | LxDone _ => True
  | LxConf => ls_confs (er_local s) = [] \/ xenabled s (XvStep x)
  | LxSingle _ None _ => xenabled s (XvStep x)
  | LxSingle _ (Some n) _ => xenabled s (XvStep x) \/ call_under_way (er_local s) n
  | LxParallel calls p =>
      (is_Some (lx_result c) /\ Forall (fun pc => pc = PEnd) (pl_racers p)) \/
      (exists ev, (forall e, ev <> ECtxEnds e) /\ xenabled s (XvRace x ev)) \/
      (exists n, n ∈ calls /\ call_under_way (er_local s) n) \/
      (calls = [] /\ pl_loop p = LLoop [] /\ pl_ctx p = None)
  end.
Proof.
  intros Hr Hx. pose proof (exchange_run_ok _ _ _ Hr) as Hok. split.
  - exact (lx_ok_steps _ _ _ (eo_xs _ _ Hok _ _ Hx)).
  - exact (exchange_next_possible _ _ _ _ Hok Hx).
Qed.

(** *** With the servers of a file *)

Section offline.
Context `{!ExLaws}.

(** The servers of the configurations that were read have no brackets. *)
Definition file_confs (evs : list exchange_event) : Prop :=
  forall config, In (XvLocal (EvConf config)) evs -> conf_ok config.

Lemma exchange_offline host evs s :
  exchange_run host evs s -> file_confs evs -> offline_ok (er_local s).
Proof.
  intros Hr Hconf. destruct (eo_local _ _ (exchange_run_ok _ _ _ Hr)) as (log & Hrun & Hlog).
  eapply offline_run; [exact Hrun|]. apply Forall_forall. intros ev Hev%list_elem_of_In.
  destruct (Hlog _ Hev) as [(conf & fqdn & m & q & ->)|Hin]; [done|]. destruct ev; try done. by apply Hconf.
Qed.

Lemma exchange_step_safe s ev why :
  offline_ok (er_local s) -> (forall config, ev = XvLocal (EvConf config) -> conf_ok config) ->
  exchange_step ev s <> Some (Panic why).
Proof.
  intros Hok Hev. destruct ev as [hev message|x|x ev|ev]; cbn [exchange_step].
  - by destruct (lx_start hev message (er_host s)).
  - destruct (er_xs s !! x) as [c|]; [|done]. cbn [mbind option_bind].
    destruct (head (m_Question (lx_message c))) as [question|]; [|done]. cbn [mbind option_bind].
    destruct (lx_at c); try done; [by destruct (lx_begin _ _ _ _)|by destruct (lx_next _ _ _ _ _ _ _)].
  - destruct (er_xs s !! x) as [c|]; [|done]. cbn [mbind option_bind].
    destruct (lx_at c); try done. by destruct (lx_race _ _ _ _ _).
  - assert (conf_event_ok ev) as Hcev by (destruct ev; try done; by apply Hev).
    pose proof (offline_step (er_local s) ev Hok Hcev) as Hs.
    destruct ev; try done; destruct (local_step _ _) as [[l|w]|]; done.
Qed.

Lemma offline_call l n r : offline_ok l -> call_result l n = Some r -> exists e, r = (None, Some e).
Proof.
  intros Hok Hcall. destruct (call_result_done _ _ _ Hcall) as (nc & Hnc & Hpc).
  pose proof (of_calls _ Hok _ _ Hnc) as Hoff. rewrite Hpc in Hoff. destruct r as [[m|] [e|]]; try done. by exists e.
Qed.

(** The sequential loop over racers that all fail. *)
Lemma parallel_loop_all_fail {N} (names : list N) (try : N -> gores (option Msg)) evs errors r :
  (forall n, exists e, try n = (None, Some e)) -> Forall (fun e => is_Some e) errors ->
  (parallel_loop (V := unit) (fun n => mret (Ret (try n))) names evs errors tt).1 = Some (Ret r) ->
  exists e, r = (None, Some e).
Proof.
  intros Ht. revert errors. induction evs as [|[e|k] evs IH]; intros errors He; simpl; [done|..].
  - intros [= <-]. by exists e.
  - destruct (names !! k) as [n|]; [|by apply IH]. rewrite ST_bind_run. cbn [mret ST_ret fst snd].
    destruct (Ht n) as [e ->]. cbv zeta. destruct (_ =? _)%nat.
    + intros [= <-]. destruct (ex_Errors_is_Some (errors ++ [Some e])) as [x ->]; [|by exists x].
      exists e. apply elem_of_app. right. by left.
    + apply IH. apply Forall_app. split; [done|]. constructor; [by eexists|constructor].
Qed.

(** Every exchange for addresses is answered by the hosts file or fails, when
    the names are not asked for one by one. *)
Lemma offline_result host evs s x c question qs r :
  exchange_run host evs s -> file_confs evs ->
  (forall config, In (XvLocal (EvConf config)) evs -> cf_singleRequest config = false) ->
  asks_address question = true ->
  er_xs s !! x = Some c -> m_Question (lx_message c) = question :: qs -> lx_result c = Some r ->
  hosts_answer c question r \/ exists e, r = (None, Some e).
Proof.
  intros Hr Hconf Hpar Hask Hx Hq Hres. pose proof (exchange_offline _ _ _ Hr Hconf) as Hoff.
  pose proof (exchange_run_ok _ _ _ Hr) as Hok. pose proof (eo_xs _ _ Hok _ _ Hx) as Hlx.
  destruct (eo_local _ _ Hok) as (log & Hrun & Hlog).
  assert (forall config, ls_confs (er_local s) !! lx_conf c = Some config -> one_by_one config question = false) as Hone.
  { intros config Hc. unfold one_by_one. rewrite Hask, orb_false_r.
    apply (Forall_lookup_1 (fun cf => cf_singleRequest cf = false) (ls_confs (er_local s)) (lx_conf c)); [|done].
    eapply (local_run_confs (fun cf => cf_singleRequest cf = false)); [done|exact Hrun|].
    intros cf Hin. destruct (Hlog _ Hin) as [(? & ? & ? & ? & [=])|Hin']. by apply Hpar. }
  unfold lx_ok in Hlx. rewrite Hq in Hlx. unfold lx_result in Hres.
  destruct (lx_at c) as [|names call lastErr|calls p|r']; try done.
  - destruct (pl_loop p) as [| | |r'] eqn:Ep; simplify_eq. destruct Hlx as (k & _ & config & _ & _ & _ & _ & _ & Hpl).
    right. set (try := fun n => default (None, Some (ENew "")) (call_result (er_local s) n)).
    assert (agrees (er_local s) try) as Hag by (intros n r' Hn; unfold try; by rewrite Hn).
    destruct (parallel_refines_loop _ _ _ _ r (Hpl _ Hag)) as (_ & _ & pevs & Hloop & _); [by rewrite Ep|].
    refine (parallel_loop_all_fail calls try pevs [] r _ _ Hloop); [|constructor].
    intros n. unfold try. destruct (call_result (er_local s) n) as [r'|] eqn:En; [|by eexists].
    destruct (offline_call _ _ _ Hoff En) as [e ->]. by exists e.
  - simplify_eq. destruct Hlx as [_ [Hh|(config & later & errs & Ha & Ho & _)]]; [by left|].
    by rewrite (Hone _ (as_conf _ _ _ _ _ Ha)) in Ho.
Qed.
End offline.

(** C31: The hosts file and nothing else.  When no server of the
    configurations that were read has a bracket in its address (only the zone
    of an address of a file can have one: [read_conf_ok]), no exchange ever
    gets an answer from a server: however many exchanges run at once, no
    transport is made, no step panics, and an exchange that has returned a
    message has it from the hosts file.  ([BracketExample] of Local has a file
    with a bracket, whose server does get a transport.) *)
Theorem exchange_hosts_only `{!ExLaws} host evs s :
  exchange_run host evs s -> (forall config, In (XvLocal (EvConf config)) evs -> conf_ok config) ->
  ls_store (er_local s) = [] /\
  (forall ev why, (forall config, ev = XvLocal (EvConf config) -> conf_ok config) ->
     exchange_step ev s <> Some (Panic why)) /\
  forall x c question qs m, er_xs s !! x = Some c -> m_Question (lx_message c) = question :: qs ->
    lx_result c = Some (Some m, None) ->
    lx_address c <> [] /\ asks_address question = true /\
    m = FixedResponse (m_Id (lx_message c)) question (lx_address c) DefaultResolverTTL.
Proof.
  intros Hr Hconf. pose proof (exchange_offline _ _ _ Hr Hconf) as Hok.
  split_and!; [apply Hok|intros ev why; by apply exchange_step_safe|].
  intros x c question qs m Hx Hq Hres.
  destruct (exchange_message _ _ _ _ _ _ _ _ Hr Hx Hq Hres)
    as [(Ha & Hask & [= ->])|(config & later & fqdn & n & _ & _ & Hcall)]; [done|].
  destruct (offline_call _ _ _ Hok Hcall) as [e [=]].
Qed.
End progress.

(** ** A run for the witnesses *)

Module ExchangeRunExample.
Import DnsSimple ExTree GSet LocalRunExample.
#[local] Existing Instance id_wire | 0.

Definition exchange_exec (evs : list exchange_event) : option exchange_state :=
  fold_left (fun o ev =>
    s ← o; match exchange_step ev s with Some (Ret s') => Some s' | _ => None end) evs
    (Some (exchange_start (Some NewFile))).

Definition after (evs : list exchange_event) : exchange_state :=
  default (exchange_start None) (exchange_exec evs).

Lemma exchange_exec_run evs s : exchange_exec evs = Some s -> exchange_run (Some NewFile) evs s.
Proof.
  revert s. induction evs as [|ev evs IH] using rev_ind; [intros s [= <-]; constructor|].
  intros s. unfold exchange_exec. rewrite fold_left_app. simpl. fold (exchange_exec evs).
  destruct (exchange_exec evs) as [s0|]; [|done]. simpl.
  destruct (exchange_step ev s0) as [[s'|]|] eqn:E; intros [= <-].
  econstructor; [by apply IH|exact E].
Qed.

Lemma exchange_after_run evs : (if exchange_exec evs then true else false) = true -> exchange_run (Some NewFile) evs (after evs).
Proof.
  intros Hs. apply exchange_exec_run. unfold after. by destruct (exchange_exec evs).
Qed.

(** A question for a name, of a type. *)
Definition request (id : Z) (name : string) (typ : Z) : Msg :=
  MkMsg id false false false true false false 0 false [MkQuestion name typ ClassINET] [] [] [].

Definition conf : dnsConfig := set_search ["x."] LocalRunExample.conf.

(** The first name is in the hosts file; the second is asked for in two
    domains at once, and a query of another type in one after the other. *)
Definition started : list exchange_event :=
  [XvLocal (EvConf conf); XvExchange HostsExample.env (request 3 "localhost." TypeA);
   XvExchange HostsExample.env (request 7 "h." TypeA); XvStep 1;
   XvExchange HostsExample.env (request 8 "h." 15); XvStep 2; XvStep 2].

(** The racer of the second domain is answered. *)
Definition raced : list exchange_event :=
  started ++
  (XvLocal <$> [EvStep 1; EvId 1 9; EvStep 0; EvStep 1; EvStep 1; EvStep 1]) ++
  ((fun ev => XvLocal (EvUdp 0 ev)) <$>
     [UCheck 0; UOpen 0 None; URegister 0; UWrite 0 None;
      URecv 0 (inl [1]); UDeliver 0; USelect 0 SelCallback; UUnregister 0])%Z ++
  [XvLocal (EvStep 1); XvRace 1 (EFinish 1); XvRace 1 (EResult 1); XvRace 1 EDefer; XvRace 1 EDefer].

(** With a file's servers: the hosts file answers, the racers fail. *)
Definition offline : list exchange_event :=
  [XvLocal (EvConf LocalExample.conf); XvExchange HostsExample.env (request 3 "localhost." TypeA);
   XvExchange HostsExample.env (request 7 "h." TypeA); XvStep 1] ++
  (XvLocal <$> [EvStep 0; EvId 0 9; EvStep 0]) ++ [XvRace 1 (EFinish 0); XvRace 1 (EResult 0)].

Lemma raced_run : exchange_run (Some NewFile) raced (after raced).
Proof. apply exchange_after_run. vm_compute. reflexivity. Qed.

Lemma exchange_started_run : exchange_run (Some NewFile) started (after started).
Proof. apply exchange_after_run. vm_compute. reflexivity. Qed.

Lemma exchange_offline_run : exchange_run (Some NewFile) offline (after offline).
Proof. apply exchange_after_run. vm_compute. reflexivity. Qed.

(** The answered exchange. *)
Definition answered_h : lx_call :=
  default (MkLX msg_zero [] 0 [] LxConf) (er_xs (after raced) !! 1).

Lemma raced_second :
  er_xs (after raced) !! 1 = Some answered_h /\
  m_Question (lx_message answered_h) = [MkQuestion "h." TypeA ClassINET] /\
  lx_result answered_h = Some (Some (msg_with_Id 7 msg_zero), None) /\
  lx_calls answered_h = [("h.x.", 0); ("h.", 1)] /\ lx_address answered_h = [].
Proof. split_and!; vm_compute; reflexivity. Qed.

(** The exchange that waits for its first name. *)
Definition waiting_h : lx_call :=
  default (MkLX msg_zero [] 0 [] LxConf) (er_xs (after started) !! 2).

Lemma started_third :
  er_xs (after started) !! 2 = Some waiting_h /\ lx_at waiting_h = LxSingle ["h."] (Some 2) None /\
  (if exchange_step (XvStep 2) (after started) then true else false) = false.
Proof. split_and!; vm_compute; reflexivity. Qed.

(** The exchange that the hosts file answered. *)
Definition hosts_h : lx_call :=
  default (MkLX msg_zero [] 0 [] LxConf) (er_xs (after offline) !! 0).
Definition hosts_message : Msg :=
  FixedResponse 3 (MkQuestion "localhost." TypeA ClassINET) (lx_address hosts_h) DefaultResolverTTL.

Lemma offline_first :
  er_xs (after offline) !! 0 = Some hosts_h /\
  m_Question (lx_message hosts_h) = [MkQuestion "localhost." TypeA ClassINET] /\
  lx_result hosts_h = Some (Some hosts_message, None).
Proof. split_and!; vm_compute; reflexivity. Qed.

Lemma conf_plain : conf_ok LocalExample.conf.
Proof.
  split; [|done]. repeat constructor; [exists "127.0.0.1", (Addr4 2130706433)|exists "::1", (Addr6 1 "")];
    (split; [by vm_compute|]); done.
Qed.

Lemma offline_confs config : In (XvLocal (EvConf config)) offline -> conf_ok config.
Proof.
  intros Hin. repeat (destruct Hin as [Hin|Hin]; [try discriminate Hin|]); [|done].
  injection Hin as <-. exact conf_plain.
Qed.
End ExchangeRunExample.

Import DnsSimple ExTree GSet LocalRunExample ExchangeRunExample.
#[local] Existing Instance id_wire | 0.

Lemma exchange_outcome_witness :
  exists config later, asked (er_local (after raced)) answered_h (MkQuestion "h." TypeA ClassINET) config later.
Proof.
  destruct raced_second as (Hx & Hq & Hr & _ & Ha).
  destruct (exchange_outcome (Some NewFile) raced (after raced) 1 answered_h _ _ _ raced_run Hx Hq Hr)
    as [(Hne & _)|(config & later & Hasked & _)]; [destruct (Hne Ha)|].
  exact (ex_intro _ config (ex_intro _ later Hasked)).
Defined.

Lemma exchange_answer_witness :
  exists n nc, ls_calls (er_local (after raced)) !! n = Some nc /\
    served (local_events raced) (er_local (after raced)) n nc (msg_with_Id 7 msg_zero).
Proof.
  destruct raced_second as (Hx & Hq & Hr & _ & Ha).
  destruct (exchange_answer (Some NewFile) raced (after raced) 1 answered_h _ _ _ raced_run Hx Hq Hr)
    as [(Hne & _)|(config & fqdn & n & nc & _ & _ & _ & Hnc & _ & _ & _ & _ & Hs)]; [destruct (Hne Ha)|].
  exists n, nc. exact (conj Hnc Hs).
Defined.

Lemma exchange_progress_witness : call_under_way (er_local (after started)) 2.
Proof.
  destruct started_third as (Hx & Hat & Hnone).
  destruct (exchange_progress (Some NewFile) started (after started) 2 waiting_h exchange_started_run Hx) as [_ Hgo].
  rewrite Hat in Hgo. destruct Hgo as [[s' Hs]|Hgo]; [|exact Hgo].
  rewrite Hs in Hnone. discriminate Hnone.
Defined.

Lemma exchange_hosts_only_witness :
  ls_store (er_local (after offline)) = [] /\ lx_address hosts_h <> [].
Proof.
  destruct offline_first as (Hx & Hq & Hr).
  destruct (exchange_hosts_only (Some NewFile) offline (after offline) exchange_offline_run offline_confs)
    as (Hs & _ & Hh).
  exact (conj Hs (proj1 (Hh 0 hosts_h _ _ _ Hx Hq Hr))).
Defined.
