(* ===== verification/Pipe.v ===== *)
(** * The in-memory pipe: [netio/pipe/pipe.go]

    The [Deadline], whose channel is closed when a point in time has passed
    and replaced when the deadline is moved, and the pipe between two ends:
    writes are handed to reads without a buffer.  Timers, writes, reads and
    [Close] interleave; a state is reached by a list of events. *)

From S2P Require Import Prelude GoStd Cache.

(** ** [Deadline] *)

(** The timer: none, running, its callback started but not yet through, or
    its callback through. *)
Inductive dtimer :=
  | DNone
  | DPending
  | DFiring
  | DDone.

(** The channels made so far, [true] for a closed one; the last one is
    [cancel]. *)
Record Deadline := MkDl { dl_timer : dtimer; dl_chans : list bool }.

Definition MakeDeadline : Deadline := MkDl DNone [false].

Definition cancel_index (d : Deadline) : nat := length (dl_chans d) - 1.
Definition chan_closed (k : nat) (d : Deadline) : bool := default false (dl_chans d !! k).
Definition isClosedChan (d : Deadline) : bool := chan_closed (cancel_index d) d.

(** [close(d.cancel)] *)
Definition close_cancel (timer : dtimer) (d : Deadline) : exec Deadline :=
  if isClosedChan d then Panic "close of closed channel"
  else Ret (MkDl timer (<[cancel_index d := true]> (dl_chans d))).

(** [d.cancel = make(chan struct{})], when the last one is closed. *)
Definition fresh_cancel (timer : dtimer) (d : Deadline) : Deadline :=
  MkDl timer (if isClosedChan d then dl_chans d ++ [false] else dl_chans d).

(** [Set]; it waits while [Stop] is false and [cancel] is open, which is
    [None] here. *)
Definition Deadline_Set (now t : Z) (d : Deadline) : option (exec Deadline) :=
  let waits :=
    match dl_timer d with
    | DFiring | DDone => negb (isClosedChan d)
    | DNone | DPending => false
    end in
  if waits then None
  else Some (
    if time_IsZero t then Ret (fresh_cancel DNone d)
    else if Z.ltb 0 (t - now) then Ret (fresh_cancel DPending d)
    else if negb (isClosedChan d) then close_cancel DNone d
    else Ret (MkDl DNone (dl_chans d))).

(** The timer expires; its callback closes [cancel]. *)
Definition Deadline_Expire (d : Deadline) : option Deadline :=
  match dl_timer d with DPending => Some (MkDl DFiring (dl_chans d)) | _ => None end.

Definition Deadline_Callback (d : Deadline) : option (exec Deadline) :=
  match dl_timer d with DFiring => Some (close_cancel DDone d) | _ => None end.

Inductive dl_event :=
  | DlSet (now t : Z)
  | DlExpire
  | DlCallback.

Definition dl_step (ev : dl_event) (d : Deadline) : option (exec Deadline) :=
  match ev with
  | DlSet now t => Deadline_Set now t d
  | DlExpire => Ret <$> Deadline_Expire d
  | DlCallback => Deadline_Callback d
  end.

Inductive dl_reach : Deadline -> Prop :=
  | dl_reach_init : dl_reach MakeDeadline
  | dl_reach_step d ev d' : dl_reach d -> dl_step ev d = Some (Ret d') -> dl_reach d'.

(** Only the last channel may be open; a running timer finds it open, one
    that is through has closed it. *)
Record dl_inv (d : Deadline) : Prop := {
  di_some : dl_chans d <> [];
  di_old : forall k, k < cancel_index d -> chan_closed k d = true;
  di_timer : match dl_timer d with
             | DNone => True
             | DPending | DFiring => isClosedChan d = false
             | DDone => isClosedChan d = true
             end;
}.

Lemma dl_inv_init : dl_inv MakeDeadline.
Proof. split; [done| |done]. intros k Hk. unfold cancel_index in Hk. simpl in Hk. lia. Qed.

Lemma fresh_cancel_inv timer d :
  dl_inv d -> timer = DNone \/ timer = DPending ->
  dl_inv (fresh_cancel timer d) /\ isClosedChan (fresh_cancel timer d) = false.
Proof.
  intros [Hs Ho _] Ht. unfold fresh_cancel.
  assert (isClosedChan (MkDl timer (if isClosedChan d then dl_chans d ++ [false] else dl_chans d)) = false)
    as Hc.
  { destruct (isClosedChan d) eqn:E; [|exact E].
    unfold isClosedChan, chan_closed, cancel_index. simpl. rewrite length_app. simpl.
    replace (length (dl_chans d) + 1 - 1) with (length (dl_chans d)) by lia.
    by rewrite list_lookup_middle. }
  split; [|done]. split.
  - simpl. destruct (isClosedChan d); [|done]. by destruct (dl_chans d).
  - intros k. unfold cancel_index, chan_closed. simpl. destruct (isClosedChan d) eqn:E.
    + rewrite length_app. simpl. intros Hk. rewrite lookup_app_l by lia.
      destruct (decide (k = cancel_index d)) as [->|Hn]; [exact E|].
      apply (Ho k). unfold cancel_index in *. lia.
    + apply (Ho k).
  - simpl. destruct Ht as [->| ->]; [done|exact Hc].
Qed.

Lemma close_cancel_inv timer d :
  dl_inv d -> isClosedChan d = false -> timer = DNone \/ timer = DDone ->
  exists d', close_cancel timer d = Ret d' /\ dl_inv d' /\ isClosedChan d' = true /\
    length (dl_chans d') = length (dl_chans d).
Proof.
  intros [Hs Ho _] Hc Ht. unfold close_cancel. rewrite Hc. eexists. split; [done|].
  assert (isClosedChan (MkDl timer (<[cancel_index d := true]> (dl_chans d))) = true) as Hc'.
  { unfold isClosedChan, chan_closed, cancel_index. simpl. rewrite length_insert.
    rewrite list_lookup_insert_eq; [done|]. destruct (dl_chans d); [done|simpl; lia]. }
  split; [|split; [done|simpl; by rewrite length_insert]]. split.
  - simpl. intros He. apply (f_equal length) in He. rewrite length_insert in He.
    by destruct (dl_chans d).
  - intros k. unfold cancel_index, chan_closed. simpl. rewrite length_insert. intros Hk.
    rewrite list_lookup_insert_ne by (unfold cancel_index; lia). by apply (Ho k).
  - simpl. destruct Ht as [->| ->]; [done|exact Hc'].
Qed.

Lemma dl_step_inv d ev r :
  dl_inv d -> dl_step ev d = Some r -> exists d', r = Ret d' /\ dl_inv d'.
Proof.
  intros Hd Hs. pose proof Hd as [Hne Ho Ht]. destruct ev as [now t| |]; simpl in Hs.
  - unfold Deadline_Set in Hs.
    destruct (match dl_timer d with DFiring | DDone => _ | _ => _ end); [done|].
    injection Hs as <-. destruct (time_IsZero t).
    { eexists. split; [done|]. apply fresh_cancel_inv; auto. }
    destruct (Z.ltb 0 (t - now)).
    { eexists. split; [done|]. apply fresh_cancel_inv; auto. }
    destruct (isClosedChan d) eqn:E; simpl.
    + eexists. split; [done|]. by split.
    + destruct (close_cancel_inv DNone d) as (d' & -> & ? & _); eauto.
  - unfold Deadline_Expire in Hs. destruct (dl_timer d) eqn:E; try done. simpl in Hs.
    injection Hs as <-. eexists. split; [done|]. by split.
  - unfold Deadline_Callback in Hs. destruct (dl_timer d) eqn:E; try done.
    injection Hs as <-. destruct (close_cancel_inv DDone d) as (d' & -> & ? & _); eauto.
Qed.

Lemma dl_inv_reach d : dl_reach d -> dl_inv d.
Proof.
  induction 1 as [|d ev d' _ IH Hs]; [apply dl_inv_init|].
  destruct (dl_step_inv _ _ _ IH Hs) as (d1 & He & ?). by simplify_eq.
Qed.

(** ** [pipe] *)

Definition io_EOF' : err := EStd "io.EOF".
Definition io_ErrClosedPipe : err := EStd "io.ErrClosedPipe".
Definition os_ErrDeadlineExceeded : err := EStd "os.ErrDeadlineExceeded".

(** A write that holds [wrMu]: its argument, the bytes handed over, the
    channel of the deadline its [select] watches, and, after a read took
    bytes, the number it is about to report. *)
Record pwrite := MkWrite { pw_b : list Z; pw_n : nat; pw_chan : nat; pw_ack : option nat }.

(** One direction: the write in progress, the writes that returned with
    their results, and what each read of the other end received (it returns
    that when the write has taken its number). *)
Record half := MkHalf {
  h_write : option pwrite;
  h_done : list (list Z * nat * option err);
  h_reads : list (list Z);
}.

(** The two ends, [true] and [false]; [pp_dir e] is the direction in which
    [e] writes. *)
Record pipe := MkPipe {
  pp_closed : bool -> bool;          (* localDone of the end *)
  pp_read : bool -> Deadline;
  pp_write : bool -> Deadline;
  pp_dir : bool -> half;
}.

Definition Pipe : pipe :=
  MkPipe (fun _ => false) (fun _ => MakeDeadline) (fun _ => MakeDeadline)
    (fun _ => MkHalf None [] []).

(** Both addresses of an end are the same. *)
Definition pipeAddr_Network : string := "pipe".
Definition pipeAddr_String : string := "pipe".
Definition pipe_LocalAddr (e : bool) (s : pipe) : string * string := (pipeAddr_Network, pipeAddr_String).
Definition pipe_RemoteAddr (e : bool) (s : pipe) : string * string := (pipeAddr_Network, pipeAddr_String).

Definition set_end {A} (e : bool) (x : A) (f : bool -> A) : bool -> A :=
  fun e' => if Bool.eqb e' e then x else f e'.

Definition with_dir (e : bool) (h : half) (s : pipe) : pipe :=
  MkPipe (pp_closed s) (pp_read s) (pp_write s) (set_end e h (pp_dir s)).

(** The [switch] before a read or a write of end [e]. *)
Definition read_check (e : bool) (s : pipe) : option err :=
  if pp_closed s e then Some io_ErrClosedPipe
  else if pp_closed s (negb e) then Some io_EOF'
  else if isClosedChan (pp_read s e) then Some os_ErrDeadlineExceeded
  else None.

Definition write_check (e : bool) (s : pipe) : option err :=
  if pp_closed s e then Some io_ErrClosedPipe
  else if pp_closed s (negb e) then Some io_ErrClosedPipe
  else if isClosedChan (pp_write s e) then Some os_ErrDeadlineExceeded
  else None.

(** The error cases of a [select], when each is ready ([k] is the channel of
    the deadline it watches), and what they return. *)
Inductive psel := SelLocal | SelRemote | SelDeadline.

Definition sel_ready (e : bool) (k : nat) (dl : bool -> Deadline) (s : pipe) (c : psel) : bool :=
  match c with
  | SelLocal => pp_closed s e
  | SelRemote => pp_closed s (negb e)
  | SelDeadline => chan_closed k (dl e)
  end.

Definition read_case (c : psel) : err :=
  match c with
  | SelLocal => io_ErrClosedPipe
  | SelRemote => io_EOF'
  | SelDeadline => os_ErrDeadlineExceeded
  end.

Definition write_case (c : psel) : err :=
  match c with
  | SelLocal | SelRemote => io_ErrClosedPipe
  | SelDeadline => os_ErrDeadlineExceeded
  end.

(** The errors [Read] and [Write] report. *)
Definition err_is (a : string) (e : err) : bool :=
  match e with EStd b => String.eqb a b | _ => false end.

Definition Read_error (e : err) : err :=
  if (err_is "io.EOF" e || err_is "io.ErrClosedPipe" e)%bool then e else EOp "read" "pipe" e.

Definition Write_error (e : err) : err :=
  if err_is "io.ErrClosedPipe" e then e else EOp "write" "pipe" e.

(** [SetDeadline] and the other two: refused when an end is closed. *)
Definition set_check (e : bool) (s : pipe) : option err :=
  if (pp_closed s e || pp_closed s (negb e))%bool then Some io_ErrClosedPipe else None.

(** ** Events *)

Inductive pipe_event :=
  | PWrite (e : bool) (b : list Z)    (* a write of [e] takes [wrMu] *)
  | PXfer (e : bool) (size : nat)     (* a read of the other end receives from it *)
  | PAck (e : bool)                   (* the write is told how much was read *)
  | PAbort (e : bool) (c : psel)      (* its [select] takes an error case *)
  | PReadDl (e : bool) (ev : dl_event)
  | PWriteDl (e : bool) (ev : dl_event)
  | PClose (e : bool).

(** A write that returns. *)
Definition finish_write (w : pwrite) (n : nat) (er : option err) (h : half) : half :=
  MkHalf None (h_done h ++ [(pw_b w, n, er)]) (h_reads h).

Definition pipe_step (ev : pipe_event) (s : pipe) : option (exec pipe) :=
  match ev with
  | PWrite e b =>
      let h := pp_dir s e in
      match h_write h with
      | Some _ => None
      | None =>
          Some (Ret (with_dir e (MkHalf (Some (MkWrite b 0 (cancel_index (pp_write s e)) None))
            (h_done h) (h_reads h)) s))
      end
  | PXfer e size =>
      let h := pp_dir s e in
      match h_write h with
      | Some (MkWrite b n k None) =>
          let nr := Nat.min size (length (drop n b)) in
          Some (Ret (with_dir e (MkHalf (Some (MkWrite b n k (Some nr))) (h_done h)
            (h_reads h ++ [take nr (drop n b)])) s))
      | _ => None
      end
  | PAck e =>
      let h := pp_dir s e in
      match h_write h with
      | Some (MkWrite b n k (Some nw)) =>
          let w := MkWrite b (n + nw) (cancel_index (pp_write s e)) None in
          if (length b <=? n + nw)
          then Some (Ret (with_dir e (finish_write w (n + nw) None h) s))
          else Some (Ret (with_dir e (MkHalf (Some w) (h_done h) (h_reads h)) s))
      | _ => None
      end
  | PAbort e c =>
      let h := pp_dir s e in
      match h_write h with
      | Some (MkWrite b n k None) =>
          if sel_ready e k (pp_write s) s c
          then Some (Ret (with_dir e (finish_write (MkWrite b n k None) n
                 (Some (Write_error (write_case c))) h) s))
          else None
      | _ => None
      end
  | PReadDl e ev =>
      r ← dl_step ev (pp_read s e);
      Some (match r with
            | Ret d => Ret (MkPipe (pp_closed s) (set_end e d (pp_read s)) (pp_write s) (pp_dir s))
            | Panic why => Panic why
            end)
  | PWriteDl e ev =>
      r ← dl_step ev (pp_write s e);
      Some (match r with
            | Ret d => Ret (MkPipe (pp_closed s) (pp_read s) (set_end e d (pp_write s)) (pp_dir s))
            | Panic why => Panic why
            end)
  | PClose e => Some (Ret (MkPipe (set_end e true (pp_closed s)) (pp_read s) (pp_write s) (pp_dir s)))
  end.

Inductive pipe_reach : pipe -> Prop :=
  | pipe_reach_init : pipe_reach Pipe
  | pipe_reach_step s ev s' : pipe_reach s -> pipe_step ev s = Some (Ret s') -> pipe_reach s'.

(** ** Invariants *)

Lemma dl_step_length d ev d' :
  dl_step ev d = Some (Ret d') -> cancel_index d <= cancel_index d'.
Proof.
  assert (forall timer, cancel_index d <= cancel_index (fresh_cancel timer d)) as Hf.
  { intros timer. unfold fresh_cancel, cancel_index. simpl. destruct (isClosedChan d); [|done].
    rewrite length_app. simpl. lia. }
  assert (forall timer, close_cancel timer d = Ret d' -> cancel_index d <= cancel_index d') as Hc.
  { intros timer. unfold close_cancel. destruct (isClosedChan d); [done|]. intros [= <-].
    unfold cancel_index. simpl. rewrite length_insert. lia. }
  destruct ev as [now t| |]; simpl.
  - unfold Deadline_Set. destruct (match dl_timer d with DFiring | DDone => _ | _ => _ end); [done|].
    intros [= Hr]. destruct (time_IsZero t); [by simplify_eq|].
    destruct (Z.ltb 0 (t - now)); [by simplify_eq|].
    destruct (isClosedChan d) eqn:E; simpl in Hr; [|by eapply Hc]. by simplify_eq.
  - unfold Deadline_Expire. destruct (dl_timer d); try done. simpl. intros [= <-]. done.
  - unfold Deadline_Callback. destruct (dl_timer d); try done. intros [= Hr]. by eapply Hc.
Qed.

Definition taken (w : pwrite) : nat := pw_n w + default 0 (pw_ack w).

Definition write_wf (w : pwrite) : Prop :=
  taken w <= length (pw_b w) /\
  (pw_ack w = None -> pw_n w < length (pw_b w) \/ pw_b w = []).

Definition result_wf (r : list Z * nat * option err) : Prop :=
  let '(b, n, er) := r in
  n <= length b /\ match er with None => n = length b | Some _ => n < length b \/ b = [] end.

Definition written (r : list Z * nat * option err) : list Z := take r.1.2 r.1.1.

(** The bytes that writes say they wrote, the one in progress included. *)
Definition sent (h : half) : list Z :=
  concat (List.map written (h_done h)) ++
  match h_write h with Some w => take (taken w) (pw_b w) | None => [] end.

Record half_inv (h : half) : Prop := {
  hi_sent : concat (h_reads h) = sent h;
  hi_done : Forall result_wf (h_done h);
  hi_write : match h_write h with Some w => write_wf w | None => True end;
}.

Record pipe_inv (s : pipe) : Prop := {
  pi_dir : forall e, half_inv (pp_dir s e);
  pi_read : forall e, dl_inv (pp_read s e);
  pi_write : forall e, dl_inv (pp_write s e);
  pi_chan : forall e w, h_write (pp_dir s e) = Some w -> pw_chan w <= cancel_index (pp_write s e);
}.

Lemma set_end_eq {A} e (x : A) f : set_end e x f e = x.
Proof. unfold set_end. by rewrite Bool.eqb_reflx. Qed.

Lemma set_end_all {A} (P : bool -> A -> Prop) e x f :
  P e x -> (forall e', P e' (f e')) -> forall e', P e' (set_end e x f e').
Proof. intros Hx Hf e'. unfold set_end. by destruct (Bool.eqb_spec e' e) as [->|]. Qed.

Lemma pipe_inv_dir e h s :
  pipe_inv s -> half_inv h ->
  (forall w, h_write h = Some w -> pw_chan w <= cancel_index (pp_write s e)) ->
  pipe_inv (with_dir e h s).
Proof.
  intros [H1 H2 H3 H4] Hh Hc. split; simpl; auto.
  - by apply (set_end_all (fun _ => half_inv)).
  - apply (set_end_all (fun e' h => forall w, h_write h = Some w ->
      pw_chan w <= cancel_index (pp_write s e'))); auto.
Qed.

Lemma half_inv_write h b k :
  half_inv h -> h_write h = None -> half_inv (MkHalf (Some (MkWrite b 0 k None)) (h_done h) (h_reads h)).
Proof.
  intros [H1 H2 H3] Hw. split; simpl; [|done|].
  - rewrite H1. unfold sent. by rewrite Hw.
  - split; simpl; [unfold taken; simpl; lia|]. intros _. destruct b; [by right|left; simpl; lia].
Qed.

Lemma half_inv_xfer h b n k size :
  half_inv h -> h_write h = Some (MkWrite b n k None) ->
  let nr := Nat.min size (length (drop n b)) in
  half_inv (MkHalf (Some (MkWrite b n k (Some nr))) (h_done h) (h_reads h ++ [take nr (drop n b)])).
Proof.
  intros [H1 H2 H3] Hw nr. rewrite Hw in H3. destruct H3 as [Ht _]. unfold taken in Ht. simpl in Ht.
  assert (nr <= length b - n) as Hnr by (subst nr; rewrite length_drop; lia).
  split; simpl; [|done|].
  - rewrite concat_app, H1. unfold sent. rewrite Hw. unfold taken. simpl.
    rewrite <- app_assoc, app_nil_r, Nat.add_0_r. f_equal. apply take_take_drop.
  - split; simpl; [unfold taken; simpl; lia|done].
Qed.

Lemma half_inv_ack h b n k k' nw :
  half_inv h -> h_write h = Some (MkWrite b n k (Some nw)) ->
  let w := MkWrite b (n + nw) k' None in
  half_inv (if length b <=? n + nw then finish_write w (n + nw) None h
            else MkHalf (Some w) (h_done h) (h_reads h)).
Proof.
  intros [H1 H2 H3] Hw w. rewrite Hw in H3. destruct H3 as [Ht _]. unfold taken in Ht. simpl in Ht.
  unfold sent in H1. rewrite Hw in H1. unfold taken in H1. simpl in H1.
  destruct (Nat.leb_spec (length b) (n + nw)) as [Hle|Hlt].
  - split; simpl; [| |done].
    + rewrite H1. unfold sent. simpl. rewrite List.map_app, concat_app. simpl. by rewrite !app_nil_r.
    + apply Forall_app. split; [done|]. constructor; [|done]. split; simpl; lia.
  - split; simpl; [|done|].
    + rewrite H1. unfold sent, taken. simpl. by rewrite Nat.add_0_r.
    + split; simpl; [unfold taken; simpl; lia|]. by left.
Qed.

Lemma half_inv_abort h b n k er :
  half_inv h -> h_write h = Some (MkWrite b n k None) ->
  half_inv (finish_write (MkWrite b n k None) n (Some er) h).
Proof.
  intros [H1 H2 H3] Hw. rewrite Hw in H3. destruct H3 as [Ht Hn]. unfold taken in Ht. simpl in Ht, Hn.
  unfold sent in H1. rewrite Hw in H1. unfold taken in H1. simpl in H1. rewrite Nat.add_0_r in H1.
  split; simpl; [| |done].
  - rewrite H1. unfold sent. simpl. rewrite List.map_app, concat_app. simpl. by rewrite !app_nil_r.
  - apply Forall_app. split; [done|]. constructor; [|done]. split; simpl; [lia|auto].
Qed.

Lemma pipe_inv_init : pipe_inv Pipe.
Proof. split; simpl; [|auto using dl_inv_init..|done]. intros e. by split. Qed.

Lemma pipe_step_inv s ev r :
  pipe_inv s -> pipe_step ev s = Some r -> exists s', r = Ret s' /\ pipe_inv s'.
Proof.
  intros Hs Hr. pose proof Hs as [H1 H2 H3 H4].
  destruct ev as [e b|e size|e|e c|e ev|e ev|e]; simpl in Hr.
  - destruct (h_write (pp_dir s e)) eqn:Ew; [done|]. injection Hr as <-. eexists. split; [done|].
    apply pipe_inv_dir; [done|by apply half_inv_write|]. simpl. by intros w [= <-].
  - destruct (h_write (pp_dir s e)) as [[b n k [nw|]]|] eqn:Ew; try done. injection Hr as <-.
    eexists. split; [done|]. apply pipe_inv_dir; [done|by apply half_inv_xfer|].
    simpl. intros w [= <-]. by apply (H4 e) in Ew.
  - destruct (h_write (pp_dir s e)) as [[b n k [nw|]]|] eqn:Ew; try done.
    pose proof (half_inv_ack _ _ _ _ (cancel_index (pp_write s e)) _ (H1 e) Ew) as Hh. simpl in Hh.
    destruct (length b <=? n + nw); injection Hr as <-; eexists; (split; [done|]);
      apply pipe_inv_dir; try done. simpl. by intros w [= <-].
  - destruct (h_write (pp_dir s e)) as [[b n k [nw|]]|] eqn:Ew; try done.
    destruct (sel_ready e k (pp_write s) s c); [|done]. injection Hr as <-. eexists. split; [done|].
    apply pipe_inv_dir; [done|by eapply half_inv_abort|done].
  - destruct (dl_step ev (pp_read s e)) as [r'|] eqn:Ed; [|done]. simpl in Hr. injection Hr as <-.
    destruct (dl_step_inv _ _ _ (H2 e) Ed) as (d & -> & Hd). eexists. split; [done|].
    split; simpl; auto. by apply (set_end_all (fun _ => dl_inv)).
  - destruct (dl_step ev (pp_write s e)) as [r'|] eqn:Ed; [|done]. simpl in Hr. injection Hr as <-.
    destruct (dl_step_inv _ _ _ (H3 e) Ed) as (d & -> & Hd). apply dl_step_length in Ed.
    eexists. split; [done|]. split; simpl; auto.
    + by apply (set_end_all (fun _ => dl_inv)).
    + intros e' w Hw. pose proof (H4 e' w Hw). unfold set_end.
      destruct (Bool.eqb_spec e' e) as [->|]; lia.
  - injection Hr as <-. eexists. split; [done|]. by split.
Qed.

Lemma pipe_inv_reach s : pipe_reach s -> pipe_inv s.
Proof.
  induction 1 as [|s ev s' _ IH Hs]; [apply pipe_inv_init|].
  destruct (pipe_step_inv _ _ _ IH Hs) as (s1 & He & ?). by simplify_eq.
Qed.

(** ** Properties *)

(** A [Deadline] never closes a channel twice, whatever the order of
    [Set], expiry and callback; every channel handed out earlier is closed
    before a new one is made, so that no waiter is left behind; after [Set]
    the current channel is closed exactly for a time that has passed. *)
Theorem deadline_spec d :
  dl_reach d ->
  (forall ev r, dl_step ev d = Some r -> exists d', r = Ret d') /\
  (forall k, k < cancel_index d -> chan_closed k d = true) /\
  (forall now t d', dl_step (DlSet now t) d = Some (Ret d') ->
     isClosedChan d' = (negb (time_IsZero t) && Z.leb t now)%bool /\
     (dl_timer d' = DPending <-> t <> 0%Z /\ (now < t)%Z)).
Proof.
  intros Hr. pose proof (dl_inv_reach d Hr) as Hd. split; [|split].
  - intros ev r Hs. destruct (dl_step_inv _ _ _ Hd Hs) as (d' & -> & _). by eexists.
  - apply Hd.
  - intros now t d' Hs. simpl in Hs. unfold Deadline_Set in Hs.
    destruct (match dl_timer d with DFiring | DDone => _ | _ => _ end); [done|].
    injection Hs as Hs. unfold time_IsZero in *. destruct (Z.eqb_spec t 0) as [->|Ht].
    { injection Hs as <-. destruct (fresh_cancel_inv DNone d Hd) as [_ ->]; [auto|]. simpl.
      split; [done|]. split; [done|by intros [? _]]. }
    destruct (Z.ltb_spec 0 (t - now)).
    { injection Hs as <-. destruct (fresh_cancel_inv DPending d Hd) as [_ ->]; [auto|].
      destruct (Z.leb_spec t now); [lia|]. split; [done|]. simpl. split; [lia|done]. }
    destruct (Z.leb_spec t now); [|lia]. simpl.
    destruct (isClosedChan d) eqn:E; simpl in Hs.
    + injection Hs as <-. split; [exact E|]. simpl. split; [done|lia].
    + destruct (close_cancel_inv DNone d Hd E) as (d1 & Hc & _ & Hcl & _); [auto|].
      rewrite Hs in Hc. injection Hc as <-. split; [done|].
      unfold close_cancel in Hs. rewrite E in Hs. injection Hs as <-. simpl. split; [done|lia].
Qed.

(** C15: the pipe transfers every byte once and in order.  In each direction,
    in every reachable state, what the reads of one end returned, put
    together, is what the writes of the other say they wrote, followed by
    what was taken from the write in progress; a write without an error
    wrote its whole argument, one with an error a proper part of it (or was
    empty); no step panics. *)
Theorem pipe_transfer s e :
  pipe_reach s ->
  concat (h_reads (pp_dir s e)) = sent (pp_dir s e) /\
  Forall result_wf (h_done (pp_dir s e)) /\
  (forall ev r, pipe_step ev s = Some r -> exists s', r = Ret s').
Proof.
  intros Hr. pose proof (pipe_inv_reach s Hr) as Hs. destruct (pi_dir _ Hs e) as [H1 H2 _].
  split; [done|]. split; [done|]. intros ev r Hstep.
  destruct (pipe_step_inv _ _ _ Hs Hstep) as (s' & -> & _). by eexists.
Qed.

(** C35: a write is woken.  In every reachable state a write in progress that
    waits for a read can return with an error as soon as either end is
    closed or its write deadline has passed, even when the deadline was
    moved while it waited: with [io.ErrClosedPipe] in the first case, with
    the deadline error of a [net.OpError] in the other; with both ends open
    and no deadline passed since its last step it can only be read. *)
Theorem pipe_write_wakes s e w :
  pipe_reach s -> h_write (pp_dir s e) = Some w -> pw_ack w = None ->
  (pp_closed s e = true \/ pp_closed s (negb e) = true ->
     exists c s', pipe_step (PAbort e c) s = Some (Ret s') /\
       h_done (pp_dir s' e) = h_done (pp_dir s e) ++ [(pw_b w, pw_n w, Some io_ErrClosedPipe)]) /\
  (isClosedChan (pp_write s e) = true ->
     exists s', pipe_step (PAbort e SelDeadline) s = Some (Ret s') /\
       h_done (pp_dir s' e) = h_done (pp_dir s e) ++
         [(pw_b w, pw_n w, Some (EOp "write" "pipe" os_ErrDeadlineExceeded))]) /\
  (pp_closed s e = false -> pp_closed s (negb e) = false ->
     chan_closed (pw_chan w) (pp_write s e) = false ->
     forall c, pipe_step (PAbort e c) s = None).
Proof.
  intros Hr Hw Ha. pose proof (pipe_inv_reach s Hr) as [_ _ H3 H4].
  pose proof (H4 e w Hw) as Hk. destruct w as [b n k ack]. simpl in *. subst ack.
  assert (forall c, sel_ready e k (pp_write s) s c = true ->
    exists s', pipe_step (PAbort e c) s = Some (Ret s') /\
      h_done (pp_dir s' e) = h_done (pp_dir s e) ++ [(b, n, Some (Write_error (write_case c)))]) as Hc.
  { intros c Hc. eexists. simpl. rewrite Hw, Hc. split; [done|]. simpl. by rewrite set_end_eq. }
  split; [|split].
  - intros [Hx|Hx]; [exists SelLocal; by apply (Hc SelLocal)|exists SelRemote; by apply (Hc SelRemote)].
  - intros Hx. apply (Hc SelDeadline). simpl.
    destruct (decide (k = cancel_index (pp_write s e))) as [->|Hne]; [exact Hx|].
    apply (di_old _ (H3 e)). lia.
  - intros Hl Hrm Hd c. simpl. rewrite Hw. by destruct c; simpl; rewrite ?Hl, ?Hrm, ?Hd.
Qed.

(** ** A run *)

Module PipeExample.

Fixpoint run (evs : list pipe_event) (s : pipe) : option pipe :=
  match evs with
  | [] => Some s
  | ev :: evs => match pipe_step ev s with Some (Ret s') => run evs s' | _ => None end
  end.

Lemma run_pipe_reach evs s s' : pipe_reach s -> run evs s = Some s' -> pipe_reach s'.
Proof.
  revert s. induction evs as [|ev evs IH]; intros s Hs; simpl; [by intros [= <-]|].
  destruct (pipe_step ev s) as [[s1|]|] eqn:E; try done. apply IH. by eapply pipe_reach_step.
Qed.

(** Two of three bytes are read, a deadline passes and is moved while the
    write waits. *)
Definition events : list pipe_event :=
  [PWrite true [1; 2; 3]%Z; PXfer true 2; PAck true;
   PWriteDl true (DlSet 10 20); PWriteDl true DlExpire; PWriteDl true DlCallback;
   PWriteDl true (DlSet 30 40); PWriteDl true DlExpire; PWriteDl true DlCallback].

Definition state : pipe := default Pipe (run events Pipe).

Lemma state_reached : pipe_reach state.
Proof. apply (run_pipe_reach events Pipe); [apply pipe_reach_init|reflexivity]. Qed.

Lemma deadline_reached : dl_reach (MkDl DPending [true; false]).
Proof.
  apply (dl_reach_step (MkDl DNone [true]) (DlSet 1 5)); [|reflexivity].
  apply (dl_reach_step MakeDeadline (DlSet 9 5)); [apply dl_reach_init|reflexivity].
Qed.

End PipeExample.

Lemma deadline_spec_witness :
  exists d', dl_step DlExpire (MkDl DPending [true; false]) = Some (Ret d').
Proof.
  destruct (proj1 (deadline_spec _ PipeExample.deadline_reached) DlExpire
    (Ret (MkDl DFiring [true; false])) eq_refl) as [d' Hd].
  exists d'. rewrite <- Hd. reflexivity.
Defined.

Lemma pipe_transfer_witness :
  concat (h_reads (pp_dir PipeExample.state true)) = [1; 2]%Z /\
  sent (pp_dir PipeExample.state true) = [1; 2]%Z.
Proof.
  split; [reflexivity|].
  exact (eq_sym (proj1 (pipe_transfer PipeExample.state true PipeExample.state_reached))).
Defined.

Lemma pipe_write_wakes_witness :
  exists s', pipe_step (PAbort true SelDeadline) PipeExample.state = Some (Ret s') /\
    h_done (pp_dir s' true) = [([1; 2; 3]%Z, 2, Some (EOp "write" "pipe" os_ErrDeadlineExceeded))].
Proof.
  exact (proj1 (proj2 (pipe_write_wakes PipeExample.state true (MkWrite [1; 2; 3]%Z 2 0 None)
    PipeExample.state_reached eq_refl eq_refl)) eq_refl).
Defined.
