(* ===== verification/Udpnat.v ===== *)
(** * The UDP session table: [netio/udpnat]

    A [natConn] stands for the packets of one source; [UdpNat.NewPacket]
    finds or makes the connection of a packet and hands the packet to its
    handler or its queue; a read waits for a packet, the close or the
    deadline.  The table is the LRU cache of a library, the
    prepare function belongs to the caller.  What the code does outside its
    own state (calls of handlers and callbacks, buffers freed) is recorded
    in a trace. *)

From S2P Require Import Prelude GoStd Netip Meta Dns Addrs Nat Pipe.

(** ** Data *)

(** [netio.UDPPacket]; a buffer is known by a number. *)
Record UDPPacket := MkPacket { pk_Buf : nat; pk_OOB : list Z }.

Definition NewUDPPacket (p : nat) (oob : list Z) : UDPPacket := MkPacket p oob.

(** The capacity of the queue. *)
Definition queue_size : nat := 64.

Section udpnat.
Context {H Wr : Type}.   (* handlers and packet writers *)

(** What happens outside. *)
Inductive effect :=
  | EPrepare (source destination : Socksaddr)
  | EHandler (h : H) (p : UDPPacket)
  | EFree (buffer : nat)
  | EOnClose (conn : nat).

(** The queue is nil for a connection that was made with a handler. *)
Record natConn := MkNatConn {
  nc_source : Socksaddr;
  nc_destination : Socksaddr;
  nc_writer : Wr;
  nc_onClose : bool;
  nc_closed : bool;
  nc_packets : option (list UDPPacket);
  nc_handler : option H;
  nc_readDeadline : Deadline;
}.

Record PrepareResult := MkPrepare {
  pr_Success : bool;
  pr_OnClose : bool;
  pr_Handler : option H;
  pr_PacketWriter : Wr;
}.

(** The cache of [github.com/elastic/go-freelru]: a lookup and an insertion
    may evict entries, whose connections are given back. *)
Class NatLru (L : Type) := {
  nl_GetAndRefresh : AddrPort -> L -> option nat * list nat * L;
  nl_Add : AddrPort -> nat -> L -> list nat * L;
  nl_Keys : L -> list AddrPort;
  nl_Get : AddrPort -> L -> option nat * L;
  nl_has : L -> AddrPort -> nat -> Prop;
}.

Class NatLruLaws (L : Type) `{NatLru L} : Prop := {
  Refresh_found : forall ap l c, (nl_GetAndRefresh ap l).1.1 = Some c -> nl_has l ap c;
  Refresh_evicted : forall ap l c, In c (nl_GetAndRefresh ap l).1.2 -> exists q, nl_has l q c;
  Refresh_keeps : forall ap l q c, nl_has (nl_GetAndRefresh ap l).2 q c -> nl_has l q c;
  Add_evicted : forall ap c l x, In x (nl_Add ap c l).1 -> x = c \/ exists q, nl_has l q x;
  Add_keeps : forall ap c l q x, nl_has (nl_Add ap c l).2 q x -> (q = ap /\ x = c) \/ nl_has l q x;
  Get_found : forall ap l c, (nl_Get ap l).1 = Some c -> nl_has l ap c;
  Get_keeps : forall ap l q c, nl_has (nl_Get ap l).2 q c -> nl_has l q c;
}.

(** The connections made so far, the cache, and the trace. *)
Record nat_world (L : Type) := MkNatWorld {
  nw_conns : list natConn;
  nw_lru : L;
  nw_trace : list effect;
}.
Arguments MkNatWorld {_} _ _ _.
Arguments nw_conns {_} _.
Arguments nw_lru {_} _.
Arguments nw_trace {_} _.

Context {L : Type} `{NatLru L}.
Local Abbreviation NW := (nat_world L).

Definition emit (e : effect) (w : NW) : NW := MkNatWorld (nw_conns w) (nw_lru w) (nw_trace w ++ [e]).
Definition set_lru (l : L) (w : NW) : NW := MkNatWorld (nw_conns w) l (nw_trace w).
Definition update_conn (k : nat) (f : natConn -> natConn) (w : NW) : NW :=
  MkNatWorld (alter f k (nw_conns w)) (nw_lru w) (nw_trace w).

Definition with_closed (c : natConn) : natConn :=
  MkNatConn (nc_source c) (nc_destination c) (nc_writer c) (nc_onClose c) true (nc_packets c) (nc_handler c) (nc_readDeadline c).
Definition with_packets (q : list UDPPacket) (c : natConn) : natConn :=
  MkNatConn (nc_source c) (nc_destination c) (nc_writer c) (nc_onClose c) (nc_closed c) (Some q) (nc_handler c) (nc_readDeadline c).
Definition with_handler (h : H) (c : natConn) : natConn :=
  MkNatConn (nc_source c) (nc_destination c) (nc_writer c) (nc_onClose c) (nc_closed c) (nc_packets c) (Some h) (nc_readDeadline c).
Definition with_deadline (d : Deadline) (c : natConn) : natConn :=
  MkNatConn (nc_source c) (nc_destination c) (nc_writer c) (nc_onClose c) (nc_closed c) (nc_packets c)
    (nc_handler c) d.

(** [netio.PutPacket]: the buffer is freed; the empty packet goes back to the
    pool. *)
Definition PutPacket (p : UDPPacket) (w : NW) : NW := emit (EFree (pk_Buf p)) w.

(** ** [natConn] *)

Definition nat_Close (k : nat) (w : NW) : NW :=
  match nw_conns w !! k with
  | None => w
  | Some c =>
      if nc_closed c then w
      else
        let w := update_conn k with_closed w in
        if nc_onClose c then emit (EOnClose k) w else w
  end.

Definition nat_isClose (k : nat) (w : NW) : bool :=
  match nw_conns w !! k with Some c => nc_closed c | None => false end.

(** The loop of [SetHandler] takes what is in the queue. *)
Definition nat_SetHandler (h : H) (k : nat) (w : NW) : NW :=
  match nw_conns w !! k with
  | None => w
  | Some c =>
      let w := update_conn k (with_handler h) w in
      match nc_packets c with
      | None => w
      | Some q =>
          update_conn k (with_packets [])
            (fold_left (fun w p => PutPacket p (emit (EHandler h p) w)) q w)
      end
  end.

(** A call that is under way has got [chan], the channel that
    [readDeadline.Wait] gave when it began; the [select] takes one of the
    cases that are ready.  With a packet it comes to what [Buf.Read], of the
    package of buffers, returns: a number of bytes and an error. *)
Inductive nat_case := NatPacket (read : gores Z) | NatClosed | NatDeadline.

Definition context_DeadlineExceeded : err := EStd "context.DeadlineExceeded".

Definition nat_ready (chan : nat) (c : natConn) (case : nat_case) : bool :=
  match case with
  | NatPacket _ => match nc_packets c with Some (_ :: _) => true | _ => false end
  | NatClosed => nc_closed c
  | NatDeadline => chan_closed chan (nc_readDeadline c)
  end.

(** [Read]: the packet it has taken, whose bytes [Buf.Read] copies to the
    caller; and what it returns. *)
Definition nat_Read (k chan : nat) (case : nat_case) (w : NW)
    : option (option UDPPacket * gores Z * NW) :=
  c ← nw_conns w !! k;
  if nat_ready chan c case then
    match case with
    | NatPacket read =>
        match nc_packets c with
        | Some (p :: q) => Some ((Some p, read), PutPacket p (update_conn k (with_packets q) w))
        | _ => None
        end
    | NatClosed => Some ((None, (0%Z, Some io_ErrClosedPipe)), w)
    | NatDeadline => Some ((None, (0%Z, Some context_DeadlineExceeded)), w)
    end
  else None.

(** What happens to [readDeadline]: a call of [Set], or its timer. *)
Definition nat_deadline (ev : dl_event) (k : nat) (w : NW) : option (exec NW) :=
  c ← nw_conns w !! k;
  r ← dl_step ev (nc_readDeadline c);
  Some (match r with
        | Ret d => Ret (update_conn k (with_deadline d) w)
        | Panic m => Panic m
        end).

Definition nat_SetReadDeadline (now t : Z) (k : nat) (w : NW) : option (exec NW) :=
  nat_deadline (DlSet now t) k w.

Definition nat_RemoteAddr (c : natConn) : NetAddr := Socksaddr_UDPAddr (nc_source c).
Definition nat_LocalAddr (c : natConn) : NetAddr := Socksaddr_UDPAddr (nc_destination c).
Definition os_ErrInvalid : err := EStd "os.ErrInvalid".
Definition nat_SetDeadline (c : natConn) : option err := Some os_ErrInvalid.
Definition nat_SetWriteDeadline (c : natConn) : option err := Some os_ErrInvalid.

(** [ReadFrom]: [Read] with the address of the source. *)
Definition nat_ReadFrom (k chan : nat) (case : nat_case) (w : NW)
    : option (option UDPPacket * (Z * NetAddr * option err) * NW) :=
  c ← nw_conns w !! k;
  '((p, (n, err)), w) ← nat_Read k chan case w;
  Some ((p, (n, nat_RemoteAddr c, err)), w).

(** [Write] and [WriteTo], over the writer. *)
Definition nat_Write {A} (WriteTo : Wr -> list Z -> NetAddr -> A) (c : natConn) (p : list Z) : A :=
  WriteTo (nc_writer c) p (Socksaddr_UDPAddr (nc_source c)).
Definition nat_WriteTo {A} (WriteTo : Wr -> list Z -> NetAddr -> A) (c : natConn) (p : list Z)
    (destination : NetAddr) : A :=
  WriteTo (nc_writer c) p destination.

(** ** [UdpNat] *)

(** [SetOnEvict]: an evicted connection is closed. *)
Definition on_evict (evicted : list nat) (w : NW) : NW :=
  fold_left (fun w k => nat_Close k w) evicted w.

(** The last part of [NewPacket]: the handler, or the queue, or neither. *)
Definition nat_deliver (k : nat) (pack : UDPPacket) (w : NW) : NW :=
  match nw_conns w !! k with
  | None => w
  | Some c =>
      match nc_handler c with
      | Some h => emit (EHandler h pack) w
      | None =>
          match nc_packets c with
          | Some q =>
              if (length q <? queue_size)%nat then update_conn k (with_packets (q ++ [pack])) w
              else PutPacket pack (emit (EFree (pk_Buf pack)) w)
          | None => PutPacket pack (emit (EFree (pk_Buf pack)) w)
          end
      end
  end.

Definition new_conn (source destination : Socksaddr) (prepare : PrepareResult) : natConn :=
  MkNatConn source destination (pr_PacketWriter prepare) (pr_OnClose prepare) false
    (match pr_Handler prepare with Some _ => None | None => Some [] end) (pr_Handler prepare) MakeDeadline.

Definition UdpNat_NewPacket (prepare : Socksaddr -> Socksaddr -> UDPPacket -> PrepareResult)
    (buffers : nat) (source destination : Socksaddr) : ST NW (option nat * bool) :=
  fun w =>
    let pack := NewUDPPacket buffers [] in
    let key := Socksaddr_AddrPort source in
    let '(found, evicted, l) := nl_GetAndRefresh key (nw_lru w) in
    let w := on_evict evicted (set_lru l w) in
    let exist := match found with Some _ => true | None => false end in
    let reuse := match found with
                 | Some k => if nat_isClose k w then None else Some k
                 | None => None
                 end in
    match reuse with
    | Some k => ((Some k, negb exist), nat_deliver k pack w)
    | None =>
        let w := emit (EPrepare source destination) w in
        let p := prepare source destination pack in
        if negb (pr_Success p) then ((None, false), w)
        else
          let k := length (nw_conns w) in
          let w := MkNatWorld (nw_conns w ++ [new_conn source destination p]) (nw_lru w) (nw_trace w) in
          let '(evicted, l) := nl_Add key k (nw_lru w) in
          let w := on_evict evicted (set_lru l w) in
          ((Some k, negb exist), nat_deliver k pack w)
    end.

(** [Close]: the connections of the keys, as far as they are still there. *)
Definition UdpNat_Close (w : NW) : NW :=
  fold_left (fun w key =>
      let '(found, l) := nl_Get key (nw_lru w) in
      let w := set_lru l w in
      match found with
      | Some k => if nat_isClose k w then w else nat_Close k w
      | None => w
      end) (nl_Keys (nw_lru w)) w.

(** ** [New]: the options it ends up with; a nil [prepare] is refused. *)

Record NatOption := MkNatOption { no_Size : Z; no_Timeout : Z }.

Definition DefaultUDPKeepAlive : Z := (60 * 1000000000)%Z.
Definition DefaultUDPConnSize : Z := 1024%Z.
Definition DefaultUDPReadBufferSize : Z := 65507%Z.

Definition NewUdpNat `{ExLib} (prepare_nil : bool) (opt : option NatOption) : NatOption + err :=
  if prepare_nil then inr (ex_New [XStr "prepare func required: "])
  else
    let opt := default (MkNatOption 0 0) opt in
    inl (MkNatOption
      (if Z.eqb (no_Size opt) 0 then DefaultUDPConnSize else no_Size opt)
      (if Z.eqb (no_Timeout opt) 0 then DefaultUDPKeepAlive else no_Timeout opt)).

(** *** Runs *)

Inductive nat_event :=
  | NPacket (prepare : Socksaddr -> Socksaddr -> UDPPacket -> PrepareResult) (buffers : nat)
      (source destination : Socksaddr)
  | NSetHandler (h : H) (k : nat)
  | NRead (k chan : nat) (case : nat_case)
  | NDeadline (k : nat) (ev : dl_event)
  | NClose (k : nat)
  | NCloseAll.

Definition nat_step (ev : nat_event) (w : NW) : option (exec NW) :=
  match ev with
  | NPacket prepare buffers source destination =>
      Some (Ret (UdpNat_NewPacket prepare buffers source destination w).2)
  | NSetHandler h k => Some (Ret (nat_SetHandler h k w))
  | NRead k chan case => '(_, w) ← nat_Read k chan case w; Some (Ret w)
  | NDeadline k ev => nat_deadline ev k w
  | NClose k => Some (Ret (nat_Close k w))
  | NCloseAll => Some (Ret (UdpNat_Close w))
  end.

Inductive nat_reach (l0 : L) : NW -> Prop :=
  | nat_reach_init : nat_reach l0 (MkNatWorld [] l0 [])
  | nat_reach_step w ev w' : nat_reach l0 w -> nat_step ev w = Some (Ret w') -> nat_reach l0 w'.

(** *** The invariant *)

(** How often the callback of connection [k] was called. *)
Definition on_close_calls (k : nat) (tr : list effect) : nat :=
  length (List.filter (fun e => match e with EOnClose j => (j =? k)%nat | _ => false end) tr).

Definition conn_wf (c : natConn) : Prop :=
  match nc_packets c with
  | None => is_Some (nc_handler c)
  | Some q => length q <= queue_size
  end.

Definition close_calls (c : natConn) : nat := if nc_closed c && nc_onClose c then 1 else 0.

Record nat_inv (w : NW) : Prop := {
  ni_conn : forall k c, nw_conns w !! k = Some c ->
    conn_wf c /\ on_close_calls k (nw_trace w) = close_calls c;
  ni_none : forall k, length (nw_conns w) <= k -> on_close_calls k (nw_trace w) = 0;
  ni_lru : forall ap k, nl_has (nw_lru w) ap k ->
    exists c, nw_conns w !! k = Some c /\ Socksaddr_AddrPort (nc_source c) = ap;
}.

Lemma on_close_calls_snoc k tr e :
  on_close_calls k (tr ++ [e]) =
  on_close_calls k tr + match e with EOnClose j => if (j =? k)%nat then 1 else 0 | _ => 0 end.
Proof.
  unfold on_close_calls. rewrite List.filter_app, length_app. simpl.
  destruct e; simpl; try lia. by destruct (conn =? k)%nat.
Qed.

Lemma nat_inv_emit e w : (forall j, e <> EOnClose j) -> nat_inv w -> nat_inv (emit e w).
Proof.
  intros He [H1 H2 H3]. assert (forall k, on_close_calls k (nw_trace (emit e w)) =
    on_close_calls k (nw_trace w)) as Hc.
  { intros k. simpl. rewrite on_close_calls_snoc. destruct e; try lia. by destruct (He conn). }
  split; simpl nw_conns; simpl nw_lru.
  - intros k c Hk. rewrite Hc. auto.
  - intros k Hk. rewrite Hc. auto.
  - done.
Qed.

Lemma nat_inv_update k f w :
  (forall c, nw_conns w !! k = Some c -> conn_wf c -> conn_wf (f c)) ->
  (forall c, nc_source (f c) = nc_source c /\ close_calls (f c) = close_calls c) ->
  nat_inv w -> nat_inv (update_conn k f w).
Proof.
  intros Hf Hs [H1 H2 H3]. split; simpl.
  - intros j c Hj. destruct (decide (j = k)) as [->|Hne].
    + rewrite list_lookup_alter_eq in Hj. destruct (nw_conns w !! k) as [c0|] eqn:E; [|done].
      simpl in Hj. simplify_eq. destruct (H1 _ _ E). destruct (Hs c0) as [_ ->]. auto.
    + rewrite list_lookup_alter_ne in Hj by done. auto.
  - intros j. rewrite length_alter. auto.
  - intros ap j Hj. destruct (H3 _ _ Hj) as (c & Hc & Ha).
    destruct (decide (j = k)) as [->|Hne].
    + exists (f c). rewrite list_lookup_alter_eq, Hc. split; [done|]. by destruct (Hs c) as [-> _].
    + exists c. by rewrite list_lookup_alter_ne.
Qed.

Lemma nat_inv_set_lru l w :
  (forall ap k, nl_has l ap k -> nl_has (nw_lru w) ap k) -> nat_inv w -> nat_inv (set_lru l w).
Proof. intros Hl [H1 H2 H3]. split; simpl; auto. Qed.

Lemma nat_inv_close k w : nat_inv w -> nat_inv (nat_Close k w).
Proof.
  intros Hw. unfold nat_Close. destruct (nw_conns w !! k) as [c|] eqn:Ec; [|done].
  destruct (nc_closed c) eqn:Ecl; [done|]. pose proof Hw as [H1 H2 H3].
  destruct (nc_onClose c) eqn:Eo.
  - split; simpl.
    + intros j c' Hj. rewrite on_close_calls_snoc. destruct (decide (j = k)) as [->|Hne].
      * rewrite list_lookup_alter_eq, Ec in Hj. simpl in Hj. simplify_eq.
        destruct (H1 _ _ Ec) as [Hwf ->]. unfold close_calls. simpl. rewrite Ecl, Eo. simpl.
        by rewrite Nat.eqb_refl.
      * rewrite list_lookup_alter_ne in Hj by done. destruct (H1 _ _ Hj) as [Hwf ->].
        destruct (Nat.eqb_spec k j); [done|]. split; [done|lia].
    + intros j. rewrite length_alter. intros Hj. rewrite on_close_calls_snoc, H2 by done.
      destruct (Nat.eqb_spec k j) as [->|]; [|done]. apply lookup_lt_Some in Ec. lia.
    + intros ap j Hj. destruct (H3 _ _ Hj) as (c' & Hc & Ha).
      destruct (decide (j = k)) as [->|Hne].
      * exists (with_closed c'). by rewrite list_lookup_alter_eq, Hc.
      * exists c'. by rewrite list_lookup_alter_ne.
  - split; simpl.
    + intros j c' Hj. destruct (decide (j = k)) as [->|Hne].
      * rewrite list_lookup_alter_eq, Ec in Hj. simpl in Hj. simplify_eq.
        destruct (H1 _ _ Ec) as [Hwf ->]. unfold close_calls. simpl. by rewrite Ecl, Eo.
      * rewrite list_lookup_alter_ne in Hj by done. auto.
    + intros j. rewrite length_alter. auto.
    + intros ap j Hj. destruct (H3 _ _ Hj) as (c' & Hc & Ha).
      destruct (decide (j = k)) as [->|Hne].
      * exists (with_closed c'). by rewrite list_lookup_alter_eq, Hc.
      * exists c'. by rewrite list_lookup_alter_ne.
Qed.

Lemma nat_Close_length k w : length (nw_conns (nat_Close k w)) = length (nw_conns w).
Proof.
  unfold nat_Close. destruct (nw_conns w !! k) as [c|]; [|done].
  destruct (nc_closed c); [done|]. destruct (nc_onClose c); simpl; by rewrite length_alter.
Qed.

Lemma on_evict_inv ks w :
  nat_inv w -> nat_inv (on_evict ks w) /\ length (nw_conns (on_evict ks w)) = length (nw_conns w) /\
    nw_lru (on_evict ks w) = nw_lru w.
Proof.
  revert w. induction ks as [|k ks IH]; intros w Hw; simpl; [done|].
  destruct (IH (nat_Close k w)) as (Hi & -> & ->); [by apply nat_inv_close|].
  split; [done|]. split; [apply nat_Close_length|]. unfold nat_Close.
  destruct (nw_conns w !! k) as [c|]; [|done]. destruct (nc_closed c); [done|].
  by destruct (nc_onClose c).
Qed.

Lemma nat_inv_put p w : nat_inv w -> nat_inv (PutPacket p w).
Proof. by apply nat_inv_emit. Qed.

Lemma nat_inv_deliver k pack w : nat_inv w -> nat_inv (nat_deliver k pack w).
Proof.
  intros Hw. unfold nat_deliver. destruct (nw_conns w !! k) as [c|] eqn:Ec; [|done].
  destruct (nc_handler c) as [h|]; [by apply nat_inv_emit|].
  destruct (nc_packets c) as [q|]; [|by apply nat_inv_put, nat_inv_emit].
  destruct (Nat.ltb_spec (length q) queue_size); [|by apply nat_inv_put, nat_inv_emit].
  apply nat_inv_update; [|done|done]. intros c' _ _. unfold conn_wf. simpl. rewrite length_app.
  simpl. lia.
Qed.

Lemma nat_inv_handler h k w : nat_inv w -> nat_inv (nat_SetHandler h k w).
Proof.
  intros Hw. unfold nat_SetHandler. destruct (nw_conns w !! k) as [c|] eqn:Ec; [|done].
  assert (nat_inv (update_conn k (with_handler h) w)) as Hw1.
  { apply nat_inv_update; [|done|done]. intros c' _. unfold conn_wf. simpl.
    by destruct (nc_packets c'). }
  destruct (nc_packets c) as [q|]; [|done].
  apply nat_inv_update; [intros c' _ _; unfold conn_wf; simpl; lia|done|].
  clear Ec. revert Hw1. generalize (update_conn k (with_handler h) w). induction q as [|p q IH]; [done|].
  intros w' Hw'. simpl. apply IH. by apply nat_inv_put, nat_inv_emit.
Qed.

Lemma nat_inv_read k chan case w r w' :
  nat_inv w -> nat_Read k chan case w = Some (r, w') -> nat_inv w'.
Proof.
  intros Hw. unfold nat_Read. destruct (nw_conns w !! k) as [c|] eqn:Ec; [|done]. simpl.
  destruct (nat_ready chan c case); [|done]. destruct case; [|by intros [= _ <-]..].
  destruct (nc_packets c) as [[|p' q]|] eqn:Eq; try done. intros [= _ <-].
  apply nat_inv_put, nat_inv_update; [|done|done]. intros c' Hc' Hwf. simplify_eq.
  unfold conn_wf in *. rewrite Eq in Hwf. simpl in *. lia.
Qed.

Lemma nat_inv_deadline ev k w w' : nat_inv w -> nat_deadline ev k w = Some (Ret w') -> nat_inv w'.
Proof.
  intros Hw. unfold nat_deadline. destruct (nw_conns w !! k) as [c|]; [|done]. simpl.
  destruct (dl_step ev (nc_readDeadline c)) as [[d|]|]; try done. simpl. intros [= <-].
  by apply nat_inv_update.
Qed.

Context `{!NatLruLaws L}.

Lemma nat_inv_add c w :
  nat_inv w -> conn_wf c -> nc_closed c = false ->
  nat_inv (MkNatWorld (nw_conns w ++ [c]) (nw_lru w) (nw_trace w)).
Proof.
  intros [H1 H2 H3] Hc Hcl. split; simpl.
  - intros k c' Hk. apply lookup_app_Some in Hk as [Hk|[Hk1 Hk]]; [auto|].
    destruct (k - length (nw_conns w)) as [|n] eqn:E; [|by destruct n]. simpl in Hk. simplify_eq.
    split; [done|]. rewrite H2 by done. unfold close_calls. by rewrite Hcl.
  - intros k. rewrite length_app. intros Hk. apply H2. lia.
  - intros ap k Hk. destruct (H3 _ _ Hk) as (c' & Hc' & ?). exists c'. split; [|done].
    by apply lookup_app_l_Some.
Qed.

Lemma nat_inv_lru_add key k l evicted w :
  nl_Add key k (nw_lru w) = (evicted, l) ->
  (exists c, nw_conns w !! k = Some c /\ Socksaddr_AddrPort (nc_source c) = key) ->
  nat_inv w -> nat_inv (set_lru l w).
Proof.
  intros Ha Hk [H1 H2 H3]. split; simpl; [done|done|]. intros ap j Hj.
  pose proof (Add_keeps key k (nw_lru w) ap j) as Hkeep. rewrite Ha in Hkeep.
  destruct (Hkeep Hj) as [[-> ->]|Hold]; auto.
Qed.

Lemma new_conn_wf source destination p : conn_wf (new_conn source destination p).
Proof. unfold conn_wf, new_conn. simpl. destruct (pr_Handler p); simpl; [by eexists|lia]. Qed.

Lemma nat_inv_refresh key w :
  nat_inv w ->
  nat_inv (on_evict (nl_GetAndRefresh key (nw_lru w)).1.2 (set_lru (nl_GetAndRefresh key (nw_lru w)).2 w)).
Proof.
  intros Hw. apply on_evict_inv, nat_inv_set_lru; [|done]. intros ap k. apply Refresh_keeps.
Qed.

Lemma nat_inv_packet prepare buffers source destination w :
  nat_inv w -> nat_inv (UdpNat_NewPacket prepare buffers source destination w).2.
Proof.
  intros Hw. pose proof (nat_inv_refresh (Socksaddr_AddrPort source) w Hw) as Hw1.
  unfold UdpNat_NewPacket.
  destruct (nl_GetAndRefresh (Socksaddr_AddrPort source) (nw_lru w)) as [[found evicted] l].
  simpl in Hw1. set (w1 := on_evict evicted (set_lru l w)) in *.
  destruct (match found with Some k => if nat_isClose k w1 then None else Some k | None => None end)
    as [k|]; [by apply nat_inv_deliver|].
  set (w2 := emit (EPrepare source destination) w1).
  assert (nat_inv w2) as Hw2 by by apply nat_inv_emit.
  set (p := prepare source destination (NewUDPPacket buffers [])).
  destruct (negb (pr_Success p)); [done|].
  set (w3 := MkNatWorld (nw_conns w2 ++ [new_conn source destination p]) (nw_lru w2) (nw_trace w2)).
  assert (nat_inv w3) as Hw3.
  { apply nat_inv_add; [done|apply new_conn_wf|done]. }
  destruct (nl_Add (Socksaddr_AddrPort source) (length (nw_conns w2)) (nw_lru w3)) as [evicted' l'] eqn:Ea.
  apply nat_inv_deliver, on_evict_inv. eapply nat_inv_lru_add; [exact Ea| |done].
  exists (new_conn source destination p). split; [|done]. simpl. by apply list_lookup_middle.
Qed.

Lemma nat_inv_close_all w : nat_inv w -> nat_inv (UdpNat_Close w).
Proof.
  unfold UdpNat_Close. generalize (nl_Keys (nw_lru w)). intros keys. revert w.
  induction keys as [|key keys IH]; intros w Hw; simpl; [done|]. apply IH.
  destruct (nl_Get key (nw_lru w)) as [found l] eqn:Eg.
  assert (nat_inv (set_lru l w)) as Hw1.
  { apply nat_inv_set_lru; [|done]. intros ap k Hk. apply (Get_keeps key). by rewrite Eg. }
  destruct found as [k|]; [|done]. destruct (nat_isClose k (set_lru l w)); [done|].
  by apply nat_inv_close.
Qed.

Lemma nat_inv_reach l0 w : (forall ap k, ~ nl_has l0 ap k) -> nat_reach l0 w -> nat_inv w.
Proof.
  intros Hl0. induction 1 as [|w ev w' _ IH Hs].
  { split; simpl; [intros *; by rewrite lookup_nil|done|intros ap k Hk; by apply Hl0 in Hk]. }
  destruct ev as [prepare buffers source destination|h k|k chan case|k ev|k|]; simpl in Hs; simplify_eq.
  - by apply nat_inv_packet.
  - by apply nat_inv_handler.
  - destruct (nat_Read k chan case w) as [[r w1]|] eqn:Er; [|done]. simplify_eq/=. by eapply nat_inv_read.
  - by eapply nat_inv_deadline.
  - by apply nat_inv_close.
  - by apply nat_inv_close_all.
Qed.

(** *** What a call does with its packet *)

(** Evictions only close connections. *)
Definition same_session (c c' : natConn) : Prop :=
  nc_source c' = nc_source c /\ nc_packets c' = nc_packets c /\ nc_handler c' = nc_handler c.

Lemma nat_Close_lookup j k w c :
  nw_conns w !! k = Some c ->
  exists c', nw_conns (nat_Close j w) !! k = Some c' /\ same_session c c'.
Proof.
  intros Hk. unfold nat_Close. destruct (nw_conns w !! j) as [cj|] eqn:Ej; [|by exists c].
  destruct (nc_closed cj); [by exists c|].
  assert (exists c', alter with_closed j (nw_conns w) !! k = Some c' /\ same_session c c')
    as (c' & Hc' & Hs).
  { destruct (decide (k = j)) as [->|Hne].
    - exists (with_closed c). by rewrite list_lookup_alter_eq, Hk.
    - exists c. by rewrite list_lookup_alter_ne. }
  exists c'. by destruct (nc_onClose cj).
Qed.

Lemma on_evict_length js w : length (nw_conns (on_evict js w)) = length (nw_conns w).
Proof.
  revert w. induction js as [|j js IH]; intros w; simpl; [done|].
  by rewrite IH, nat_Close_length.
Qed.

Lemma on_evict_lookup js k w c :
  nw_conns w !! k = Some c ->
  exists c', nw_conns (on_evict js w) !! k = Some c' /\ same_session c c'.
Proof.
  revert w c. induction js as [|j js IH]; intros w c Hk; simpl; [by exists c|].
  destruct (nat_Close_lookup j k w c Hk) as (c1 & Hc1 & S1 & S2 & S3).
  destruct (IH _ _ Hc1) as (c2 & Hc2 & T1 & T2 & T3). exists c2. split; [done|].
  unfold same_session. by rewrite T1, T2, T3.
Qed.

(** The packet is given to the handler, or is the last of the queue, or its
    buffer is freed twice. *)
Definition packet_fate (pack : UDPPacket) (c : natConn) (tr : list effect) : Prop :=
  (exists h old, nc_handler c = Some h /\ tr = old ++ [EHandler h pack]) \/
  (exists q, nc_handler c = None /\ nc_packets c = Some (q ++ [pack]) /\ length q < 64) \/
  (exists q old, nc_handler c = None /\ nc_packets c = Some q /\ length q = 64 /\
     tr = old ++ [EFree (pk_Buf pack); EFree (pk_Buf pack)]).

Lemma nat_deliver_fate k pack w c :
  nw_conns w !! k = Some c -> conn_wf c ->
  exists c', nw_conns (nat_deliver k pack w) !! k = Some c' /\ nc_source c' = nc_source c /\
    nc_closed c' = nc_closed c /\ packet_fate pack c' (nw_trace (nat_deliver k pack w)).
Proof.
  intros Hk Hwf. unfold nat_deliver. rewrite Hk. destruct (nc_handler c) as [h|] eqn:Eh.
  { exists c. repeat split; try done. left. by exists h, (nw_trace w). }
  unfold conn_wf in Hwf. rewrite Eh in Hwf. destruct (nc_packets c) as [q|] eqn:Eq; [|by destruct Hwf].
  destruct (Nat.ltb_spec (length q) queue_size) as [Hl|Hl].
  - exists (with_packets (q ++ [pack]) c). simpl. rewrite list_lookup_alter_eq, Hk.
    repeat split; try done. right. left. exists q. split; [exact Eh|]. by split.
  - exists c. repeat split; try done. right. right. exists q, (nw_trace w).
    unfold queue_size in *. repeat split; try done; [lia|]. simpl. by rewrite <- app_assoc.
Qed.

Lemma nat_isClose_false k w : nat_isClose k w = false ->
  forall c, nw_conns w !! k = Some c -> nc_closed c = false.
Proof. unfold nat_isClose. intros Hc c Hk. by rewrite Hk in Hc. Qed.

(** *** The read deadlines *)

Definition deadlines (w : NW) : list Deadline := nc_readDeadline <$> nw_conns w.

Lemma deadlines_update k f w :
  (forall c, nc_readDeadline (f c) = nc_readDeadline c) -> deadlines (update_conn k f w) = deadlines w.
Proof.
  intros Hf. unfold deadlines, update_conn. simpl. apply list_eq. intros j. rewrite !list_lookup_fmap.
  destruct (decide (j = k)) as [->|]; [rewrite list_lookup_alter_eq|by rewrite list_lookup_alter_ne].
  destruct (nw_conns w !! k); simpl; by rewrite ?Hf.
Qed.

Lemma deadlines_close k w : deadlines (nat_Close k w) = deadlines w.
Proof.
  unfold nat_Close. destruct (nw_conns w !! k) as [c|]; [|done]. destruct (nc_closed c); [done|].
  destruct (nc_onClose c); by apply deadlines_update.
Qed.

Lemma deadlines_evict ks w : deadlines (on_evict ks w) = deadlines w.
Proof.
  revert w. induction ks as [|k ks IH]; intros w; simpl; [done|]. by rewrite IH, deadlines_close.
Qed.

Lemma deadlines_deliver k pack w : deadlines (nat_deliver k pack w) = deadlines w.
Proof.
  unfold nat_deliver. destruct (nw_conns w !! k) as [c|]; [|done].
  destruct (nc_handler c); [done|]. destruct (nc_packets c) as [q|]; [|done].
  destruct (_ <? _)%nat; [by apply deadlines_update|done].
Qed.

Lemma deadlines_handler h k w : deadlines (nat_SetHandler h k w) = deadlines w.
Proof.
  unfold nat_SetHandler. destruct (nw_conns w !! k) as [c|]; [|done].
  assert (deadlines (update_conn k (with_handler h) w) = deadlines w) as Hw by by apply deadlines_update.
  destruct (nc_packets c) as [q|]; [|done]. rewrite deadlines_update by done. rewrite <- Hw.
  generalize (update_conn k (with_handler h) w). induction q as [|p q IH]; intros w'; [done|].
  simpl. by rewrite IH.
Qed.

Lemma deadlines_close_all w : deadlines (UdpNat_Close w) = deadlines w.
Proof.
  unfold UdpNat_Close. generalize (nl_Keys (nw_lru w)). intros keys. revert w.
  induction keys as [|key keys IH]; intros w; simpl; [done|]. rewrite IH.
  destruct (nl_Get key (nw_lru w)) as [[k|] l]; [|done].
  destruct (nat_isClose k (set_lru l w)); [done|]. exact (deadlines_close k (set_lru l w)).
Qed.

Lemma deadlines_packet prepare buffers source destination w :
  let w' := (UdpNat_NewPacket prepare buffers source destination w).2 in
  deadlines w' = deadlines w \/ deadlines w' = deadlines w ++ [MakeDeadline].
Proof.
  cbv zeta. unfold UdpNat_NewPacket. destruct (nl_GetAndRefresh _ _) as [[found evicted] l].
  assert (deadlines (on_evict evicted (set_lru l w)) = deadlines w) as Hw
    by exact (deadlines_evict evicted (set_lru l w)).
  revert Hw. generalize (on_evict evicted (set_lru l w)). intros w1 Hw.
  destruct (match found with Some k => if nat_isClose k w1 then None else Some k | None => None end).
  { left. simpl. by rewrite deadlines_deliver. }
  destruct (negb _); [by left|]. destruct (nl_Add _ _ _) as [evicted' l']. right. simpl.
  rewrite deadlines_deliver, deadlines_evict. unfold deadlines at 1. simpl. rewrite fmap_app.
  unfold deadlines in Hw. by rewrite Hw.
Qed.

Definition deadlines_ok (w : NW) : Prop := Forall dl_inv (deadlines w).

Lemma deadlines_ok_conn k c w : deadlines_ok w -> nw_conns w !! k = Some c -> dl_inv (nc_readDeadline c).
Proof.
  intros Hw Hk. unfold deadlines_ok in Hw. rewrite Forall_lookup in Hw. apply (Hw k).
  unfold deadlines. by rewrite list_lookup_fmap, Hk.
Qed.

Lemma nat_deadline_ok ev k w r :
  deadlines_ok w -> nat_deadline ev k w = Some r -> exists w', r = Ret w' /\ deadlines_ok w'.
Proof.
  intros Hw. unfold nat_deadline. destruct (nw_conns w !! k) as [c|] eqn:Ec; [|done]. simpl.
  destruct (dl_step ev (nc_readDeadline c)) as [r1|] eqn:Es; [|done]. simpl. intros [= <-].
  destruct (dl_step_inv _ _ _ (deadlines_ok_conn _ _ _ Hw Ec) Es) as (d & -> & Hd).
  eexists. split; [done|]. unfold deadlines_ok. apply Forall_lookup. intros j d' Hj.
  unfold deadlines in Hj. simpl in Hj. rewrite list_lookup_fmap in Hj.
  destruct (decide (j = k)) as [->|]; [rewrite list_lookup_alter_eq, Ec in Hj|rewrite list_lookup_alter_ne in Hj by done].
  - by simplify_eq/=.
  - destruct (nw_conns w !! j) as [cj|] eqn:Ej; [|done]. simplify_eq/=. by eapply deadlines_ok_conn.
Qed.

Lemma nat_step_ok ev w r :
  deadlines_ok w -> nat_step ev w = Some r -> exists w', r = Ret w' /\ deadlines_ok w'.
Proof.
  intros Hw Hs. destruct ev as [prepare buffers source destination|h k|k chan case|k ev|k|];
    simpl in Hs; simplify_eq; [| | |by eapply nat_deadline_ok| |].
  - eexists. split; [done|]. unfold deadlines_ok.
    destruct (deadlines_packet prepare buffers source destination w) as [-> | ->]; [done|].
    apply Forall_app. split; [done|]. constructor; [apply dl_inv_init|constructor].
  - eexists. split; [done|]. unfold deadlines_ok. by rewrite deadlines_handler.
  - unfold nat_Read in Hs. destruct (nw_conns w !! k) as [c|]; [|done]. simpl in Hs.
    destruct (nat_ready chan c case); [|done]. destruct case; [|simplify_eq/=; eauto..].
    destruct (nc_packets c) as [[|p' q]|]; try done. simplify_eq/=. eexists. split; [done|].
    unfold deadlines_ok. change (deadlines (PutPacket p' ?w)) with (deadlines w).
    by rewrite deadlines_update.
  - eexists. split; [done|]. unfold deadlines_ok. by rewrite deadlines_close.
  - eexists. split; [done|]. unfold deadlines_ok. by rewrite deadlines_close_all.
Qed.

Lemma deadlines_ok_reach l0 w : nat_reach l0 w -> deadlines_ok w.
Proof.
  induction 1 as [|w ev w' _ IH Hs]; [constructor|].
  destruct (nat_step_ok _ _ _ IH Hs) as (w1 & He & ?). by simplify_eq.
Qed.

(** ** Properties *)

(** C33: when a [Read] of a connection waits.  With the channel it got from
    [readDeadline.Wait] at its start, whatever has happened since (packets,
    handlers, closings, and deadlines moved), it cannot return only while the
    queue holds nothing, the connection is open, and that channel is still
    the current one and not closed: a packet, [Close], or the passing of a
    deadline that was in force during the call ends it.  It
    takes the oldest packet and returns what [Buf.Read] gives for it, error
    included, and frees it; or it returns the error of its case, without a
    packet and without a change; and no step of the table, of a timer or of
    [SetReadDeadline] panics. *)
Theorem udpnat_read_wakes l0 w k c chan :
  nat_reach l0 w -> nw_conns w !! k = Some c -> chan <= cancel_index (nc_readDeadline c) ->
  ((forall case, nat_Read k chan case w = None) <->
     (nc_packets c = None \/ nc_packets c = Some []) /\ nc_closed c = false /\
     chan = cancel_index (nc_readDeadline c) /\ isClosedChan (nc_readDeadline c) = false) /\
  (forall case p n err w', nat_Read k chan case w = Some ((p, (n, err)), w') ->
     (exists pk q, nc_packets c = Some (pk :: q) /\ case = NatPacket (n, err) /\ p = Some pk /\
        nc_packets <$> (nw_conns w' !! k) = Some (Some q) /\
        nw_trace w' = nw_trace w ++ [EFree (pk_Buf pk)]) \/
     (p = None /\ n = 0%Z /\ w' = w /\
        (nc_closed c = true /\ err = Some io_ErrClosedPipe \/
         chan_closed chan (nc_readDeadline c) = true /\ err = Some context_DeadlineExceeded))) /\
  (forall ev r, nat_step ev w = Some r -> exists w', r = Ret w').
Proof.
  intros Hr%deadlines_ok_reach Hk Hchan. pose proof (deadlines_ok_conn _ _ _ Hr Hk) as Hd.
  split; [|split].
  - unfold nat_Read. rewrite Hk. simpl. split.
    + intros Hn. pose proof (Hn (NatPacket (0%Z, None))) as H1. pose proof (Hn NatClosed) as H2.
      pose proof (Hn NatDeadline) as H3. simpl in *.
      destruct (nc_closed c); [done|]. destruct (chan_closed chan (nc_readDeadline c)) eqn:Ec; [done|].
      assert (chan = cancel_index (nc_readDeadline c)) as ->.
      { destruct (decide (chan = cancel_index (nc_readDeadline c))); [done|].
        rewrite (di_old _ Hd) in Ec; [done|lia]. }
      destruct (nc_packets c) as [[|? ?]|]; [by auto|done|by auto].
    + intros (Hq & Hc & -> & Hdl) case. unfold isClosedChan in Hdl.
      destruct case; simpl; [by destruct Hq as [-> | ->]|by rewrite Hc|by rewrite Hdl].
  - intros case p n err w'. unfold nat_Read. rewrite Hk. simpl.
    destruct case; simpl.
    + destruct (nc_packets c) as [[|pk q]|]; intros Hx; simplify_eq/=. left. exists pk, q.
      split_and!; try done. by rewrite list_lookup_alter_eq, Hk.
    + destruct (nc_closed c); [|done]. intros [= <- <- <- <-]. auto 9.
    + destruct (chan_closed chan (nc_readDeadline c)); [|done]. intros [= <- <- <- <-]. auto 9.
  - intros ev r Hs. destruct (nat_step_ok _ _ _ Hr Hs) as (w' & -> & _). by eexists.
Qed.

(** C28: whatever the order of packets, reads, handlers, closings and
    evictions: every connection has a handler or a queue of at most 64
    packets, its close callback is called once when it is closed and never
    otherwise, and an entry of the table is a connection made for a source
    with the key's address and port. *)
Theorem udpnat_invariant l0 w :
  (forall ap k, ~ nl_has l0 ap k) -> nat_reach l0 w ->
  (forall k c, nw_conns w !! k = Some c ->
     (nc_packets c = None -> is_Some (nc_handler c)) /\
     (forall q, nc_packets c = Some q -> length q <= 64) /\
     on_close_calls k (nw_trace w) = if nc_closed c && nc_onClose c then 1 else 0) /\
  (forall ap k, nl_has (nw_lru w) ap k ->
     exists c, nw_conns w !! k = Some c /\ Socksaddr_AddrPort (nc_source c) = ap).
Proof.
  intros Hl0 Hr. pose proof (nat_inv_reach l0 w Hl0 Hr) as [H1 H2 H3]. split; [|done].
  intros k c Hk. destruct (H1 k c Hk) as [Hwf Hc]. unfold conn_wf in Hwf.
  split; [by intros He; rewrite He in Hwf|]. split; [by intros q He; rewrite He in Hwf|done].
Qed.

(** [NewPacket].  With an open connection for the source in the table it
    returns that one, calls nothing to prepare, and says it is not new;
    otherwise it asks [prepare]: refused, it returns nothing and the buffer
    is neither freed nor handed on; accepted, it returns a new connection
    for the source, but calls it new only when the table had none at all,
    not when it replaces a closed one.  The packet goes to the handler, or
    to the end of the queue, or, when that is full, its buffer is freed
    twice. *)
Theorem NewPacket_spec l0 prepare buffers source destination w :
  (forall ap k, ~ nl_has l0 ap k) -> nat_reach l0 w ->
  let found := (nl_GetAndRefresh (Socksaddr_AddrPort source) (nw_lru w)).1.1 in
  let pack := NewUDPPacket buffers [] in
  let '((conn, isNew), w') := UdpNat_NewPacket prepare buffers source destination w in
  match conn with
  | Some k =>
      isNew = bool_decide (found = None) /\
      (found = Some k \/ k = length (nw_conns w) /\ pr_Success (prepare source destination pack) = true) /\
      exists c, nw_conns w' !! k = Some c /\
        Socksaddr_AddrPort (nc_source c) = Socksaddr_AddrPort source /\
        packet_fate pack c (nw_trace w')
  | None =>
      isNew = false /\ pr_Success (prepare source destination pack) = false /\
      exists old, nw_trace w' = old ++ [EPrepare source destination]
  end.
Proof.
  intros Hl0 Hr. pose proof (nat_inv_reach l0 w Hl0 Hr) as Hw. cbv zeta.
  pose proof (nat_inv_refresh (Socksaddr_AddrPort source) w Hw) as Hw1.
  pose proof (Refresh_found (Socksaddr_AddrPort source) (nw_lru w)) as Hf.
  unfold UdpNat_NewPacket.
  destruct (nl_GetAndRefresh (Socksaddr_AddrPort source) (nw_lru w)) as [[found evicted] l].
  simpl in Hw1, Hf |- *. set (w1 := on_evict evicted (set_lru l w)) in *.
  assert (length (nw_conns w1) = length (nw_conns w)) as Hlen by (subst w1; by rewrite on_evict_length).
  set (reuse := match found with Some k => if nat_isClose k w1 then None else Some k | None => None end).
  assert (forall k, reuse = Some k -> found = Some k) as Hreuse.
  { subst reuse. intros k. destruct found as [k0|]; [|done]. by destruct (nat_isClose k0 w1). }
  replace (bool_decide (found = None)) with (negb (match found with Some _ => true | None => false end))
    by (by destruct found).
  destruct reuse as [k|].
  - specialize (Hreuse k eq_refl). subst found.
    destruct (ni_lru _ Hw _ _ (Hf k eq_refl)) as (c & Hc & Hkey).
    change (nw_conns (set_lru l w) !! k = Some c) in Hc.
    destruct (on_evict_lookup evicted k (set_lru l w) c Hc) as (c1 & Hc1 & Hs1 & _).
    destruct (nat_deliver_fate k (NewUDPPacket buffers []) w1 c1 Hc1) as (c2 & Hc2 & Hs2 & _ & Hfate).
    { apply (ni_conn _ Hw1 _ _ Hc1). }
    split; [done|]. split; [by left|]. exists c2. by rewrite Hs2, Hs1.
  - destruct (pr_Success (prepare source destination (NewUDPPacket buffers []))) eqn:Ep; simpl.
    2: { split; [done|]. split; [done|]. by exists (nw_trace w1). }
    destruct (nl_Add (Socksaddr_AddrPort source) (length (nw_conns w1)) (nw_lru w1)) as [evicted' l'].
    simpl. split; [done|]. split; [right; by rewrite Hlen|].
    set (w3 := set_lru l' _).
    set (c := new_conn source destination (prepare source destination (NewUDPPacket buffers []))) in *.
    assert (nw_conns w3 !! length (nw_conns w1) = Some c) as Hc by (by apply list_lookup_middle).
    destruct (on_evict_lookup evicted' _ w3 c Hc) as (c1 & Hc1 & Hs1 & Hq1 & Hh1).
    destruct (nat_deliver_fate (length (nw_conns w1)) (NewUDPPacket buffers []) (on_evict evicted' w3) c1 Hc1)
      as (c2 & Hc2 & Hs2 & _ & Hfate).
    { unfold conn_wf. rewrite Hq1, Hh1. apply new_conn_wf. }
    exists c2. by rewrite Hs2, Hs1.
Qed.

End udpnat.

(** ** [NewPacket] and [SetHandler] at the same time *)

(** One connection with a queue, and the calls that are under way: packets
    whose [NewPacket] has read a nil handler and not yet reached its
    [select], and the calls of [SetHandler] that are in their loop, each with
    its handler.  [ps_queued] are the packets that went through the queue,
    [ps_out] what became of packets. *)
Inductive fate :=
  | FHandled (h : nat)
  | FRead
  | FDropped.

Record packets_state := MkPS {
  ps_handler : option nat;
  ps_queue : list nat;
  ps_loaded : list nat;
  ps_draining : list nat;
  ps_arrived : list nat;
  ps_queued : list nat;
  ps_out : list (nat * fate);
}.

Definition packets_init : packets_state := MkPS None [] [] [] [] [] [].

Inductive packets_event :=
  | KLoad (p : nat)       (* NewPacket reads the handler; calls it when it is there *)
  | KSend (i : nat)       (* the [select] of a NewPacket under way *)
  | KStore (h : nat)      (* a SetHandler stores its handler *)
  | KFetch (j : nat)      (* a round of the loop of a SetHandler under way *)
  | KRead.                (* a Read *)

Definition packets_step (ev : packets_event) (s : packets_state) : option packets_state :=
  let '(MkPS h q l d a qd out) := s in
  match ev with
  | KLoad p =>
      match h with
      | Some h' => Some (MkPS h q l d (a ++ [p]) qd (out ++ [(p, FHandled h')]))
      | None => Some (MkPS h q (l ++ [p]) d (a ++ [p]) qd out)
      end
  | KSend i =>
      match l !! i with
      | None => None
      | Some p =>
          if (length q <? queue_size)%nat
          then Some (MkPS h (q ++ [p]) (delete i l) d a (qd ++ [p]) out)
          else Some (MkPS h q (delete i l) d a qd (out ++ [(p, FDropped)]))
      end
  | KStore h' => Some (MkPS (Some h') q l (d ++ [h']) a qd out)
  | KFetch j =>
      match d !! j with
      | None => None
      | Some h' =>
          match q with
          | [] => Some (MkPS h q l (delete j d) a qd out)
          | p :: q => Some (MkPS h q l d a qd (out ++ [(p, FHandled h')]))
          end
      end
  | KRead =>
      match q with
      | [] => None
      | p :: q => Some (MkPS h q l d a qd (out ++ [(p, FRead)]))
      end
  end.

Fixpoint packets_run (evs : list packets_event) (s : packets_state) : option packets_state :=
  match evs with
  | [] => Some s
  | ev :: evs => s ← packets_step ev s; packets_run evs s
  end.

Record packets_inv (evs : list packets_event) (s : packets_state) : Prop := {
  qi_once : ps_arrived s ≡ₚ (List.map fst (ps_out s) ++ ps_queue s) ++ ps_loaded s;
  qi_bound : length (ps_queue s) <= queue_size;
  qi_order : exists past, ps_queued s = past ++ ps_queue s /\
    past `sublist_of` List.map fst (ps_out s);
  qi_stored : forall h, ps_handler s = Some h \/ h ∈ ps_draining s -> KStore h ∈ evs;
  qi_handled : forall p h, (p, FHandled h) ∈ ps_out s -> KStore h ∈ evs;
}.

(** A packet leaves the queue. *)
Lemma packets_inv_take evs evs' h p q l d a qd out f :
  packets_inv evs (MkPS h (p :: q) l d a qd out) -> evs `sublist_of` evs' ->
  (forall h', f = FHandled h' -> KStore h' ∈ evs) ->
  packets_inv evs' (MkPS h q l d a qd (out ++ [(p, f)])).
Proof.
  intros [H1 H2 (past & H3 & H4) H5 H6] Hsub Hf. simpl in *. split; simpl in *; [|lia| | |].
  - rewrite H1, List.map_app. simpl. rewrite <- !app_assoc. solve_Permutation.
  - exists (past ++ [p]). rewrite <- app_assoc, List.map_app. split; [done|]. by apply sublist_app.
  - intros h' Hh. eapply elem_of_sublist; [|exact Hsub]. by apply H5.
  - intros p' h' [Hin|[= <- <-]%list_elem_of_singleton]%elem_of_app; (eapply elem_of_sublist; [|exact Hsub]);
      [by eapply H6|by apply Hf].
Qed.

(** A packet that was not in the queue has its fate. *)
Lemma packets_inv_out evs evs' h q l l' d a a' qd out p f :
  packets_inv evs (MkPS h q l d a qd out) -> evs `sublist_of` evs' ->
  a' ++ l ≡ₚ p :: a ++ l' -> (forall h', f = FHandled h' -> KStore h' ∈ evs') ->
  packets_inv evs' (MkPS h q l' d a' qd (out ++ [(p, f)])).
Proof.
  intros [H1 H2 (past & H3 & H4) H5 H6] Hsub Hp Hf. simpl in *. split; simpl in *; [|done| | |].
  - apply (Permutation_app_inv_r l). rewrite Hp, H1, List.map_app. simpl. rewrite <- !app_assoc. solve_Permutation.
  - exists past. split; [done|]. rewrite List.map_app. by apply sublist_inserts_r.
  - intros h' Hh. eapply elem_of_sublist; [|exact Hsub]. by apply H5.
  - intros p' h' [Hin|[= <- <-]%list_elem_of_singleton]%elem_of_app; [eapply elem_of_sublist; [|exact Hsub]; by eapply H6|by apply Hf].
Qed.

Lemma packets_step_inv evs ev s s' :
  packets_inv evs s -> packets_step ev s = Some s' -> packets_inv (evs ++ [ev]) s'.
Proof.
  intros Hi Hs. assert (evs `sublist_of` evs ++ [ev]) as Hsub by (by apply sublist_inserts_r).
  assert (forall e, e ∈ evs -> e ∈ evs ++ [ev]) as Hin by (intros e He; apply elem_of_app; by left).
  destruct s as [h q l d a qd out]. destruct ev as [p|i|h'|j|]; simpl in Hs.
  - destruct h as [h|]; simplify_eq.
    + eapply packets_inv_out; [exact Hi|done|solve_Permutation|]. intros h' [= <-]. apply Hin, (qi_stored _ _ Hi). by left.
    + destruct Hi as [H1 H2 H3 H4 H5]. split; simpl in *; try done; [|by eauto..]. rewrite H1, <- !app_assoc. done.
  - destruct (l !! i) as [p|] eqn:Ep; [|done]. apply delete_Permutation in Ep.
    revert Hs Ep. generalize (delete i l). intros l' Hs Ep.
    destruct (Nat.ltb_spec (length q) queue_size); simplify_eq.
    + destruct Hi as [H1 H2 (past & H3 & H4) H5 H6]. split; simpl in *; [| | |by eauto..].
      * rewrite H1, Ep. rewrite <- !app_assoc. solve_Permutation.
      * rewrite length_app. simpl. lia.
      * exists past. split; [by rewrite H3, <- app_assoc|done].
    + eapply packets_inv_out; [exact Hi|done| |done]. rewrite Ep. solve_Permutation.
  - simplify_eq. destruct Hi as [H1 H2 H3 H4 H5]. split; simpl in *; try done; [|by eauto].
    intros h1 [[= <-]|[Hd|Hd%list_elem_of_singleton]%elem_of_app]; [|by eauto|subst h1]; apply elem_of_app; right; by left.
  - destruct (d !! j) as [h'|] eqn:Ed; [|done]. assert (KStore h' ∈ evs) as Hst.
    { apply (qi_stored _ _ Hi). right. by eapply list_elem_of_lookup_2. }
    destruct q as [|p q]; simplify_eq.
    + destruct Hi as [H1 H2 H3 H4 H5]. split; simpl in *; try done; [|by eauto].
      intros h1 [Hh|Hd]; [by eauto|]. apply Hin, H4. right. eapply elem_of_sublist; [exact Hd|apply sublist_delete].
    + eapply packets_inv_take; [exact Hi|done|]. by intros h1 [= <-].
  - destruct q as [|p q]; simplify_eq. by eapply packets_inv_take.
Qed.

Lemma packets_inv_run evs0 evs s s' :
  packets_inv evs0 s -> packets_run evs s = Some s' -> packets_inv (evs0 ++ evs) s'.
Proof.
  revert evs0 s. induction evs as [|ev evs IH]; intros evs0 s Hs; simpl; [intros [= <-]; by rewrite app_nil_r|].
  destruct (packets_step ev s) as [s1|] eqn:E; [|done]. simpl. intros Hr.
  change (ev :: evs) with ([ev] ++ evs). rewrite app_assoc. eapply IH; [|exact Hr]. by eapply packets_step_inv.
Qed.

(** C25: every packet has one fate.  However the calls of [NewPacket], [Read]
    and [SetHandler] on a connection with a queue interleave, any number of
    each, every packet that arrived is either handed to a handler, read or
    dropped, once, or still in the queue, or in a call under way; a handler
    that is handed a packet was set; the queue never holds more than 64, and
    packets leave it in the order in which they entered. *)
Theorem packets_exactly_once evs s :
  packets_run evs packets_init = Some s ->
  ps_arrived s ≡ₚ (List.map fst (ps_out s) ++ ps_queue s) ++ ps_loaded s /\
  length (ps_queue s) <= 64 /\
  (exists past, ps_queued s = past ++ ps_queue s /\ past `sublist_of` List.map fst (ps_out s)) /\
  forall p h, (p, FHandled h) ∈ ps_out s -> KStore h ∈ evs.
Proof.
  intros Hr. assert (packets_inv [] packets_init) as Hi.
  { split; simpl; [done|lia|by exists []| |].
    - by intros h [|Hin%elem_of_nil].
    - by intros p h Hin%elem_of_nil. }
  by destruct (packets_inv_run [] evs _ s Hi Hr).
Qed.

(** A packet can be stranded: its [NewPacket] reads the nil handler,
    [SetHandler] stores the handler and finds the queue empty, and then the
    packet is queued; from then on new packets go to the handler, and
    nothing takes this one but a [Read] or another [SetHandler]. *)
Theorem packet_stranded :
  exists evs s, packets_run evs packets_init = Some s /\
    ps_handler s = Some 7 /\ ps_draining s = [] /\ ps_loaded s = [] /\ ps_queue s = [1] /\
    forall evs' s', packets_run evs' s = Some s' -> KRead ∉ evs' -> (forall h, KStore h ∉ evs') ->
      ps_queue s' = [1].
Proof.
  exists [KLoad 1; KStore 7; KFetch 0; KSend 0]. eexists. split; [reflexivity|].
  repeat (split; [reflexivity|]).
  assert (forall evs' s s', ps_handler s = Some 7 -> ps_draining s = [] -> ps_loaded s = [] ->
    ps_queue s = [1] -> packets_run evs' s = Some s' -> KRead ∉ evs' -> (forall h, KStore h ∉ evs') ->
    ps_queue s' = [1]) as Hstuck.
  { induction evs' as [|ev evs' IH]; intros s s' Hh Hd Hl Hq; simpl; [by intros [= <-]|].
    destruct s as [h q l d a qd out]. simpl in *. subst. intros Hr Hn Hs.
    rewrite not_elem_of_cons in Hn. destruct Hn as [Hne Hn].
    assert (forall h, KStore h ∉ evs') as Hs' by (intros h Hin; by apply (Hs h); right).
    destruct ev as [p|i|h|j|]; simpl in Hr; try done.
    - by eapply (IH (MkPS (Some 7) [1] [] [] (a ++ [p]) qd (out ++ [(p, FHandled 7)]))).
    - exfalso. apply (Hs h). by left. }
  intros evs' s'. by apply Hstuck.
Qed.

(** ** A table of the witnesses *)

Module NatExample.

Definition table : Type := list (AddrPort * nat).

Definition find (ap : AddrPort) (l : table) : option nat :=
  snd <$> List.find (fun x => bool_decide (x.1 = ap)) l.

#[global] Instance table_lru : NatLru table | 100 := {
  nl_GetAndRefresh ap l := ((find ap l, []), l);
  nl_Add ap c l := ([], (ap, c) :: l);
  nl_Keys l := List.map fst l;
  nl_Get ap l := (find ap l, l);
  nl_has l ap c := In (ap, c) l;
}.

Lemma find_in ap l c : find ap l = Some c -> In (ap, c) l.
Proof.
  unfold find. destruct (List.find _ l) as [[ap' c']|] eqn:E; [|done]. simpl. intros [= ->].
  apply List.find_some in E as [Hin He]. simpl in He. apply bool_decide_eq_true in He. by subst.
Qed.

#[global] Instance table_lru_laws : @NatLruLaws table table_lru | 100.
Proof.
  split; simpl; try done.
  - intros ap l c. apply find_in.
  - intros ap c l q x [[= <- <-]|Hin]; auto.
  - intros ap l c. apply find_in.
Qed.

Definition source : Socksaddr := MkSocks "" (Addr4 0x01010101) 53.
Definition prepare (s d : Socksaddr) (p : UDPPacket) : PrepareResult (H := nat) (Wr := unit) :=
  MkPrepare true true None tt.

(** A packet, the close of its connection, and a second packet. *)
Definition world0 : nat_world (H := nat) (Wr := unit) table := MkNatWorld _ [] [] [].
Fixpoint steps (evs : list nat_event) (w : nat_world (H := nat) (Wr := unit) table) :
    option (nat_world (H := nat) (Wr := unit) table) :=
  match evs with
  | [] => Some w
  | ev :: evs => match nat_step ev w with Some (Ret w) => steps evs w | _ => None end
  end.

Lemma steps_reach evs (w w' : nat_world (H := nat) (Wr := unit) table) :
  nat_reach (L := table) [] w -> steps evs w = Some w' -> nat_reach (L := table) [] w'.
Proof.
  revert w. induction evs as [|ev evs IH]; intros w Hr Hs; [by injection Hs as <-|].
  simpl in Hs. destruct (nat_step ev w) as [[w1|]|] eqn:Es; [|done..].
  eapply IH; [|exact Hs]. by eapply nat_reach_step.
Qed.

Definition world : nat_world (H := nat) (Wr := unit) table :=
  default world0 (steps [NPacket prepare 7 source source; NClose 0] world0).

Lemma world_reached : nat_reach (L := table) [] world.
Proof.
  apply (steps_reach [NPacket prepare 7 source source; NClose 0] world0); [constructor|].
  vm_compute. reflexivity.
Qed.

(** The packet is read, and the deadline moved from 100 to 200. *)
Definition waiting : nat_world (H := nat) (Wr := unit) table :=
  default world0 (steps [NPacket prepare 7 source source; NRead 0 0 (NatPacket (5%Z, None));
    NDeadline 0 (DlSet 10 100); NDeadline 0 DlExpire; NDeadline 0 DlCallback;
    NDeadline 0 (DlSet 150 200)] world0).

Lemma waiting_reached : nat_reach (L := table) [] waiting.
Proof.
  apply (steps_reach [NPacket prepare 7 source source; NRead 0 0 (NatPacket (5%Z, None));
    NDeadline 0 (DlSet 10 100); NDeadline 0 DlExpire; NDeadline 0 DlCallback;
    NDeadline 0 (DlSet 150 200)] world0); [constructor|].
  vm_compute. reflexivity.
Qed.

End NatExample.

(** A read that began before the first deadline passed can return, one that
    begins now waits. *)
Lemma udpnat_read_wakes_witness :
  nat_Read 0 0 NatDeadline NatExample.waiting =
    Some ((None, (0%Z, Some context_DeadlineExceeded)), NatExample.waiting) /\
  forall case, nat_Read 0 1 case NatExample.waiting = None.
Proof.
  split; [vm_compute; reflexivity|].
  refine (proj2 (proj1 (udpnat_read_wakes [] NatExample.waiting 0 _ 1 NatExample.waiting_reached eq_refl _)) _).
  - vm_compute. lia.
  - split; [right; reflexivity|]. repeat split.
Defined.

Lemma udpnat_invariant_witness :
  on_close_calls 0 (nw_trace _ NatExample.world) = 1.
Proof.
  exact (proj2 (proj2 (proj1 (udpnat_invariant [] NatExample.world (fun _ _ H => H)
    NatExample.world_reached) 0 _ eq_refl))).
Defined.

(** The closed connection is replaced by connection 1, which is not called
    new. *)
Lemma NewPacket_spec_witness :
  let r := UdpNat_NewPacket NatExample.prepare 8 NatExample.source NatExample.source NatExample.world in
  r.1 = (Some 1, false) /\
  exists c, nw_conns _ r.2 !! 1 = Some c /\ packet_fate (NewUDPPacket 8 []) c (nw_trace _ r.2).
Proof.
  pose proof (NewPacket_spec [] NatExample.prepare 8 NatExample.source NatExample.source
    NatExample.world (fun _ _ H => H) NatExample.world_reached) as Hs.
  split; [reflexivity|].
  destruct Hs as (_ & _ & c & Hc & _ & Hf). exists c. split; [exact Hc|exact Hf].
Defined.

(** A second handler takes the packet that the first has left. *)
Lemma packets_exactly_once_witness :
  exists s, packets_run [KLoad 1; KLoad 2; KSend 1; KRead; KStore 8; KFetch 0; KSend 0; KStore 9; KFetch 0]
      packets_init = Some s /\
    ps_out s = [(2, FRead); (1, FHandled 9)] /\ length (ps_queue s) <= 64.
Proof.
  eexists. split; [reflexivity|]. split; [reflexivity|].
  exact (proj1 (proj2 (packets_exactly_once
    [KLoad 1; KLoad 2; KSend 1; KRead; KStore 8; KFetch 0; KSend 0; KStore 9; KFetch 0] _ eq_refl))).
Defined.
