(* ===== verification/Copy.v ===== *)
(** * Copying between two connections: [netio/copy.go]

    [CopyConn] runs two tasks in a [threads.Group], one for each direction,
    and a cleanup function.  The tasks are goroutines: their calls, and the
    moment the group runs the cleanup, interleave in any order.  [iolib.Copy]
    and the group are outside the repository: what a copy returns is part of
    the event, and the group's choice of the error to return is an
    operation. *)

From S2P Require Import Prelude GoStd.

(** ** State *)

(** The two arguments of [CopyConn], and its two tasks. *)
Inductive endpoint := source | destination.
Inductive copy_task := download | upload.

#[export] Instance endpoint_eq_dec : EqDecision endpoint.
Proof. solve_decision. Defined.
#[export] Instance copy_task_eq_dec : EqDecision copy_task.
Proof. solve_decision. Defined.

(** The calls on the outside: [iolib.Copy(a, b)] with its error, the
    [CloseWrite] of an end, [iolib.Close]. *)
Inductive call :=
  | CCopy (a b : endpoint) (e : option err)
  | CCloseWrite (c : endpoint)
  | CClose (c : endpoint).

(** Where a task is: in [iolib.Copy], after it, or at its end with the
    error it returned. *)
Inductive task_state :=
  | TCopying
  | TCopied (e : option err)
  | TDone (e : option err).

(** The tasks, whether the cleanup has run, and the calls so far. *)
Record copy_state := MkCopy {
  cp_task : copy_task -> task_state;
  cp_cleaned : bool;
  cp_calls : list call;
}.

Definition copy_start : copy_state := MkCopy (fun _ => TCopying) false [].

(** ** The tasks *)

(** The arguments of the copy of a task; the second is the end it closes. *)
Definition copy_args (t : copy_task) : endpoint * endpoint :=
  match t with
  | download => (source, destination)
  | upload => (destination, source)
  end.

(** What a task does after its copy: an end with a [CloseWrite] is closed
    for writing, and altogether after an error; any other end is closed by
    the deferred call. *)
Definition after_copy (closeWriter : endpoint -> bool) (t : copy_task) (e : option err) : call :=
  let c := (copy_args t).2 in
  if closeWriter c
  then match e with None => CCloseWrite c | Some _ => CClose c end
  else CClose c.

Definition cleanup_calls : list call := [CClose source; CClose destination].

Inductive copy_event :=
  | EvCopied (t : copy_task) (e : option err)
  | EvAfter (t : copy_task)
  | EvCleanup.

Definition set_task (t : copy_task) (st : task_state) (s : copy_state) : copy_task -> task_state :=
  fun t' => if decide (t' = t) then st else cp_task s t'.

Section copy.
(** Which of the two connections implement [closeWriter]. *)
Variable closeWriter : endpoint -> bool.

Definition copy_step (ev : copy_event) (s : copy_state) : option copy_state :=
  match ev with
  | EvCopied t e =>
      match cp_task s t with
      | TCopying =>
          let '(a, b) := copy_args t in
          Some (MkCopy (set_task t (TCopied e) s) (cp_cleaned s) (cp_calls s ++ [CCopy a b e]))
      | _ => None
      end
  | EvAfter t =>
      match cp_task s t with
      | TCopied e =>
          Some (MkCopy (set_task t (TDone e) s) (cp_cleaned s)
                  (cp_calls s ++ [after_copy closeWriter t e]))
      | _ => None
      end
  | EvCleanup =>
      if cp_cleaned s then None
      else Some (MkCopy (cp_task s) true (cp_calls s ++ cleanup_calls))
  end.

Inductive copy_run : nat -> copy_state -> Prop :=
  | copy_run_start : copy_run 0 copy_start
  | copy_run_step n s ev s' : copy_run n s -> copy_step ev s = Some s' -> copy_run (S n) s'.

(** ** The group *)

(** The error [Run] returns for those of its tasks, in the order they were
    appended: there is one exactly when a task had one. *)
Class GroupLib := group_error : list (option err) -> option err.
Class GroupLaws `{GroupLib} : Prop := {
  group_error_none : forall es, group_error es = None <-> Forall (fun e => e = None) es;
}.

(** [CopyConn] returns when the cleanup has run and both tasks have ended. *)
Definition CopyConn_returns `{GroupLib} (s : copy_state) : option (option err) :=
  match cp_cleaned s, cp_task s download, cp_task s upload with
  | true, TDone d, TDone u => Some (group_error [d; u])
  | _, _, _ => None
  end.

End copy.

(** ** Lemmas *)

Section lemmas.
Variable closeWriter : endpoint -> bool.

(** The calls of a task, and those of the cleanup, up to where they are. *)
Definition task_calls (t : copy_task) (st : task_state) : list call :=
  let '(a, b) := copy_args t in
  match st with
  | TCopying => []
  | TCopied e => [CCopy a b e]
  | TDone e => [CCopy a b e; after_copy closeWriter t e]
  end.

Definition all_calls (s : copy_state) : list call :=
  task_calls download (cp_task s download) ++ task_calls upload (cp_task s upload) ++
  (if cp_cleaned s then cleanup_calls else []).

Definition progress (st : task_state) : nat :=
  match st with TCopying => 0 | TCopied _ => 1 | TDone _ => 2 end.

(** The calls are an interleaving of the two tasks and the cleanup, and the
    steps so far are theirs. *)
Record copy_ok (n : nat) (s : copy_state) : Prop := {
  ok_calls : Permutation (cp_calls s) (all_calls s);
  ok_order : forall t, sublist (task_calls t (cp_task s t)) (cp_calls s);
  ok_steps : n = progress (cp_task s download) + progress (cp_task s upload) +
    (if cp_cleaned s then 1 else 0);
}.

Lemma set_task_eq t st s : set_task t st s t = st.
Proof. unfold set_task. by rewrite decide_True. Qed.

Lemma set_task_ne t t' st s : t' <> t -> set_task t st s t' = cp_task s t'.
Proof. intros Hne. unfold set_task. by rewrite decide_False. Qed.

(** A task that makes its next call. *)
Lemma copy_ok_task n s t st x :
  copy_ok n s -> task_calls t st = task_calls t (cp_task s t) ++ [x] ->
  progress st = S (progress (cp_task s t)) ->
  copy_ok (S n) (MkCopy (set_task t st s) (cp_cleaned s) (cp_calls s ++ [x])).
Proof.
  intros [Hc Ho Hn] Ht Hp. split; simpl.
  - unfold all_calls in *. simpl. rewrite Hc.
    destruct t; rewrite set_task_eq, set_task_ne, Ht by done; solve_Permutation.
  - intros t'. destruct (decide (t' = t)) as [->|].
    + rewrite set_task_eq, Ht. apply sublist_app; [apply Ho|done].
    + rewrite set_task_ne by done. apply sublist_inserts_r, Ho.
  - destruct t; rewrite set_task_eq, set_task_ne by done; lia.
Qed.

Lemma copy_ok_run n s : copy_run closeWriter n s -> copy_ok n s.
Proof.
  induction 1 as [|n s ev s' _ IH Hs].
  - split; try done. intros t. simpl. by destruct t.
  - destruct ev as [t e|t|]; simpl in Hs.
    + destruct (cp_task s t) eqn:Et; [|done|done]. destruct (copy_args t) as [a b] eqn:Ea.
      simplify_eq. apply copy_ok_task; rewrite ?Et; [done| |done].
      unfold task_calls. by rewrite Ea.
    + destruct (cp_task s t) eqn:Et; [done| |done]. simplify_eq.
      apply copy_ok_task; rewrite ?Et; [done| |done].
      unfold task_calls. by destruct (copy_args t).
    + destruct (cp_cleaned s) eqn:Ec; simplify_eq. destruct IH as [Hc Ho Hn].
      rewrite Ec in *. split; simpl; [|intros t; by apply sublist_inserts_r|lia].
      unfold all_calls in *. rewrite Ec in Hc. simpl. rewrite Hc. solve_Permutation.
Qed.

(** ** Properties *)

(** C26: The error paths of [CopyConn].  When it returns, each task has
    copied once and then made one call on the end that is the second
    argument of its copy: [CloseWrite] when the end has one and the copy
    succeeded, [Close] otherwise; both ends have been closed by the cleanup,
    and there is no other call.  It returns an error exactly when one of the
    copies did. *)
Theorem CopyConn_spec `{GroupLaws} n s r :
  copy_run closeWriter n s -> CopyConn_returns s = Some r ->
  exists d u x y,
    Permutation (cp_calls s)
      ([CCopy source destination d; x] ++ [CCopy destination source u; y] ++
       [CClose source; CClose destination]) /\
    sublist [CCopy source destination d; x] (cp_calls s) /\
    sublist [CCopy destination source u; y] (cp_calls s) /\
    x = (if closeWriter destination && bool_decide (d = None)
         then CCloseWrite destination else CClose destination) /\
    y = (if closeWriter source && bool_decide (u = None)
         then CCloseWrite source else CClose source) /\
    (r = None <-> d = None /\ u = None).
Proof.
  intros Hr%copy_ok_run Hret. destruct Hr as [Hc Ho _]. unfold CopyConn_returns in Hret.
  unfold all_calls in Hc. pose proof (Ho download) as Hd. pose proof (Ho upload) as Hu.
  destruct (cp_cleaned s); [|done]. destruct (cp_task s download) as [| |d]; try done.
  destruct (cp_task s upload) as [| |u]; [done..|]. injection Hret as <-.
  exists d, u, (after_copy closeWriter download d), (after_copy closeWriter upload u).
  unfold after_copy. cbn [copy_args snd]. split_and!; [done..| | |].
  - by destruct (closeWriter destination), d.
  - by destruct (closeWriter source), u.
  - rewrite group_error_none, !Forall_cons, Forall_nil. tauto.
Qed.

(** [CopyConn] takes five steps: as long as it has not returned, a task
    can return from its copy, or go on, or the group can clean up. *)
Theorem CopyConn_terminates `{GroupLib} n s :
  copy_run closeWriter n s ->
  n <= 5 /\
  match CopyConn_returns s with
  | Some _ => n = 5
  | None => n < 5 /\
      ((exists t, forall e, is_Some (copy_step closeWriter (EvCopied t e) s)) \/
       (exists t, is_Some (copy_step closeWriter (EvAfter t) s)) \/
       is_Some (copy_step closeWriter EvCleanup s))
  end.
Proof.
  intros Hr%copy_ok_run. destruct Hr as [_ _ Hn]. unfold CopyConn_returns, copy_step.
  destruct (cp_task s download) eqn:Ed, (cp_task s upload) eqn:Eu, (cp_cleaned s) eqn:Ec;
    simpl in Hn; (split; [lia|]); try lia; (split; [lia|]).
  all: first [by right; right; eexists
    |right; left; exists download; simpl; rewrite Ed; by eexists
    |right; left; exists upload; simpl; rewrite Eu; by eexists
    |left; exists download; intros ?; simpl; rewrite Ed; by eexists
    |left; exists upload; intros ?; simpl; rewrite Eu; by eexists].
Qed.

End lemmas.

(** ** A group and a run for the witnesses *)

Module CopyExample.

#[global] Instance group_first : GroupLib | 100 := fun es =>
  List.nth 0 (List.filter (fun e : option err =>
    match e with Some _ => true | None => false end) es) None.

#[global] Instance group_first_laws : @GroupLaws group_first | 100.
Proof.
  split. intros es. unfold group_error, group_first. induction es as [|[e|] es IH]; simpl.
  - done.
  - split; [done|]. by intros [? _]%Forall_cons.
  - rewrite IH. split; [by constructor|by intros [_ ?]%Forall_cons].
Qed.

(** The destination can be closed for writing, the source cannot; the upload
    fails after the download has ended. *)
Definition half_close (c : endpoint) : bool := bool_decide (c = destination).
Definition failure : err := ENew "reset".

Fixpoint copy_events (evs : list copy_event) (s : copy_state) : option copy_state :=
  match evs with
  | [] => Some s
  | ev :: evs => s ← copy_step half_close ev s; copy_events evs s
  end.

Definition events : list copy_event :=
  [EvCopied download None; EvAfter download; EvCopied upload (Some failure); EvCleanup;
   EvAfter upload].

Definition ended : copy_state := default copy_start (copy_events events copy_start).

Lemma copy_events_run evs n s s' :
  copy_run half_close n s -> copy_events evs s = Some s' -> copy_run half_close (length evs + n) s'.
Proof.
  revert n s. induction evs as [|ev evs IH]; intros n s Hr; [by intros [= <-]|].
  simpl. destruct (copy_step half_close ev s) as [s1|] eqn:E; [|done]. simpl. intros Hs.
  replace (S (length evs + n)) with (length evs + S n) by lia.
  eapply IH; [|exact Hs]. by econstructor.
Qed.

Lemma ended_run : copy_run half_close 5 ended.
Proof. apply (copy_events_run events 0 copy_start); [constructor|reflexivity]. Qed.

End CopyExample.

Lemma CopyConn_spec_witness :
  CopyConn_returns CopyExample.ended = Some (Some CopyExample.failure) /\
  cp_calls CopyExample.ended =
    [CCopy source destination None; CCloseWrite destination;
     CCopy destination source (Some CopyExample.failure);
     CClose source; CClose destination; CClose source] /\
  exists d u : option err, Some CopyExample.failure = None <-> d = None /\ u = None.
Proof.
  split; [reflexivity|]. split; [reflexivity|].
  destruct (CopyConn_spec CopyExample.half_close 5 CopyExample.ended _ CopyExample.ended_run eq_refl)
    as (d & u & x & y & _ & _ & _ & _ & _ & Hr).
  exists d, u. exact Hr.
Defined.

Lemma CopyConn_terminates_witness :
  match CopyConn_returns CopyExample.ended with Some _ => 5 = 5 | None => False end.
Proof.
  pose proof (proj2 (CopyConn_terminates CopyExample.half_close 5 CopyExample.ended
    CopyExample.ended_run)) as H. vm_compute in H |- *. exact H.
Defined.
