(* ===== verification/ClientRun.v ===== *)
(** * The client, shared

    [HeadlessClient] of [resolve/client.go] used by many callers at once:
    [LookupTransport] with its two goroutines, [lookupToExchange] with the
    query counter that all share, and [ExchangeTransport] over one cache,
    whose calls take the steps of CacheRun.  A task of a lookup, an exchange
    and the group that waits for the tasks each take their steps on their own,
    so that the steps of other lookups come in between. *)

From S2P Require Import Prelude GoStd Copy Netip Meta Dns Addrs Resolve Cache CacheRun Client.

(** ** State *)

(** A call of [ExchangeTransport]: waiting for call [k] of the cache, or
    without a cache for the transport; or at its end. *)
Inductive exchange_pc :=
  | XCache (k : nat)
  | XDirect
  | XReturned (r : gores (option Msg)).

Record exchange_call := MkEX { ex_message : Msg; ex_pc : exchange_pc }.

(** A call of [lookupToExchange]: before [atomic.AddUint32], waiting for
    exchange [x], or at its end. *)
Inductive task_pc :=
  | TId
  | TWait (x : nat)
  | TReturned (r : gores (list Addr)).

(** A call of [LookupTransport]: its exchanges by type, and its result. *)
Record lookup_call := MkLK {
  lk_fqdn : string;
  lk_strategy : Strategy;
  lk_tasks : list (Z * task_pc);
  lk_result : option (gores (list Addr));
}.

Section client_run.
Context {L : Type} `{DnsLib} `{SliceLib} `{!LruLib L} `{FlightGroup} `{ExLib} `{GroupLib}.

(** The field [queryID], what is behind [cache], and the calls so far. *)
Record client_run_state := MkCL {
  cl_query : Z;
  cl_cache : cache_run_state (L := L);
  cl_exchanges : list exchange_call;
  cl_lookups : list lookup_call;
}.

(** The field [cache]. *)
Variable cache : option defaultCache.

(** ** The pieces of the calls *)

(** [ExchangeTransport] after [LoadOrStore]. *)
Definition after_cache (o : outcome) : exec (gores (option Msg)) :=
  match o with
  | OReturn (response, Some err) => Ret (response, Some err)
  | OReturn (None, None) => Panic nil_message
  | OReturn (Some response, None) => Ret (Some response, None)
  | ONilCopy => Panic "a nil message is copied"
  end.

(** [lookupToExchange] after [ExchangeTransport]. *)
Definition lookup_answer (r : gores (option Msg)) : gores (list Addr) :=
  match r with
  | (_, Some err) => ([], Some err)
  | (None, None) => ([], None)
  | (Some response, None) =>
      if negb (Z.eqb (m_Rcode response) RcodeSuccess)
      then ([], Some (NewDNSRecordError (m_Rcode response)))
      else (DNSMessageToAddresses response, None)
  end.

(** [LookupTransport] after its exchanges: of one family, or of both. *)
Definition lookup_end (strategy : Strategy) (rs : list (gores (list Addr))) : gores (list Addr) :=
  match rs with
  | [(a4, e4); (a6, e6)] =>
      let response4 := kept a4 e4 in
      let response6 := kept a6 e6 in
      if ((length response4 =? 0)%nat && (length response6 =? 0)%nat)%bool
      then ([], group_error [task_err e4; task_err e6])
      else (sortAddresses response4 response6 strategy, None)
  | [r] => r
  | _ => ([], None)
  end.

Definition is_root (fqdn : string) : bool := (String.eqb fqdn "" || String.eqb fqdn ".")%bool.

(** A call of [LookupTransport] at its start. *)
Definition new_lookup (fqdn : string) (strategy : Strategy) : lookup_call :=
  if is_root fqdn then MkLK fqdn strategy [] (Some ([], Some (ex_New [XStr "fqdn is empty"])))
  else MkLK fqdn strategy ((fun typ => (typ, TId)) <$> strategy_types strategy) None.

(** A call of [ExchangeTransport] at its start. *)
Definition new_exchange (message : Msg) (s : client_run_state) : client_run_state :=
  match cache with
  | Some c =>
      let k := length (kr_calls (cl_cache s)) in
      MkCL (cl_query s)
        (default (cl_cache s) (cache_step c (CvLoad message true) (cl_cache s)))
        (cl_exchanges s ++ [MkEX message (XCache k)]) (cl_lookups s)
  | None => MkCL (cl_query s) (cl_cache s) (cl_exchanges s ++ [MkEX message XDirect]) (cl_lookups s)
  end.

Definition set_xpc (x : nat) (pc : exchange_pc) (s : client_run_state) : client_run_state :=
  MkCL (cl_query s) (cl_cache s) (alter (fun e => MkEX (ex_message e) pc) x (cl_exchanges s))
    (cl_lookups s).

Definition set_tpc (l t : nat) (pc : task_pc) (s : client_run_state) : client_run_state :=
  MkCL (cl_query s) (cl_cache s) (cl_exchanges s)
    (alter (fun lk => MkLK (lk_fqdn lk) (lk_strategy lk)
       (alter (fun tk => (tk.1, pc)) t (lk_tasks lk)) (lk_result lk)) l (cl_lookups s)).

(** The results of the tasks, when all have ended. *)
Fixpoint returned (tasks : list (Z * task_pc)) : option (list (gores (list Addr))) :=
  match tasks with
  | [] => Some []
  | (_, TReturned r) :: tasks => rs ← returned tasks; Some (r :: rs)
  | _ => None
  end.

(** ** The steps *)

Inductive client_event :=
  | CkLookup (fqdn : string) (strategy : Strategy)
  | CkExchange (message : Msg)
  | CkId (l t : nat)              (* the query of a task gets its id, and is asked *)
  | CkTask (l t : nat)            (* a task has its response *)
  | CkEnd (l : nat)
  | CkReturn (x : nat)            (* LoadOrStore has returned *)
  | CkTransport (x : nat) (r : gores (option Msg))
  | CkCache (ev : cache_event).   (* a step of the cache; Close and CleanCache clear it *)

Definition client_step (ev : client_event) (s : client_run_state) : option (exec client_run_state) :=
  match ev with
  | CkLookup fqdn strategy =>
      Some (Ret (MkCL (cl_query s) (cl_cache s) (cl_exchanges s)
        (cl_lookups s ++ [new_lookup fqdn strategy])))
  | CkExchange message => Some (Ret (new_exchange message s))
  | CkId l t =>
      lk ← cl_lookups s !! l;
      tk ← lk_tasks lk !! t;
      match tk.2 with
      | TId =>
          let q := u32 (cl_query s + 1) in
          let x := length (cl_exchanges s) in
          Some (Ret (set_tpc l t (TWait x)
            (new_exchange (lookup_message (u16 q) (dns_Fqdn (lk_fqdn lk)) tk.1)
              (MkCL q (cl_cache s) (cl_exchanges s) (cl_lookups s)))))
      | _ => None
      end
  | CkTask l t =>
      lk ← cl_lookups s !! l;
      tk ← lk_tasks lk !! t;
      match tk.2 with
      | TWait x =>
          e ← cl_exchanges s !! x;
          match ex_pc e with
          | XReturned r => Some (Ret (set_tpc l t (TReturned (lookup_answer r)) s))
          | _ => None
          end
      | _ => None
      end
  | CkEnd l =>
      lk ← cl_lookups s !! l;
      match lk_result lk with
      | Some _ => None
      | None =>
          rs ← returned (lk_tasks lk);
          Some (Ret (MkCL (cl_query s) (cl_cache s) (cl_exchanges s)
            (<[l := MkLK (lk_fqdn lk) (lk_strategy lk) (lk_tasks lk)
                      (Some (lookup_end (lk_strategy lk) rs))]> (cl_lookups s))))
      end
  | CkReturn x =>
      e ← cl_exchanges s !! x;
      match ex_pc e with
      | XCache k =>
          cl ← kr_calls (cl_cache s) !! k;
          match cc_pc cl with
          | KDone o =>
              match after_cache o with
              | Ret r => Some (Ret (set_xpc x (XReturned r) s))
              | Panic why => Some (Panic why)
              end
          | _ => None
          end
      | _ => None
      end
  | CkTransport x r =>
      e ← cl_exchanges s !! x;
      match ex_pc e with
      | XDirect => Some (Ret (set_xpc x (XReturned r) s))
      | _ => None
      end
  | CkCache ev =>
      c ← cache;
      k ← cache_step c ev (cl_cache s);
      Some (Ret (MkCL (cl_query s) k (cl_exchanges s) (cl_lookups s)))
  end.

(** The states after a list of events, none of which panicked; the counter
    starts at a random 16-bit number. *)
Definition client_start (dns_Id : Z) (l : L) : client_run_state :=
  MkCL (u32 dns_Id) (cache_start l) [] [].

Inductive client_run (dns_Id : Z) : list client_event -> client_run_state -> Prop :=
  | client_run_nil n l : lru_NewSharded n = inl l -> client_run dns_Id [] (client_start dns_Id l)
  | client_run_snoc evs s ev s' :
      client_run dns_Id evs s -> client_step ev s = Some (Ret s') ->
      client_run dns_Id (evs ++ [ev]) s'.

End client_run.

(** ** Lemmas *)

(** *** The calls of the cache *)

Section calls.
Context {L : Type} `{DnsLib} `{SliceLib} `{!LruLib L} `{FlightGroup}.
Context (c : defaultCache).
Implicit Types (k : cache_run_state (L := L)).

(** Where calls of [LoadOrStore] are. *)
Definition loading (pc : cache_pc) : Prop :=
  match pc with KStore None _ | KAdd None _ _ | KStored _ => False | _ => True end.

(** What a step does to the calls: it makes one, or one of them goes on. *)
Inductive calls_move (ev : cache_event) (k k' : cache_run_state (L := L)) : Prop :=
  | calls_same (Hc : kr_calls k' = kr_calls k)
  | calls_new cl
      (Hev : called ev = 1) (Hc : kr_calls k' = kr_calls k ++ [cl]) (Hl : cc_constructor cl = true -> loading (cc_pc cl))
  | calls_step j cl pc
      (Hj : kr_calls k !! j = Some cl) (Hpc : cost pc < cost (cc_pc cl))
      (Hc : kr_calls k' = kr_calls (set_kpc j pc k)) (Hl : loading (cc_pc cl) -> loading pc).

Lemma load_pc_loading message b : loading (load_pc message b).
Proof. unfold load_pc. destruct (m_Question message); [done|]. by destruct (negb _), b. Qed.

Lemma miss_pc_loading b : loading (miss_pc b).
Proof. by destruct b. Qed.

Lemma constructed_pc_loading f r : loading (constructed_pc c f r).
Proof.
  destruct r as [[m|] [e|]]; try done. simpl. destruct (negb _); [done|]. unfold store_pc.
  destruct (m_Question m) as [|? [|? ?]]; try done. by destruct (Z.leb _ _).
Qed.

Lemma load_step_move j cl q k k' :
  kr_calls k !! j = Some cl -> load_step c j cl q k = Some k' -> calls_move (CvStep j) k k'.
Proof.
  intros Hj. unfold load_step. pose proof (miss_cost (cc_constructor cl)) as Hmiss.
  pose proof (miss_pc_loading (cc_constructor cl)).
  destruct (cc_pc cl) as [|x| | |f|f| |f m|f m now|f r|o|b] eqn:Epc; try done.
  - destruct (lru_Get q (kr_lru k)) as [answer l]. intros [= <-].
    eapply (calls_step _ _ _ j cl); [exact Hj| |reflexivity|]; rewrite Epc; destruct answer; simpl; lia || done.
  - intros [= <-]. eapply (calls_step _ _ _ j cl); [exact Hj| |reflexivity|]; rewrite ?Epc; simpl; lia || done.
  - destruct (fg_join _ _); intros [= <-];
      (eapply (calls_step _ _ _ j cl); [exact Hj| |reflexivity|]; rewrite Epc; simpl; lia || done).
  - destruct (kr_flights k !! f) as [fl|]; [|done]. simpl. destruct (fl_result fl); [|done].
    intros [= <-]. eapply (calls_step _ _ _ j cl); [exact Hj| |reflexivity|]; rewrite ?Epc; simpl; lia || done.
  - intros [= <-]. eapply (calls_step _ _ _ j cl); [exact Hj| |reflexivity|]; rewrite ?Epc; simpl; lia || done.
Qed.

Lemma cache_step_move ev k k' : cache_step c ev k = Some k' -> calls_move ev k k'.
Proof.
  destruct ev as [message b|message| |j|j now|j r]; cbn [cache_step].
  - intros [= <-]. eapply calls_new; [done|reflexivity|]. intros _. apply load_pc_loading.
  - intros [= <-]. by eapply calls_new.
  - intros [= <-]. by apply calls_same.
  - destruct (kr_calls k !! j) as [cl|] eqn:Ej; [|done]. cbn [mbind option_bind].
    intros [(f & m & now & Epc & Hs)|(q & _ & Hs)]%step_cases; [|by eapply load_step_move].
    unfold add_step in Hs. destruct (m_Question m) as [|? [|? ?]]; simplify_eq.
    pose proof (stored_cost f m true). eapply (calls_step _ _ _ j cl); [exact Ej| |reflexivity|];
      rewrite Epc; simpl; [lia|by destruct f].
  - destruct (kr_calls k !! j) as [cl|] eqn:Ej; [|done]. cbn [mbind option_bind].
    destruct (cc_pc cl) as [|x| | |f|f| |f m|f m t|f r|o|b] eqn:Epc; try done; intros [= <-];
      (eapply (calls_step _ _ _ j cl); [exact Ej| |reflexivity|]); rewrite Epc;
      try destruct (entry_cached x now); simpl; lia || done || by destruct f.
  - destruct (kr_calls k !! j) as [cl|] eqn:Ej; [|done]. cbn [mbind option_bind].
    pose proof (fun f => constructed_cost c f r) as Hcost.
    destruct (cc_pc cl) as [|x| | |f|f| |f m|f m t|f r0|o|b] eqn:Epc; try done; intros [= <-];
      (eapply (calls_step _ _ _ j cl); [exact Ej| |reflexivity|]); rewrite Epc; simpl; try done.
    + specialize (Hcost f). lia.
    + intros _. apply constructed_pc_loading.
    + lia.
Qed.

(** A call keeps what it was made with, and its outcome. *)
Definition call_le (cl cl' : cache_call) : Prop :=
  cc_message cl' = cc_message cl /\ cc_constructor cl' = cc_constructor cl /\
  (forall o, cc_pc cl = KDone o -> cc_pc cl' = KDone o) /\
  (loading (cc_pc cl) -> loading (cc_pc cl')).

Lemma cache_step_call ev k k' j cl :
  cache_step c ev k = Some k' -> kr_calls k !! j = Some cl ->
  exists cl', kr_calls k' !! j = Some cl' /\ call_le cl cl'.
Proof.
  intros Hs%cache_step_move Hj. destruct Hs as [Hc|new _ Hc _|i cl0 pc Hi Hpc Hc Hl]; rewrite Hc.
  - by exists cl.
  - exists cl. split; [by apply lookup_app_l_Some|done].
  - rewrite set_kpc_lookup, Hj. destruct (decide (j = i)) as [->|]; [|by exists cl].
    eexists. split; [done|]. simplify_eq. split_and!; try done.
    intros o Ho. rewrite Ho in Hpc. simpl in Hpc. lia.
Qed.

(** Where a call that has not ended can be, when the call of a flight is not
    its own. *)
Lemma cache_step_load ev k k' :
  cache_step c ev k = Some k' ->
  (forall cl, cl ∈ kr_calls k -> cc_constructor cl = true -> loading (cc_pc cl)) ->
  forall cl, cl ∈ kr_calls k' -> cc_constructor cl = true -> loading (cc_pc cl).
Proof.
  intros Hs%cache_step_move Hk cl. destruct Hs as [Hc|new _ Hc Hn|i cl0 pc Hi Hpc Hc Hl]; rewrite Hc.
  - apply Hk.
  - intros [?|Hx%list_elem_of_singleton]%elem_of_app; [by apply Hk|subst cl; apply Hn].
  - intros (j & Hj)%list_elem_of_lookup_1. rewrite set_kpc_lookup in Hj.
    destruct (kr_calls k !! j) as [cl1|] eqn:Ej; [|done]. injection Hj as <-.
    destruct (decide (j = i)) as [->|].
    + cbn [cc_constructor cc_pc]. rewrite Hi in Ej. injection Ej as <-. intros Hb. apply Hl, Hk; [|done].
      by eapply list_elem_of_lookup_2.
    + apply Hk. by eapply list_elem_of_lookup_2.
Qed.

End calls.

(** *** What the client knows *)

Section invariant.
Context {L : Type} `{DnsLaws} `{SliceLaws} `{LruLaws L} `{FlightGroupLaws} `{ExLib} `{GroupLib}.
Context (cache : option defaultCache).
Implicit Types (s : client_run_state (L := L)) (evs : list client_event).

(** An exchange of this message returned [r]: the cache answered, or the
    transport. *)
Definition exchange_gave evs s (x : nat) (message : Msg) (r : gores (option Msg)) : Prop :=
  match cache with
  | Some _ => exists k o, kr_calls (cl_cache s) !! k = Some (MkCC message true (KDone o)) /\
      after_cache o = Ret r
  | None => In (CkTransport x r) evs
  end.

Definition exchange_ok evs s (x : nat) (e : exchange_call) : Prop :=
  match ex_pc e with
  | XCache k => is_Some cache /\ exists pc, kr_calls (cl_cache s) !! k = Some (MkCC (ex_message e) true pc)
  | XDirect => cache = None
  | XReturned r => exchange_gave evs s x (ex_message e) r
  end.

(** Exchange [x] asks for this type of this name. *)
Definition asks s (x : nat) (fqdn : string) (typ : Z) (pc : exchange_pc) : Prop :=
  exists id, cl_exchanges s !! x = Some (MkEX (lookup_message id (dns_Fqdn fqdn) typ) pc).

Definition task_ok s (fqdn : string) (typ : Z) (pc : task_pc) : Prop :=
  match pc with
  | TId => True
  | TWait x => exists pc, asks s x fqdn typ pc
  | TReturned r => exists x rx, asks s x fqdn typ (XReturned rx) /\ r = lookup_answer rx
  end.

Definition lookup_ok s (lk : lookup_call) : Prop :=
  if is_root (lk_fqdn lk) then lk = new_lookup (lk_fqdn lk) (lk_strategy lk)
  else
    (lk_tasks lk).*1 = strategy_types (lk_strategy lk) /\
    (forall t typ pc, lk_tasks lk !! t = Some (typ, pc) -> task_ok s (lk_fqdn lk) typ pc) /\
    (forall r, lk_result lk = Some r ->
       exists rs, returned (lk_tasks lk) = Some rs /\ r = lookup_end (lk_strategy lk) rs).

(** The cache has taken the steps of a run of its own, whose events are those
    of the whole and the calls of the exchanges. *)
Definition cache_log evs (log : list cache_event) : Prop :=
  forall ev, In ev log -> (exists m b, ev = CvLoad m b) \/ In (CkCache ev) evs.

Record cl_ok evs s : Prop := {
  co_cache : forall c, cache = Some c -> exists log, cache_run c log (cl_cache s) /\ cache_log evs log;
  co_load : forall cl, cl ∈ kr_calls (cl_cache s) -> cc_constructor cl = true -> loading (cc_pc cl);
  co_exchanges : forall x e, cl_exchanges s !! x = Some e -> exchange_ok evs s x e;
  co_lookups : forall l lk, cl_lookups s !! l = Some lk -> lookup_ok s lk;
}.

(** *** What stays *)

Definition calls_keep s s' : Prop := forall k cl, kr_calls (cl_cache s) !! k = Some cl ->
  exists cl', kr_calls (cl_cache s') !! k = Some cl' /\ call_le cl cl'.

Definition exchanges_keep s s' : Prop := forall x e, cl_exchanges s !! x = Some e ->
  exists e', cl_exchanges s' !! x = Some e' /\ ex_message e' = ex_message e /\
    forall r, ex_pc e = XReturned r -> e' = e.

Lemma call_le_eq m b pc cl' : call_le (MkCC m b pc) cl' -> exists pc', cl' = MkCC m b pc'.
Proof. destruct cl'. intros (Hm & Hb & _). simpl in *. subst. eauto. Qed.

Lemma exchange_ok_keep evs evs' s s' x e :
  (forall ev, In ev evs -> In ev evs') -> calls_keep s s' ->
  exchange_ok evs s x e -> exchange_ok evs' s' x e.
Proof.
  intros Hin Hc. unfold exchange_ok, exchange_gave. destruct (ex_pc e) as [k| |r]; [|done|].
  - intros [? (pc & Hk)]. split; [done|]. destruct (Hc _ _ Hk) as (cl' & Hk' & Hle).
    destruct (call_le_eq _ _ _ _ Hle) as [pc' ->]. eauto.
  - destruct cache; [|auto]. intros (k & o & Hk & Ho). exists k, o. split; [|done].
    destruct (Hc _ _ Hk) as (cl' & Hk' & Hm & Hb & Hd & _). rewrite Hk'. destruct cl'. simpl in *.
    subst. f_equal. f_equal. by apply Hd.
Qed.

Lemma task_ok_keep s s' fqdn typ pc : exchanges_keep s s' -> task_ok s fqdn typ pc -> task_ok s' fqdn typ pc.
Proof.
  intros He. unfold task_ok, asks. destruct pc as [|x|r]; [done| |].
  - intros (pc & id & Hx). destruct (He _ _ Hx) as ([m pc'] & Hx' & Hm & _). simpl in Hm. subst m. eauto.
  - intros (x & rx & [id Hx] & ->). exists x, rx. split; [|done]. exists id.
    destruct (He _ _ Hx) as (e' & -> & _ & Heq). by rewrite (Heq rx).
Qed.

Lemma lookup_ok_keep s s' lk : exchanges_keep s s' -> lookup_ok s lk -> lookup_ok s' lk.
Proof.
  intros He. unfold lookup_ok. destruct (is_root (lk_fqdn lk)); [done|].
  intros (Hty & Ht & Hr). split_and!; [done| |done]. intros t typ pc Hlk. eapply task_ok_keep; eauto.
Qed.

Lemma exchanges_keep_refl s s' : cl_exchanges s' = cl_exchanges s -> exchanges_keep s s'.
Proof. intros Heq x e Hx. exists e. rewrite Heq. eauto. Qed.

Lemma calls_keep_refl s s' : cl_cache s' = cl_cache s -> calls_keep s s'.
Proof. intros Heq k cl Hk. exists cl. rewrite Heq. by split_and!. Qed.

Lemma cache_log_in evs evs' log :
  (forall ev, In ev evs -> In ev evs') -> cache_log evs log -> cache_log evs' log.
Proof. intros Hin Hl ev Hev. destruct (Hl ev Hev); auto. Qed.

(** More events, and steps that leave the cache alone. *)
Lemma cl_ok_step evs evs' s s' :
  (forall ev, In ev evs -> In ev evs') -> cl_ok evs s ->
  cl_cache s' = cl_cache s -> exchanges_keep s s' ->
  (forall x e, cl_exchanges s' !! x = Some e ->
     cl_exchanges s !! x = Some e \/ exchange_ok evs' s' x e) ->
  (forall l lk, cl_lookups s' !! l = Some lk -> cl_lookups s !! l = Some lk \/ lookup_ok s' lk) ->
  cl_ok evs' s'.
Proof.
  intros Hin Hok Hc He Hx Hl. pose proof (calls_keep_refl _ _ Hc) as Hkeep. split.
  - intros c Hcc. destruct (co_cache _ _ Hok c Hcc) as (log & Hr & Hlog). exists log. rewrite Hc.
    split; [done|]. by eapply cache_log_in.
  - rewrite Hc. apply (co_load _ _ Hok).
  - intros x e Hxe. destruct (Hx _ _ Hxe) as [Hold|]; [|done].
    eapply exchange_ok_keep; [done..|]. by apply (co_exchanges _ _ Hok).
  - intros l lk Hlk. destruct (Hl _ _ Hlk) as [Hold|]; [|done].
    eapply lookup_ok_keep; [done|]. by apply (co_lookups _ _ Hok _ _ Hold).
Qed.

Lemma cl_ok_in evs evs' s : (forall ev, In ev evs -> In ev evs') -> cl_ok evs s -> cl_ok evs' s.
Proof. intros Hin Hok. eapply cl_ok_step; eauto using exchanges_keep_refl. Qed.

(** A step of the cache. *)
Lemma cl_ok_cache evs s c ev k :
  cl_ok evs s -> cache = Some c -> cache_step c ev (cl_cache s) = Some k ->
  (exists m b, ev = CvLoad m b) \/ In (CkCache ev) evs ->
  cl_ok evs (MkCL (cl_query s) k (cl_exchanges s) (cl_lookups s)).
Proof.
  intros Hok Hc Hs Hev. split; cbn [cl_cache cl_exchanges cl_lookups].
  - intros c' Hc'. rewrite Hc in Hc'. injection Hc' as <-.
    destruct (co_cache _ _ Hok c Hc) as (log & Hr & Hlog). exists (log ++ [ev]).
    split; [by econstructor|]. intros ev' [?|[<-|[]]]%in_app_iff; [auto|done].
  - eapply cache_step_load; [exact Hs|apply (co_load _ _ Hok)].
  - intros x e Hx. apply (exchange_ok_keep evs evs s); [done| |by apply (co_exchanges _ _ Hok)].
    intros j cl Hj. by eapply cache_step_call.
  - intros l lk Hlk. apply (lookup_ok_keep s); [by apply exchanges_keep_refl|].
    by apply (co_lookups _ _ Hok _ _ Hlk).
Qed.

Lemma new_exchange_exchanges message s : exists pc,
  cl_exchanges (new_exchange cache message s) = cl_exchanges s ++ [MkEX message pc].
Proof. unfold new_exchange. destruct cache; simpl; eauto. Qed.

Lemma new_exchange_keep message s : exchanges_keep s (new_exchange cache message s).
Proof.
  intros x e Hx. destruct (new_exchange_exchanges message s) as [pc ->].
  exists e. split; [by apply lookup_app_l_Some|done].
Qed.

(** A new exchange. *)
Lemma new_exchange_ok evs s message : cl_ok evs s -> cl_ok evs (new_exchange cache message s).
Proof.
  intros Hok. unfold new_exchange. destruct cache as [c|] eqn:Hc.
  - cbn [cache_step default]. set (k := MkKR _ _ _).
    pose proof (cl_ok_cache evs s c (CvLoad message true) k Hok Hc eq_refl (or_introl (ex_intro _ _ (ex_intro _ _ eq_refl)))) as Hok1.
    eapply cl_ok_step; [| exact Hok1|done| | |]; cbn [cl_exchanges cl_lookups]; [done| | |by left].
    + intros x e Hx. exists e. split; [by apply lookup_app_l_Some|done].
    + intros x e [?|[_ Hx]]%lookup_app_Some; [by left|right].
      apply list_lookup_singleton_Some in Hx as [_ <-]. split; [by eexists|].
      eexists. cbn [cl_cache k kr_calls ex_message ex_pc]. by apply list_lookup_middle.
  - eapply cl_ok_step; [| exact Hok|done| | |]; cbn [cl_exchanges cl_lookups]; [done| | |by left].
    + intros x e Hx. exists e. split; [by apply lookup_app_l_Some|done].
    + intros x e [?|[_ Hx]]%lookup_app_Some; [by left|right].
      apply list_lookup_singleton_Some in Hx as [_ <-]. done.
Qed.

Lemma set_tpc_lookup l t pc s i :
  cl_lookups (set_tpc l t pc s) !! i =
  (if decide (i = l) then fun lk => MkLK (lk_fqdn lk) (lk_strategy lk)
       (alter (fun tk => (tk.1, pc)) t (lk_tasks lk)) (lk_result lk) else id) <$> cl_lookups s !! i.
Proof.
  simpl. destruct (decide (i = l)) as [->|Hne].
  - by rewrite list_lookup_alter_eq.
  - rewrite list_lookup_alter_ne by done. by destruct (cl_lookups s !! i).
Qed.

Lemma alter_fst (t : nat) (pc : task_pc) (tasks : list (Z * task_pc)) :
  (alter (fun tk => (tk.1, pc)) t tasks).*1 = tasks.*1.
Proof.
  revert t. induction tasks as [|tk tasks IH]; intros [|t]; simpl; try done.
  f_equal. exact (IH t).
Qed.

Lemma returned_done tasks rs : returned tasks = Some rs -> tasks.*2 = TReturned <$> rs.
Proof.
  revert rs. induction tasks as [|[typ []] tasks IH]; intros rs; simpl; try done; [by intros [= <-]|].
  destruct (returned tasks) as [rs'|]; [|done]. intros [= <-]. simpl. f_equal. exact (IH rs' eq_refl).
Qed.

(** A task goes on. *)
Lemma set_tpc_ok evs s l t lk typ pc0 pc :
  cl_ok evs s -> cl_lookups s !! l = Some lk -> lk_tasks lk !! t = Some (typ, pc0) ->
  (forall r, pc0 <> TReturned r) -> task_ok s (lk_fqdn lk) typ pc -> cl_ok evs (set_tpc l t pc s).
Proof.
  intros Hok Hl Ht Hpc0 Hpc.
  eapply cl_ok_step; [done|exact Hok|done|by apply exchanges_keep_refl|by left|].
  intros i lk'. rewrite set_tpc_lookup. destruct (decide (i = l)) as [->|]; [right|left; by destruct (cl_lookups s !! i)].
  rewrite Hl in *. pose proof (co_lookups _ _ Hok _ _ Hl) as Hlk. match goal with H : _ = Some lk' |- _ => injection H as <- end.
  unfold lookup_ok in *. cbn [lk_fqdn lk_strategy lk_tasks lk_result].
  destruct (is_root (lk_fqdn lk)) eqn:Eroot.
  { rewrite Hlk in Ht. unfold new_lookup in Ht. by rewrite Eroot in Ht. }
  destruct Hlk as (Hty & Htk & Hr). split_and!.
  - by rewrite alter_fst.
  - intros t' typ' pc'. destruct (decide (t' = t)) as [->|].
    + rewrite list_lookup_alter_eq, Ht. intros [= <- <-]. by apply (task_ok_keep s); [apply exchanges_keep_refl|].
    + rewrite list_lookup_alter_ne by done. intros Ht'. apply (task_ok_keep s); [by apply exchanges_keep_refl|].
      by eapply Htk.
  - intros r Hres. destruct (Hr r Hres) as (rs & Hrs & _). apply returned_done in Hrs.
    apply (f_equal (.!! t)) in Hrs. rewrite !list_lookup_fmap, Ht in Hrs. destruct (rs !! t) as [r'|]; [|done].
    injection Hrs as ->. by destruct (Hpc0 r').
Qed.

(** An exchange returns. *)
Lemma set_xpc_ok evs s x e r :
  cl_ok evs s -> cl_exchanges s !! x = Some e -> (forall r, ex_pc e <> XReturned r) ->
  exchange_gave evs s x (ex_message e) r -> cl_ok evs (set_xpc x (XReturned r) s).
Proof.
  intros Hok Hx Hpc Hg. eapply cl_ok_step; [done|exact Hok|done| | |by left].
  - intros y e' Hy. cbn [cl_exchanges set_xpc]. destruct (decide (y = x)) as [->|].
    + rewrite list_lookup_alter_eq, Hx. rewrite Hx in Hy. injection Hy as <-. eexists. split; [done|].
      split; [done|]. intros r' Hr'. by destruct (Hpc r').
    + rewrite list_lookup_alter_ne by done. eauto.
  - intros y e'. cbn [cl_exchanges set_xpc]. destruct (decide (y = x)) as [->|]; [|rewrite list_lookup_alter_ne by done; by left].
    rewrite list_lookup_alter_eq, Hx. intros [= <-]. right. exact Hg.
Qed.

End invariant.

(** *** The whole run *)

Section whole.
Context {L : Type} `{DnsLaws} `{SliceLaws} `{LruLaws L} `{FlightGroupLaws} `{ExLib} `{GroupLib}.
Context (cache : option defaultCache) (dns_Id : Z).
Implicit Types (s : client_run_state (L := L)) (evs : list client_event).

(** The queries so far. *)
Definition query_made (ev : client_event) : nat := match ev with CkId _ _ => 1 | _ => 0 end.
Definition queries evs : nat := sum_list_with query_made evs.

Lemma cl_ok_start l : cl_ok cache [] (client_start dns_Id l) <-> forall c, cache = Some c ->
  exists log, cache_run c log (cache_start l) /\ cache_log [] log.
Proof.
  split; [intros Hok; apply (co_cache _ _ _ Hok)|]. intros Hc. split; [done| | |]; simpl.
  - intros cl Hcl. by apply elem_of_nil in Hcl.
  - done.
  - done.
Qed.

(** The step of a task to its query. *)
Lemma id_step s l t s' :
  client_step cache (CkId l t) s = Some (Ret s') -> exists lk typ,
    cl_lookups s !! l = Some lk /\ lk_tasks lk !! t = Some (typ, TId) /\
    s' = set_tpc l t (TWait (length (cl_exchanges s)))
           (new_exchange cache (lookup_message (u16 (u32 (cl_query s + 1))) (dns_Fqdn (lk_fqdn lk)) typ)
             (MkCL (u32 (cl_query s + 1)) (cl_cache s) (cl_exchanges s) (cl_lookups s))).
Proof.
  cbn [client_step]. destruct (cl_lookups s !! l) as [lk|]; [|done]. cbn [mbind option_bind].
  destruct (lk_tasks lk !! t) as [[typ pc]|] eqn:Et; [|done]. cbn [mbind option_bind fst snd].
  destruct pc; try done. intros [= <-]. eauto.
Qed.

Lemma task_id_step_ok evs s l t s' :
  cl_ok cache evs s -> client_step cache (CkId l t) s = Some (Ret s') -> cl_ok cache evs s'.
Proof.
  intros Hok (lk & typ & Hl & Ht & ->)%id_step. set (s0 := MkCL _ _ _ _).
  assert (cl_ok cache evs s0) as Hok0.
  { by eapply cl_ok_step; [| exact Hok|done|by apply exchanges_keep_refl|by left|by left]. }
  eapply set_tpc_ok; [by apply new_exchange_ok| |exact Ht|done|].
  - cbn. unfold new_exchange. by destruct cache.
  - destruct (new_exchange_exchanges cache (lookup_message (u16 (u32 (cl_query s + 1)))
      (dns_Fqdn (lk_fqdn lk)) typ) s0) as [pc Hx].
    exists pc, (u16 (u32 (cl_query s + 1))). rewrite Hx. by apply list_lookup_middle.
Qed.

Lemma task_step s l t s' :
  client_step cache (CkTask l t) s = Some (Ret s') -> exists lk typ x m r,
    cl_lookups s !! l = Some lk /\ lk_tasks lk !! t = Some (typ, TWait x) /\
    cl_exchanges s !! x = Some (MkEX m (XReturned r)) /\
    s' = set_tpc l t (TReturned (lookup_answer r)) s.
Proof.
  cbn [client_step]. destruct (cl_lookups s !! l) as [lk|] eqn:El; [|done].
  cbn [mbind option_bind]. destruct (lk_tasks lk !! t) as [[typ pc]|] eqn:Et; [|done].
  cbn [mbind option_bind fst snd]. destruct pc as [|x|]; try done.
  destruct (cl_exchanges s !! x) as [[m pc]|] eqn:Ex; [|done]. cbn [mbind option_bind ex_pc].
  destruct pc as [| |r]; try done. intros [= <-]. by exists lk, typ, x, m, r.
Qed.

Lemma task_step_ok evs s l t s' :
  cl_ok cache evs s -> client_step cache (CkTask l t) s = Some (Ret s') -> cl_ok cache evs s'.
Proof.
  intros Hok (lk & typ & x & m & r & Hl & Ht & Hx & ->)%task_step.
  eapply set_tpc_ok; [exact Hok|exact Hl|exact Ht|done|].
  exists x, r. split; [|done].
  pose proof (co_lookups _ _ _ Hok _ _ Hl) as Hlk. unfold lookup_ok in Hlk.
  destruct (is_root (lk_fqdn lk)) eqn:Eroot.
  { rewrite Hlk in Ht. unfold new_lookup in Ht. by rewrite Eroot in Ht. }
  destruct Hlk as (_ & Htk & _). destruct (Htk _ _ _ Ht) as (pc & id & Hx').
  exists id. rewrite Hx in Hx'. injection Hx' as -> _. exact Hx.
Qed.

Lemma end_step_lookup s l s' :
  client_step cache (CkEnd l) s = Some (Ret s') -> exists lk rs,
    cl_lookups s !! l = Some lk /\ lk_result lk = None /\ returned (lk_tasks lk) = Some rs /\
    s' = MkCL (cl_query s) (cl_cache s) (cl_exchanges s)
           (<[l := MkLK (lk_fqdn lk) (lk_strategy lk) (lk_tasks lk)
                     (Some (lookup_end (lk_strategy lk) rs))]> (cl_lookups s)).
Proof.
  cbn [client_step]. destruct (cl_lookups s !! l) as [lk|]; [|done]. cbn [mbind option_bind].
  destruct (lk_result lk) eqn:Er; [done|]. destruct (returned (lk_tasks lk)) as [rs|] eqn:Ers; [|done].
  cbn [mbind option_bind]. intros [= <-]. eauto 10.
Qed.

Lemma lookup_end_step_ok evs s l s' :
  cl_ok cache evs s -> client_step cache (CkEnd l) s = Some (Ret s') -> cl_ok cache evs s'.
Proof.
  intros Hok (lk & rs & Hl & Hr & Hrs & ->)%end_step_lookup.
  eapply cl_ok_step; [done|exact Hok|done|by apply exchanges_keep_refl|by left|]. cbn [cl_lookups].
  intros i lk' [(<- & <- & _)|[_ ?]]%list_lookup_insert_Some; [right|by left].
  pose proof (co_lookups _ _ _ Hok _ _ Hl) as Hlk. unfold lookup_ok in *.
  cbn [lk_fqdn lk_strategy lk_tasks lk_result]. destruct (is_root (lk_fqdn lk)) eqn:Eroot.
  { rewrite Hlk in Hr. unfold new_lookup in Hr. by rewrite Eroot in Hr. }
  destruct Hlk as (Hty & Ht & _). split_and!; [done|by intros; eapply (task_ok_keep s); [apply exchanges_keep_refl|eauto]|].
  intros r [= <-]. eauto.
Qed.

Lemma return_step s x :
  match client_step cache (CkReturn x) s with
  | Some r => exists m k cl o, cl_exchanges s !! x = Some (MkEX m (XCache k)) /\
      kr_calls (cl_cache s) !! k = Some cl /\ cc_pc cl = KDone o /\
      match after_cache o with
      | Ret r' => r = Ret (set_xpc x (XReturned r') s)
      | Panic why => r = Panic why
      end
  | None => True
  end.
Proof.
  cbn [client_step]. destruct (cl_exchanges s !! x) as [[m pc]|] eqn:Ex; [|done]. cbn [mbind option_bind ex_pc].
  destruct pc as [k| |]; try done. destruct (kr_calls (cl_cache s) !! k) as [cl|] eqn:Ek; [|done].
  cbn [mbind option_bind]. destruct (cc_pc cl) as [| | | | | | | | | |o|] eqn:Epc; try done.
  destruct (after_cache o) eqn:Eo; exists m, k, cl, o; by rewrite Eo.
Qed.

Lemma return_step_ok evs s x s' :
  cl_ok cache evs s -> client_step cache (CkReturn x) s = Some (Ret s') -> cl_ok cache evs s'.
Proof.
  intros Hok Hs. pose proof (return_step s x) as Hr. rewrite Hs in Hr.
  destruct Hr as (m & k & cl & o & Hx & Hk & Hpc & Hr).
  pose proof (co_exchanges _ _ _ Hok _ _ Hx) as [[c Hc] (pc & Hk')]. cbn [ex_message] in Hk'.
  rewrite Hk in Hk'. injection Hk' as ->. cbn [cc_pc] in Hpc. subst pc.
  destruct (after_cache o) as [r|why] eqn:Eo; [|done]. injection Hr as ->.
  eapply set_xpc_ok; [done|exact Hx|done|]. unfold exchange_gave. rewrite Hc. eauto.
Qed.

Lemma transport_step s x r s' :
  client_step cache (CkTransport x r) s = Some (Ret s') -> exists m,
    cl_exchanges s !! x = Some (MkEX m XDirect) /\ s' = set_xpc x (XReturned r) s.
Proof.
  cbn [client_step]. destruct (cl_exchanges s !! x) as [[m pc]|] eqn:Ex; [|done].
  cbn [mbind option_bind ex_pc]. destruct pc; try done. intros [= <-]. eauto.
Qed.

Lemma transport_step_ok evs s x r s' :
  cl_ok cache evs s -> In (CkTransport x r) evs ->
  client_step cache (CkTransport x r) s = Some (Ret s') -> cl_ok cache evs s'.
Proof.
  intros Hok Hin (m & Hx & ->)%transport_step.
  pose proof (co_exchanges _ _ _ Hok _ _ Hx) as Hc. cbn in Hc.
  eapply set_xpc_ok; [done|exact Hx|done|]. unfold exchange_gave. by rewrite Hc.
Qed.

Lemma cache_step_client s ev s' :
  client_step cache (CkCache ev) s = Some (Ret s') -> exists c k,
    cache = Some c /\ cache_step c ev (cl_cache s) = Some k /\
    s' = MkCL (cl_query s) k (cl_exchanges s) (cl_lookups s).
Proof.
  cbn [client_step]. destruct cache as [c|]; [|done]. cbn [mbind option_bind].
  destruct (cache_step c ev (cl_cache s)) as [k|] eqn:Ek; [|done]. intros [= <-]. eauto.
Qed.

Lemma client_run_ok evs s : client_run cache dns_Id evs s -> cl_ok cache evs s.
Proof.
  induction 1 as [n l Hn|evs s ev s' _ Hok Hs].
  - apply cl_ok_start. intros c _. exists []. split; [by eapply cache_run_nil|by intros ev []].
  - assert (cl_ok cache (evs ++ [ev]) s) as Hok'.
    { eapply cl_ok_in; [|exact Hok]. intros e He. apply in_app_iff. auto. }
    assert (In ev (evs ++ [ev])) as Hin by (apply in_app_iff; simpl; auto).
    destruct ev as [fqdn strategy|message|l t|l t|l|x|x r|ev].
    + injection Hs as <-. eapply cl_ok_step; [|exact Hok'|done|by apply exchanges_keep_refl|by left|]; [done|].
      cbn [cl_lookups]. intros l lk [?|[_ Hl]]%lookup_app_Some; [by left|right].
      apply list_lookup_singleton_Some in Hl as [_ <-]. unfold lookup_ok, new_lookup.
      destruct (is_root fqdn) eqn:Er; cbn [lk_fqdn lk_strategy lk_tasks lk_result]; rewrite Er; [done|].
      split_and!; [|intros t typ pc|done].
      * rewrite <- list_fmap_compose. apply list_fmap_id.
      * rewrite list_lookup_fmap. destruct (_ !! t); [|done]. by intros [= <- <-].
    + injection Hs as <-. by apply new_exchange_ok.
    + by eapply task_id_step_ok.
    + by eapply task_step_ok.
    + by eapply lookup_end_step_ok.
    + by eapply return_step_ok.
    + by eapply transport_step_ok.
    + apply cache_step_client in Hs as (c & k & Hc & Hk & ->). eapply cl_ok_cache; eauto.
Qed.

Lemma client_run_query evs s :
  client_run cache dns_Id evs s -> cl_query s = u32 (dns_Id + Z.of_nat (queries evs)).
Proof.
  induction 1 as [n l Hn|evs s ev s' _ IH Hs]; [by rewrite Z.add_0_r|].
  unfold queries. rewrite sum_list_with_app. fold (queries evs).
  assert (cl_query s' = if query_made ev then cl_query s else u32 (cl_query s + 1)) as ->.
  { destruct ev as [fqdn strategy|message|l t|l t|l|x|x r|ev]; cbn [query_made].
    - by injection Hs as <-.
    - injection Hs as <-. unfold new_exchange. by destruct cache.
    - apply id_step in Hs as (lk & typ & _ & _ & ->). cbn. unfold new_exchange. by destruct cache.
    - by apply task_step in Hs as (lk & typ & x & m & r & _ & _ & _ & ->).
    - by apply end_step_lookup in Hs as (lk & rs & _ & _ & _ & ->).
    - pose proof (return_step s x) as Hr. rewrite Hs in Hr. destruct Hr as (m & k & cl & o & _ & _ & _ & Hr).
      destruct (after_cache o); by simplify_eq.
    - by apply transport_step in Hs as (m & _ & ->).
    - by apply cache_step_client in Hs as (c & k & _ & _ & ->). }
  destruct ev; simpl; rewrite ?Nat.add_0_r; try done. rewrite IH. unfold u32.
  rewrite Zplus_mod_idemp_l. f_equal. lia.
Qed.

End whole.

(** *** What a lookup comes to *)

Section results.
Context {L : Type} `{DnsLaws} `{SliceLaws} `{LruLaws L} `{FlightGroupLaws} `{ExLaws} `{GroupLaws}.
Context (cache : option defaultCache) (dns_Id : Z).
Implicit Types (s : client_run_state (L := L)) (evs : list client_event).

(** How the results of the exchanges make the result of the lookup. *)
Definition lookup_result (strategy : Strategy) (rs : list (gores (list Addr))) (r : gores (list Addr)) : Prop :=
  match rs with
  | [r1] => r = r1
  | [(a4, e4); (a6, e6)] => combined strategy a4 e4 a6 e6 r
  | _ => False
  end.

Lemma lookup_end_result strategy rs :
  length rs = length (strategy_types strategy) -> lookup_result strategy rs (lookup_end strategy rs).
Proof.
  unfold strategy_types. destruct rs as [|r1 [|[a6 e6] [|? ?]]].
  - by repeat destruct (Z.eqb _ _).
  - by destruct r1.
  - intros _. destruct r1 as [a4 e4]. simpl. unfold combined. destruct (_ && _)%bool; [|done].
    split; [done|]. cbn [snd]. rewrite group_error_none, !Forall_cons, Forall_nil, !task_err_none. tauto.
  - by repeat destruct (Z.eqb _ _).
Qed.

(** The tasks of a lookup that has ended. *)
Lemma lookup_ended s lk r :
  lookup_ok s lk -> is_root (lk_fqdn lk) = false -> lk_result lk = Some r ->
  exists rs, Forall2 (fun typ a => exists x rx,
      asks s x (lk_fqdn lk) typ (XReturned rx) /\ a = lookup_answer rx)
    (strategy_types (lk_strategy lk)) rs /\
    lookup_result (lk_strategy lk) rs r.
Proof.
  unfold lookup_ok. intros Hlk Hroot. rewrite Hroot in Hlk. destruct Hlk as (Hty & Ht & Hr). intros Hres.
  destruct (Hr _ Hres) as (rs & Hrs & ->). exists rs. apply returned_done in Hrs.
  assert (length rs = length (strategy_types (lk_strategy lk))) as Hlen.
  { rewrite <- Hty, <- (length_fmap TReturned rs), <- Hrs. by rewrite !length_fmap. }
  split; [|by apply lookup_end_result].
  apply Forall2_same_length_lookup_2; [done|]. intros t typ a Htyp Ha.
  rewrite <- Hty, list_lookup_fmap in Htyp. destruct (lk_tasks lk !! t) as [[typ' pc]|] eqn:Et; [|done].
  injection Htyp as ->. apply (f_equal (.!! t)) in Hrs. rewrite !list_lookup_fmap, Et, Ha in Hrs.
  injection Hrs as ->. exact (Ht _ _ _ Et).
Qed.

Lemma next_query_id evs s :
  client_run cache dns_Id evs s ->
  u16 (u32 (cl_query s + 1)) = ((dns_Id + Z.of_nat (S (queries evs))) mod 65536)%Z.
Proof.
  intros Hr. rewrite (client_run_query _ _ _ _ Hr). unfold u16, u32.
  rewrite Zplus_mod_idemp_l. rewrite <- Znumtheory.Zmod_div_mod; [|done|done|by exists 65536%Z].
  f_equal. lia.
Qed.

(** C16: Concurrent lookups.  However the lookups, exchanges and flights of
    many callers interleave, a lookup that has ended asked for each type of
    its strategy once, and combines what these exchanges returned as
    the sequential lookup does; and the n-th query of the client is asked
    under the n-th id after the random first one, modulo 65536, whatever the
    32-bit counter. *)
Theorem client_run_lookup evs s :
  client_run cache dns_Id evs s ->
  (forall l lk r, cl_lookups s !! l = Some lk -> lk_result lk = Some r ->
     if is_root (lk_fqdn lk) then exists e, r = ([], Some e)
     else exists rs, Forall2 (fun typ a => exists x id rx,
              cl_exchanges s !! x = Some (MkEX (lookup_message id (dns_Fqdn (lk_fqdn lk)) typ) (XReturned rx)) /\
              a = lookup_answer rx) (strategy_types (lk_strategy lk)) rs /\
            lookup_result (lk_strategy lk) rs r) /\
  (forall l t s', client_step cache (CkId l t) s = Some (Ret s') -> exists lk typ pc,
     cl_lookups s !! l = Some lk /\ lk_tasks lk !! t = Some (typ, TId) /\
     cl_exchanges s' = cl_exchanges s ++
       [MkEX (lookup_message ((dns_Id + Z.of_nat (S (queries evs))) mod 65536) (dns_Fqdn (lk_fqdn lk)) typ) pc]).
Proof.
  intros Hr. pose proof (client_run_ok _ _ _ _ Hr) as Hok. split.
  - intros l lk r Hl Hres. pose proof (co_lookups _ _ _ Hok _ _ Hl) as Hlk.
    destruct (is_root (lk_fqdn lk)) eqn:Hroot.
    + unfold lookup_ok in Hlk. rewrite Hroot in Hlk. rewrite Hlk in Hres. unfold new_lookup in Hres.
      rewrite Hroot in Hres. injection Hres as <-. by eexists.
    + destruct (lookup_ended _ _ _ Hlk Hroot Hres) as (rs & Hrs & Hc). exists rs. split; [|done].
      eapply Forall2_impl; [exact Hrs|]. intros typ a (x & rx & [id Hx] & ->). by exists x, id, rx.
  - intros l t s' (lk & typ & Hl & Ht & ->)%id_step. rewrite (next_query_id _ _ Hr).
    match goal with |- context [new_exchange ?c ?m ?s0] =>
      destruct (new_exchange_exchanges c m s0) as [pc Hx] end.
    exists lk, typ, pc. split_and!; [done..|]. cbn [cl_exchanges set_tpc]. exact Hx.
Qed.

(** *** Honest answers *)

(** A message whose addresses, if it is a success, satisfy the relation for
    the question it is about. *)
Definition trusted (P : answers_rel) (m : Msg) : Prop := forall q, m_Question m = [q] -> good P q m.

(** What is asked of a result for a request. *)
Definition honest_result (P : answers_rel) (message : Msg) (r : gores (option Msg)) : Prop :=
  match r with
  | (_, Some _) => True
  | (Some m, None) => trusted P m /\ forall q, m_Question message = [q] -> m_Question m = [q]
  | (None, None) => False
  end.

(** The transport and those who use [Store] are honest, and questions that
    are asked hash to different values. *)
Definition honest_event (P : answers_rel) s (ev : client_event) : Prop :=
  match ev with
  | CkCache (CvResult k r) =>
      forall cl, kr_calls (cl_cache s) !! k = Some cl -> honest_result P (cc_message cl) r
  | CkTransport x r =>
      forall e, cl_exchanges s !! x = Some e -> honest_result P (ex_message e) r
  | CkCache (CvStore m) => trusted P m
  | _ => True
  end.

Definition hash_separates s : Prop :=
  forall k k' cl cl' q q', kr_calls (cl_cache s) !! k = Some cl -> kr_calls (cl_cache s) !! k' = Some cl' ->
    m_Question (cc_message cl) = [q] -> m_Question (cc_message cl') = [q'] ->
    fg_hash q = fg_hash q' -> q = q'.

End results.

(** *** Honest exchanges *)

Lemma cache_run_result {L} `{DnsLib} `{SliceLib} `{!LruLib L} `{FlightGroup} c log (k : cache_run_state (L := L)) j r :
  cache_run c log k -> In (CvResult j r) log -> is_Some (kr_calls k !! j).
Proof.
  induction 1 as [n l Hn|log k ev k' _ IH Hs]; [by intros []|]. intros [Hin|[->|[]]]%in_app_iff.
  - destruct (IH Hin) as [cl Hj]. destruct (cache_step_call _ _ _ _ _ _ Hs Hj) as (cl' & -> & _). done.
  - pose proof Hs as Hs'. cbn [cache_step] in Hs'. destruct (kr_calls k !! j) as [cl|] eqn:Ej; [|done].
    destruct (cache_step_call _ _ _ _ _ _ Hs Ej) as (cl' & -> & _). done.
Qed.

Section honest.
Context {L : Type} `{DnsLaws} `{SliceLaws} `{LruLaws L} `{FlightGroupLaws} `{ExLaws} `{GroupLaws}.
Context (cache : option defaultCache) (P : answers_rel).
Context (evs : list client_event) (s : client_run_state (L := L)).
Hypothesis Hok : cl_ok cache evs s.
Hypothesis Hhonest : forall ev, In ev evs -> honest_event P s ev.
Hypothesis Hhash : hash_separates s.

(** What an exchange may come to. *)
Definition answer_good (message : Msg) (r : gores (option Msg)) : Prop :=
  r <> (None, None) /\
  forall m, r = (Some m, None) -> forall q, m_Question message = [q] -> good P q m.

Lemma honest_answer_good message r : honest_result P message r -> answer_good message r.
Proof.
  destruct r as [[m|] [e|]]; simpl; intros Hr; split; try done.
  intros m' [= <-] q Hq. destruct Hr as [Ht Hm]. by apply Ht, Hm.
Qed.

(** A result of a constructor, in the cache's own run. *)
Lemma result_honest log k cl r :
  cache_log evs log -> In (CvResult k r) log -> kr_calls (cl_cache s) !! k = Some cl ->
  honest_result P (cc_message cl) r.
Proof.
  intros Hlog Hin Hk. destruct (Hlog _ Hin) as [(m & b & Heq)|Hev]; [done|].
  exact (Hhonest _ Hev cl Hk).
Qed.

(** What a flight for the hash of a question gave. *)
Lemma flight_honest_result log k cl q r :
  cache_log evs log -> kr_calls (cl_cache s) !! k = Some cl -> m_Question (cc_message cl) = [q] ->
  flight_gave log (cl_cache s) (fg_hash q) r -> answer_good (cc_message cl) r.
Proof.
  intros Hlog Hk Hq (k' & cl' & q' & r' & Hk' & Hq' & Hh & _ & Hin & ->).
  pose proof (result_honest _ _ _ _ Hlog Hin Hk') as Hr.
  assert (q' = q) as -> by exact (Hhash _ _ _ _ _ _ Hk' Hk Hq' Hq Hh).
  assert (honest_result P (cc_message cl) (clean r')) as Hr'; [|by apply honest_answer_good].
  destruct r' as [[m|] [e|]]; simpl in *; try done. split; [tauto|]. intros q1 Hq1.
  assert (q1 = q) as -> by congruence. by apply (proj2 Hr).
Qed.

(** A message that came into the cache. *)
Lemma stored_honest c log m :
  cache_run c log (cl_cache s) -> cache_log evs log -> stored_from log m -> trusted P m.
Proof.
  intros Hrun Hlog [Hst|(j & Hin & Hrc)].
  - destruct (Hlog _ Hst) as [(m' & b & Heq)|Hev]; [done|]. exact (Hhonest _ Hev).
  - destruct (cache_run_result _ _ _ _ _ Hrun Hin) as [cl Hj].
    exact (proj1 (result_honest _ _ _ _ Hlog Hin Hj)).
Qed.

(** The cache passes honest answers on. *)
Lemma cache_answer_good c k message o :
  cache = Some c -> kr_calls (cl_cache s) !! k = Some (MkCC message true (KDone o)) ->
  exists r, after_cache o = Ret r /\ answer_good message r.
Proof.
  intros Hc Hk. destruct (co_cache _ _ _ Hok c Hc) as (log & Hrun & Hlog).
  pose proof (ko_calls _ _ _ (cache_run_ok _ _ _ Hrun) _ _ Hk) as Hans. cbn [cc_pc kpc_ok] in Hans.
  unfold answer_ok in Hans. cbn [cc_message cc_constructor] in Hans.
  destruct (m_Question message) as [|q [|q' qs]] eqn:Hq.
  - subst o. eexists. split; [done|]. split; [done|]. intros m _ q Hq'. congruence.
  - assert (forall r, flight_gave log (cl_cache s) (fg_hash q) r -> answer_good message r) as Hfl.
    { intros r Hr. exact (flight_honest_result _ _ _ _ _ Hlog Hk Hq Hr). }
    destruct o as [[[r|] [e|]]|]; simpl in *; try done.
    + by destruct Hans.
    + destruct Hans as (_ & _ & m & Hs & Hm). eexists. split; [done|]. split; [done|].
      intros m' [= <-] q' Hq'. assert (q' = q) as -> by congruence. apply (good_same P q _ _ Hs).
      destruct Hm as [[Hqm Hst]|Hm]; [by apply (stored_honest c log)|].
      by apply (proj2 (Hfl _ Hm) m eq_refl).
    + eexists. by split.
    + by destruct (proj1 (Hfl _ Hans)).
  - destruct Hans as [[? _]|(r & Hin & ->)]; [done|].
    pose proof (honest_answer_good _ _ (result_honest _ _ _ _ Hlog Hin Hk)) as Hr.
    exists r. split; [|exact Hr]. destruct r as [[m|] [e|]]; try done. by destruct (proj1 Hr).
Qed.

Lemma exchange_gave_cases x message r :
  exchange_gave cache evs s x message r ->
  (exists c k o, cache = Some c /\ kr_calls (cl_cache s) !! k = Some (MkCC message true (KDone o)) /\
     after_cache o = Ret r) \/ In (CkTransport x r) evs.
Proof.
  clear Hok. unfold exchange_gave. destruct cache as [c|]; [|auto].
  intros (k & o & Hk & Ho). left. by exists c, k, o.
Qed.

Lemma exchange_answer_good x message r :
  cl_exchanges s !! x = Some (MkEX message (XReturned r)) -> answer_good message r.
Proof.
  intros Hx. destruct (exchange_gave_cases _ _ _ (co_exchanges _ _ _ Hok _ _ Hx))
    as [(c & k & o & Hc & Hk & Ho)|Hin].
  - destruct (cache_answer_good c k _ _ Hc Hk) as (r' & Ho' & Hr').
    rewrite Ho in Ho'. by injection Ho' as <-.
  - apply honest_answer_good. exact (Hhonest _ Hin _ Hx).
Qed.

Lemma client_step_safe ev why : client_step cache ev s <> Some (Panic why).
Proof.
  destruct ev as [fqdn strategy|message|l t|l t|l|x|x r|ev]; cbn [client_step]; try done.
  - destruct (cl_lookups s !! l) as [lk|]; [|done]. cbn [mbind option_bind].
    destruct (lk_tasks lk !! t) as [[typ pc]|]; [|done]. by destruct pc.
  - destruct (cl_lookups s !! l) as [lk|]; [|done]. cbn [mbind option_bind].
    destruct (lk_tasks lk !! t) as [[typ pc]|]; [|done]. cbn [mbind option_bind snd].
    destruct pc as [|x|]; try done. destruct (cl_exchanges s !! x) as [[m pc]|]; [|done]. by destruct pc.
  - destruct (cl_lookups s !! l) as [lk|]; [|done]. cbn [mbind option_bind].
    destruct (lk_result lk); [done|]. by destruct (returned (lk_tasks lk)).
  - pose proof (return_step cache s x) as Hr. cbn [client_step] in Hr. intros Heq. rewrite Heq in Hr.
    destruct Hr as (m & k & cl & o & Hx & Hk & Hpc & Hr).
    pose proof (co_exchanges _ _ _ Hok _ _ Hx) as [[c Hc] (pc & Hk')]. cbn [ex_message] in Hk'.
    rewrite Hk in Hk'. injection Hk' as ->. cbn [cc_pc] in Hpc. subst pc.
    destruct (cache_answer_good c k m o Hc Hk) as (r & Ho & _). by rewrite Ho in Hr.
  - destruct (cl_exchanges s !! x) as [[m pc]|]; [|done]. by destruct pc.
  - clear Hok. destruct cache as [c|]; [|done]. cbn [mbind option_bind]. by destruct (cache_step c ev (cl_cache s)).
Qed.

Lemma lookup_answer_good id name typ rx :
  answer_good (lookup_message id name typ) rx ->
  (is_Some (lookup_answer rx).2 -> (lookup_answer rx).1 = []) /\
  forall a, In a (lookup_answer rx).1 -> P (MkQuestion name typ ClassINET) a.
Proof.
  intros [Hnn Hg]. destruct rx as [[m|] [e|]]; simpl; [done| |done|done].
  destruct (Hg m eq_refl (MkQuestion name typ ClassINET) eq_refl) as [_ Ha].
  destruct (Z.eqb_spec (m_Rcode m) RcodeSuccess) as [Hc|]; simpl; [|done].
  split; [by intros []|]. by apply Ha.
Qed.

(** An address of a lookup is one of an exchange that succeeded; with an
    error there is none. *)
Lemma lookup_result_in strategy rs r :
  lookup_result strategy rs r -> Forall (fun a => is_Some a.2 -> a.1 = []) rs ->
  (is_Some r.2 -> r.1 = []) /\ forall a, In a r.1 -> exists r', r' ∈ rs /\ In a r'.1.
Proof.
  destruct rs as [|[a4 e4] [|[a6 e6] [|? ?]]]; simpl; [done| | |done].
  - intros -> [Hr1 _]%Forall_cons. split; [done|]. intros a Ha. exists (a4, e4). split; [by left|done].
  - destruct r as [addrs err]. cbn [fst snd]. intros Hc _. split.
    + intros [e ->]. destruct addrs as [|a addrs]; [done|].
      by pose proof (combined_err _ _ _ _ _ _ _ a Hc (or_introl eq_refl)).
    + intros a Ha. destruct (combined_in _ _ _ _ _ _ a Hc Ha) as [[_ ?]|[_ ?]].
      * exists (a4, e4). split; [by left|done].
      * exists (a6, e6). split; [by right; left|done].
Qed.

Lemma lookup_good l lk r :
  cl_lookups s !! l = Some lk -> lk_result lk = Some r ->
  (is_Some r.2 -> r.1 = []) /\
  forall a, In a r.1 -> exists typ, In typ (strategy_types (lk_strategy lk)) /\
    P (MkQuestion (dns_Fqdn (lk_fqdn lk)) typ ClassINET) a.
Proof.
  intros Hl Hres. pose proof (co_lookups _ _ _ Hok _ _ Hl) as Hlk.
  destruct (is_root (lk_fqdn lk)) eqn:Hroot.
  { unfold lookup_ok in Hlk. rewrite Hroot in Hlk. rewrite Hlk in Hres. unfold new_lookup in Hres.
    rewrite Hroot in Hres. by injection Hres as <-. }
  destruct (lookup_ended _ _ _ Hlk Hroot Hres) as (rs & Hrs & Hc).
  assert (forall i a, rs !! i = Some a -> exists typ x rx, In typ (strategy_types (lk_strategy lk)) /\
    asks s x (lk_fqdn lk) typ (XReturned rx) /\ a = lookup_answer rx) as Hex.
  { intros i a Ha. destruct (Forall2_lookup_r _ _ _ _ _ Hrs Ha) as (typ & Hty & x & rx & Hx & ->).
    exists typ, x, rx. split_and!; try done. by eapply list_elem_of_In, list_elem_of_lookup_2. }
  assert (forall a, a ∈ rs -> exists typ, In typ (strategy_types (lk_strategy lk)) /\
    (is_Some a.2 -> a.1 = []) /\ forall x, In x a.1 -> P (MkQuestion (dns_Fqdn (lk_fqdn lk)) typ ClassINET) x) as Hgood.
  { intros a [i Ha]%list_elem_of_lookup_1. destruct (Hex _ _ Ha) as (typ & x & rx & Hty & [id Hx] & ->).
    exists typ. split; [done|]. eapply lookup_answer_good, exchange_answer_good, Hx. }
  destruct (lookup_result_in _ _ _ Hc) as [He Ha].
  { apply Forall_forall. intros a Hin. destruct (Hgood a Hin) as (_ & _ & ? & _). done. }
  split; [done|]. intros a Hin. destruct (Ha a Hin) as (r' & Hr' & Ha').
  destruct (Hgood r' Hr') as (typ & Hty & _ & HP). eauto.
Qed.
End honest.

(** C8: Concurrent lookups are sound.  Let [P] be any relation between
    questions and addresses that holds of what the transports return and of
    what is given to [Store], and let the questions asked have different
    hashes.  Then, however lookups, exchanges, flights and looks at the clock
    interleave, on one cache or without one, no step panics, and each address
    a lookup has returned is related to a question for its name of a type of
    its strategy; with an error it has returned none. *)
Theorem client_run_sound {L : Type} `{DnsLaws} `{SliceLaws} `{LruLaws L} `{FlightGroupLaws} `{ExLaws} `{GroupLaws}
    cache dns_Id P evs (s : client_run_state (L := L)) :
  client_run cache dns_Id evs s -> (forall ev, In ev evs -> honest_event P s ev) -> hash_separates s ->
  (forall ev why, client_step cache ev s <> Some (Panic why)) /\
  forall l lk addrs err, cl_lookups s !! l = Some lk -> lk_result lk = Some (addrs, err) ->
    (is_Some err -> addrs = []) /\
    forall a, In a addrs -> exists typ, In typ (strategy_types (lk_strategy lk)) /\
      P (MkQuestion (dns_Fqdn (lk_fqdn lk)) typ ClassINET) a.
Proof.
  intros Hr Hhonest Hhash. pose proof (client_run_ok _ _ _ _ Hr) as Hok. split.
  - by apply (client_step_safe cache P evs).
  - intros l lk addrs err Hl Hres.
    exact (lookup_good cache P evs s Hok Hhonest Hhash l lk (addrs, err) Hl Hres).
Qed.

(** ** Going on *)

Section progress.
Context {L : Type} `{DnsLaws} `{SliceLaws} `{LruLaws L} `{FlightGroupLaws} `{ExLib} `{GroupLib}.
Context (cache : option defaultCache).
Implicit Types (s : client_run_state (L := L)) (evs : list client_event).

(** *** How far the calls have to go *)

Definition task_cost (tk : Z * task_pc) : nat :=
  match tk.2 with TId => 11 | TWait _ => 1 | TReturned _ => 0 end.
Definition lookup_cost (lk : lookup_call) : nat :=
  sum_list_with task_cost (lk_tasks lk) + match lk_result lk with None => 1 | Some _ => 0 end.
Definition exchange_cost (e : exchange_call) : nat :=
  match ex_pc e with XReturned _ => 0 | _ => 1 end.
Definition client_total s : nat :=
  sum_list_with lookup_cost (cl_lookups s) + sum_list_with exchange_cost (cl_exchanges s) +
  total (cl_cache s).

(** Whether an event is a step of a call, and how many steps a new call may
    take: a lookup with two exchanges, an exchange, a call of the cache. *)
Definition own_client_step (ev : client_event) : nat :=
  match ev with
  | CkLookup _ _ | CkExchange _ => 0
  | CkCache ev => own_step ev
  | _ => 1
  end.
Definition allowance (ev : client_event) : nat :=
  match ev with
  | CkLookup _ _ => 23
  | CkExchange _ => 9
  | CkCache ev => 8 * called ev
  | _ => 0
  end.

Lemma new_lookup_cost fqdn strategy : lookup_cost (new_lookup fqdn strategy) <= 23.
Proof.
  unfold lookup_cost, new_lookup, strategy_types. destruct (is_root fqdn); [simpl; lia|].
  repeat destruct (Z.eqb _ _); simpl; lia.
Qed.

Lemma new_exchange_cost message s :
  client_total (new_exchange cache message s) <= client_total s + 9.
Proof.
  unfold client_total, new_exchange. destruct cache as [c|].
  - cbn [cache_step from_option cl_lookups cl_exchanges cl_cache]. unfold id.
    rewrite sum_list_with_app, total_call. cbn [cc_pc]. pose proof (load_cost message true). simpl. lia.
  - cbn [cl_lookups cl_exchanges cl_cache]. rewrite sum_list_with_app. simpl. lia.
Qed.

Lemma set_tpc_cost s l t lk tk pc :
  cl_lookups s !! l = Some lk -> lk_tasks lk !! t = Some tk ->
  client_total (set_tpc l t pc s) + task_cost tk = client_total s + task_cost (tk.1, pc).
Proof.
  intros Hl Ht. unfold client_total, set_tpc. cbn [cl_lookups cl_exchanges cl_cache].
  match goal with |- context [alter ?g l _] => pose proof (sum_list_with_alter lookup_cost g _ _ _ Hl) as Hsum end.
  pose proof (sum_list_with_alter task_cost (fun tk => (tk.1, pc)) _ _ _ Ht) as Htsum.
  cbv beta in Hsum. set (lk' := MkLK _ _ _ _) in *.
  assert (lookup_cost lk' + task_cost tk = lookup_cost lk + task_cost (tk.1, pc)); [|lia].
  unfold lookup_cost, lk'. cbn [lk_tasks lk_result]. lia.
Qed.

Lemma set_xpc_cost s x e r :
  cl_exchanges s !! x = Some e ->
  client_total (set_xpc x (XReturned r) s) + exchange_cost e = client_total s.
Proof.
  intros Hx. unfold client_total, set_xpc. cbn [cl_lookups cl_exchanges cl_cache].
  pose proof (sum_list_with_alter exchange_cost (fun e => MkEX (ex_message e) (XReturned r)) _ _ _ Hx) as Hsum.
  cbv beta in Hsum. cbn [exchange_cost ex_pc] in Hsum. lia.
Qed.

Lemma client_step_cost ev s s' :
  client_step cache ev s = Some (Ret s') ->
  own_client_step ev + client_total s' <= client_total s + allowance ev.
Proof.
  destruct ev as [fqdn strategy|message|l t|l t|l|x|x r|ev]; intros Hs; cbn [own_client_step allowance].
  - injection Hs as <-. unfold client_total. cbn [cl_lookups cl_exchanges cl_cache].
    rewrite sum_list_with_app. pose proof (new_lookup_cost fqdn strategy). cbn [sum_list_with]. lia.
  - injection Hs as <-. apply new_exchange_cost.
  - apply id_step in Hs as (lk & typ & Hl & Ht & ->). set (s0 := MkCL _ _ _ _). set (m := lookup_message _ _ _).
    pose proof (new_exchange_cost m s0).
    pose proof (set_tpc_cost (new_exchange cache m s0) l t lk (typ, TId) (TWait (length (cl_exchanges s)))) as Hset.
    cbn [task_cost snd fst] in Hset.
    assert (cl_lookups (new_exchange cache m s0) = cl_lookups s) as Hls by (unfold new_exchange; by destruct cache).
    rewrite Hls in Hset. specialize (Hset Hl Ht). change (client_total s0) with (client_total s) in *. lia.
  - apply task_step in Hs as (lk & typ & x & m & r & Hl & Ht & _ & ->).
    pose proof (set_tpc_cost s l t lk _ (TReturned (lookup_answer r)) Hl Ht) as Hset.
    cbn [task_cost snd fst] in Hset. lia.
  - apply end_step_lookup in Hs as (lk & rs & Hl & Hr & _ & ->). unfold client_total.
    cbn [cl_lookups cl_exchanges cl_cache].
    match goal with |- context [<[l := ?lk']> _] =>
      pose proof (sum_list_with_alter lookup_cost (fun _ => lk') _ _ _ Hl) as Hsum end.
    rewrite list_insert_alter. set (lk' := MkLK _ _ _ _) in *.
    assert (lookup_cost lk = lookup_cost lk' + 1); [|lia].
    unfold lookup_cost, lk'. cbn [lk_tasks lk_result]. rewrite Hr. lia.
  - pose proof (return_step cache s x) as Hr. rewrite Hs in Hr.
    destruct Hr as (m & k & cl & o & Hx & _ & _ & Hr). destruct (after_cache o) as [r|]; [|done].
    injection Hr as ->. pose proof (set_xpc_cost s x _ r Hx) as Hset. cbn [exchange_cost ex_pc] in Hset. lia.
  - apply transport_step in Hs as (m & Hx & ->).
    pose proof (set_xpc_cost s x _ r Hx) as Hset. cbn [exchange_cost ex_pc] in Hset. lia.
  - apply cache_step_client in Hs as (c & k & _ & Hk & ->). pose proof (cache_step_cost _ _ _ _ Hk).
    unfold client_total. cbn [cl_lookups cl_exchanges cl_cache]. lia.
Qed.

Lemma client_run_cost dns_Id evs s :
  client_run cache dns_Id evs s ->
  sum_list_with own_client_step evs + client_total s <= sum_list_with allowance evs.
Proof.
  induction 1 as [n l _|evs s ev s' _ IH Hs]; [done|].
  pose proof (client_step_cost _ _ _ Hs). rewrite !sum_list_with_app. simpl. lia.
Qed.

(** *** The next step *)

Definition enabled s (ev : client_event) : Prop := is_Some (client_step cache ev s).

(** Call [k] of the cache can go on, whatever the clock or its constructor
    gives. *)
Definition cache_goes s (k : nat) : Prop :=
  enabled s (CkCache (CvStep k)) \/ (forall now, enabled s (CkCache (CvTime k now))) \/
  (forall r, enabled s (CkCache (CvResult k r))).

(** An exchange can go on, or the call of the cache it waits for, or the one
    whose flight this one has joined. *)
Definition exchange_goes s (x : nat) : Prop :=
  enabled s (CkReturn x) \/ (forall r, enabled s (CkTransport x r)) \/
  exists m k, cl_exchanges s !! x = Some (MkEX m (XCache k)) /\
    (cache_goes s k \/
     exists f fl cl, kr_calls (cl_cache s) !! k = Some cl /\ cc_pc cl = KWait f /\
       kr_flights (cl_cache s) !! f = Some fl /\ fl_leader fl <> k /\ cache_goes s (fl_leader fl)).

(** A task can go on, or the exchange it waits for. *)
Definition task_goes s (l t : nat) : Prop :=
  enabled s (CkId l t) \/ enabled s (CkTask l t) \/
  exists lk typ x, cl_lookups s !! l = Some lk /\ lk_tasks lk !! t = Some (typ, TWait x) /\ exchange_goes s x.

Lemma can_go_client s c k : cache = Some c -> can_go c (cl_cache s) k -> cache_goes s k.
Proof.
  intros Hc Hgo. unfold cache_goes, enabled. cbn [client_step]. rewrite Hc. cbn [mbind option_bind].
  destruct Hgo as [[s' ->]|[Hgo|Hgo]]; [left; by eexists|right; left|right; right].
  - intros now. destruct (Hgo now) as [s' ->]. by eexists.
  - intros r. destruct (Hgo r) as [s' ->]. by eexists.
Qed.

Lemma exchange_goes_on evs s x e :
  cl_ok cache evs s -> cl_exchanges s !! x = Some e -> (forall r, ex_pc e <> XReturned r) -> exchange_goes s x.
Proof.
  intros Hok Hx Hpc. pose proof (co_exchanges _ _ _ Hok _ _ Hx) as Hex. destruct e as [m pc].
  unfold exchange_ok in Hex. cbn [ex_pc ex_message] in *. destruct pc as [k| |r]; [| |by destruct (Hpc r)].
  2: { right. left. intros r. unfold enabled. cbn [client_step]. rewrite Hx. by eexists. }
  destruct Hex as [[c Hc] [pc Hk]]. pose proof (co_load _ _ _ Hok _ (list_elem_of_lookup_2 _ _ _ Hk) eq_refl) as Hload.
  destruct (co_cache _ _ _ Hok c Hc) as (log & Hrun%cache_run_ok & _).
  assert ((exists o, pc = KDone o) \/ ~ exists o, pc = KDone o) as [[o ->]|Hnd]
    by (destruct pc; first [right; by intros [? ?]|left; by eexists]).
  - left. unfold enabled. cbn [client_step]. rewrite Hx. cbn [mbind option_bind ex_pc]. rewrite Hk.
    cbn [mbind option_bind cc_pc]. destruct (after_cache o); by eexists.
  - right. right. exists m, k. split; [done|].
    assert (~ ended pc) as Hend.
    { intros Hend. cbn [cc_pc] in Hload. destruct pc; try done. apply Hnd. by eexists. }
    destruct (call_goes_or_waits c _ _ _ _ Hrun Hk Hend) as [Hgo|(f & fl & Hpcf & Hf & Hne & Hgo)].
    + left. by eapply can_go_client.
    + right. exists f, fl, (MkCC m true pc). split_and!; try done. by eapply can_go_client.
Qed.

Lemma not_returned tasks :
  returned tasks = None -> exists t typ pc, tasks !! t = Some (typ, pc) /\ forall r, pc <> TReturned r.
Proof.
  induction tasks as [|[typ pc] tasks IH]; simpl; [done|].
  destruct pc as [|x|r]; [by exists 0, typ, TId|by exists 0, typ, (TWait x)|].
  destruct (returned tasks); [done|]. intros _. destruct (IH eq_refl) as (t & typ' & pc & Ht & Hpc).
  by exists (S t), typ', pc.
Qed.

Lemma task_goes_on evs s l lk t typ pc :
  cl_ok cache evs s -> cl_lookups s !! l = Some lk -> lk_tasks lk !! t = Some (typ, pc) ->
  (forall r, pc <> TReturned r) -> task_goes s l t.
Proof.
  intros Hok Hl Ht Hpc. unfold task_goes, enabled. cbn [client_step]. rewrite Hl. cbn [mbind option_bind].
  rewrite Ht. cbn [mbind option_bind fst snd]. destruct pc as [|x|r]; [left; by eexists| |by destruct (Hpc r)].
  pose proof (co_lookups _ _ _ Hok _ _ Hl) as Hlk. unfold lookup_ok in Hlk.
  destruct (is_root (lk_fqdn lk)) eqn:Hroot.
  { rewrite Hlk in Ht. unfold new_lookup in Ht. by rewrite Hroot in Ht. }
  destruct Hlk as (_ & Htk & _). destruct (Htk _ _ _ Ht) as (pc & id & Hx). rewrite Hx.
  cbn [mbind option_bind ex_pc]. destruct pc as [k| |r]; [| |right; left; by eexists];
    right; right; exists lk, typ, x; (split_and!; [done..|]); by eapply exchange_goes_on.
Qed.

(** C22: No lookup is left behind.  In every reachable state a lookup that
    has not ended can end, or one of its tasks can go on, or the exchange the
    task waits for can, or the call of the cache that this exchange or the
    leader of its flight makes, whatever clock and transport give; the same
    holds of every exchange.  A lookup takes at most 23 steps, an exchange of
    a caller nine, and another call of the cache eight. *)
Theorem client_run_progress dns_Id evs s :
  client_run cache dns_Id evs s ->
  (forall l lk, cl_lookups s !! l = Some lk -> lk_result lk = None ->
     enabled s (CkEnd l) \/ exists t, task_goes s l t) /\
  (forall x e, cl_exchanges s !! x = Some e -> (forall r, ex_pc e <> XReturned r) -> exchange_goes s x) /\
  sum_list_with own_client_step evs <= sum_list_with allowance evs.
Proof.
  intros Hr. pose proof (client_run_ok _ _ _ _ Hr) as Hok. split_and!.
  - intros l lk Hl Hres. destruct (returned (lk_tasks lk)) as [rs|] eqn:Ers.
    + left. unfold enabled. cbn [client_step]. rewrite Hl. cbn [mbind option_bind]. rewrite Hres, Ers. by eexists.
    + right. destruct (not_returned _ Ers) as (t & typ & pc & Ht & Hpc). exists t. by eapply task_goes_on.
  - intros x e Hx Hpc. by eapply exchange_goes_on.
  - pose proof (client_run_cost _ _ _ Hr). lia.
Qed.

End progress.

(** ** A run for the witnesses *)

Module ClientRunExample.
Import DnsSimple CacheExample.

(** Questions hash to their types. *)
#[export] Instance by_type : FlightGroup | 50 := {
  fg_hash q := q_Qtype q;
  fg_join fs key := fst <$> list_find (fun f => f = (key, true)) fs;
}.

#[export] Instance by_type_laws : @FlightGroupLaws by_type | 50.
Proof.
  split; [exact (fg_join_some (H := CacheRunExample.flight_group))
         |exact (fg_join_none (H := CacheRunExample.flight_group))].
Qed.

(** Two lookups of "a" at once: the third exchange joins the flight of the
    second. *)
Definition response (typ : Z) : Msg :=
  FixedResponse 9 (MkQuestion "a." typ ClassINET) [Addr4 5; Addr6 1 ""] 60.

Definition joined : list client_event :=
  [CkLookup "a" StrategyPreferIPv4; CkLookup "a" StrategyIPv6Only; CkId 0 0; CkId 0 1; CkId 1 0] ++
  List.map (fun k => CkCache (CvStep k)) [0; 1; 2; 0; 1; 2].
Definition answered : list client_event :=
  joined ++
  [CkCache (CvResult 1 (Some (response TypeAAAA), None)); CkCache (CvTime 1 7); CkCache (CvStep 1);
   CkCache (CvResult 0 (Some (response TypeA), None)); CkCache (CvTime 0 8); CkCache (CvStep 0);
   CkCache (CvStep 0); CkCache (CvStep 1); CkCache (CvStep 2);
   CkReturn 2; CkReturn 1; CkReturn 0; CkTask 1 0; CkTask 0 1; CkTask 0 0; CkEnd 1; CkEnd 0].

Fixpoint client_steps (evs : list client_event) (s : client_run_state (L := table)) :
    option client_run_state :=
  match evs with
  | [] => Some s
  | ev :: evs =>
      match client_step (Some cache) ev s with Some (Ret s) => client_steps evs s | _ => None end
  end.

Definition start : client_run_state := client_start 65534 (∅ : table).
Definition after (evs : list client_event) : client_run_state := default start (client_steps evs start).

Lemma client_steps_run evs s evs' s' :
  client_run (Some cache) 65534 evs s -> client_steps evs' s = Some s' ->
  client_run (Some cache) 65534 (evs ++ evs') s'.
Proof.
  revert evs s. induction evs' as [|ev evs' IH]; intros evs s Hr Hs; simpl in Hs.
  - injection Hs as <-. by rewrite app_nil_r.
  - destruct (client_step (Some cache) ev s) as [[s1|]|] eqn:E1; [|done|done].
    change (ev :: evs') with ([ev] ++ evs'). rewrite app_assoc. eapply IH; [|exact Hs]. by econstructor.
Qed.

Lemma client_after_run evs :
  (if client_steps evs start then true else false) = true -> client_run (Some cache) 65534 evs (after evs).
Proof.
  intros Hs. unfold after. destruct (client_steps evs start) as [s|] eqn:E; [|done].
  exact (client_steps_run [] _ evs s (client_run_nil (Some cache) 65534 0 ∅ eq_refl) E).
Qed.

Lemma client_joined_run : client_run (Some cache) 65534 joined (after joined).
Proof. apply client_after_run. vm_compute. reflexivity. Qed.

Lemma client_answered_run : client_run (Some cache) 65534 answered (after answered).
Proof. apply client_after_run. vm_compute. reflexivity. Qed.

Lemma hashes : hash_separates (after answered).
Proof.
  intros k k' cl cl' q q' Hk Hk' Hq Hq'.
  assert (forall k cl q, kr_calls (cl_cache (after answered)) !! k = Some cl ->
    m_Question (cc_message cl) = [q] -> q = MkQuestion "a." (fg_hash q) ClassINET) as Ha.
  { clear. intros [|[|[|k]]] cl q; vm_compute; [| | |done]; intros [= <-] [= <-]; reflexivity. }
  rewrite (Ha _ _ _ Hk Hq), (Ha _ _ _ Hk' Hq'). simpl. by intros ->.
Qed.

(** The server is honest. *)
Lemma honest_response typ m : In typ [TypeA; TypeAAAA] -> m_Question m = [MkQuestion "a." typ ClassINET] ->
  honest_result ClientExample.of_server m (Some (response typ), None).
Proof.
  intros Hty Hm. split; [|intros q; rewrite Hm; by intros [= <-]]. intros q [= <-]. split; [done|].
  intros _ a. destruct Hty as [<-|[<-|[]]]; vm_compute; intros [<-|[]]; [by left|by right].
Qed.

Lemma honest_run ev : In ev answered -> honest_event ClientExample.of_server (after answered) ev.
Proof.
  intros Hin. repeat (destruct Hin as [<-|Hin]; [first [exact I|intros cl Hcl]|]); [| |by destruct Hin];
    apply honest_response; try (simpl; tauto); revert Hcl; vm_compute; by intros [= <-].
Qed.

Lemma answered_first : cl_lookups (after answered) !! 0 =
  Some (MkLK "a" StrategyPreferIPv4
    [(TypeA, TReturned ([Addr4 5], None)); (TypeAAAA, TReturned ([Addr6 1 ""], None))]
    (Some ([Addr4 5; Addr6 1 ""], None))).
Proof. vm_compute. reflexivity. Qed.

Definition results (s : client_run_state (L := table)) : list (option (gores (list Addr))) :=
  lk_result <$> cl_lookups s.
End ClientRunExample.

Import DnsSimple CacheExample ClientRunExample.

(** The second lookup asked under id 1 and got the answer of the other's
    query. *)
Lemma client_run_sound_witness :
  results (after answered) = [Some ([Addr4 5; Addr6 1 ""], None); Some ([Addr6 1 ""], None)] /\
  forall lk, cl_lookups (after answered) !! 1 = Some lk -> lk_result lk = Some ([Addr6 1 ""], None) ->
    exists typ, In typ (strategy_types (lk_strategy lk)) /\
      ClientExample.of_server (MkQuestion (dns_Fqdn (lk_fqdn lk)) typ ClassINET) (Addr6 1 "").
Proof.
  split; [vm_compute; reflexivity|]. intros lk Hl Hr.
  destruct (client_run_sound (Some cache) 65534 ClientExample.of_server answered (after answered)
    client_answered_run honest_run hashes) as [_ Hs].
  exact (proj2 (Hs 1 lk _ _ Hl Hr) (Addr6 1 "") (or_introl eq_refl)).
Defined.

Lemma client_run_lookup_witness :
  exists rs, lookup_result StrategyPreferIPv4 rs ([Addr4 5; Addr6 1 ""], None).
Proof.
  pose proof (proj1 (client_run_lookup (Some cache) 65534 answered (after answered) client_answered_run)
    0 _ _ answered_first eq_refl) as Hs.
  simpl in Hs. destruct Hs as (rs & _ & Hc). exact (ex_intro _ rs Hc).
Defined.

Lemma client_run_progress_witness :
  (exists t, task_goes (Some cache) (after joined) 1 t) /\
  sum_list_with own_client_step joined <= 46.
Proof.
  destruct (client_run_progress (Some cache) 65534 joined (after joined) client_joined_run) as (Hgo & _ & Hsteps).
  split; [|exact Hsteps].
  destruct (Hgo 1 (MkLK "a" StrategyIPv6Only [(TypeAAAA, TWait 2)] None)) as [Hend|Ht]; [vm_compute; reflexivity|reflexivity| |exact Ht].
  vm_compute in Hend. destruct Hend as [s Hs]. discriminate Hs.
Defined.
