(* ===== verification/System.v ===== *)
(** * The system client: [resolve/system.go]

    [SystemClient] puts the parts together: a [TransportClient] over the
    default cache and the local transport with the system's hosts file.  Its
    world has the query counter, the cache, [resolvConf], the local transport
    and the network; what the files look like when they are looked at, the
    order in which racers finish and the end of the context are read off the
    network. *)

From S2P Require Import Prelude GoStd Netip Netip6 Meta Dns Addrs Resolve Cache Client Hosts ResolvConf Tcp Udp UdpTransport Local.

(** ** The client *)

Section system.
Context {L W : Type} `{DnsLib} `{SliceLib} `{ExLib} `{ThreadsLib} `{SetLib} `{!LruLib L}.
Context `{!Clock (local_world W)} `{!Flight (local_world W)}.

(** The network, as for the local transport, and what the calls see of it:
    the hosts file, [resolv.conf], the racers that finish, and the error of
    the context, which ends after them. *)
Variable udp : Socksaddr -> Z -> Msg -> ST W attempt.
Variable tcp : Socksaddr -> Z -> Msg -> ST W (exec (gores (option Msg))).
Variable dns_Id : ST W Z.
Variable host_file : W -> host_env.
Variable resolv_file : W -> update_env.
Variable racers : W -> list parallel_event.
Variable ctx_err : W -> err.

(** A panic ends the program; here it becomes an error, and so does a call
    that never ends: [system_transport_total] shows that there is neither. *)
Definition system_panic : err := EStd "panic".

(** [transport.NewLocalTransport(nil)] as a [Transport]. *)
Definition system_transport : Transport (local_world W) := fun message w =>
  let n := lw_net w in
  match Local_Exchange udp tcp dns_Id (host_file n) (resolv_file n)
          (racers n ++ [PCtx (ctx_err n)]) message w with
  | (Some (Ret r), w') => (r, w')
  | (_, w') => ((None, Some system_panic), w')
  end.

(** The start of [SystemClient]: an empty cache and a transport that has
    not read a file. *)
Definition system_local : LocalTransport := NewLocalTransport None.
Definition system_rc : resolverConfig := MkRC false false 0 conf_init.

Definition system_start (id : Z) (l : L) (n : W) : client_world L (local_world W) :=
  NewHeadlessClient id (l, MkLW system_rc system_local n).

(** [SystemClient.Lookup] and [SystemClient.Exchange]. *)
Definition System_Lookup (c : defaultCache) (fqdn : string) (strategy : Strategy)
    : ST (client_world L (local_world W)) (exec (gores (list Addr))) :=
  Lookup (Some (default_cache_ops c)) system_transport fqdn strategy.

Definition System_Exchange (c : defaultCache) (message : Msg)
    : ST (client_world L (local_world W)) (exec (gores (option Msg))) :=
  Exchange (Some (default_cache_ops c)) system_transport message.

End system.

(** ** Lemmas *)

(** The table of the hosts file is that of a content the file has had. *)
Definition file_of `{DnsLib} (contents : string -> Prop) (f : File) : Prop :=
  f_byName f = ∅ \/ exists content, contents content /\ f_byName f = parse_hosts content.

Lemma update_file_of `{DnsLib} (contents : string -> Prop) ev f :
  (forall content bad, he_Open ev = Some (content, bad) -> contents content) ->
  file_of contents f -> file_of contents (update ev f).
Proof.
  intros Hev Hf. unfold update. destruct (_ && _)%bool; [done|].
  destruct (he_Stat ev) as [[m s]|]; [|done]. destruct (_ && _)%bool; [exact Hf|].
  destruct (he_Open ev) as [[content []]|] eqn:Eo; try done. right. exists content.
  split; [by eapply Hev|done].
Qed.

(** The addresses some content of the file gives for a name. *)
Definition listed `{DnsLib} (contents : string -> Prop) (name : string) (a : Addr) : Prop :=
  exists content, contents content /\ In a (content_addresses (dns_CanonicalName name) content).

Lemma Lookup_listed `{DnsLib} (contents : string -> Prop) ev f name a :
  (forall content bad, he_Open ev = Some (content, bad) -> contents content) ->
  file_of contents f -> In a (File_Lookup ev name f).1 -> listed contents name a.
Proof.
  intros Hev Hf. unfold File_Lookup. cbn [fst].
  destruct (update_file_of contents ev f Hev Hf) as [-> | (content & Hc & ->)].
  - by rewrite lookup_empty.
  - rewrite parse_hosts_lookup. intros Ha. by exists content.
Qed.

Lemma content_addresses_wf `{DnsLib} name content :
  Forall addr_wf (content_addresses name content).
Proof.
  apply List.Forall_forall. intros a. unfold content_addresses. intros (line & _ & Ha)%in_flat_map.
  unfold line_addresses in Ha. destruct (Fields (strip_comment line)) as [|f0 names]; [done|].
  destruct (ParseAddr f0) as [addr|] eqn:Ep; [|done].
  apply in_map_iff in Ha as (n & <- & _). by eapply ParseAddr_wf.
Qed.

Section system_lemmas.
Context {W : Type} `{DnsLib} `{SliceLaws} `{ExLaws} `{SetLaws}.
Context (udp : Socksaddr -> Z -> Msg -> ST W attempt)
  (tcp : Socksaddr -> Z -> Msg -> ST W (exec (gores (option Msg)))) (dns_Id : ST W Z).
Context (host_file : W -> host_env) (resolv_file : W -> update_env)
  (racers : W -> list parallel_event) (ctx_err : W -> err).

(** The contents the hosts file ever has; the configurations have servers
    without brackets in their addresses, and not the option of one request at
    a time. *)
Context (contents : string -> Prop).
Hypothesis host_contents : forall n content bad,
  he_Open (host_file n) = Some (content, bad) -> contents content.

Definition parallel_conf (c : dnsConfig) : Prop := conf_ok c /\ cf_singleRequest c = false.
Hypothesis resolv_conf : forall n, parallel_conf (ue_read (resolv_file n)).

(** What the exchanges keep of the world. *)
Definition system_ok (w : local_world W) : Prop :=
  local_inv (lw_local w) /\ rc_ok parallel_conf (lw_rc w) /\
  forall host, lt_host (lw_local w) = Some host -> file_of contents host.

(** The relation between questions and addresses: the hosts file lists the
    address for the name, and it is of the family that is asked for. *)
Definition system_answer : answers_rel := fun q a =>
  exists b, listed contents (FqdnToDomain (q_Name q)) b /\ type_family (q_Qtype q) b = true /\
    a = Addr_withoutZone b.

Local Abbreviation transport :=
  (system_transport udp tcp dns_Id host_file resolv_file racers ctx_err).

(** A query for addresses over the local transport neither panics nor waits
    for ever; it is answered from the hosts file or fails. *)
Lemma system_transport_total message question w :
  system_ok w -> m_Question message = [question] ->
  q_Qtype question = TypeA \/ q_Qtype question = TypeAAAA ->
  exists r w', Local_Exchange udp tcp dns_Id (host_file (lw_net w)) (resolv_file (lw_net w))
    (racers (lw_net w) ++ [PCtx (ctx_err (lw_net w))]) message w = (Some (Ret r), w') /\
    transport message w = (r, w') /\ system_ok w' /\
    match r with
    | (Some m, e) => e = None /\ host_answer (host_file (lw_net w)) message m w
    | (None, e) => is_Some e
    end.
Proof.
  intros (Hw & Hrc & Hf) Hq Hty.
  assert (stable_conf parallel_conf) as Hst by (intros v c [? ?]; split; [by apply stable_conf_ok|done]).
  destruct (Local_Exchange_offline dns_Id parallel_conf (host_file (lw_net w))
    (resolv_file (lw_net w)) (racers (lw_net w) ++ [PCtx (ctx_err (lw_net w))]) message w
    Hst (fun c H => proj1 H) Hw Hrc (resolv_conf (lw_net w)))
    as (r & w' & Hr & Hw' & Hrc' & Hh & Hres).
  destruct r as [[r|why]|]; [|done|by exfalso; apply Hres; eexists _, _].
  exists r, w'. unfold system_transport. rewrite Hr. split; [done|]. split; [done|]. split.
  - split; [done|]. split; [done|]. intros host Hhost.
    destruct Hh as [Hh|(name & host0 & Hhost0 & Hh)]; rewrite Hh in Hhost; [by apply Hf|].
    injection Hhost as <-. apply update_file_of; [apply host_contents|by apply Hf].
  - destruct r as [[m|] [e|]]; [by destruct Hres|done|by eexists|].
    destruct (Hres eq_refl) as (q & qs & Hq' & Hs & _). rewrite Hq in Hq'. injection Hq' as <- _.
    exfalso. revert Hs. unfold single_path, current_conf.
    rewrite (proj2 (tryUpdate_ok parallel_conf _ _ Hrc (resolv_conf (lw_net w)))). simpl.
    by destruct Hty as [-> | ->].
Qed.

(** The addresses of a fixed response are among those it was made of. *)
Lemma fixed_answers id q addrs ttl a :
  Forall addr_wf addrs -> In a (DNSMessageToAddresses (FixedResponse id q addrs ttl)) ->
  exists b, In b addrs /\ type_family (q_Qtype q) b = true /\ a = Addr_withoutZone b.
Proof.
  intros Hwf. rewrite (proj1 (FixedResponse_addresses id q addrs ttl Hwf)).
  intros (b & <- & Hb)%in_map_iff. apply filter_In in Hb as [? ?]. by exists b.
Qed.

Lemma system_honest : honest system_ok system_answer transport.
Proof.
  intros message question Hq Hty w Hw.
  destruct (system_transport_total message question w Hw Hq Hty)
    as (r & w' & _ & Ht & Hw' & Hr).
  rewrite Ht. split; [|done]. cbn [fst]. destruct r as [[m|] e]; [|by destruct Hr as [e' ->]].
  destruct Hr as [-> (q & host & Hhd & Hhost & ->)]. rewrite Hq in Hhd. injection Hhd as <-.
  split; [done|]. intros _ a Ha. apply fixed_answers in Ha as (b & Hb & ? & ?).
  - exists b. split; [|done]. eapply Lookup_listed; [apply host_contents| |exact Hb].
    by apply Hw.
  - destruct Hw as (_ & _ & Hf). destruct (update_file_of contents (host_file (lw_net w)) host
      (host_contents _) (Hf _ Hhost)) as [He | (content & _ & He)];
      unfold File_Lookup; cbn [fst]; rewrite He.
    + by rewrite lookup_empty.
    + rewrite parse_hosts_lookup. apply content_addresses_wf.
Qed.

Lemma system_start_ok n : system_ok (MkLW system_rc system_local n).
Proof.
  split; [|split; [done|]].
  - split; [done|]. by intros s x [= ].
  - intros host [= <-]. by left.
Qed.

End system_lemmas.

(** ** Properties *)


(** C40: A panic of the system client.  A query of another type than A and
    AAAA goes through the names one after the other; when there is none,
    because the name is too long or under onion, the local transport returns
    neither a response nor an error, and the cache copies the nil message:
    [SystemClient.Exchange] panics, whatever the network. *)
Theorem system_exchange_panics {L W} `{DnsLib} `{SliceLib} `{ExLib} `{ThreadsLib} `{SetLib}
    `{!LruLib L} `{!Clock (local_world W)} `{!Flight (local_world W)}
    udp tcp dns_Id (host_file : W -> host_env) resolv_file racers ctx_err
    c message question (q : Z) (l l' : L) (w w1 : local_world W) :
  m_Question message = [question] ->
  q_Qtype question <> TypeA -> q_Qtype question <> TypeAAAA ->
  lru_Get question l = (None, l') ->
  sf_inflight (hashQuestion question) w = (None, w1) ->
  nameList (current_conf (resolv_file (lw_net w1)) w1) (FqdnToDomain (q_Name question)) = [] ->
  exists w', System_Exchange udp tcp dns_Id host_file resolv_file racers ctx_err c message
    (q, (l, w)) = (Panic "a nil message is copied", w').
Proof.
  intros Hq HA HAAAA Hget Hfl Hnames. apply Z.eqb_neq in HA, HAAAA.
  set (trans := system_transport udp tcp dns_Id host_file resolv_file racers ctx_err).
  assert ((trans message w1).1 = (None, None)) as Ht.
  { subst trans. unfold system_transport, Local_Exchange. rewrite Hq, HA, HAAAA. cbn [orb].
    rewrite ST_bind_run. unfold lookup_host. destruct (lt_host (lw_local w1)) as [host|]; cbn [fst snd];
      rewrite ST_bind_run; cbn [getSystemDNSConfig fst snd];
      rewrite orb_true_r; unfold exchangeSingleRequest;
      change (rc_conf (tryUpdate (resolv_file (lw_net w1)) (lw_rc w1)))
        with (current_conf (resolv_file (lw_net w1)) w1); by rewrite Hnames. }
  unfold System_Exchange, Exchange. fold trans. rewrite ExchangeTransport_run.
  unfold default_cache_ops. cbn [op_LoadOrStore]. unfold LoadOrStore, enableCache. rewrite Hq.
  cbn [length Nat.eqb negb]. rewrite ST_bind_run. unfold cache_lookup. rewrite Hget. cbn [fst snd].
  rewrite ST_bind_run, sf_Do_run, Hfl. cbn [fst snd]. unfold construct_and_store.
  rewrite ST_bind_run. cbn [lift_env].
  destruct (trans message w1) as [r w2]. cbn [fst] in Ht. subst r. by eexists.
Qed.

(** ** A system for the witnesses *)

Module SystemExample.

#[global] Instance clock : Clock (local_world nat) | 100 := fun w => (1%Z, w).
(** Another caller's question for "b." is in flight, and comes to an error. *)
#[global] Instance flight : Flight (local_world nat) | 100 := {
  hashQuestion := ClientExample.hash_name;
  sf_inflight key w := (if Z.eqb key 1 then Some (None, Some (EStd "timeout")) else None, w);
}.

#[global] Instance env_keeps (J : local_world nat -> Prop) : EnvKeeps J | 100.
Proof. by split. Qed.
#[global] Instance flight_b_honest J P : FlightHonest (local_world nat) J ClientExample.flying P | 100.
Proof.
  intros key e r _. simpl. destruct (Z.eqb_spec key 1) as [->|]; [|done]. intros [= <-].
  by exists ClientExample.question_b.
Qed.

(** The network panics when it is used. *)
Definition udp : Socksaddr -> Z -> Msg -> ST nat attempt := fun _ _ _ n => (ATransportDone, S n).
Definition tcp : Socksaddr -> Z -> Msg -> ST nat (exec (gores (option Msg))) :=
  fun _ _ _ n => (Panic "network", n).
Definition dns_Id : ST nat Z := fun n => (5%Z, n).

Definition contents (c : string) : Prop := c = HostsExample.content.
Definition host_file : nat -> host_env := fun _ => HostsExample.env.
Definition resolv_file : nat -> update_env := fun _ => LocalExample.uenv.
Definition racers : nat -> list parallel_event := fun _ => [PRacer 0].
Definition ctx_err : nat -> err := fun _ => EStd "context.Canceled".

Definition start : client_world CacheExample.table (local_world nat) := system_start 7 ∅ 0.

Lemma host_contents n content bad :
  he_Open (host_file n) = Some (content, bad) -> contents content.
Proof. by intros [= <- _]. Qed.

Lemma resolv_conf n : parallel_conf (ue_read (resolv_file n)).
Proof.
  split; [|done]. split; [|split; [done|vm_compute; discriminate]].
  repeat constructor; [exists "127.0.0.1", (Addr4 2130706433)|exists "::1", (Addr6 1 "")];
    (split; [by vm_compute|]); done.
Qed.

(** A query for the mail servers of a name under onion. *)
Definition question : Question := MkQuestion "example.onion." 15 ClassINET.
Definition message : Msg := MkMsg 7 false false false true false false 0 false [question] [] [] [].

End SystemExample.


Lemma system_exchange_panics_witness :
  exists w', System_Exchange SystemExample.udp SystemExample.tcp SystemExample.dns_Id
    SystemExample.host_file SystemExample.resolv_file SystemExample.racers SystemExample.ctx_err
    ClientExample.cache SystemExample.message SystemExample.start =
      (Panic "a nil message is copied", w').
Proof.
  apply (system_exchange_panics (L := CacheExample.table) SystemExample.udp SystemExample.tcp
    SystemExample.dns_Id SystemExample.host_file SystemExample.resolv_file SystemExample.racers
    SystemExample.ctx_err ClientExample.cache SystemExample.message SystemExample.question 7 ∅ ∅
    (MkLW system_rc system_local 0) (MkLW system_rc system_local 0));
    [reflexivity|discriminate|discriminate|reflexivity|reflexivity|vm_compute; reflexivity].
Defined.
