(* ===== verification/SystemRun.v ===== *)
(** * The system client, shared

    [SystemClient] of [resolve/system.go] under concurrent use: the lookups
    and exchanges of ClientRun on one cache, whose constructors are exchanges
    of ExchangeRun on one local transport.  A constructor of the cache starts
    an exchange, and returns what this exchange has returned; everything else
    goes on in between. *)

From S2P Require Import Prelude GoStd Copy Netip Meta Dns Addrs Resolve Cache CacheRun Client ClientRun Lines ResolvConf Hosts Tcp TcpRun Udp UdpTransport Local Parallel LocalRun LocalCalls ExchangeRun System.

(** ** State and steps *)

Section system_run.
Context {L : Type} `{DnsLib} `{SliceLib} `{!LruLib L} `{FlightGroup} `{ExLib} `{GroupLib} `{SetLib} `{DnsWire}.

(** The client with its cache, the local transport, and the exchange that
    runs for a call of the cache. *)
Record system_run_state := MkSR {
  sr_client : client_run_state (L := L);
  sr_local : exchange_state;
  sr_links : gmap nat nat;
}.

Variable c : defaultCache.

(** The steps of the client that are not those of its transport; the cache
    belongs to the client. *)
Definition own_client (ev : client_event) : bool :=
  match ev with
  | CkTransport _ _ => false
  | CkCache (CvLoad _ _) | CkCache (CvStore _) | CkCache (CvResult _ _) => false
  | _ => true
  end.

(** Whether a call of the cache is in its constructor. *)
Definition constructing (pc : cache_pc) : bool :=
  match pc with KConstruct _ | KDirect => true | _ => false end.

Inductive system_event :=
  | SvClient (ev : client_event)
  | SvLocal (ev : exchange_event)
  | SvCall (k : nat) (ev : host_env)   (* the constructor calls Exchange *)
  | SvReturn (k : nat).                (* and returns *)

Definition with_client (e : exec (client_run_state (L := L))) (s : system_run_state) : exec system_run_state :=
  match e with
  | Ret cl => Ret (MkSR cl (sr_local s) (sr_links s))
  | Panic why => Panic why
  end.

Definition with_local (e : exec exchange_state) (links : gmap nat nat) (s : system_run_state) :
    exec system_run_state :=
  match e with
  | Ret l => Ret (MkSR (sr_client s) l links)
  | Panic why => Panic why
  end.

Definition system_step (ev : system_event) (s : system_run_state) : option (exec system_run_state) :=
  match ev with
  | SvClient ev =>
      if own_client ev
      then e ← client_step (Some c) ev (sr_client s); Some (with_client e s)
      else None
  | SvLocal ev =>
      match ev with
      | XvExchange _ _ => None
      | _ => e ← exchange_step ev (sr_local s); Some (with_local e (sr_links s) s)
      end
  | SvCall k ev =>
      cl ← kr_calls (cl_cache (sr_client s)) !! k;
      match sr_links s !! k with
      | Some _ => None
      | None =>
          if constructing (cc_pc cl)
          then
            e ← exchange_step (XvExchange ev (cc_message cl)) (sr_local s);
            Some (with_local e (<[k := length (er_xs (sr_local s))]> (sr_links s)) s)
          else None
      end
  | SvReturn k =>
      x ← sr_links s !! k;
      lx ← er_xs (sr_local s) !! x;
      r ← lx_result lx;
      e ← client_step (Some c) (CkCache (CvResult k r)) (sr_client s);
      Some (with_client e s)
  end.

Definition system_run_start (dns_Id : Z) (l : L) : system_run_state :=
  MkSR (client_start dns_Id l) (exchange_start (Some NewFile)) ∅.

(** The states after a list of events, none of which panicked. *)
Inductive system_run (dns_Id : Z) : list system_event -> system_run_state -> Prop :=
  | system_run_nil n l : lru_NewSharded n = inl l -> system_run dns_Id [] (system_run_start dns_Id l)
  | system_run_snoc evs s ev s' :
      system_run dns_Id evs s -> system_step ev s = Some (Ret s') ->
      system_run dns_Id (evs ++ [ev]) s'.

End system_run.

(** ** Lemmas *)

(** *** Exchanges *)

Section exchanges.
Context `{SetLib} `{DnsLib} `{ExLib} `{DnsWire}.
Implicit Types (s : exchange_state).

(** An exchange keeps its message, the addresses of the hosts file, and its
    result. *)
Definition lx_le (lx lx' : lx_call) : Prop :=
  lx_message lx' = lx_message lx /\ lx_address lx' = lx_address lx /\
  forall r, lx_result lx = Some r -> lx_result lx' = Some r.

Lemma pl_step_out {N} (names : list N) try ev p p' r :
  pl_step names try ev p = Some p' -> pl_loop p = LOut r -> pl_loop p' = LOut r.
Proof.
  intros Hs Hp. destruct ev as [k|k|k|e| |]; cbn [pl_step] in Hs; rewrite ?Hp in Hs; try done;
    repeat (case_match; try done); by simplify_eq.
Qed.

(** What a step does to the exchanges: it makes one, or one of them goes on. *)
Inductive xs_move (ev : exchange_event) s s' : Prop :=
  | xs_new hev message
      (Hev : ev = XvExchange hev message)
      (Hx : er_xs s' = er_xs s ++ [(lx_start hev message (er_host s)).1])
      (Hh : er_host s' = (lx_start hev message (er_host s)).2)
  | xs_same (Hx : er_xs s' = er_xs s) (Hh : er_host s' = er_host s)
  | xs_step x f
      (Hx : er_xs s' = alter f x (er_xs s)) (Hh : er_host s' = er_host s)
      (Hf : forall lx, er_xs s !! x = Some lx -> lx_le lx (f lx)).

Lemma exchange_step_move ev s s' : exchange_step ev s = Some (Ret s') -> xs_move ev s s'.
Proof.
  destruct ev as [hev message|x|x ev|ev]; cbn [exchange_step].
  - destruct (lx_start hev message (er_host s)) as [lx f] eqn:E. intros [= <-].
    eapply xs_new; [done|by rewrite E|by rewrite E].
  - destruct (er_xs s !! x) as [lx|] eqn:Ex; [|done]. cbn [mbind option_bind].
    destruct (head (m_Question (lx_message lx))) as [question|]; [|done]. cbn [mbind option_bind].
    destruct (lx_at lx) as [|names call lastErr|calls p|r] eqn:Eat; try done.
    + unfold lx_begin. destruct (last _) as [config|]; [|done]. cbn [mbind option_bind].
      destruct (_ || _)%bool; intros [= <-]; (eapply xs_step; [reflexivity|done|]);
        intros lx0 Hlx0; rewrite Ex in Hlx0; injection Hlx0 as <-; (split_and!; [done..|]);
        intros r; unfold lx_result; by rewrite Eat.
    + unfold lx_next. destruct call as [n|].
      * destruct (call_result _ n) as [r|]; [|done]. intros [= <-]. eapply xs_step; [reflexivity|done|].
        intros lx0 Hlx0; rewrite Ex in Hlx0; injection Hlx0 as <-. split_and!; [done..|].
        intros r'. unfold lx_result. by rewrite Eat.
      * destruct names; intros [= <-]; (eapply xs_step; [reflexivity|done|]);
          intros lx0 Hlx0; rewrite Ex in Hlx0; injection Hlx0 as <-; (split_and!; [done..|]);
          intros r; unfold lx_result; by rewrite Eat.
  - destruct (er_xs s !! x) as [lx|] eqn:Ex; [|done]. cbn [mbind option_bind].
    destruct (lx_at lx) as [|names call lastErr|calls p|r] eqn:Eat; try done.
    unfold lx_race. destruct (match ev with EFinish _ => _ | _ => _ end); [|done]. cbn [mbind option_bind].
    destruct (pl_step _ _ _ _) as [p'|] eqn:Ep; [|done]. intros [= <-].
    eapply xs_step; [reflexivity|done|]. intros lx0 Hlx0; rewrite Ex in Hlx0; injection Hlx0 as <-.
    split_and!; [done..|]. intros r. unfold lx_result. cbn [set_at lx_at]. rewrite Eat.
    destruct (pl_loop p) eqn:El; try done. by rewrite (pl_step_out _ _ _ _ _ _ Ep El).
  - intros Hs. assert (er_xs s' = er_xs s /\ er_host s' = er_host s) as [Hx Hh].
    { destruct ev; try done; destruct (local_step _ _) as [[l|w]|]; try done; by injection Hs as <-. }
    by apply xs_same.
Qed.

Lemma exchange_step_le ev s s' x lx :
  exchange_step ev s = Some (Ret s') -> er_xs s !! x = Some lx ->
  exists lx', er_xs s' !! x = Some lx' /\ lx_le lx lx'.
Proof.
  intros Hs%exchange_step_move Hx. destruct Hs as [hev message _ -> _| -> _|y f -> _ Hf].
  - exists lx. split; [by apply lookup_app_l_Some|]. by split_and!.
  - exists lx. split; [done|]. by split_and!.
  - destruct (decide (x = y)) as [->|Hne].
    + rewrite list_lookup_alter_eq, Hx. eexists. split; [done|]. by apply Hf.
    + rewrite list_lookup_alter_ne by done. exists lx. split; [done|]. by split_and!.
Qed.

(** The hosts file has contents among these, and gave the exchanges addresses
    that they list. *)
Definition hosts_ok (contents : string -> Prop) s : Prop :=
  (forall f, er_host s = Some f -> file_of contents f) /\
  forall x lx question qs, er_xs s !! x = Some lx -> m_Question (lx_message lx) = question :: qs ->
    Forall addr_wf (lx_address lx) /\
    forall a, In a (lx_address lx) -> listed contents (FqdnToDomain (q_Name question)) a.

Definition contents_event (contents : string -> Prop) (ev : host_env) : Prop :=
  forall content bad, he_Open ev = Some (content, bad) -> contents content.

Lemma lx_start_hosts contents hev message host :
  contents_event contents hev -> (forall f, host = Some f -> file_of contents f) ->
  (forall f, (lx_start hev message host).2 = Some f -> file_of contents f) /\
  forall question qs, m_Question (lx_message (lx_start hev message host).1) = question :: qs ->
    Forall addr_wf (lx_address (lx_start hev message host).1) /\
    forall a, In a (lx_address (lx_start hev message host).1) ->
      listed contents (FqdnToDomain (q_Name question)) a.
Proof.
  intros Hev Hhost. unfold lx_start. destruct (m_Question message) as [|q qs'] eqn:Hq.
  { split; [exact Hhost|]. intros question qs. cbn [fst lx_message]. by rewrite Hq. }
  destruct host as [f|]; [destruct (asks_address q)|].
  - pose proof (update_file_of contents hev f Hev (Hhost f eq_refl)) as Hup.
    pose proof (fun a => Lookup_listed contents hev f (FqdnToDomain (q_Name q)) a Hev (Hhost f eq_refl)) as Hl.
    unfold File_Lookup in *. cbn [fst snd lx_address lx_message] in *. split; [by intros f' [= <-]|].
    intros question qs. rewrite Hq. intros [= <- _]. split; [|exact Hl].
    destruct Hup as [->|(content & _ & ->)]; [by rewrite lookup_empty|].
    rewrite parse_hosts_lookup. apply content_addresses_wf.
  - split; [exact Hhost|]. cbn [fst lx_address]. intros question qs _. split; [constructor|done].
  - split; [done|]. cbn [fst lx_address]. intros question qs _. split; [constructor|done].
Qed.

Lemma hosts_ok_step contents ev s s' :
  (forall hev message, ev = XvExchange hev message -> contents_event contents hev) ->
  hosts_ok contents s -> exchange_step ev s = Some (Ret s') -> hosts_ok contents s'.
Proof.
  intros Hev [Hh Hx] Hs%exchange_step_move. destruct Hs as [hev message -> Hx' Hh'|Hx' Hh'|y f Hx' Hh' Hf]; [|by split; rewrite ?Hx', ?Hh'|].
  - destruct (lx_start_hosts contents hev message (er_host s)) as [H1' H2']; [by eapply Hev|done|].
    split; [by rewrite Hh'|]. intros x lx question qs. rewrite Hx'.
    intros [Hlx|[_ [_ <-]%list_lookup_singleton_Some]]%lookup_app_Some; [exact (Hx _ _ _ _ Hlx)|apply H2'].
  - split; [by rewrite Hh'|]. intros x lx question qs. rewrite Hx'. destruct (decide (x = y)) as [->|Hne].
    + rewrite list_lookup_alter_eq. destruct (er_xs s !! y) as [lx0|] eqn:Ey; [|done]. intros [= <-].
      destruct (Hf _ eq_refl) as (-> & -> & _). exact (Hx _ _ _ _ Ey).
    + rewrite list_lookup_alter_ne by done. exact (Hx x lx question qs).
Qed.

End exchanges.

(** *** The client's calls *)

Section client.
Context {L : Type} `{DnsLaws} `{SliceLaws} `{LruLaws L} `{FlightGroupLaws} `{ExLaws} `{GroupLaws}.
Context (c : defaultCache) (dns_Id : Z).
Implicit Types (s : client_run_state (L := L)).

Lemma new_exchange_calls message s :
  kr_calls (cl_cache (new_exchange (Some c) message s)) =
  kr_calls (cl_cache s) ++ [MkCC message true (load_pc message true)].
Proof. done. Qed.

Lemma client_step_calls_keep ev s s' k cl :
  client_step (Some c) ev s = Some (Ret s') -> kr_calls (cl_cache s) !! k = Some cl ->
  exists cl', kr_calls (cl_cache s') !! k = Some cl' /\ cc_message cl' = cc_message cl.
Proof.
  destruct ev as [fqdn strategy|message|l t|l t|l|x|x r|ev]; intros Hs Hk.
  - injection Hs as <-. by exists cl.
  - injection Hs as <-. exists cl. split; [by apply (lookup_app_l_Some (kr_calls (cl_cache s)))|done].
  - apply id_step in Hs as (lk & typ & _ & _ & ->). exists cl. cbn [ClientRun.set_tpc cl_cache]. rewrite new_exchange_calls.
    split; [by apply lookup_app_l_Some|done].
  - apply task_step in Hs as (lk & typ & x & m & r & _ & _ & _ & ->). by exists cl.
  - apply end_step_lookup in Hs as (lk & rs & _ & _ & _ & ->). by exists cl.
  - pose proof (return_step (Some c) s x) as Hr. rewrite Hs in Hr. destruct Hr as (m & k' & cl' & o & _ & _ & _ & Hr).
    destruct (after_cache o); [|done]. injection Hr as ->. by exists cl.
  - apply transport_step in Hs as (m & _ & ->). by exists cl.
  - apply cache_step_client in Hs as (c' & k' & [= <-] & Hk' & ->).
    destruct (cache_step_call _ _ _ _ _ _ Hk' Hk) as (cl' & Hcl & Hm & _). by exists cl'.
Qed.

(** The message of a call is that of an exchange or of a lookup. *)
Lemma client_step_calls_new ev s s' k cl' :
  client_step (Some c) ev s = Some (Ret s') ->
  own_client ev = true \/ (exists k r, ev = CkCache (CvResult k r)) ->
  kr_calls (cl_cache s') !! k = Some cl' ->
  (exists cl, kr_calls (cl_cache s) !! k = Some cl /\ cc_message cl' = cc_message cl) \/
  ev = CkExchange (cc_message cl') \/
  exists l t lk typ id, cl_lookups s !! l = Some lk /\ lk_tasks lk !! t = Some (typ, TId) /\
    cc_message cl' = lookup_message id (dns_Fqdn (lk_fqdn lk)) typ.
Proof.
  intros Hs Hown Hk. destruct ev as [fqdn strategy|message|l t|l t|l|x|x r|ev].
  - injection Hs as <-. left. by exists cl'.
  - injection Hs as <-. change (kr_calls _) with (kr_calls (cl_cache s) ++ [MkCC message true (load_pc message true)]) in Hk.
    apply lookup_app_Some in Hk as [?|[_ [_ <-]%list_lookup_singleton_Some]]; [left; by exists cl'|by right; left].
  - apply id_step in Hs as (lk & typ & Hl & Ht & ->). cbn [ClientRun.set_tpc cl_cache] in Hk. rewrite new_exchange_calls in Hk.
    apply lookup_app_Some in Hk as [?|[_ [_ <-]%list_lookup_singleton_Some]]; [left; by exists cl'|right; right].
    by eexists l, t, lk, typ, _.
  - apply task_step in Hs as (lk & typ & x & m & r & _ & _ & _ & ->). left. by exists cl'.
  - apply end_step_lookup in Hs as (lk & rs & _ & _ & _ & ->). left. by exists cl'.
  - pose proof (return_step (Some c) s x) as Hr. rewrite Hs in Hr. destruct Hr as (m & k' & cl & o & _ & _ & _ & Hr).
    destruct (after_cache o); [|done]. injection Hr as ->. left. by exists cl'.
  - by destruct Hown as [|(? & ? & ?)].
  - apply cache_step_client in Hs as (c' & k' & [= <-] & Hk' & ->). left. cbn [cl_cache] in Hk.
    apply cache_step_move in Hk'. destruct Hk' as [Hc|new Hev Hc _|i cl0 pc Hi Hpc Hc _].
    + rewrite Hc in Hk. by exists cl'.
    + destruct ev; try done; by destruct Hown as [|(? & ? & ?)].
    + rewrite Hc, set_kpc_lookup in Hk. destruct (kr_calls (cl_cache s) !! k) as [cl|]; [|done]. exists cl.
      injection Hk as <-. split; [done|]. by destruct (decide (k = i)).
Qed.

(** A message for the addresses of one name. *)
Definition asks_one (message : Msg) : Prop :=
  exists question, m_Question message = [question] /\ asks_address question = true.

Lemma lookup_asks_one evs s l lk t typ id :
  client_run (Some c) dns_Id evs s -> cl_lookups s !! l = Some lk -> lk_tasks lk !! t = Some (typ, TId) ->
  asks_one (lookup_message id (dns_Fqdn (lk_fqdn lk)) typ).
Proof.
  intros Hr Hl Ht. pose proof (co_lookups _ _ _ (client_run_ok _ _ _ _ Hr) _ _ Hl) as Hlk.
  unfold lookup_ok in Hlk. destruct (is_root (lk_fqdn lk)) eqn:Hroot.
  { rewrite Hlk in Ht. unfold new_lookup in Ht. by rewrite Hroot in Ht. }
  destruct Hlk as (Hty & _ & _). apply (f_equal (.!! t)) in Hty. rewrite list_lookup_fmap, Ht in Hty.
  assert (In typ [TypeA; TypeAAAA]) as Hin.
  { symmetry in Hty. simpl in Hty. apply list_elem_of_lookup_2, list_elem_of_In in Hty.
    unfold strategy_types in Hty. repeat destruct (Z.eqb _ _); simpl in *; tauto. }
  eexists. split; [reflexivity|]. by destruct Hin as [<-|[<-|[]]].
Qed.
End client.

(** *** The whole *)

Section system.
Context {L : Type} `{DnsLaws} `{SliceLaws} `{LruLaws L} `{FlightGroupLaws} `{ExLaws} `{GroupLaws} `{SetLaws} `{DnsWire}.
Context (c : defaultCache) (dns_Id : Z).
Implicit Types (s : system_run_state (L := L)) (evs : list system_event).

(** Exchange [x] is for call [k] of the cache. *)
Definition exchange_for s (k x : nat) (lx : lx_call) : Prop :=
  er_xs (sr_local s) !! x = Some lx /\
  exists cl, kr_calls (cl_cache (sr_client s)) !! k = Some cl /\ lx_message lx = cc_message cl.

(** Exchange [x] of the local transport is what call [k] waits for, and it
    returned this. *)
Definition exchange_returned s (k : nat) (r : gores (option Msg)) : Prop :=
  exists x lx, exchange_for s k x lx /\ lx_result lx = Some r.

(** Where an event of the local transport is from. *)
Definition event_from evs (ev : exchange_event) : Prop :=
  match ev with
  | XvExchange hev _ => exists k, In (SvCall k hev) evs
  | _ => In (SvLocal ev) evs
  end.

(** The parts have taken the steps of runs of their own; what the transport
    of the client returns are results of exchanges for its calls. *)
Record parts evs (cevs : list client_event) (xevs : list exchange_event) s : Prop := {
  pt_client : client_run (Some c) dns_Id cevs (sr_client s);
  pt_local : exchange_run (Some NewFile) xevs (sr_local s);
  pt_own : forall ev, In ev cevs -> own_client ev = true \/
    exists k r, ev = CkCache (CvResult k r) /\ exchange_returned s k r;
  pt_links : forall k x, sr_links s !! k = Some x -> exists lx, exchange_for s k x lx;
  pt_made : forall x lx, er_xs (sr_local s) !! x = Some lx -> exists k, exchange_for s k x lx;
  pt_xevents : forall ev, In ev xevs -> event_from evs ev;
  pt_asks : forall k cl, kr_calls (cl_cache (sr_client s)) !! k = Some cl ->
    In (SvClient (CkExchange (cc_message cl))) evs \/ asks_one (cc_message cl);
}.

(** What later states keep. *)
Definition parts_le s s' : Prop :=
  (forall k cl, kr_calls (cl_cache (sr_client s)) !! k = Some cl ->
     exists cl', kr_calls (cl_cache (sr_client s')) !! k = Some cl' /\ cc_message cl' = cc_message cl) /\
  (forall x lx, er_xs (sr_local s) !! x = Some lx ->
     exists lx', er_xs (sr_local s') !! x = Some lx' /\ lx_le lx lx').

Lemma exchange_for_le s s' k x lx :
  parts_le s s' -> exchange_for s k x lx -> exists lx', exchange_for s' k x lx' /\ lx_le lx lx'.
Proof.
  intros [Hc Hx] [Hlx (cl & Hk & Hm)]. destruct (Hx _ _ Hlx) as (lx' & Hlx' & Hle). exists lx'. split; [|done].
  split; [done|]. destruct (Hc _ _ Hk) as (cl' & Hk' & Hm'). exists cl'. split; [done|].
  destruct Hle as (-> & _). congruence.
Qed.

Lemma exchange_returned_le s s' k r : parts_le s s' -> exchange_returned s k r -> exchange_returned s' k r.
Proof.
  intros Hle (x & lx & Hfor & Hr). destruct (exchange_for_le _ _ _ _ _ Hle Hfor) as (lx' & Hfor' & _ & _ & Hr').
  exists x, lx'. split; [done|]. by apply Hr'.
Qed.

Lemma event_from_later evs sev ev : event_from evs ev -> event_from (evs ++ [sev]) ev.
Proof.
  unfold event_from. destruct ev; [intros [k Hin]; exists k|intros Hin..]; apply in_app_iff; by left.
Qed.

(** A step of the client. *)
Lemma parts_client evs cevs xevs s ev sev cl' :
  parts evs cevs xevs s -> client_step (Some c) ev (sr_client s) = Some (Ret cl') ->
  own_client ev = true \/ (exists k r, ev = CkCache (CvResult k r) /\ exchange_returned s k r) ->
  (forall message, ev = CkExchange message -> sev = SvClient ev) ->
  parts (evs ++ [sev]) (cevs ++ [ev]) xevs (MkSR cl' (sr_local s) (sr_links s)).
Proof.
  intros Hp Hs Hev Hsev. set (s' := MkSR _ _ _).
  assert (parts_le s s') as Hle.
  { split; [intros k cl; by apply (client_step_calls_keep c ev)|].
    intros x lx Hx. exists lx. by split_and!. }
  assert (forall k x lx, exchange_for s k x lx -> exchange_for s' k x lx) as Hfor.
  { intros k x lx Hf. destruct (exchange_for_le _ _ _ _ _ Hle Hf) as (lx' & Hf' & _).
    destruct Hf as [Hx _], Hf' as [Hx' ?]. split; [exact Hx|]. cbn [s' sr_local] in Hx'.
    rewrite Hx in Hx'. by injection Hx' as ->. }
  split.
  - econstructor; [apply Hp|exact Hs].
  - apply Hp.
  - intros ev' [Hin|[<-|[]]]%in_app_iff; [destruct (pt_own _ _ _ _ Hp _ Hin) as [|(k & r & -> & Hr)]
      |destruct Hev as [|(k & r & -> & Hr)]]; try (by left); right; exists k, r; (split; [done|]);
      by eapply exchange_returned_le.
  - intros k x Hk. destruct (pt_links _ _ _ _ Hp _ _ Hk) as [lx ?]. eauto.
  - intros x lx Hx. destruct (pt_made _ _ _ _ Hp _ _ Hx) as [k ?]. eauto.
  - intros ev' Hin. by apply event_from_later, (pt_xevents _ _ _ _ Hp).
  - intros k cl Hk.
    destruct (client_step_calls_new c ev (sr_client s) cl' k cl Hs) as [(cl0 & Hk0 & Hm)|[Hex|(l & t & lk & typ & id & Hl & Ht & Hm)]]; [|done| | |].
    + destruct Hev as [|(k' & r & -> & _)]; [by left|right; by eexists _, _].
    + rewrite Hm. destruct (pt_asks _ _ _ _ Hp _ _ Hk0); [left; apply in_app_iff; by left|by right].
    + left. apply in_app_iff. right. left. rewrite <- Hex. by eapply Hsev.
    + right. rewrite Hm. eapply (lookup_asks_one c dns_Id); [apply Hp|exact Hl|exact Ht].
Qed.

(** A step of the local transport. *)
Lemma parts_local evs cevs xevs s ev sev l' links :
  parts evs cevs xevs s -> exchange_step ev (sr_local s) = Some (Ret l') ->
  let s' := MkSR (sr_client s) l' links in
  event_from [sev] ev ->
  (forall k x, links !! k = Some x -> sr_links s !! k = Some x \/ exists lx, exchange_for s' k x lx) ->
  (forall x lx, er_xs l' !! x = Some lx -> is_Some (er_xs (sr_local s) !! x) \/ exists k, exchange_for s' k x lx) ->
  parts (evs ++ [sev]) cevs (xevs ++ [ev]) s'.
Proof.
  intros Hp Hs s' Hsev Hlinks Hmade.
  assert (parts_le s s') as Hle.
  { split; [intros k cl Hk; by exists cl|]. intros x lx. by apply (exchange_step_le ev). }
  split.
  - apply Hp.
  - econstructor; [apply Hp|exact Hs].
  - intros ev' Hin. destruct (pt_own _ _ _ _ Hp _ Hin) as [|(k & r & -> & Hr)]; [by left|right].
    exists k, r. split; [done|]. by eapply exchange_returned_le.
  - intros k x Hk. destruct (Hlinks _ _ Hk) as [Hk'|]; [|done].
    destruct (pt_links _ _ _ _ Hp _ _ Hk') as [lx Hf]. destruct (exchange_for_le _ _ _ _ _ Hle Hf) as (lx' & ? & _). eauto.
  - intros x lx Hx. destruct (Hmade _ _ Hx) as [[lx0 Hx0]|]; [|done].
    destruct (pt_made _ _ _ _ Hp _ _ Hx0) as [k Hf]. destruct (exchange_for_le _ _ _ _ _ Hle Hf) as (lx' & [Hx' Hc] & _).
    exists k. rewrite Hx in Hx'. injection Hx' as <-. by split.
  - intros ev' [Hin|[<-|[]]]%in_app_iff.
    + by apply event_from_later, (pt_xevents _ _ _ _ Hp).
    + unfold event_from in *. destruct ev; [destruct Hsev as [k Hk]; exists k|..]; apply in_app_iff; by right.
  - intros k cl Hk. destruct (pt_asks _ _ _ _ Hp _ _ Hk); [left; apply in_app_iff; by left|by right].
Qed.

(** What a step of the local transport that is no new exchange leaves. *)
Lemma exchange_step_made ev s l' x lx :
  exchange_step ev (sr_local s) = Some (Ret l') -> (forall hev m, ev <> XvExchange hev m) ->
  er_xs l' !! x = Some lx -> is_Some (er_xs (sr_local s) !! x).
Proof.
  intros Hs%exchange_step_move Hne Hx. destruct Hs as [hev message -> _ _|Hx' _|y f Hx' _ _].
  - by destruct (Hne hev message).
  - rewrite Hx' in Hx. by eexists.
  - rewrite Hx' in Hx. destruct (decide (x = y)) as [->|].
    + rewrite list_lookup_alter_eq in Hx. by destruct (er_xs (sr_local s) !! y).
    + rewrite list_lookup_alter_ne in Hx by done. by eexists.
Qed.

Lemma system_run_parts evs s : system_run c dns_Id evs s -> exists cevs xevs, parts evs cevs xevs s.
Proof.
  induction 1 as [n l Hn|evs s ev s' _ (cevs & xevs & Hp) Hs].
  { exists [], []. split; try done; by econstructor. }
  destruct ev as [ev|ev|k ev|k]; cbn [system_step] in Hs.
  - destruct (own_client ev) eqn:Eown; [|done].
    destruct (client_step (Some c) ev (sr_client s)) as [[cl|why]|] eqn:E; [|done..]. injection Hs as <-.
    eexists _, _. eapply parts_client; [exact Hp|exact E|by left|done].
  - assert (forall hev m, ev <> XvExchange hev m) as Hne by (intros hev m ->; done).
    assert (exists l, exchange_step ev (sr_local s) = Some (Ret l) /\ s' = MkSR (sr_client s) l (sr_links s)) as (l & E & ->).
    { destruct ev; [done|..]; (destruct (exchange_step _ _) as [[l|why]|]; [|done..]); injection Hs as <-; by exists l. }
    eexists _, _. eapply parts_local; [exact Hp|exact E|destruct ev; [by destruct (Hne ev message)|by left..]|by left|].
    intros y lx Hy. left. by eapply exchange_step_made.
  - destruct (kr_calls (cl_cache (sr_client s)) !! k) as [cl|] eqn:Ek; [|done]. cbn [mbind option_bind] in Hs.
    destruct (sr_links s !! k) eqn:Elink; [done|]. destruct (constructing (cc_pc cl)); [|done].
    destruct (exchange_step (XvExchange ev (cc_message cl)) (sr_local s)) as [[l|why]|] eqn:E; [|done..].
    injection Hs as <-. pose proof (exchange_step_move _ _ _ E) as Hmove.
    assert (er_xs l = er_xs (sr_local s) ++ [(lx_start ev (cc_message cl) (er_host (sr_local s))).1]) as Hxs.
    { cbn [exchange_step] in E. destruct (lx_start ev (cc_message cl) (er_host (sr_local s))). by injection E as <-. }
    set (s' := MkSR _ _ _).
    assert (exists lx, exchange_for s' k (length (er_xs (sr_local s))) lx) as Hnew.
    { eexists. split; [cbn [s' sr_local]; rewrite Hxs; by apply list_lookup_middle|]. exists cl. split; [exact Ek|].
      unfold lx_start. destruct (m_Question (cc_message cl)); [done|].
      destruct (er_host (sr_local s)) as [f|]; [destruct (asks_address _); [destruct (File_Lookup _ _ _) as [[] ?]|]|]; done. }
    eexists _, _. eapply parts_local; [exact Hp|exact E|exists k; by left| |].
    + intros k' x. rewrite lookup_insert_Some. intros [[<- <-]|[_ ?]]; [by right|by left].
    + intros x lx. rewrite Hxs. intros [Hx|[Hge Hx]]%lookup_app_Some; [left; by eexists|right].
      apply list_lookup_singleton_Some in Hx as [Hx <-]. assert (x = length (er_xs (sr_local s))) as -> by lia.
      destruct Hnew as (lx & Hf). exists k. destruct Hf as [Hf1 Hf2]. split; [|].
      * change (er_xs l !! length (er_xs (sr_local s)) = Some (lx_start ev (cc_message cl) (er_host (sr_local s))).1).
        rewrite Hxs. by apply list_lookup_middle.
      * change (er_xs l !! length (er_xs (sr_local s)) = Some lx) in Hf1. rewrite Hxs in Hf1.
        rewrite list_lookup_middle in Hf1 by done. by injection Hf1 as <-.
  - destruct (sr_links s !! k) as [x|] eqn:Elink; [|done]. cbn [mbind option_bind] in Hs.
    destruct (er_xs (sr_local s) !! x) as [lx|] eqn:Ex; [|done]. cbn [mbind option_bind] in Hs.
    destruct (lx_result lx) as [r|] eqn:Er; [|done]. cbn [mbind option_bind] in Hs.
    destruct (client_step (Some c) (CkCache (CvResult k r)) (sr_client s)) as [[cl|why]|] eqn:E; [|done..].
    injection Hs as <-. eexists _, _. eapply parts_client; [exact Hp|exact E| |done].
    right. exists k, r. split; [done|]. destruct (pt_links _ _ _ _ Hp _ _ Elink) as [lx' Hf]. exists x, lx'.
    split; [done|]. destruct Hf as [Hf _]. congruence.
Qed.

(** *** With the servers of a file *)

Section hosts.
Context (contents : string -> Prop).

Lemma hosts_ok_run xevs x :
  exchange_run (Some NewFile) xevs x ->
  (forall hev m, In (XvExchange hev m) xevs -> contents_event contents hev) -> hosts_ok contents x.
Proof.
  induction 1 as [|xevs x ev x' _ IH Hs]; intros Hev.
  { split; [|done]. intros f [= <-]. by left. }
  eapply hosts_ok_step; [|apply IH|exact Hs].
  - intros hev m ->. eapply Hev, in_app_iff. right. by left.
  - intros hev m Hin. eapply Hev, in_app_iff. by left.
Qed.

(** What the run is given: the texts of the hosts file, configurations with
    servers without brackets and without the option of single requests, and
    exchanges of callers that ask one question, for addresses. *)
Record plain_run evs : Prop := {
  pr_contents : forall k hev, In (SvCall k hev) evs -> contents_event contents hev;
  pr_confs : forall config, In (SvLocal (XvLocal (EvConf config))) evs -> parallel_conf config;
  pr_asks : forall message, In (SvClient (CkExchange message)) evs -> asks_one message;
}.

Section run.
Context (evs : list system_event) (s : system_run_state (L := L)) (cevs : list client_event) (xevs : list exchange_event).
Hypothesis Hplain : plain_run evs.
Hypothesis Hp : parts evs cevs xevs s.

Lemma parts_confs config : In (XvLocal (EvConf config)) xevs -> parallel_conf config.
Proof.
  intros Hin. exact (pr_confs _ Hplain _ (pt_xevents _ _ _ _ Hp _ Hin)).
Qed.

Lemma parts_hosts : hosts_ok contents (sr_local s).
Proof.
  apply (hosts_ok_run xevs); [apply Hp|]. intros hev m Hin.
  destruct (pt_xevents _ _ _ _ Hp _ Hin) as [k Hk]. exact (pr_contents _ Hplain _ _ Hk).
Qed.

Lemma parts_offline : offline_ok (er_local (sr_local s)).
Proof.
  eapply exchange_offline; [apply Hp|]. intros config Hin. by apply (proj1 (parts_confs config Hin)).
Qed.

(** Every exchange is answered from the hosts file or fails. *)
Lemma parts_returned k r cl :
  exchange_returned s k r -> kr_calls (cl_cache (sr_client s)) !! k = Some cl ->
  honest_result (system_answer contents) (cc_message cl) r.
Proof.
  intros (x & lx & [Hx (cl' & Hk' & Hm)] & Hr) Hk. assert (cl' = cl) as -> by congruence.
  assert (asks_one (cc_message cl)) as (question & Hq & Hask).
  { destruct (pt_asks _ _ _ _ Hp _ _ Hk); [by apply (pr_asks _ Hplain)|done]. }
  rewrite <- Hm in *.
  destruct (offline_result (Some NewFile) xevs (sr_local s) x lx question [] r) as [(Hne & _ & ->)|[e ->]]; try done.
  - apply Hp.
  - intros config Hin. by apply (proj1 (parts_confs config Hin)).
  - intros config Hin. by apply (proj2 (parts_confs config Hin)).
  - split; [|by intros q Hq'; rewrite Hq in Hq'; injection Hq' as <-].
    intros q [= <-]. split; [done|]. intros _ a Ha.
    destruct (proj2 parts_hosts _ _ _ _ Hx Hq) as [Hwf Hlisted].
    apply fixed_answers in Ha as (b & Hb & ? & ?); [|done]. exists b. split; [by apply Hlisted|done].
Qed.

Lemma parts_honest ev : In ev cevs -> honest_event (system_answer contents) (sr_client s) ev.
Proof.
  intros Hin. destruct (pt_own _ _ _ _ Hp _ Hin) as [Hown|(k & r & -> & Hr)].
  - destruct ev as [| | | | | | |[]]; done.
  - intros cl Hk. by eapply parts_returned.
Qed.
End run.
End hosts.

(** A step does not panic when those of the parts do not. *)
Lemma system_step_safe s ev why :
  (forall ev why, client_step (Some c) ev (sr_client s) <> Some (Panic why)) ->
  offline_ok (er_local (sr_local s)) ->
  (forall config, ev = SvLocal (XvLocal (EvConf config)) -> conf_ok config) ->
  system_step c ev s <> Some (Panic why).
Proof.
  intros Hc Hoff Hev.
  assert (forall ev, (forall config, ev = XvLocal (EvConf config) -> conf_ok config) ->
    forall links why, (e ← exchange_step ev (sr_local s); Some (with_local e links s)) <> Some (Panic why)) as Hx.
  { intros xev Hxev links why'. pose proof (fun why => exchange_step_safe (sr_local s) xev why Hoff Hxev) as Hno.
    destruct (exchange_step xev (sr_local s)) as [[l|w]|]; [done|by destruct (Hno w)|done]. }
  assert (forall ev why, (e ← client_step (Some c) ev (sr_client s); Some (with_client e s)) <> Some (Panic why)) as Hcl.
  { intros cev why'. pose proof (Hc cev) as Hno.
    destruct (client_step (Some c) cev (sr_client s)) as [[l|w]|]; [done|by destruct (Hno w)|done]. }
  destruct ev as [ev|ev|k ev|k]; cbn [system_step].
  - destruct (own_client ev); [apply Hcl|done].
  - destruct ev as [hev m|x|x ev|ev]; [done|..]; apply Hx; intros config Heq; try done.
    apply Hev. by rewrite Heq.
  - destruct (kr_calls _ !! k) as [cl|]; [|done]. cbn [mbind option_bind]. destruct (sr_links s !! k); [done|].
    destruct (constructing _); [|done]. by apply (Hx (XvExchange ev (cc_message cl))).
  - destruct (sr_links s !! k) as [x|]; [|done]. cbn [mbind option_bind].
    destruct (er_xs (sr_local s) !! x) as [lx|]; [|done]. cbn [mbind option_bind].
    destruct (lx_result lx) as [r|]; [|done]. apply Hcl.
Qed.
End system.

(** ** Soundness *)

(** C2: Nothing but the hosts file, under concurrency.  Let the system client
    be used by many at once: lookups, exchanges of callers, the flights of the
    cache, the exchanges of the local transport, their racers and the calls
    these make interleave as they like.  Four conditions: the hosts file has
    one of the given contents whenever it is opened; the configurations that
    are read have servers without a bracket in their addresses, and not the
    option of single requests; each message that a caller gives to Exchange
    has one question, of type A or AAAA (others may panic:
    [system_exchange_panics]); and different questions have different hashes.
    Then no step panics, no transport is made, and each address of a lookup
    that has ended is one that some content of the hosts file lists for the
    name, of a family of the strategy, without its zone; with an error there
    is none. *)
Theorem system_run_hosts_only {L : Type} `{DnsLaws} `{SliceLaws} `{LruLaws L} `{FlightGroupLaws}
    `{ExLaws} `{GroupLaws} `{SetLaws} `{DnsWire} c dns_Id contents evs (s : system_run_state (L := L)) :
  system_run c dns_Id evs s -> plain_run contents evs -> hash_separates (sr_client s) ->
  (forall ev why, (forall config, ev = SvLocal (XvLocal (EvConf config)) -> conf_ok config) ->
     system_step c ev s <> Some (Panic why)) /\
  ls_store (er_local (sr_local s)) = [] /\
  forall l lk addrs err, cl_lookups (sr_client s) !! l = Some lk -> lk_result lk = Some (addrs, err) ->
    (is_Some err -> addrs = []) /\
    forall a, In a addrs -> exists typ b, In typ (strategy_types (lk_strategy lk)) /\
      listed contents (FqdnToDomain (dns_Fqdn (lk_fqdn lk))) b /\ type_family typ b = true /\
      a = Addr_withoutZone b.
Proof.
  intros (cevs & xevs & Hp)%system_run_parts Hplain Hhash.
  pose proof (client_run_ok _ _ _ _ (pt_client _ _ _ _ _ _ Hp)) as Hok.
  pose proof (parts_honest c dns_Id contents _ _ _ _ Hplain Hp) as Hhonest.
  pose proof (parts_offline c dns_Id contents _ _ _ _ Hplain Hp) as Hoff.
  split_and!.
  - intros ev why Hev. apply system_step_safe; [|done|done].
    intros ev'. exact (client_step_safe (Some c) (system_answer contents) cevs _ Hok Hhonest Hhash ev').
  - apply Hoff.
  - intros l lk addrs err Hl Hres.
    destruct (lookup_good (Some c) _ cevs _ Hok Hhonest Hhash l lk (addrs, err) Hl Hres) as [He Ha].
    split; [exact He|]. intros a Hin. destruct (Ha a Hin) as (typ & Hty & b & Hb & Hf & ->). by exists typ, b.
Qed.

(** ** Going on *)

Section progress.
Context {L : Type} `{DnsLaws} `{SliceLaws} `{LruLaws L} `{FlightGroupLaws} `{ExLaws} `{GroupLaws} `{SetLaws} `{DnsWire}.
Context (c : defaultCache) (dns_Id : Z).
Implicit Types (s : system_run_state (L := L)) (evs : list system_event).

Definition senabled s (ev : system_event) : Prop := is_Some (system_step c ev s).

(** The call of [tryOneName] that exchange [lx] waits for, or those of its
    racers. *)
Definition waits_for (lx : lx_call) (n : nat) : Prop :=
  match lx_at lx with
  | LxSingle _ (Some m) _ => n = m
  | LxParallel calls _ => n ∈ calls
  | _ => False
  end.

(** Exchange [x] goes on: its next step, or one of its racers; a call it
    waits for; the reading of a configuration; or only the end of its
    context, when it has no names. *)
Definition lx_goes s (x : nat) (lx : lx_call) : Prop :=
  senabled s (SvLocal (XvStep x)) \/
  (exists ev, (forall e, ev <> ECtxEnds e) /\ senabled s (SvLocal (XvRace x ev))) \/
  (exists n, waits_for lx n /\ call_under_way (er_local (sr_local s)) n) \/
  (lx_at lx = LxConf /\ forall config, senabled s (SvLocal (XvLocal (EvConf config)))) \/
  (exists p, lx_at lx = LxParallel [] p /\ forall e, senabled s (SvLocal (XvRace x (ECtxEnds e)))).

(** Call [k] of the cache goes on: in the cache; into its exchange, whatever
    the hosts file is; out of it; or the exchange does. *)
Definition call_goes s (k : nat) : Prop :=
  senabled s (SvClient (CkCache (CvStep k))) \/
  (forall now, senabled s (SvClient (CkCache (CvTime k now)))) \/
  (forall hev, senabled s (SvCall k hev)) \/ senabled s (SvReturn k) \/
  exists x lx, sr_links s !! k = Some x /\ er_xs (sr_local s) !! x = Some lx /\ lx_goes s x lx.

(** Exchange [x] of the client goes on, by itself, by its call of the cache,
    or by the call that leads the flight this one has joined. *)
Definition client_exchange_goes s (x : nat) : Prop :=
  senabled s (SvClient (CkReturn x)) \/
  exists m k, cl_exchanges (sr_client s) !! x = Some (MkEX m (XCache k)) /\
    (call_goes s k \/
     exists f fl cl, kr_calls (cl_cache (sr_client s)) !! k = Some cl /\ cc_pc cl = KWait f /\
       kr_flights (cl_cache (sr_client s)) !! f = Some fl /\ call_goes s (fl_leader fl)).

Lemma client_enabled s ev : own_client ev = true -> enabled (Some c) (sr_client s) ev -> senabled s (SvClient ev).
Proof. intros Hown [e He]. unfold senabled. cbn [system_step]. rewrite Hown, He. by eexists. Qed.

Lemma local_enabled s ev :
  (forall hev m, ev <> XvExchange hev m) -> xenabled (sr_local s) ev -> senabled s (SvLocal ev).
Proof.
  intros Hne [e He]. unfold senabled. cbn [system_step].
  destruct ev as [hev m| | |]; [by destruct (Hne hev m)|..]; rewrite He; by eexists.
Qed.

(** An exchange has returned or goes on. *)
Lemma exchange_returned_or_goes xevs s x lx :
  exchange_run (Some NewFile) xevs (sr_local s) -> er_xs (sr_local s) !! x = Some lx ->
  is_Some (lx_result lx) \/ lx_goes s x lx.
Proof.
  intros Hr Hx. pose proof (exchange_next_possible _ _ _ _ (exchange_run_ok _ _ _ Hr) Hx) as Hnext.
  unfold exchange_next in Hnext. unfold lx_goes, waits_for, lx_result in *.
  destruct (lx_at lx) as [|names [n|] lastErr|calls p|r] eqn:Eat.
  - destruct Hnext as [_|Hs]; right; [right; right; right; left|left; by apply local_enabled].
    split; [done|]. intros config. by apply local_enabled; [|eexists].
  - right. destruct Hnext as [Hs|Hn]; [left; by apply local_enabled|right; right; left; by exists n].
  - right. left. by apply local_enabled.
  - destruct Hnext as [[Hres _]|[(ev & Hne & Hs)|[(n & Hn & Hgo)|(-> & Hl & Hctx)]]]; [by left|right..].
    + right. left. exists ev. split; [done|]. by apply local_enabled.
    + right. right. left. by exists n.
    + right. right. right. right. exists p. split; [done|]. intros e. apply local_enabled; [done|].
      unfold xenabled. cbn [exchange_step]. rewrite Hx. cbn [mbind option_bind]. rewrite Eat.
      unfold lx_race. cbn [mbind option_bind pl_step]. rewrite Hctx. by eexists.
  - left. by eexists.
Qed.

Lemma constructing_call s k :
  (forall r, enabled (Some c) (sr_client s) (CkCache (CvResult k r))) -> exists cl,
    kr_calls (cl_cache (sr_client s)) !! k = Some cl /\ constructing (cc_pc cl) = true.
Proof.
  intros Hen. destruct (Hen (None, None)) as [e He]. cbn [client_step mbind option_bind cache_step] in He.
  destruct (kr_calls (cl_cache (sr_client s)) !! k) as [cl|]; [|done]. exists cl. split; [done|].
  cbn [mbind option_bind] in He. by destruct (cc_pc cl).
Qed.

Lemma cache_goes_on evs cevs xevs s k :
  parts c dns_Id evs cevs xevs s -> cache_goes (Some c) (sr_client s) k -> call_goes s k.
Proof.
  intros Hp. unfold call_goes. intros [Hs|[Hs|Hs]].
  - left. by apply client_enabled.
  - right. left. intros now. by apply client_enabled.
  - right. right. destruct (constructing_call s k Hs) as (cl & Hk & Hc).
    destruct (sr_links s !! k) as [x|] eqn:Elink.
    + right. destruct (pt_links _ _ _ _ _ _ Hp _ _ Elink) as (lx & Hx & _).
      destruct (exchange_returned_or_goes xevs s x lx) as [[r Hr]|Hgo]; [apply Hp|done| |].
      * left. unfold senabled. cbn [system_step]. rewrite Elink. cbn [mbind option_bind]. rewrite Hx.
        cbn [mbind option_bind]. rewrite Hr. cbn [mbind option_bind]. destruct (Hs r) as [e ->]. by eexists.
      * right. by exists x, lx.
    + left. intros hev. unfold senabled. cbn [system_step]. rewrite Hk. cbn [mbind option_bind].
      rewrite Elink, Hc. cbn [exchange_step]. destruct (lx_start _ _ _). by eexists.
Qed.

Lemma client_goes_on evs cevs xevs s x :
  parts c dns_Id evs cevs xevs s -> exchange_goes (Some c) (sr_client s) x -> client_exchange_goes s x.
Proof.
  intros Hp. unfold client_exchange_goes. intros [Hs|[Hs|(m & k & Hx & Hgo)]].
  - left. by apply client_enabled.
  - exfalso. destruct (Hs (None, None)) as [e He]. cbn [client_step] in He.
    destruct (cl_exchanges (sr_client s) !! x) as [[m pc]|] eqn:Ex; [|done]. cbn [mbind option_bind ex_pc] in He.
    destruct pc; try done.
    by pose proof (co_exchanges _ _ _ (client_run_ok _ _ _ _ (pt_client _ _ _ _ _ _ Hp)) _ _ Ex).
  - right. exists m, k. split; [done|]. destruct Hgo as [Hgo|(f & fl & cl & Hk & Hpc & Hf & _ & Hgo)].
    + left. by eapply cache_goes_on.
    + right. exists f, fl, cl. split_and!; try done. by eapply cache_goes_on.
Qed.

(** C9: No lookup of the system client is left behind.  In every state that
    concurrent use reaches, a lookup that has not ended can end, or one of
    its tasks can take its step, or the exchange the task waits for goes on:
    its call of the cache does, or the leader of the flight it has joined,
    into the local transport whatever the hosts file is, out of it with the
    result, or in it, where a step, a racer, a call to a server or the
    reading of a configuration can happen; only without any name to ask for
    it waits for its context. *)
Theorem system_run_progress evs s l lk :
  system_run c dns_Id evs s -> cl_lookups (sr_client s) !! l = Some lk -> lk_result lk = None ->
  senabled s (SvClient (CkEnd l)) \/
  exists t, senabled s (SvClient (CkId l t)) \/ senabled s (SvClient (CkTask l t)) \/
    exists typ x, lk_tasks lk !! t = Some (typ, TWait x) /\ client_exchange_goes s x.
Proof.
  intros (cevs & xevs & Hp)%system_run_parts Hl Hres.
  pose proof (client_run_ok _ _ _ _ (pt_client _ _ _ _ _ _ Hp)) as Hok.
  destruct (returned (lk_tasks lk)) as [rs|] eqn:Ers.
  - left. apply client_enabled; [done|]. unfold enabled. cbn [client_step]. rewrite Hl.
    cbn [mbind option_bind]. rewrite Hres, Ers. by eexists.
  - right. destruct (not_returned _ Ers) as (t & typ & pc & Ht & Hpc). exists t.
    destruct (task_goes_on _ _ _ _ _ _ _ _ Hok Hl Ht Hpc) as [Hs|[Hs|(lk' & typ' & x & Hl' & Ht' & Hgo)]].
    + left. by apply client_enabled.
    + right. left. by apply client_enabled.
    + right. right. rewrite Hl in Hl'. injection Hl' as <-. exists typ', x. split; [done|].
      by eapply client_goes_on.
Qed.
End progress.

(** ** A run for the witnesses *)

Module SystemRunExample.
Import DnsSimple ExTree GSet CacheExample.
#[local] Existing Instance LocalRunExample.id_wire | 0.

(** Questions hash to their types and the lengths of their names. *)
#[export] Instance by_question : FlightGroup | 10 := {
  fg_hash q := (q_Qtype q + 65536 * Z.of_nat (String.length (q_Name q)))%Z;
  fg_join fs key := fst <$> list_find (fun f => f = (key, true)) fs;
}.

#[export] Instance by_question_laws : @FlightGroupLaws by_question | 10.
Proof.
  split; [exact (fg_join_some (H := CacheRunExample.flight_group))
         |exact (fg_join_none (H := CacheRunExample.flight_group))].
Qed.

Definition cached (k : nat) : list system_event := [SvClient (CkCache (CvStep k))].

(** "localhost" is looked up in both families, while "h" is, whose one racer
    is not answered. *)
Definition asked_for : list system_event :=
  [SvClient (CkLookup "localhost" StrategyPreferIPv6); SvClient (CkLookup "h" StrategyIPv4Only);
   SvLocal (XvLocal (EvConf LocalExample.conf));
   SvClient (CkId 0 0); SvClient (CkId 1 0); SvClient (CkId 0 1)] ++
  cached 0 ++ cached 1 ++ cached 2 ++ cached 2 ++ cached 1 ++ cached 0 ++
  [SvCall 1 HostsExample.env; SvLocal (XvStep 0); SvCall 0 HostsExample.env].
Definition ended : list system_event :=
  asked_for ++
  [SvCall 2 HostsExample.env; SvReturn 2; SvReturn 0] ++
  ((fun ev => SvLocal (XvLocal ev)) <$> [EvStep 0; EvId 0 9; EvStep 0]) ++
  [SvClient (CkCache (CvTime 0 8)); SvLocal (XvRace 0 (EFinish 0)); SvLocal (XvRace 0 (EResult 0)); SvLocal (XvRace 0 EDefer); SvLocal (XvRace 0 EDefer);
   SvClient (CkCache (CvTime 2 8)); SvReturn 1]
  ++ cached 0 ++ cached 2 ++ cached 0 ++ cached 2 ++ cached 1 ++
  (SvClient <$> [CkReturn 0; CkReturn 1; CkReturn 2; CkTask 0 0; CkTask 1 0; CkTask 0 1; CkEnd 1; CkEnd 0]).

Definition start : system_run_state (L := table) := system_run_start 65534 ∅.

Fixpoint system_steps (evs : list system_event) (s : system_run_state (L := table)) :
    option system_run_state :=
  match evs with
  | [] => Some s
  | ev :: evs => match system_step cache ev s with Some (Ret s) => system_steps evs s | _ => None end
  end.
Definition after (evs : list system_event) : system_run_state (L := table) := default start (system_steps evs start).

Lemma system_steps_run evs s evs' s' :
  system_run cache 65534 evs s -> system_steps evs' s = Some s' -> system_run cache 65534 (evs ++ evs') s'.
Proof.
  revert evs s. induction evs' as [|ev evs' IH]; intros evs s Hr Hs; simpl in Hs.
  - injection Hs as <-. by rewrite app_nil_r.
  - destruct (system_step cache ev s) as [[s1|]|] eqn:E1; [|done|done].
    change (ev :: evs') with ([ev] ++ evs'). rewrite app_assoc. eapply IH; [|exact Hs]. by econstructor.
Qed.

Lemma system_after_run evs :
  (if system_steps evs start then true else false) = true -> system_run cache 65534 evs (after evs).
Proof.
  intros Hs. unfold after. destruct (system_steps evs start) as [s|] eqn:E; [|done].
  exact (system_steps_run [] _ evs s (system_run_nil cache 65534 0 ∅ eq_refl) E).
Qed.

Lemma asked_for_run : system_run cache 65534 asked_for (after asked_for).
Proof. apply system_after_run. vm_compute. reflexivity. Qed.

Lemma system_ended_run : system_run cache 65534 ended (after ended).
Proof. apply system_after_run. vm_compute. reflexivity. Qed.

Lemma ended_plain : plain_run SystemExample.contents ended.
Proof.
  split.
  - intros k hev Hin content bad Ho.
    assert (hev = HostsExample.env) as ->; [|by injection Ho as <- _].
    repeat (destruct Hin as [Hin|Hin]; [try discriminate Hin; by injection Hin as _ <-|]). destruct Hin.
  - intros config Hin. assert (config = LocalExample.conf) as ->.
    { repeat (destruct Hin as [Hin|Hin]; [try discriminate Hin; by injection Hin as <-|]). destruct Hin. }
    split; [exact ExchangeRunExample.conf_plain|done].
  - intros m Hin. repeat (destruct Hin as [Hin|Hin]; [discriminate Hin|]). destruct Hin.
Qed.

(** The questions of the run. *)
Lemma ended_question k cl q :
  kr_calls (cl_cache (sr_client (after ended))) !! k = Some cl -> m_Question (cc_message cl) = [q] ->
  q ∈ [MkQuestion "localhost." TypeA ClassINET; MkQuestion "h." TypeA ClassINET; MkQuestion "localhost." TypeAAAA ClassINET].
Proof.
  destruct k as [|[|[|k]]]; vm_compute; [| | |done]; intros [= <-] [= <-]; repeat constructor.
Qed.

Lemma ended_hashes : hash_separates (sr_client (after ended)).
Proof.
  intros k k' cl cl' q q' Hk Hk' Hq Hq'.
  pose proof (ended_question _ _ _ Hk Hq) as H1. pose proof (ended_question _ _ _ Hk' Hq') as H2.
  clear -H1 H2. rewrite !elem_of_cons in H1, H2.
  destruct H1 as [->|[->|[->|[]%elem_of_nil]]], H2 as [->|[->|[->|[]%elem_of_nil]]]; vm_compute; done.
Qed.

Lemma not_enabled evs ev :
  (if system_step cache ev (after evs) then true else false) = false -> senabled cache (after evs) ev -> False.
Proof. intros Hn [e He]. by rewrite He in Hn. Qed.

Definition results (s : system_run_state (L := table)) : list (option (list Addr)) :=
  (fun lk => fst <$> lk_result lk) <$> cl_lookups (sr_client s).

(** The lookup of "localhost". *)
Definition localhost : lookup_call :=
  default (MkLK "" StrategyDefault [] None) (cl_lookups (sr_client (after ended)) !! 0).

Lemma ended_first :
  cl_lookups (sr_client (after ended)) !! 0 = Some localhost /\
  lk_result localhost = Some ([Addr6 1 ""; Addr4 0x7f000001; Addr4 0x7f000001], None) /\
  dns_Fqdn (lk_fqdn localhost) = "localhost.".
Proof. split_and!; vm_compute; reflexivity. Qed.
End SystemRunExample.

Import DnsSimple ExTree GSet CacheExample SystemRunExample.
#[local] Existing Instance LocalRunExample.id_wire | 0.

Lemma system_run_hosts_only_witness :
  results (after ended) = [Some [Addr6 1 ""; Addr4 0x7f000001; Addr4 0x7f000001]; Some []] /\
  ls_store (er_local (sr_local (after ended))) = [] /\
  exists typ b, In typ (strategy_types (lk_strategy localhost)) /\
    listed SystemExample.contents (FqdnToDomain (dns_Fqdn (lk_fqdn localhost))) b /\
    type_family typ b = true /\ Addr6 1 "" = Addr_withoutZone b.
Proof.
  split; [vm_compute; reflexivity|]. destruct ended_first as (Hl & Hr & _).
  destruct (system_run_hosts_only cache 65534 SystemExample.contents ended (after ended)
    system_ended_run ended_plain ended_hashes) as (_ & Hs & Ha).
  split; [exact Hs|]. exact (proj2 (Ha 0 localhost _ _ Hl Hr) (Addr6 1 "") (or_introl eq_refl)).
Defined.

(** "h" waits for its exchange. *)
Lemma system_run_progress_witness :
  exists t, t < 1 /\ client_exchange_goes cache (after asked_for) 1.
Proof.
  destruct (system_run_progress cache 65534 asked_for (after asked_for) 1
    (MkLK "h" StrategyIPv4Only [(TypeA, TWait 1)] None) asked_for_run)
    as [Hend|([|t] & [Hgo|[Hgo|(typ & x & Ht & Hgo)]])];
    [vm_compute; reflexivity|reflexivity|..]; try solve [discriminate Ht];
    try solve [exfalso; refine (not_enabled asked_for _ _ ltac:(eassumption)); vm_compute; reflexivity].
  injection Ht as <- <-. exists 0. split; [exact Nat.lt_0_1|exact Hgo].
Defined.
